(* ===== verification/_CoqProject ===== *)
-Q . S2P
Prelude.v
GoBytes.v
GoStrings.v
GoFloat.v
GoParse.v
GoBase64.v
GoJson.v
Files.v
Keyshare.v
Topology.v
Transfer.v
Routing.v
PropStore.v
Retry.v
EvmDeposit.v
EvmMessage.v
EvmListener.v
EvmExecutor.v
EvmBridge.v
Abi.v
BtcTx.v
BtcExecutor.v
BtcListener.v
Substrate.v
Comm.v
Elector.v
Coordinator.v
Tss.v
Config.v
ChainConfig.v
Services.v
Telemetry.v
App.v
TssLoops.v
FrostTss.v
Session.v
TssRun.v
EndToEnd.v
BtcToEvm.v
SubPaths.v
Payments.v
ExampleApp.v
Cli.v
