(* ===== verification/Prelude.v ===== *)
(** * Verification of the Sygma relayer

    The relayer ([src/]) listens to bridge deposits on EVM, Bitcoin and Substrate
    chains, turns each into a message for its destination, the message into a
    proposal, and the proposals into transactions that a threshold of relayers
    sign together.  This library models that path, the coordination of the
    relayers and the start of the program, function by function, and proves what
    makes it correct.

    ** The parts of the program and where they are

    Data and libraries shared by all:
    - [Prelude]: outcomes of Go functions (value, error, panic), machine integers
      as [Z] with their wrap-around written out, a state-and-outcome monad,
      sequences of events, the automation ([go] hints, [invert_ok], [case_go]).
    - [GoBytes], [GoStrings], [GoFloat], [GoParse]: [math/big] and
      [encoding/binary] conversions, slices with a capacity (an append or a copy
      can write through an alias), binary64 floats, the [strconv], [strings],
      [fmt], [hex] and [time.ParseDuration] functions the code uses.
    - [GoBase64], [GoJson]: [encoding/base64] and [encoding/json], the parser, the
      printer and the decoding into Go types.  The messages, start parameters and
      documents of the program are encoded with them in the file that models their
      type, and what their readers need is proved, not assumed.
    - [Files]: files whose opening, writing and reading can fail.
    - [Transfer]: the records of [relayer/transfer] and [relayer/retry] and the
      message and proposal envelopes; [interface{}] fields as an inductive type.
    - [Routing]: grouping of messages by destination, shared by the listeners.

    From a deposit to a proposal:
    - [EvmListener]: [chains/util.go], [chains/evm/calls/events] and
      [chains/evm/listener/eventHandlers]: start block, log decoding, the deposit,
      retry, keygen and refresh handlers.
    - [EvmDeposit], [EvmMessage]: [chains/evm/listener/depositHandlers] and
      [chains/evm/executor/message-handler.go], the decoding of calldata and the
      encoding of proposals.
    - [BtcListener]: [chains/btc/listener] and [chains/btc/chain.go]: the block
      loop, the decoding of transactions, amounts as binary64 floats.
    - [Substrate]: [chains/substrate/listener], [chains/substrate/executor] and
      [chains/substrate/pallet].
    - [Retry]: [relayer/retry] and the retry message handlers of the chains.

    From a proposal to its execution:
    - [PropStore]: [store/propstore.go]; [PropStorer] is the interface the
      executors and the retry handlers are proved against, [KeyValueStore] the one
      the store itself needs.
    - [EvmExecutor], [EvmBridge]: [chains/evm/executor/executor.go], and
      [chains/proposal.go] with the calls of the bridge contract, which implement
      the [BridgeContract] interface of the executor.
    - [Abi]: [chains/evm/calls/consts], the interfaces of the contracts.
    - [BtcTx], [BtcExecutor]: [chains/btc/executor] and [chains/btc/mempool]: the
      assembly of a transaction, the selection of proposals under the executor's
      mutex, the signing sessions and the watcher.
    - [Services]: [chains/btc/uploader], the upload of the metadata of a Bitcoin
      transaction; [jobs], the health check of the peers.  [Telemetry]: [metrics],
      the gauges and what a collector reads of them.

    Between the relayers:
    - [Topology]: [topology], [comm/p2p/gater.go], [comm/p2p/host.go] and
      [cli/topology/encryptTopology.go]: who the relayers are, the published
      document, the connection gate and the peer store.
    - [Comm]: [comm] and [comm/p2p]: message types, subscription identifiers, the
      subscription and stream managers, framing, broadcast, and the network between two
      peers as steps of its senders, readers and hand overs.
    - [Elector]: [comm/elector] and [tss/util]: ranking of peers, static and bully
      election, the goroutines of a bully election.
    - [Coordinator]: [tss/coordinator.go] against the interface [TssProcess].
    - [Keyshare]: [keyshare], the files of the ECDSA and FROST key shares.
    - [Tss]: [tss/ecdsa] and [tss/frost]: readiness, start parameters and their
      validation, parties, the lock on the key share; its processes implement
      [TssProcess].
    - [TssLoops], [FrostTss]: the message loops of the ECDSA and FROST processes,
      the runs made of them, the results and the key shares they end with.
    - [Session]: the start messages of [tss/message] and a signing session across the
      relayers, coordinator and participants together, down to the bytes on their
      streams.
    - [TssRun]: what a run of a process sets up (parties, subscription, context,
      lock) and what [Stop] takes down, over the retries of a session.

    The program:
    - [Config], [ChainConfig]: [config] and the configurations of the chains.
    - [App]: [app/app.go] and [chains/btc/connection], which put all parts together;
      [ExampleApp]: [example/app/app.go], the relayer of the end to end tests.
    - [Cli]: [cli], the command line tools, and [health].
    - [Payments]: the executor of a Bitcoin domain, its running transactions and the
      retry handlers as one system of steps on the shared status store.
    - [EndToEnd]: the path of a deposit through listener, message handler and executor,
      for EVM and Bitcoin destinations; what sygma-core does between them, passing the
      messages of a domain to its handler and the proposals to its executor, is the
      class [CoreRelayer].  [BtcToEvm]: the same from a Bitcoin block to an EVM chain;
      [SubPaths]: between a substrate and an EVM chain, both ways.

    ** How code is modelled

    A function that can fail returns an [outcome]; a panic is kept apart from an
    error because handlers recover from it at a boundary of their own; where nothing
    recovers it, as in sygma-core's relayer, it ends the program.  Shared
    state (the proposal store, the executor's mutex with its [Lock] and [Unlock], the
    pending sessions, files, a byte slice that is read or written in place) is passed
    explicitly; an operation that waits for ever is [None].  Variables of a loop that its
    goroutines read later are read through a schedule ([EvmExecutor.schedule]), and
    theorems quantify over it.  A goroutine that loops over a [select] is a function of the list of
    events it receives, for every list, so that a theorem about it holds for every
    interleaving; concurrent calls that share a map are a step relation
    ([Coordinator.reach]), so are the goroutines of a bully election
    ([Elector.node_run]), the sends, reads and hand overs between two peers
    ([Comm.net_step]) and the parts that share the status store of a Bitcoin domain
    ([Payments.pay_step]), and the loops of a threshold process are steps of one
    state ([TssLoops.run_step], [FrostTss.frost_step]) driven by any list of events; a
    loop in a call that has not come back takes part in none.
    Callbacks that read variables through pointers are functions of a heap
    ([Telemetry]).
    A function whose result Go leaves open (an unstable sort, the iteration order of
    a map) is a relation, or the theorem quantifies over the order.

    Code outside [src/] is an argument: hash functions, ciphers, ABI coding, the JSON
    methods of third-party types (key shares, multiaddresses), the chain clients and
    contracts, libp2p, leveldb, viper, the threshold protocols, the retry library.  What
    a theorem needs of it is a class or a hypothesis (a peer's text form is ASCII and
    tells peers apart, tss-lib sorts parties by their keys, a typed data hash is encoded
    as EIP-712 says, a retry repeats at most as often as it is told), and the examples
    at the end of each file instantiate it.

    Recursion is structural with three exceptions.  The fuel of
    [Comm.ProcessMessagesFromStream] bounds the number of messages read;
    [messages_processed] holds for any fuel above the number of messages on the
    stream.  The fuel of [GoParse.duration_loop] is the length of the text, of which
    every round reads at least one character; [duration_loop_fuel] shows that more
    fuel does not change the result.  The same holds of the elements and members of a
    JSON document ([parse_fuel]); the depth of a document is bounded in the library
    itself.

    ** What is proved

    - A deposit reaches its destination unchanged: [erc20_deposit_to_proposal],
      [erc721_deposit_to_proposal], [permissionless_passthrough],
      [sub_deposit_to_proposal], [DecodeDepositEvent_correct],
      [btc_deposit_amount]; one bad deposit does not stop the others and each goes
      to its own domain: [evm_ProcessDeposits_routes],
      [btc_ProcessDeposits_isolated]; no block is skipped:
      [CalculateStartingBlock_aligned], [ListenToEvents_consecutive].  From the events
      of a range of blocks to what is signed and paid: [evm_to_evm], [evm_to_btc], [btc_to_evm],
      [substrate_to_evm], [evm_to_substrate].
    - Nothing is executed twice or forgotten: [PropStore_refines_PropStorer],
      [KEY_distinct], [FilterDeposits_correct], [retry_handlers_gated],
      [Execute_covers_unexecuted], [proposalBatches_gas],
      [proposalsForExecution_once], [proposalsForExecution_mutex], [no_double_payment],
      [btc_Execute_groups], [sub_Execute_signs_all].
    - What is signed and sent is what was proposed: [ProposalsHash_commits], [interfaces_agree],
      [rawTx_conserves], [rawTx_outputs_nonneg], [Utxos_agree],
      [watchExecution_sound], [btc_watchExecution_sound],
      [sub_watchExecution_once], [ipfs_Upload_result].
    - The relayers work together: [messages_delivered],
      [subscriptions_by_session], [SubscriptionID_roundtrip],
      [health_check_counts], [static_coordinator_agreement], [bully_election],
      [bully_Coordinator_result], [metrics_reported], [Execute_pending], [waitForStart_coordinator], [Execute_retry],
      [signing_initiate], [signing_session_agrees], [resharing_start], [keyshare_lock].
    - A threshold process runs to its result: [tss_messages_relayed],
      [signing_run_result], [monitor_detects_stuck], [frost_run_result],
      [frost_run_hangs], [frost_resharing_agrees], [key_share_after],
      [keyshare_stored]; what it leaves behind and whom it listens to when it is
      retried: [process_life], [retry_senders].
    - Only the relayers of the topology take part: [topology_published],
      [ProcessRawTopology_wf], [NewHost_peers], [Refresh_switches], [Run_started];
      the tools print what the relayers read: [encrypted_topology_tested],
      [peer_key_usable].
    - The program starts as configured: [env_mounted], [processRawConfig_wf],
      [domains_merged], [chain_configs_wf], [btc_resources_roundtrip],
      [evm_domain_wired], [domains_built], [example_domains_agree].

    Where the code falls short of what it means to do, the theorem says so: for
    instance a failed Bitcoin selection keeps the mutex, two calls of [Execute]
    can run one session, the batches of one message can get one session identifier from
    an EVM executor, sessions with a dash share one subscription, an ECDSA key
    generation that never starts unlocks a free lock, a signing waits for ever for
    somebody to take its result, a FROST signing for a loop that has ended, a failed write
    loses the old key share, an upload waits for ever for a silent server, a bully election never hears the peers it calls, a
    retried signing still knows a peer that was excluded, a deposit retried while its
    Bitcoin transaction is running, or after its status could not be written, is paid
    again.

    ** What is not modelled

    The registration of commands and flags with cobra and viper and the log texts are
    data for libraries; constructors that only fill a struct are part of the functions
    that use it; [tss/test] is test support.
    The mathematics of the threshold protocols, ciphers and hash functions is behind
    arguments.  Writes on a stream are one step, as those of messages that fit the buffer
    of the writer; of an HTTP request only its answer is modelled, not how much of its
    body was read.  Of [app/app.go], signal handling is left out, and the relayer loop that
    passes messages between domains is in a library. *)

From Stdlib Require Export ZArith Lia.
From stdpp Require Export base gmap list strings fin_maps sorting option.

#[export] Set Default Goal Selector "!".
#[global] Open Scope Z_scope.

(** ** Go outcomes

    A Go function of type [(T, error)] returns a value, returns an error, or
    panics (index out of range, failed type assertion without [ok], nil map
    write).  The relayer recovers from panics at the event-handler boundary, so
    the three outcomes are kept apart. *)

Inductive outcome (E A : Type) : Type :=
| Ok (a : A)
| Err (e : E)
| Panic.

Arguments Ok {E A} a.
Arguments Err {E A} e.
Arguments Panic {E A}.

(** Errors built with [errors.New] and [fmt.Errorf] carry their text. *)
Abbreviation error := string.
Abbreviation res A := (outcome string A).

#[export] Instance outcome_ret E : MRet (outcome E) := fun A a => Ok a.

#[export] Instance outcome_bind E : MBind (outcome E) :=
  fun A B f m => match m with Ok a => f a | Err e => Err e | Panic => Panic end.

#[export] Instance outcome_fmap E : FMap (outcome E) :=
  fun A B f m => match m with Ok a => Ok (f a) | Err e => Err e | Panic => Panic end.

#[export] Instance outcome_eq_dec E A `{EqDecision E} `{EqDecision A} :
  EqDecision (outcome E A).
Proof. solve_decision. Defined.

Definition is_ok {E A} (m : outcome E A) : bool :=
  match m with Ok _ => true | _ => false end.

(** A Go comma-ok assertion whose failure returns [e]. *)
Definition from_opt {E A} (e : E) (o : option A) : outcome E A :=
  match o with Some a => Ok a | None => Err e end.

(** An assertion or an index whose failure panics. *)
Definition or_panic {E A} (o : option A) : outcome E A :=
  match o with Some a => Ok a | None => Panic end.

Section outcome_lemmas.
Context {E : Type}.

Lemma outcome_bind_Ok {A B} (m : outcome E A) (f : A -> outcome E B) b :
  m ≫= f = Ok b <-> exists a, m = Ok a /\ f a = Ok b.
Proof. destruct m; simpl; naive_solver. Qed.

Lemma outcome_fmap_Ok {A B} (m : outcome E A) (f : A -> B) b :
  f <$> m = Ok b <-> exists a, m = Ok a /\ f a = b.
Proof. destruct m; simpl; naive_solver. Qed.

Lemma outcome_bind_assoc {A B C} (m : outcome E A) (f : A -> outcome E B)
    (g : B -> outcome E C) :
  (m ≫= f) ≫= g = m ≫= (fun a => f a ≫= g).
Proof. by destruct m. Qed.

Lemma outcome_bind_ret {A} (m : outcome E A) : m ≫= (fun a => Ok a) = m.
Proof. by destruct m. Qed.

Lemma from_opt_Ok {A} (e : E) (o : option A) a :
  from_opt e o = Ok a <-> o = Some a.
Proof. destruct o; simpl; naive_solver. Qed.

Lemma or_panic_Ok {A} (o : option A) a :
  or_panic (E:=E) o = Ok a <-> o = Some a.
Proof. destruct o; simpl; naive_solver. Qed.
End outcome_lemmas.

(** libp2p's [peer.ID] is a string. *)
Abbreviation PeerID := string.

(** ** State and outcome

    A call that reads and writes a store: the store survives an error and a
    recovered panic. *)

Definition gom (S A : Type) : Type := S -> res A * S.

#[export] Instance gom_ret S : MRet (gom S) := fun A a s => (Ok a, s).

#[export] Instance gom_bind S : MBind (gom S) :=
  fun A B f m s =>
    match m s with
    | (Ok a, s') => f a s'
    | (Err e, s') => (Err e, s')
    | (Panic, s') => (Panic, s')
    end.

Definition gom_fail {S A} (e : error) : gom S A := fun s => (Err e, s).
Definition gom_panic {S A} : gom S A := fun s => (Panic, s).
Definition gom_lift {S A} (m : res A) : gom S A := fun s => (m, s).
Definition gom_get {S} : gom S S := fun s => (Ok s, s).
Definition gom_put {S} (s : S) : gom S unit := fun _ => (Ok tt, s).

Lemma gom_bind_Ok {S A B} (m : gom S A) (f : A -> gom S B) s b s' :
  (m ≫= f) s = (Ok b, s') <-> exists a s1, m s = (Ok a, s1) /\ f a s1 = (Ok b, s').
Proof.
  unfold mbind, gom_bind. destruct (m s) as [[a|e|] s1]; split;
    try (intros; simplify_eq; fail); [by eauto|..]; intros (?&?&?&?); by simplify_eq.
Qed.

Lemma gom_lift_bind {S A B} (m : res A) (f : A -> gom S B) s :
  (gom_lift m ≫= f) s = match m with Ok a => f a s | Err e => (Err e, s) | Panic => (Panic, s) end.
Proof. by destruct m. Qed.

Lemma gom_lift_Ok {S A} (m : res A) (s s' : S) a :
  gom_lift m s = (Ok a, s') <-> m = Ok a /\ s' = s.
Proof. unfold gom_lift. naive_solver. Qed.

(** ** Machine integers

    Go integers are kept as [Z] with their width written out. *)

Definition u8_wrap (z : Z) : Z := z mod 2^8.
Definition u16_wrap (z : Z) : Z := z mod 2^16.
Definition u32_wrap (z : Z) : Z := z mod 2^32.
Definition u64_wrap (z : Z) : Z := z mod 2^64.
(** Conversion to [int64]: the low 64 bits read in two's complement. *)
Definition i64_wrap (z : Z) : Z := (z + 2^63) mod 2^64 - 2^63.

Definition is_u8 (z : Z) : Prop := 0 <= z < 2^8.
Definition is_u64 (z : Z) : Prop := 0 <= z < 2^64.
Definition is_i64 (z : Z) : Prop := - 2^63 <= z < 2^63.

Lemma u8_wrap_small z : is_u8 z -> u8_wrap z = z.
Proof. intros H; apply Z.mod_small, H. Qed.

Lemma u64_wrap_small z : is_u64 z -> u64_wrap z = z.
Proof. intros H; apply Z.mod_small, H. Qed.

Lemma u64_wrap_range z : is_u64 (u64_wrap z).
Proof. apply Z.mod_pos_bound; lia. Qed.

Lemma u8_wrap_range z : is_u8 (u8_wrap z).
Proof. apply Z.mod_pos_bound; lia. Qed.

Lemma i64_wrap_small z : is_i64 z -> i64_wrap z = z.
Proof. intros H; unfold i64_wrap, is_i64 in *; rewrite Z.mod_small; lia. Qed.

Lemma i64_wrap_range z : is_i64 (i64_wrap z).
Proof.
  unfold i64_wrap, is_i64.
  pose proof (Z.mod_pos_bound (z + 2^63) (2^64) ltac:(lia)); lia.
Qed.

Lemma u64_wrap_add_l a b : u64_wrap (u64_wrap a + b) = u64_wrap (a + b).
Proof. apply Z.add_mod_idemp_l; lia. Qed.

Lemma u64_wrap_add_r a b : u64_wrap (a + u64_wrap b) = u64_wrap (a + b).
Proof. apply Z.add_mod_idemp_r; lia. Qed.

(** ** Sums over lists *)

Definition sumZ {A} (f : A -> Z) (l : list A) : Z :=
  foldr (fun a s => f a + s) 0 l.
Arguments sumZ : simpl never.

Lemma sumZ_nil {A} (f : A -> Z) : sumZ f [] = 0.
Proof. done. Qed.

Lemma sumZ_cons {A} (f : A -> Z) a l : sumZ f (a :: l) = f a + sumZ f l.
Proof. done. Qed.

Lemma sumZ_app {A} (f : A -> Z) l k : sumZ f (l ++ k) = sumZ f l + sumZ f k.
Proof. induction l as [|a l IH]; simpl; [done|]. rewrite !sumZ_cons, IH; lia. Qed.

Lemma sumZ_nonneg {A} (f : A -> Z) l :
  Forall (fun a => 0 <= f a) l -> 0 <= sumZ f l.
Proof. induction 1; rewrite ?sumZ_nil, ?sumZ_cons; lia. Qed.

Lemma sumZ_perm {A} (f : A -> Z) l k : l ≡ₚ k -> sumZ f l = sumZ f k.
Proof. induction 1; rewrite ?sumZ_cons; lia. Qed.

Lemma sumZ_fmap {A B} (f : B -> Z) (g : A -> B) l : sumZ f (g <$> l) = sumZ (fun a => f (g a)) l.
Proof. induction l as [|a l IH]; [done|]. rewrite fmap_cons, !sumZ_cons, IH. done. Qed.

Lemma sumZ_fmap_id {A} (f : A -> Z) l : sumZ f l = sumZ id (f <$> l).
Proof. by rewrite sumZ_fmap. Qed.

(** Elements of a list with distinct keys are told apart by their key. *)
Lemma NoDup_fmap_key {A B} (f : A -> B) l a b :
  NoDup (f <$> l) -> a ∈ l -> b ∈ l -> f a = f b -> a = b.
Proof.
  intros Hnd. induction l as [|x l IH]; [by intros ?%not_elem_of_nil|].
  rewrite fmap_cons in Hnd. apply list.NoDup_cons in Hnd as [Hx Hnd].
  rewrite !elem_of_cons. intros [->|Ha] [->|Hb] E; [done| | |by apply IH].
  - destruct Hx. rewrite E. by apply list_elem_of_fmap_2.
  - destruct Hx. rewrite <- E. by apply list_elem_of_fmap_2.
Qed.

(** Filtering by a test of the image of a function. *)
Lemma filter_fmap_test {A B} (f : A -> B) (test : B -> bool) (l : list A) :
  f <$> filter (fun a => test (f a) = true) l = filter (fun b => test b = true) (f <$> l).
Proof.
  induction l as [|a l IH]; [done|]. rewrite fmap_cons, !filter_cons.
  destruct (test (f a)) eqn:E; repeat case_decide; try congruence; rewrite ?fmap_cons; by rewrite IH.
Qed.

(** ** Transition sequences *)

Section sequences.
Context {S : Type} (step : S -> S -> Prop).

(** Every invariant of [step] holds in every state [rtc]-reachable from a
    state in which it holds. *)
Lemma rtc_invariant (I : S -> Prop) s s' :
  (forall a b, I a -> step a b -> I b) -> I s -> rtc step s s' -> I s'.
Proof. intros Hstep HI Hrtc; induction Hrtc; eauto. Qed.
End sequences.

(** Folding a deterministic step function over a list of events. *)
Definition run_events {S Ev : Type} (step : S -> Ev -> S) (s : S) (l : list Ev) : S :=
  fold_left step l s.

Lemma run_events_app {S Ev} (step : S -> Ev -> S) s l k :
  run_events step s (l ++ k) = run_events step (run_events step s l) k.
Proof. apply fold_left_app. Qed.

Lemma run_events_invariant {S Ev} (step : S -> Ev -> S) (I : S -> Prop) l s :
  (forall s e, I s -> I (step s e)) -> I s -> I (run_events step s l).
Proof. intros Hstep; revert s; induction l; simpl; eauto. Qed.

(** ** Automation *)

Create HintDb go.
Create Rewrite HintDb go_rw.
#[export] Hint Resolve u64_wrap_range u8_wrap_range i64_wrap_range : go.
#[export] Hint Rewrite @sumZ_nil @sumZ_cons @sumZ_app : go_rw.

(** Unfold an equation [m = Ok b] over binds into the outcomes of its steps. *)
Ltac invert_ok :=
  repeat match goal with
  | H : Ok _ = Ok _ |- _ => injection H as H
  | H : Err _ = Ok _ |- _ => discriminate H
  | H : Panic = Ok _ |- _ => discriminate H
  | H : (_ ≫= _) = Ok _ |- _ => apply outcome_bind_Ok in H as (? & ? & H)
  | H : (_ <$> _) = Ok _ |- _ => apply outcome_fmap_Ok in H as (? & ? & H)
  | H : from_opt _ _ = Ok _ |- _ => apply from_opt_Ok in H
  | H : or_panic _ = Ok _ |- _ => apply or_panic_Ok in H
  end.

(** Case on the scrutinee of a match in the goal or a hypothesis. *)
Ltac case_go :=
  repeat (case_match; simplify_eq/=; try done).
