(* ===== verification/GoBytes.v ===== *)
(** * Bytes, big-endian integers and slices

    What the relayer uses of Go's [[]byte], [math/big] ([SetBytes], [Bytes]) and
    slice expressions, and the byte helper it takes from go-ethereum's [common]
    package ([LeftPadBytes]), which is an interface here. *)

From S2P Require Import Prelude.
From Stdlib Require Import NArith.
From Stdlib.Strings Require Byte.

Abbreviation byte := Byte.byte.
Abbreviation bytes := (list Byte.byte).

#[export] Instance byte_eq_dec : EqDecision byte := Byte.byte_eq_dec.

#[export] Program Instance byte_countable : Countable byte :=
  inj_countable Byte.to_N Byte.of_N _.
Next Obligation. intros b. apply Byte.of_to_N. Qed.

(** ** Bytes as numbers *)

Definition bval (b : byte) : Z := Z.of_N (Byte.to_N b).

(** Conversion [byte(z)]: the low eight bits. *)
Definition byte_of (z : Z) : byte :=
  default Byte.x00 (Byte.of_N (Z.to_N (z mod 256))).

Lemma bval_range b : 0 <= bval b < 256.
Proof. unfold bval. pose proof (Byte.to_N_bounded b). lia. Qed.

Lemma byte_of_bval b : byte_of (bval b) = b.
Proof.
  unfold byte_of. rewrite Z.mod_small by apply bval_range.
  unfold bval. by rewrite N2Z.id, Byte.of_to_N.
Qed.

Lemma bval_byte_of z : bval (byte_of z) = z mod 256.
Proof.
  unfold byte_of, bval. pose proof (Z.mod_pos_bound z 256 ltac:(lia)).
  destruct (Byte.of_N (Z.to_N (z mod 256))) as [b|] eqn:E; simpl.
  - apply Byte.to_of_N in E. rewrite E. lia.
  - apply Byte.of_N_None_iff in E. lia.
Qed.

Lemma bval_inj b c : bval b = bval c -> b = c.
Proof. intros H. by rewrite <- (byte_of_bval b), H, byte_of_bval. Qed.

(** ** Big-endian integers *)

(** [new(big.Int).SetBytes(l)] *)
Definition be_val (l : bytes) : Z := fold_left (fun acc b => acc * 256 + bval b) l 0.

(** The [n] low-order bytes of [z], most significant first. *)
Fixpoint be_fixed (n : nat) (z : Z) : bytes :=
  match n with
  | O => []
  | S m => be_fixed m (z / 256) ++ [byte_of z]
  end.

(** Number of bytes of the absolute value of a [big.Int] without leading zeros. *)
Definition byte_len (z : Z) : nat :=
  if 0 <? z then S (Z.to_nat (Z.log2 z / 8)) else O.

(** [x.Bytes()]: the absolute value, big-endian, no leading zeros. *)
Definition big_bytes (z : Z) : bytes := be_fixed (byte_len (Z.abs z)) (Z.abs z).

Lemma be_val_snoc l b : be_val (l ++ [b]) = be_val l * 256 + bval b.
Proof. unfold be_val. by rewrite fold_left_app. Qed.

Lemma be_val_nil : be_val [] = 0.
Proof. done. Qed.

Lemma length_be_fixed n z : length (be_fixed n z) = n.
Proof.
  revert z; induction n as [|n IH]; intros z; simpl; [done|].
  rewrite length_app, IH. simpl. lia.
Qed.

Lemma be_val_range l : 0 <= be_val l < 256 ^ Z.of_nat (length l).
Proof.
  induction l as [|b l IH] using rev_ind; [by vm_compute|].
  rewrite be_val_snoc, length_app. simpl length.
  replace (Z.of_nat (length l + 1)) with (Z.succ (Z.of_nat (length l))) by lia.
  rewrite Z.pow_succ_r by lia. pose proof (bval_range b).
  set (P := 256 ^ Z.of_nat (length l)) in *. lia.
Qed.

Lemma be_val_fixed n z : be_val (be_fixed n z) = z mod 256 ^ Z.of_nat n.
Proof.
  revert z; induction n as [|n IH]; intros z; cbn [be_fixed].
  - by rewrite Z.mod_1_r.
  - rewrite be_val_snoc, IH, bval_byte_of.
    replace (Z.of_nat (S n)) with (Z.succ (Z.of_nat n)) by lia.
    rewrite Z.pow_succ_r by lia.
    rewrite Z.rem_mul_r; lia.
Qed.

Lemma be_fixed_val l : be_fixed (length l) (be_val l) = l.
Proof.
  induction l as [|b l IH] using rev_ind; [done|].
  rewrite length_app, Nat.add_comm. simpl.
  rewrite be_val_snoc. pose proof (bval_range b).
  replace ((be_val l * 256 + bval b) / 256) with (be_val l)
    by (apply (Z.div_unique_pos _ _ _ (bval b)); lia).
  rewrite IH. f_equal. f_equal. apply bval_inj. rewrite bval_byte_of.
  rewrite Z.add_comm, Z.mod_add by lia. by apply Z.mod_small.
Qed.

(** Two byte strings of the same length with the same value are equal. *)
Lemma be_val_inj l k : length l = length k -> be_val l = be_val k -> l = k.
Proof. intros Hl Hv. by rewrite <- (be_fixed_val l), Hl, Hv, be_fixed_val. Qed.

(** So are two byte strings without zero bytes. *)
Lemma be_val_nonzero_inj l k :
  Byte.x00 ∉ l -> Byte.x00 ∉ k -> be_val l = be_val k -> l = k.
Proof.
  assert (forall b, b <> Byte.x00 -> 0 < bval b) as Hpos.
  { intros b Hb. pose proof (bval_range b). destruct (decide (bval b = 0)) as [E|]; [|lia].
    destruct Hb. by apply bval_inj. }
  revert k. induction l as [|b l IH] using rev_ind; intros k Hl Hk E.
  - destruct k as [|c k _] using rev_ind; [done|]. rewrite be_val_snoc in E.
    pose proof (be_val_range k). pose proof (Hpos c ltac:(set_solver)). unfold be_val at 1 in E. simpl in E. lia.
  - pose proof (be_val_range l). pose proof (bval_range b). rewrite be_val_snoc in E.
    destruct k as [|c k _] using rev_ind.
    { pose proof (Hpos b ltac:(set_solver)). unfold be_val at 2 in E. simpl in E. lia. }
    rewrite be_val_snoc in E. pose proof (bval_range c).
    assert (bval b = bval c) as Eb by lia. apply bval_inj in Eb as ->.
    f_equal. apply IH; [set_solver..|lia].
Qed.

Lemma byte_len_bound z n :
  0 <= z < 256 ^ Z.of_nat n -> (byte_len z <= n)%nat.
Proof.
  intros [H0 H]. unfold byte_len. destruct (0 <? z) eqn:E; [|lia].
  apply Z.ltb_lt in E.
  assert (Z.log2 z < 8 * Z.of_nat n).
  { apply Z.log2_lt_pow2; [lia|]. rewrite Z.pow_mul_r by lia. done. }
  assert (Z.log2 z / 8 < Z.of_nat n) by (apply Z.div_lt_upper_bound; lia).
  pose proof (Z.log2_nonneg z). pose proof (Z.div_pos (Z.log2 z) 8). lia.
Qed.

Lemma byte_len_covers z : 0 <= z -> z < 256 ^ Z.of_nat (byte_len z).
Proof.
  intros H0. unfold byte_len. destruct (0 <? z) eqn:E; [|apply Z.ltb_ge in E; simpl; lia].
  apply Z.ltb_lt in E. pose proof (Z.log2_nonneg z).
  change 256 with (2 ^ 8). rewrite <- Z.pow_mul_r by lia.
  apply Z.log2_lt_pow2; [done|].
  pose proof (Z.mul_succ_div_gt (Z.log2 z) 8 ltac:(lia)).
  pose proof (Z.div_pos (Z.log2 z) 8). lia.
Qed.

(** [new(big.Int).SetBytes(x.Bytes())] is [x] for non-negative [x]. *)
Lemma be_val_big_bytes z : 0 <= z -> be_val (big_bytes z) = z.
Proof.
  intros H. unfold big_bytes. rewrite Z.abs_eq by done.
  rewrite be_val_fixed. apply Z.mod_small. split; [done|by apply byte_len_covers].
Qed.

Lemma length_big_bytes z n :
  0 <= z < 256 ^ Z.of_nat n -> (length (big_bytes z) <= n)%nat.
Proof.
  intros H. unfold big_bytes. rewrite length_be_fixed, Z.abs_eq by lia.
  by apply byte_len_bound.
Qed.

(** [binary.BigEndian.Uint64(l)] panics on fewer than eight bytes. *)
Definition be_uint64 (l : bytes) : option Z :=
  if (8 <=? length l)%nat then Some (be_val (take 8 l)) else None.

(** ** go-ethereum's [common.LeftPadBytes]

    The package is not part of the repository; the relayer relies on its
    documentation: zero-pads [slice] to the left up to length [l]. *)
Class LeftPad := LeftPadBytes : bytes -> nat -> bytes.

Class LeftPadSpec `{LeftPad} : Prop :=
  LeftPadBytes_spec : forall l n,
    LeftPadBytes l n = replicate (n - length l) Byte.x00 ++ l.

Definition left_pad_ref (l : bytes) (n : nat) : bytes :=
  replicate (n - length l) Byte.x00 ++ l.

(** A concrete padding function, for evaluating the model. *)
Module LeftPadRef.
#[export] Instance left_pad_ref_inst : LeftPad := left_pad_ref.
#[export] Instance left_pad_ref_spec : LeftPadSpec.
Proof. by intros l n. Qed.
End LeftPadRef.

Section left_pad.
Context `{LeftPadSpec}.

Lemma length_LeftPadBytes l n :
  length (LeftPadBytes l n) = Nat.max n (length l).
Proof. rewrite LeftPadBytes_spec, length_app, length_replicate. lia. Qed.

Lemma LeftPadBytes_long l n : (n <= length l)%nat -> LeftPadBytes l n = l.
Proof. intros Hn. rewrite LeftPadBytes_spec. by replace (n - length l)%nat with O by lia. Qed.

Lemma be_val_zeros k l : be_val (replicate k Byte.x00 ++ l) = be_val l.
Proof.
  induction l as [|b l IH] using rev_ind.
  - rewrite app_nil_r. induction k as [|k IH]; [done|].
    rewrite replicate_S_end, be_val_snoc, IH. done.
  - by rewrite app_assoc, !be_val_snoc, IH.
Qed.

Lemma be_val_LeftPadBytes l n : be_val (LeftPadBytes l n) = be_val l.
Proof. by rewrite LeftPadBytes_spec, be_val_zeros. Qed.

(** Padding the minimal encoding gives the fixed-width encoding. *)
Lemma LeftPadBytes_big_bytes z n :
  0 <= z < 256 ^ Z.of_nat n -> LeftPadBytes (big_bytes z) n = be_fixed n z.
Proof.
  intros Hz. apply be_val_inj.
  - rewrite length_LeftPadBytes, length_be_fixed.
    pose proof (length_big_bytes z n Hz). lia.
  - by rewrite be_val_LeftPadBytes, be_val_big_bytes, be_val_fixed, Z.mod_small by lia.
Qed.
End left_pad.

(** ** Slices

    A Go slice is a window on a backing array: [s[lo:hi]] is checked against the
    capacity, not the length, so the bytes after the window are kept too. *)
Record gslice := GSlice { gs_data : bytes; gs_spare : bytes }.

#[export] Instance gslice_eq_dec : EqDecision gslice.
Proof. solve_decision. Defined.

Definition gs_len (s : gslice) : Z := Z.of_nat (length (gs_data s)).
Definition gs_back (s : gslice) : bytes := gs_data s ++ gs_spare s.
Definition gs_cap (s : gslice) : Z := Z.of_nat (length (gs_back s)).

(** A slice with no spare capacity. *)
Definition gs_of (l : bytes) : gslice := GSlice l [].

Definition sub_list (l : bytes) (lo hi : Z) : bytes :=
  take (Z.to_nat (hi - lo)) (drop (Z.to_nat lo) l).

(** [s[lo:hi]] *)
Definition gs_slice {E} (s : gslice) (lo hi : Z) : outcome E bytes :=
  if (0 <=? lo) && (lo <=? hi) && (hi <=? gs_cap s)
  then Ok (sub_list (gs_back s) lo hi) else Panic.

(** [s[lo:]] *)
Definition gs_from {E} (s : gslice) (lo : Z) : outcome E bytes := gs_slice s lo (gs_len s).

(** [copy(s[lo:hi], src)]: overwrites [min (hi - lo) (len src)] bytes of the
    backing array. *)
Definition gs_copy {E} (s : gslice) (lo hi : Z) (src : bytes) : outcome E gslice :=
  if (0 <=? lo) && (lo <=? hi) && (hi <=? gs_cap s)
  then
    let src' := take (Z.to_nat (hi - lo)) src in
    let back := take (Z.to_nat lo) (gs_back s) ++ src'
                  ++ drop (Z.to_nat lo + length src') (gs_back s) in
    Ok (GSlice (take (length (gs_data s)) back) (drop (length (gs_data s)) back))
  else Panic.

Lemma gs_slice_Ok {E} s lo hi (l : bytes) :
  gs_slice (E:=E) s lo hi = Ok l <->
  0 <= lo /\ lo <= hi /\ hi <= gs_cap s /\ l = sub_list (gs_back s) lo hi.
Proof.
  unfold gs_slice. split.
  - destruct (_ && _) eqn:Eb; [|done]. intros [= <-].
    apply andb_prop in Eb as [[? ?]%andb_prop ?]. split_and!; first [lia|done].
  - intros (?&?&?&->). by replace ((0 <=? lo) && (lo <=? hi) && (hi <=? gs_cap s)) with true by lia.
Qed.

Lemma gs_slice_in_range {E} s lo hi :
  0 <= lo -> lo <= hi -> hi <= gs_cap s ->
  gs_slice (E:=E) s lo hi = Ok (sub_list (gs_back s) lo hi).
Proof. intros. by apply gs_slice_Ok. Qed.

Lemma length_sub_list l lo hi :
  0 <= lo -> lo <= hi -> hi <= Z.of_nat (length l) ->
  Z.of_nat (length (sub_list l lo hi)) = hi - lo.
Proof. intros. unfold sub_list. rewrite length_take, length_drop. lia. Qed.

Lemma sub_list_split l lo mid hi :
  0 <= lo -> lo <= mid -> mid <= hi ->
  sub_list l lo mid ++ sub_list l mid hi = sub_list l lo hi.
Proof.
  intros. unfold sub_list.
  replace (Z.to_nat mid) with (Z.to_nat lo + Z.to_nat (mid - lo))%nat by lia.
  rewrite <- drop_drop.
  replace (Z.to_nat (hi - lo)) with (Z.to_nat (mid - lo) + Z.to_nat (hi - mid))%nat by lia.
  by rewrite take_take_drop.
Qed.

Lemma sub_list_app_l l k lo hi :
  0 <= lo -> lo <= hi -> hi <= Z.of_nat (length l) ->
  sub_list (l ++ k) lo hi = sub_list l lo hi.
Proof.
  intros. unfold sub_list. rewrite drop_app_le by lia.
  rewrite take_app_le; [done|]. rewrite length_drop. lia.
Qed.

Lemma sub_list_full l : sub_list l 0 (Z.of_nat (length l)) = l.
Proof. unfold sub_list. simpl. rewrite drop_0, take_ge; [done|lia]. Qed.

Lemma sub_list_empty l lo : sub_list l lo lo = [].
Proof. unfold sub_list. by rewrite Z.sub_diag. Qed.

(** The prefix, middle and rest of an append, by position. *)
Lemma sub_list_prefix l k : sub_list (l ++ k) 0 (Z.of_nat (length l)) = l.
Proof. rewrite sub_list_app_l by lia. apply sub_list_full. Qed.

Lemma sub_list_middle l m k lo hi :
  lo = Z.of_nat (length l) -> hi = lo + Z.of_nat (length m) ->
  sub_list (l ++ m ++ k) lo hi = m.
Proof.
  intros -> ->. unfold sub_list. rewrite Nat2Z.id, drop_app_length.
  replace (Z.to_nat _) with (length m) by lia. apply take_app_length.
Qed.

#[export] Hint Resolve bval_range be_val_range : go.
#[export] Hint Rewrite @length_app @length_replicate length_be_fixed : go_rw.

(** ** Numbers as documents

    An encoding of any countable type as the bytes of a number, with which the
    examples stand in for JSON. *)

Module NumberCode.

Definition enc {A} `{Countable A} (a : A) : bytes := big_bytes (Z.pos (encode a)).
Definition dec {A} `{Countable A} (b : bytes) : res A :=
  match be_val b with Z.pos p => from_opt "json" (decode p) | _ => Err "json" end.

Lemma dec_enc {A} `{Countable A} (a : A) : dec (enc a) = Ok a.
Proof. unfold dec, enc. rewrite be_val_big_bytes by done. by rewrite decode_encode. Qed.

(** With the length of the number in front, in unary: no document is a strict
    prefix of another one. *)
Definition seal (l : bytes) : bytes := replicate (length l) Byte.x01 ++ Byte.x00 :: l.

Fixpoint unseal_at (n : nat) (b : bytes) : res bytes :=
  match b with
  | [] => Err "json"
  | c :: b' =>
      if bool_decide (c = Byte.x01) then unseal_at (S n) b'
      else if bool_decide (length b' = n) then Ok b' else Err "json"
  end.
Definition unseal (b : bytes) : res bytes := unseal_at 0 b.

Lemma unseal_ones k n l :
  unseal_at n (replicate k Byte.x01 ++ Byte.x00 :: l)
  = if bool_decide (length l = (k + n)%nat) then Ok l else Err "json".
Proof.
  revert n. induction k as [|k IH]; intros n; [done|]. cbn [replicate app unseal_at].
  rewrite bool_decide_eq_true_2 by done. rewrite IH. by rewrite Nat.add_succ_r.
Qed.

Lemma unseal_seal l : unseal (seal l) = Ok l.
Proof. unfold unseal, seal. rewrite unseal_ones. by rewrite bool_decide_eq_true_2 by lia. Qed.

Lemma unseal_prefix l n : (n < length (seal l))%nat -> is_ok (unseal (take n (seal l))) = false.
Proof.
  intros Hn. unfold seal in *. rewrite length_app, length_replicate in Hn. cbn in Hn.
  destruct (decide (n <= length l)%nat) as [Hle|Hgt].
  - rewrite take_app_le by (by rewrite length_replicate). rewrite take_replicate. clear Hn.
    unfold unseal. generalize 0%nat. induction (n `min` length l)%nat as [|k IH]; intros m; [done|].
    cbn. apply IH.
  - rewrite take_app_ge by (rewrite length_replicate; lia). rewrite length_replicate.
    destruct (n - length l)%nat as [|k] eqn:Ek; [lia|]. cbn [take]. unfold unseal.
    rewrite unseal_ones, bool_decide_eq_false_2; [done|]. rewrite length_take. lia.
Qed.
End NumberCode.
