(* ===== verification/GoStrings.v ===== *)
(** * Strings

    What the relayer uses of Go's [fmt] (the [%d] verb), [strconv]
    ([ParseUint], [ParseInt] in base 10), [strings.Split] and [encoding/hex]. *)

From S2P Require Import Prelude GoBytes.
From Stdlib Require Import Ascii DecimalString DecimalN DecimalFacts.
From Stdlib Require Import NArith.

#[local] Open Scope string_scope.
#[local] Open Scope list_scope.
#[local] Open Scope Z_scope.

(** ** Characters of a string *)

Fixpoint str_forall (P : ascii -> bool) (s : string) : bool :=
  match s with
  | EmptyString => true
  | String a s' => P a && str_forall P s'
  end.

Definition lacks (c : ascii) (s : string) : bool :=
  str_forall (fun a => negb (Ascii.eqb a c)) s.

Fixpoint count_char (c : ascii) (s : string) : nat :=
  match s with
  | EmptyString => O
  | String a s' => if Ascii.eqb a c then S (count_char c s') else count_char c s'
  end.

Lemma str_app_String a s t : String a s +:+ t = String a (s +:+ t).
Proof. done. Qed.

Lemma str_app_nil_l s : "" +:+ s = s.
Proof. done. Qed.

Lemma str_forall_app P s t : str_forall P (s +:+ t) = str_forall P s && str_forall P t.
Proof. induction s as [|a s IH]; simpl; [done|]. by rewrite IH, andb_assoc. Qed.

Lemma str_forall_impl (P Q : ascii -> bool) s :
  (forall a, P a = true -> Q a = true) -> str_forall P s = true -> str_forall Q s = true.
Proof.
  intros HPQ. induction s as [|a s IH]; simpl; [done|].
  intros [? ?]%andb_prop. rewrite HPQ, IH; auto.
Qed.

Lemma str_app_assoc (s t u : string) : (s +:+ t) +:+ u = s +:+ (t +:+ u).
Proof. induction s as [|a s IH]; [done|]. by rewrite !str_app_String, IH. Qed.

Lemma str_app_nil_r s : s +:+ "" = s.
Proof. induction s as [|a s IH]; [done|]. by rewrite str_app_String, IH. Qed.

Lemma str_app_cons s a t : s +:+ String a t = (s +:+ String a "") +:+ t.
Proof. by rewrite str_app_assoc. Qed.

Lemma count_char_app c s t : count_char c (s +:+ t) = (count_char c s + count_char c t)%nat.
Proof. induction s as [|a s IH]; simpl; [done|]. rewrite IH. destruct (Ascii.eqb a c); lia. Qed.

Lemma count_char_lacks c s : lacks c s = true <-> count_char c s = O.
Proof.
  unfold lacks. induction s as [|a s IH]; simpl; [done|].
  destruct (Ascii.eqb a c); simpl; [done|apply IH].
Qed.

Lemma lacks_app c s t : lacks c (s +:+ t) = lacks c s && lacks c t.
Proof. apply str_forall_app. Qed.

(** A separator that does not occur before it cuts a string in one way only. *)
Lemma str_cut_inj c s s' t t' :
  lacks c s = true -> lacks c s' = true ->
  s +:+ String c t = s' +:+ String c t' -> s = s' /\ t = t'.
Proof.
  unfold lacks. revert s'. induction s as [|a s IH]; intros [|a' s']; rewrite ?str_app_String, ?str_app_nil_l; simpl.
  - intros _ _ [= ->]. done.
  - intros _ [Ha' _]%andb_prop [= <- _]. by rewrite Ascii.eqb_refl in Ha'.
  - intros [Ha _]%andb_prop _ [= -> _]. by rewrite Ascii.eqb_refl in Ha.
  - intros [_ Hs]%andb_prop [_ Hs']%andb_prop [= -> Heq].
    destruct (IH s' Hs Hs' Heq) as [-> ->]. done.
Qed.

(** A separator that does not occur after it cuts a string in one way only. *)
Lemma str_cut_last_inj c s s' t t' :
  lacks c t = true -> lacks c t' = true ->
  s +:+ String c t = s' +:+ String c t' -> s = s' /\ t = t'.
Proof.
  intros Ht Ht'. revert s'.
  induction s as [|a s IH]; intros [|a' s']; rewrite ?str_app_String, ?str_app_nil_l; intros E.
  - by injection E as ->.
  - exfalso. injection E as _ E. rewrite E, lacks_app in Ht. apply andb_prop in Ht as [_ Ht].
    apply count_char_lacks in Ht. simpl in Ht. by rewrite Ascii.eqb_refl in Ht.
  - exfalso. injection E as _ E. rewrite <- E, lacks_app in Ht'. apply andb_prop in Ht' as [_ Ht'].
    apply count_char_lacks in Ht'. simpl in Ht'. by rewrite Ascii.eqb_refl in Ht'.
  - injection E as -> E. destruct (IH s' E) as [-> ->]. done.
Qed.

(** ** [strings.Split] with a one-character separator *)

Fixpoint str_split (c : ascii) (s : string) : list string :=
  match s with
  | EmptyString => [""]
  | String a s' =>
      if Ascii.eqb a c then "" :: str_split c s'
      else match str_split c s' with
           | [] => [String a ""]
           | h :: t => String a h :: t
           end
  end.

Lemma length_str_split c s : length (str_split c s) = S (count_char c s).
Proof.
  induction s as [|a s IH]; simpl; [done|].
  destruct (Ascii.eqb a c); simpl; [by rewrite IH|].
  destruct (str_split c s); simpl in *; lia.
Qed.

Lemma str_split_lacks c s : lacks c s = true -> str_split c s = [s].
Proof.
  unfold lacks. induction s as [|a s IH]; simpl; [done|].
  intros [Ha Hs]%andb_prop. apply negb_true_iff in Ha. by rewrite Ha, IH.
Qed.

Lemma str_split_cons c s t :
  lacks c s = true -> str_split c (s +:+ String c t) = s :: str_split c t.
Proof.
  unfold lacks. induction s as [|a s IH]; rewrite ?str_app_String, ?str_app_nil_l; simpl.
  - by rewrite Ascii.eqb_refl.
  - intros [Ha Hs]%andb_prop. apply negb_true_iff in Ha. by rewrite Ha, IH.
Qed.

(** ** Decimal numbers *)

Definition is_digit (a : ascii) : bool :=
  (48 <=? Ascii.nat_of_ascii a)%nat && (Ascii.nat_of_ascii a <=? 57)%nat.

(** [%d] of an unsigned integer. *)
Definition fmt_u (z : Z) : string := NilZero.string_of_uint (N.to_uint (Z.to_N z)).

(** [%d] of a signed or big integer. *)
Definition fmt_d (z : Z) : string :=
  if z <? 0 then "-" +:+ fmt_u (- z) else fmt_u z.

(** Errors of [strconv]. *)
Definition err_syntax : error := "invalid syntax".
Definition err_range : error := "value out of range".

(** [strconv.ParseUint(s, 10, bits)] *)
Definition ParseUint (s : string) (bits : Z) : res Z :=
  match NilZero.uint_of_string s with
  | None => Err err_syntax
  | Some d => let n := Z.of_N (N.of_uint d) in
              if n <? 2 ^ bits then Ok n else Err err_range
  end.

(** [strconv.ParseInt(s, 10, bits)] *)
Definition ParseInt (s : string) (bits : Z) : res Z :=
  match s with
  | String "-" s' =>
      n ← ParseUint s' bits;
      if n <=? 2 ^ (bits - 1) then Ok (- n) else Err err_range
  | String "+" s' =>
      n ← ParseUint s' bits;
      if n <? 2 ^ (bits - 1) then Ok n else Err err_range
  | _ =>
      n ← ParseUint s bits;
      if n <? 2 ^ (bits - 1) then Ok n else Err err_range
  end.

Lemma to_uint_nonnil n : N.to_uint n <> Decimal.Nil.
Proof.
  destruct n as [|p]; [done|]. unfold N.to_uint. apply DecimalPos.Unsigned.to_uint_nonnil.
Qed.

Lemma uint_of_fmt_u z :
  0 <= z -> NilZero.uint_of_string (fmt_u z) = Some (N.to_uint (Z.to_N z)).
Proof. intros _. apply NilZero.usu, to_uint_nonnil. Qed.

Lemma ParseUint_fmt_u z bits : 0 <= z < 2 ^ bits -> ParseUint (fmt_u z) bits = Ok z.
Proof.
  intros Hz. unfold ParseUint. rewrite uint_of_fmt_u by lia.
  rewrite DecimalN.Unsigned.of_to, Z2N.id by lia.
  by replace (z <? 2 ^ bits) with true by lia.
Qed.

Lemma fmt_u_inj a b : 0 <= a -> 0 <= b -> fmt_u a = fmt_u b -> a = b.
Proof.
  intros Ha Hb Hf. apply Z2N.inj; [done..|]. apply DecimalN.Unsigned.to_uint_inj.
  enough (Some (N.to_uint (Z.to_N a)) = Some (N.to_uint (Z.to_N b))) as [= ->] by done.
  by rewrite <- !uint_of_fmt_u, Hf.
Qed.

Lemma digits_string_of_uint d : str_forall is_digit (NilEmpty.string_of_uint d) = true.
Proof. induction d; simpl; auto. Qed.

Lemma digits_fmt_u z : str_forall is_digit (fmt_u z) = true.
Proof.
  unfold fmt_u, NilZero.string_of_uint.
  destruct (N.to_uint (Z.to_N z)) eqn:E; [done|..]; rewrite <- E; apply digits_string_of_uint.
Qed.

Lemma digits_lack c s :
  is_digit c = false -> str_forall is_digit s = true -> lacks c s = true.
Proof.
  intros Hc. apply str_forall_impl. intros a Ha.
  destruct (Ascii.eqb_spec a c) as [->|]; [congruence|done].
Qed.

Lemma fmt_u_lacks c z : is_digit c = false -> lacks c (fmt_u z) = true.
Proof. intros. apply digits_lack; [done|apply digits_fmt_u]. Qed.

Lemma fmt_u_head z : exists a s, fmt_u z = String a s /\ is_digit a = true.
Proof.
  pose proof (digits_fmt_u z) as Hd.
  destruct (fmt_u z) as [|a s] eqn:E.
  - exfalso. unfold fmt_u, NilZero.string_of_uint in E.
    destruct (N.to_uint (Z.to_N z)); done.
  - apply andb_prop in Hd as [Ha _]. eauto.
Qed.

Lemma ParseInt_fmt_u z bits :
  1 <= bits -> 0 <= z < 2 ^ (bits - 1) -> ParseInt (fmt_u z) bits = Ok z.
Proof.
  intros Hb Hz.
  assert (2 ^ (bits - 1) <= 2 ^ bits) by (apply Z.pow_le_mono_r; lia).
  assert (ParseUint (fmt_u z) bits = Ok z) as Hp by (apply ParseUint_fmt_u; lia).
  destruct (fmt_u_head z) as (a & s & E & Ha). rewrite E in *.
  unfold ParseInt. rewrite Hp. simpl.
  replace (z <? 2 ^ (bits - 1)) with true by lia.
  destruct a as [[] [] [] [] [] [] [] []]; done.
Qed.

Lemma fmt_d_nonneg z : 0 <= z -> fmt_d z = fmt_u z.
Proof. intros. unfold fmt_d. by replace (z <? 0) with false by lia. Qed.

(** ** Hexadecimal *)

Definition hex_digit (n : Z) : ascii :=
  Ascii.ascii_of_nat (Z.to_nat (if n <? 10 then 48 + n else 87 + n)).

Definition hex_value (a : ascii) : option Z :=
  let n := Z.of_nat (Ascii.nat_of_ascii a) in
  if (48 <=? n) && (n <=? 57) then Some (n - 48)
  else if (97 <=? n) && (n <=? 102) then Some (n - 87)
  else if (65 <=? n) && (n <=? 70) then Some (n - 55)
  else None.

(** [hex.EncodeToString] *)
Fixpoint hex_encode (l : bytes) : string :=
  match l with
  | [] => ""
  | b :: l' => String (hex_digit (bval b / 16)) (String (hex_digit (bval b mod 16)) (hex_encode l'))
  end.

(** [hex.DecodeString]: an invalid character or an odd length is an error. *)
Fixpoint hex_decode (s : string) : option bytes :=
  match s with
  | EmptyString => Some []
  | String a (String b s') =>
      x ← hex_value a; y ← hex_value b; l ← hex_decode s';
      Some (byte_of (16 * x + y) :: l)
  | String _ EmptyString => None
  end.

Lemma hex_value_digit n : 0 <= n < 16 -> hex_value (hex_digit n) = Some n.
Proof.
  intros Hn.
  assert (forallb (fun k => bool_decide (hex_value (hex_digit k) = Some k)) (seqZ 0 16) = true)
    as Hall by (vm_compute; reflexivity).
  rewrite List.forallb_forall in Hall. eapply bool_decide_eq_true, Hall.
  apply list_elem_of_In, elem_of_seqZ. lia.
Qed.

Lemma hex_decode_encode l : hex_decode (hex_encode l) = Some l.
Proof.
  induction l as [|b l IH]; simpl; [done|]. pose proof (bval_range b).
  rewrite !hex_value_digit, IH
    by (split; [apply Z.div_pos || apply Z.mod_pos_bound; lia
               |apply Z.div_lt_upper_bound || apply Z.mod_pos_bound; lia]).
  simpl. do 2 f_equal. rewrite <- Z.div_mod by lia. apply byte_of_bval.
Qed.

Lemma hex_digit_not_dash n : 0 <= n < 16 -> Ascii.eqb (hex_digit n) "-" = false.
Proof.
  intros Hn. destruct (Ascii.eqb_spec (hex_digit n) "-") as [E|]; [|done].
  pose proof (hex_value_digit n Hn) as Hv. by rewrite E in Hv.
Qed.

Lemma hex_encode_lacks_dash l : lacks "-" (hex_encode l) = true.
Proof.
  unfold lacks. induction l as [|b l IH]; cbn [hex_encode str_forall]; [done|].
  pose proof (bval_range b).
  rewrite !hex_digit_not_dash, IH
    by (split; [apply Z.div_pos || apply Z.mod_pos_bound; lia
               |apply Z.div_lt_upper_bound || apply Z.mod_pos_bound; lia]).
  done.
Qed.

(** ** Strings and their bytes *)

(** [[]byte(s)] and [string(l)] *)
Definition bytes_of_string (s : string) : bytes := String.list_byte_of_string s.
Definition string_of_bytes (l : bytes) : string := String.string_of_list_byte l.

Lemma string_of_bytes_of_string s : string_of_bytes (bytes_of_string s) = s.
Proof. apply String.string_of_list_byte_of_string. Qed.

Lemma bytes_of_string_inj s t : bytes_of_string s = bytes_of_string t -> s = t.
Proof. intros H. by rewrite <- (string_of_bytes_of_string s), H, string_of_bytes_of_string. Qed.
