(* ===== verification/GoFloat.v ===== *)
(** * Floating point numbers

    Go's [float64]: binary floating point with 53 bits of precision, rounding to
    nearest even.  Bitcoin amounts, configured durations and JSON numbers are
    decoded to it. *)

From Stdlib Require Import Floats.SpecFloat.
From S2P Require Import Prelude.

#[local] Open Scope Z_scope.

Abbreviation float64 := spec_float.

Definition f64_mul (x y : float64) : float64 := SFmul 53 1024 x y.
Definition f64_div (x y : float64) : float64 := SFdiv 53 1024 x y.
(** [float64(z)] *)
Definition f64_of_Z (z : Z) : float64 := binary_normalize 53 1024 z 0 false.
(** [x == y] *)
Definition f64_eqb (x y : float64) : bool := SFeqb x y.

(** [int64(x)] drops the fraction; outside [int64] the result is that of amd64. *)
Definition f64_to_i64 (x : float64) : Z :=
  match x with
  | S754_zero _ => 0
  | S754_finite s m e =>
      let magnitude := if 0 <=? e then Z.pos m * 2 ^ e else Z.pos m / 2 ^ (- e) in
      let z := if s : bool then - magnitude else magnitude in
      if (- 2 ^ 63 <=? z) && (z <? 2 ^ 63) then z else - 2 ^ 63
  | _ => - 2 ^ 63
  end.

(** [uint64(x)] of a value that is not negative and in range. *)
Definition f64_to_u64 (x : float64) : Z :=
  match x with
  | S754_zero _ => 0
  | S754_finite false m e => u64_wrap (if 0 <=? e then Z.pos m * 2 ^ e else Z.pos m / 2 ^ (- e))
  | _ => 2 ^ 63
  end.
