(* ===== verification/GoParse.v ===== *)
(** * Parsing numbers and durations

    [strconv.ParseInt] with base 0, which reads the base from a prefix and allows
    underscores, and [time.ParseDuration]: what the configuration and the topology
    are read with. *)

From Stdlib Require Import Floats.SpecFloat Ascii DecimalString DecimalN.
From S2P Require Import Prelude GoBytes GoStrings GoFloat.

#[local] Open Scope string_scope.
#[local] Open Scope list_scope.
#[local] Open Scope Z_scope.

(** ** Characters *)

Definition code (c : ascii) : Z := Z.of_nat (Ascii.nat_of_ascii c).

(** [lower(c)] of [strconv]: [c | ('x' - 'X')]. *)
Definition lower (c : ascii) : Z := Z.lor (code c) 32.

Definition is_char (c : ascii) (k : ascii) : bool := Ascii.eqb c k.

(** ** Integers with a base prefix *)

(** The base and the digits of a number without its sign. *)
Definition base_prefix (s : string) : Z * string :=
  match s with
  | String "0" rest =>
      match rest with
      | String p (String c t) =>
          if lower p =? 98 then (2, String c t)
          else if lower p =? 111 then (8, String c t)
          else if lower p =? 120 then (16, String c t)
          else (8, rest)
      | _ => (8, rest)
      end
  | _ => (10, s)
  end.

Definition digit_value (c : ascii) : option Z :=
  if (48 <=? code c) && (code c <=? 57) then Some (code c - 48)
  else if (97 <=? lower c) && (lower c <=? 122) then Some (lower c - 97 + 10)
  else None.

(** The loop over the digits: [n] is exact, so that both overflow tests of the
    code are the test against [maxVal]. *)
Fixpoint digits_loop (base maxVal n : Z) (s : string) : res Z :=
  match s with
  | EmptyString => Ok n
  | String c s' =>
      if is_char c "_" then digits_loop base maxVal n s'
      else match digit_value c with
           | None => Err err_syntax
           | Some d =>
               if base <=? d then Err err_syntax
               else let n1 := n * base + d in
                    if maxVal <? n1 then Err err_range else digits_loop base maxVal n1 s'
           end
  end.

(** [underscoreOK]: underscores are between digits or after a base prefix. *)
Inductive last_seen := SawStart | SawDigit | SawUnderscore | SawOther.

Fixpoint underscore_loop (hex : bool) (i : last_seen) (s : string) : bool :=
  match s with
  | EmptyString => match i with SawUnderscore => false | _ => true end
  | String c s' =>
      if ((48 <=? code c) && (code c <=? 57)) || (hex && (97 <=? lower c) && (lower c <=? 102))
      then underscore_loop hex SawDigit s'
      else if is_char c "_" then
        match i with SawDigit => underscore_loop hex SawUnderscore s' | _ => false end
      else match i with SawUnderscore => false | _ => underscore_loop hex SawOther s' end
  end.

Definition underscoreOK (s : string) : bool :=
  match s with
  | String "0" (String p t) =>
      if (lower p =? 98) || (lower p =? 111) || (lower p =? 120)
      then underscore_loop (lower p =? 120) SawDigit t
      else underscore_loop false SawStart s
  | _ => underscore_loop false SawStart s
  end.

(** [strconv.ParseUint(s, 0, bits)] *)
Definition ParseUint0 (s : string) (bits : Z) : res Z :=
  match s with
  | EmptyString => Err err_syntax
  | _ =>
      let (base, digits) := base_prefix s in
      n ← digits_loop base (2 ^ bits - 1) 0 digits;
      if negb (lacks "_" digits) && negb (underscoreOK s) then Err err_syntax else Ok n
  end.

(** [strconv.ParseInt(s, 0, bits)] *)
Definition ParseInt0 (s : string) (bits : Z) : res Z :=
  match s with
  | String "-" s' =>
      n ← ParseUint0 s' bits;
      if n <=? 2 ^ (bits - 1) then Ok (- n) else Err err_range
  | String "+" s' =>
      n ← ParseUint0 s' bits;
      if n <? 2 ^ (bits - 1) then Ok n else Err err_range
  | _ =>
      n ← ParseUint0 s bits;
      if n <? 2 ^ (bits - 1) then Ok n else Err err_range
  end.

(** ** Durations, in nanoseconds *)

Definition is_num (c : ascii) : bool := (48 <=? code c) && (code c <=? 57).

(** [leadingInt]: [None] on overflow of 2^63. *)
Fixpoint leadingInt (x : Z) (s : string) : option (Z * string) :=
  match s with
  | String c s' =>
      if is_num c then
        if 2 ^ 63 / 10 <? x then None
        else let x' := x * 10 + (code c - 48) in
             if 2 ^ 63 <? x' then None else leadingInt x' s'
      else Some (x, s)
  | EmptyString => Some (x, s)
  end.

(** [leadingFraction]: further digits are dropped after an overflow. *)
Fixpoint leadingFraction (x : Z) (scale : float64) (overflow : bool) (s : string)
    : Z * float64 * string :=
  match s with
  | String c s' =>
      if is_num c then
        if overflow then leadingFraction x scale overflow s'
        else if (2 ^ 63 - 1) / 10 <? x then leadingFraction x scale true s'
        else let y := x * 10 + (code c - 48) in
             if 2 ^ 63 <? y then leadingFraction x scale true s'
             else leadingFraction y (f64_mul scale (f64_of_Z 10)) false s'
      else (x, scale, s)
  | EmptyString => (x, scale, s)
  end.

(** The unit: everything up to the next digit or dot. *)
Fixpoint take_unit (s : string) : string * string :=
  match s with
  | String c s' =>
      if is_char c "." || is_num c then ("", s)
      else let (u, rest) := take_unit s' in (String c u, rest)
  | EmptyString => ("", "")
  end.

(** [unitMap]; the two spellings of the micro sign are UTF-8. *)
Definition unitMap : list (string * Z) :=
  [("ns", 1); ("us", 10 ^ 3);
   (String "194" (String "181" "s"), 10 ^ 3); (String "206" (String "188" "s"), 10 ^ 3);
   ("ms", 10 ^ 6); ("s", 10 ^ 9); ("m", 60 * 10 ^ 9); ("h", 3600 * 10 ^ 9)].

Definition unit_of (u : string) : option Z :=
  snd <$> List.find (fun kv => bool_decide (kv.1 = u)) unitMap.

Definition duration_error : error := "time: invalid duration".

(** One number and its unit, the nanoseconds and the rest of the string. *)
Definition duration_part (s : string) : res (Z * string) :=
  match s with
  | String c _ =>
      if negb (is_char c "." || is_num c) then Err duration_error
      else match leadingInt 0 s with
           | None => Err duration_error
           | Some (v, s1) =>
               let pre := negb (String.length s =? String.length s1)%nat in
               let '(f, scale, s2, post) :=
                 match s1 with
                 | String "." t =>
                     let '(f, scale, t') := leadingFraction 0 (f64_of_Z 1) false t in
                     (f, scale, t', negb (String.length t =? String.length t')%nat)
                 | _ => (0, f64_of_Z 1, s1, false)
                 end in
               if negb pre && negb post then Err duration_error
               else
                 let (u, rest) := take_unit s2 in
                 if bool_decide (u = "") then Err "time: missing unit in duration"
                 else match unit_of u with
                      | None => Err "time: unknown unit in duration"
                      | Some unit =>
                          if 2 ^ 63 / unit <? v then Err duration_error
                          else
                            let v1 := v * unit in
                            if 0 <? f then
                              let v2 := u64_wrap (v1 + f64_to_u64
                                          (f64_mul (f64_of_Z f) (f64_div (f64_of_Z unit) scale))) in
                              if 2 ^ 63 <? v2 then Err duration_error else Ok (v2, rest)
                            else Ok (v1, rest)
                      end
           end
  | EmptyString => Err duration_error
  end.

(** The loop over the parts; each uses up at least one character. *)
Fixpoint duration_loop (fuel : nat) (d : Z) (s : string) : res Z :=
  match s, fuel with
  | EmptyString, _ => Ok d
  | _, O => Err duration_error
  | _, S fuel' =>
      '(v, rest) ← duration_part s;
      let d' := u64_wrap (d + v) in
      if 2 ^ 63 <? d' then Err duration_error else duration_loop fuel' d' rest
  end.

(** [time.ParseDuration] *)
Definition ParseDuration (s : string) : res Z :=
  let '(neg, t) :=
    match s with
    | String "-" t => (true, t)
    | String "+" t => (false, t)
    | _ => (false, s)
    end in
  if bool_decide (t = "0") then Ok 0
  else if bool_decide (t = "") then Err duration_error
  else
    d ← duration_loop (String.length t) 0 t;
    if neg : bool then Ok (i64_wrap (- d))
    else if 2 ^ 63 - 1 <? d then Err duration_error else Ok d.

Example duration_examples :
  ParseDuration "1h15m30.918s" = Ok 4530918000000 /\ ParseDuration "-1.5h" = Ok (-5400000000000) /\
  ParseDuration "3m" = Ok 180000000000 /\ ParseDuration "5" = Err "time: missing unit in duration" /\
  ParseDuration "300000" = Err "time: missing unit in duration" /\ ParseDuration "0" = Ok 0.
Proof. vm_compute. done. Qed.

Example integer_examples :
  ParseInt0 "0x1F" 16 = Ok 31 /\ ParseInt0 "010" 16 = Ok 8 /\ ParseInt0 "-32768" 16 = Ok (-32768) /\
  ParseInt0 "32768" 16 = Err err_range /\ ParseInt0 "1_000" 16 = Ok 1000 /\
  ParseInt0 "_1" 16 = Err err_syntax /\ ParseInt0 "08" 16 = Err err_syntax /\ ParseInt0 "" 16 = Err err_syntax /\
  ParseInt0 "0" 16 = Ok 0 /\ ParseInt0 "0x" 16 = Err err_syntax /\ ParseInt0 "0_7" 16 = Ok 7.
Proof. vm_compute. done. Qed.

(** ** Integers: range and decimal numerals *)

Lemma digit_value_nonneg c d : digit_value c = Some d -> 0 <= d.
Proof. unfold digit_value. repeat case_match; intros; simplify_eq; lia. Qed.

Lemma digits_loop_bounds base maxVal n s z :
  0 <= base -> 0 <= n <= maxVal -> digits_loop base maxVal n s = Ok z -> 0 <= z <= maxVal.
Proof.
  intros Hb. revert n. induction s as [|c s IH]; intros n Hn Hz; cbn in Hz; [by simplify_eq|].
  destruct (is_char c "_"); [by eapply IH|]. destruct (digit_value c) as [d|] eqn:Ed; [|done].
  apply digit_value_nonneg in Ed. destruct (base <=? d); [done|].
  destruct (Z.ltb_spec maxVal (n * base + d)); [done|]. eapply IH; [|exact Hz]. nia.
Qed.

Lemma base_prefix_nonneg s : 0 <= (base_prefix s).1.
Proof. unfold base_prefix. repeat case_match; cbn; lia. Qed.

Lemma ParseUint0_bounds s bits z : 0 <= bits -> ParseUint0 s bits = Ok z -> 0 <= z < 2 ^ bits.
Proof.
  intros Hb Hz. assert (0 < 2 ^ bits) by (apply Z.pow_pos_nonneg; lia).
  unfold ParseUint0 in Hz. destruct s as [|c s]; [done|]. pose proof (base_prefix_nonneg (String c s)).
  destruct (base_prefix (String c s)) as [base digits]. apply outcome_bind_Ok in Hz as (n & Hn & Hz).
  apply digits_loop_bounds in Hn; [|done|lia]. case_match; [done|]. simplify_eq. lia.
Qed.

(** A parsed integer fits its width. *)
Lemma ParseInt0_bounds s bits z :
  1 <= bits -> ParseInt0 s bits = Ok z -> - 2 ^ (bits - 1) <= z < 2 ^ (bits - 1).
Proof.
  intros Hb Hz. assert (0 < 2 ^ (bits - 1)) by (apply Z.pow_pos_nonneg; lia).
  assert (forall t n, ParseUint0 t bits = Ok n -> 0 <= n) as Hn
    by (intros t n Ht%ParseUint0_bounds; lia).
  unfold ParseInt0 in Hz.
  repeat (case_match; try done); apply outcome_bind_Ok in Hz as (n & Hp%Hn & Hz);
    case_match; simplify_eq; lia.
Qed.

(** The value of a decimal numeral after the digits read so far. *)
Fixpoint dec_value (acc : Z) (d : Decimal.uint) : Z :=
  match d with
  | Decimal.Nil => acc
  | Decimal.D0 d => dec_value (acc * 10) d
  | Decimal.D1 d => dec_value (acc * 10 + 1) d
  | Decimal.D2 d => dec_value (acc * 10 + 2) d
  | Decimal.D3 d => dec_value (acc * 10 + 3) d
  | Decimal.D4 d => dec_value (acc * 10 + 4) d
  | Decimal.D5 d => dec_value (acc * 10 + 5) d
  | Decimal.D6 d => dec_value (acc * 10 + 6) d
  | Decimal.D7 d => dec_value (acc * 10 + 7) d
  | Decimal.D8 d => dec_value (acc * 10 + 8) d
  | Decimal.D9 d => dec_value (acc * 10 + 9) d
  end.

Lemma dec_value_mono acc d : 0 <= acc -> acc <= dec_value acc d.
Proof. revert acc. induction d; intros acc Ha; cbn; [lia|..]; (eapply Z.le_trans; [|apply IHd; lia]; lia). Qed.

Lemma dec_value_pos d acc : Z.pos (Pos.of_uint_acc d acc) = dec_value (Z.pos acc) d.
Proof. revert acc. induction d; intros acc; cbn [Pos.of_uint_acc dec_value]; [done|..]; rewrite IHd; f_equal; lia. Qed.

Lemma dec_value_of_uint d : Z.of_N (N.of_uint d) = dec_value 0 d.
Proof.
  unfold N.of_uint. induction d; cbn [Pos.of_uint dec_value]; [done|exact IHd|..];
    exact (dec_value_pos d _).
Qed.

(** What the loop does on a decimal numeral. *)
Definition decimal_result (maxVal acc : Z) (d : Decimal.uint) : res Z :=
  if dec_value acc d <=? maxVal then Ok (dec_value acc d) else Err err_range.

Lemma digits_step maxVal acc n1 d d' :
  dec_value acc d' = dec_value n1 d -> 0 <= n1 ->
  (n1 <= maxVal -> digits_loop 10 maxVal n1 (NilEmpty.string_of_uint d) = decimal_result maxVal n1 d) ->
  (if maxVal <? n1 then Err err_range else digits_loop 10 maxVal n1 (NilEmpty.string_of_uint d))
  = decimal_result maxVal acc d'.
Proof.
  intros Hd Hn IH. replace (decimal_result maxVal acc d') with (decimal_result maxVal n1 d)
    by (unfold decimal_result; by rewrite Hd). destruct (Z.ltb_spec maxVal n1); [|by apply IH].
  pose proof (dec_value_mono n1 d Hn). unfold decimal_result.
  by destruct (Z.leb_spec (dec_value n1 d) maxVal); [lia|].
Qed.

Ltac next_digit acc k :=
  refine (digits_step _ acc (acc * 10 + k) _ _ _ _ _);
  [cbn [dec_value]; f_equal; lia|lia|match goal with IH : _ |- _ => intros; apply IH; lia end].

Lemma digits_loop_decimal maxVal acc d :
  0 <= acc <= maxVal ->
  digits_loop 10 maxVal acc (NilEmpty.string_of_uint d) = decimal_result maxVal acc d.
Proof.
  revert acc. induction d as [|d IH|d IH|d IH|d IH|d IH|d IH|d IH|d IH|d IH|d IH]; intros acc Hacc.
  { unfold decimal_result. cbn. by replace (acc <=? maxVal) with true by lia. }
  all: first
    [ next_digit acc 0 | next_digit acc 1 | next_digit acc 2 | next_digit acc 3 | next_digit acc 4
    | next_digit acc 5 | next_digit acc 6 | next_digit acc 7 | next_digit acc 8 | next_digit acc 9 ].
Qed.

Lemma nzhead_not_D0 d d' : Decimal.nzhead d <> Decimal.D0 d'.
Proof. induction d; done. Qed.

(** The decimal form of a positive number does not start with a zero. *)
Lemma to_uint_no_zero p d : N.to_uint (N.pos p) <> Decimal.D0 d.
Proof.
  intros E. pose proof (DecimalN.Unsigned.to_of (N.to_uint (N.pos p))) as Hu.
  rewrite DecimalN.Unsigned.of_to, E in Hu. unfold Decimal.unorm in Hu.
  destruct (Decimal.nzhead (Decimal.D0 d)) eqn:En; try done.
  - apply (DecimalPos.Unsigned.to_uint_nonzero p). change (Pos.to_uint p) with (N.to_uint (N.pos p)).
    by rewrite E.
  - by apply nzhead_not_D0 in En.
Qed.

Lemma ParseUint0_fmt_u z bits : 0 <= z < 2 ^ bits -> ParseUint0 (fmt_u z) bits = Ok z.
Proof.
  intros Hz. pose proof (fmt_u_lacks "_" z eq_refl) as Hl. unfold fmt_u in *.
  pose proof (DecimalN.Unsigned.of_to (Z.to_N z)) as Hv.
  destruct (Z.to_N z) as [|p] eqn:En.
  { assert (z = 0) as -> by lia. done. }
  pose proof (to_uint_no_zero p) as H0. pose proof (to_uint_nonnil (N.pos p)) as H1.
  remember (N.to_uint (N.pos p)) as d eqn:Ed.
  assert (base_prefix (NilZero.string_of_uint d) = (10, NilEmpty.string_of_uint d)) as Hb.
  { destruct d; try done. by destruct (H0 d). }
  assert (NilZero.string_of_uint d <> "") as Hne by (by destruct d).
  unfold ParseUint0. destruct (NilZero.string_of_uint d) as [|c s] eqn:Es; [done|]. rewrite Hb.
  rewrite digits_loop_decimal by lia. unfold decimal_result.
  rewrite <- dec_value_of_uint, Hv, <- En, Z2N.id by lia.
  replace (z <=? 2 ^ bits - 1) with true by lia. cbn [mbind outcome_bind].
  assert (NilEmpty.string_of_uint d = String c s) as ->.
  { rewrite <- Es. by destruct d. }
  by rewrite Hl.
Qed.

(** A decimal numeral in range is read as its value. *)
Lemma ParseInt0_fmt_u z bits :
  1 <= bits -> 0 <= z < 2 ^ (bits - 1) -> ParseInt0 (fmt_u z) bits = Ok z.
Proof.
  intros Hb Hz. assert (2 ^ (bits - 1) <= 2 ^ bits) by (apply Z.pow_le_mono_r; lia).
  assert (ParseUint0 (fmt_u z) bits = Ok z) as Hp by (apply ParseUint0_fmt_u; lia).
  destruct (fmt_u_head z) as (a & s & E & Ha). rewrite E in *.
  unfold ParseInt0. rewrite Hp. simpl. replace (z <? 2 ^ (bits - 1)) with true by lia.
  destruct a as [[] [] [] [] [] [] [] []]; done.
Qed.

(** A decimal numeral of the width but not of its signed half is refused. *)
Lemma ParseInt0_fmt_u_out z bits :
  1 <= bits -> 2 ^ (bits - 1) <= z < 2 ^ bits -> ParseInt0 (fmt_u z) bits = Err err_range.
Proof.
  intros Hb Hz. assert (0 < 2 ^ (bits - 1)) by (apply Z.pow_pos_nonneg; lia).
  assert (ParseUint0 (fmt_u z) bits = Ok z) as Hp by (apply ParseUint0_fmt_u; lia).
  destruct (fmt_u_head z) as (a & s & E & Ha). rewrite E in *.
  unfold ParseInt0. rewrite Hp. simpl. replace (z <? 2 ^ (bits - 1)) with false by lia.
  destruct a as [[] [] [] [] [] [] [] []]; done.
Qed.

(** ** Durations: the loop ends, and the result fits 64 bits *)

Lemma leadingInt_length x s v t : leadingInt x s = Some (v, t) -> (String.length t <= String.length s)%nat.
Proof.
  revert x. induction s as [|c s IH]; intros x E; cbn in E |- *; [by simplify_eq|].
  repeat (case_match; try done); simplify_eq; [apply IH in E; lia|done].
Qed.

Lemma leadingFraction_length x scale o s v sc t :
  leadingFraction x scale o s = (v, sc, t) -> (String.length t <= String.length s)%nat.
Proof.
  revert x scale o. induction s as [|c s IH]; intros x scale o E; cbn in E |- *; [by simplify_eq|].
  repeat (case_match; try done); simplify_eq; try done; apply IH in E; lia.
Qed.

Lemma take_unit_length s u t :
  take_unit s = (u, t) -> (String.length u + String.length t = String.length s)%nat.
Proof.
  revert u. induction s as [|c s IH]; intros u E; cbn in E; [by simplify_eq|].
  case_match; [by simplify_eq|]. destruct (take_unit s) as [u' t'] eqn:Eu. simplify_eq. cbn.
  by rewrite <- (IH u' eq_refl).
Qed.

(** Every part uses up characters: its unit at least. *)
Lemma duration_part_shorter s v rest :
  duration_part s = Ok (v, rest) -> (String.length rest < String.length s)%nat.
Proof.
  unfold duration_part. destruct s as [|c s]; [done|]. destruct (negb _); [done|].
  destruct (leadingInt 0 (String c s)) as [[w s1]|] eqn:Ei; [|done]. apply leadingInt_length in Ei.
  destruct (match s1 with String "." t => _ | _ => _ end) as [[[f sc] s2] post] eqn:Ef.
  assert (String.length s2 <= String.length s1)%nat as Hs2.
  { destruct s1 as [|c1 s1]; [by simplify_eq|].
    destruct c1 as [[] [] [] [] [] [] [] []]; try (by simplify_eq).
    destruct (leadingFraction 0 (f64_of_Z 1) false s1) as [[f' sc'] t'] eqn:El. simplify_eq.
    apply leadingFraction_length in El. cbn. lia. }
  destruct (negb _ && _); [done|]. destruct (take_unit s2) as [u t] eqn:Eu. apply take_unit_length in Eu.
  case_bool_decide as Hu; [done|]. assert (0 < String.length u)%nat by (destruct u; [done|cbn; lia]).
  intros E. repeat (case_match; try done); simplify_eq; lia.
Qed.

(** The fuel of [ParseDuration] is enough: more changes nothing. *)
Lemma duration_loop_fuel fuel fuel' d s :
  (String.length s <= fuel)%nat -> (String.length s <= fuel')%nat ->
  duration_loop fuel d s = duration_loop fuel' d s.
Proof.
  revert fuel' d s. induction fuel as [|fuel IH]; intros fuel' d s Hf Hf'.
  { destruct s; [by destruct fuel'|cbn in Hf; lia]. }
  destruct s as [|c s]; [by destruct fuel'|]. destruct fuel' as [|fuel']; [cbn in Hf'; lia|].
  cbn [duration_loop]. destruct (duration_part (String c s)) as [[v rest]|e|] eqn:Ep; [|done..].
  apply duration_part_shorter in Ep. cbn in Ep, Hf, Hf' |- *. case_match; [done|]. apply IH; lia.
Qed.

Lemma duration_loop_bounds fuel d s z :
  0 <= d <= 2 ^ 63 -> duration_loop fuel d s = Ok z -> 0 <= z <= 2 ^ 63.
Proof.
  revert d s. induction fuel as [|fuel IH]; intros d s Hd Hz.
  { destruct s; [|done]. cbn in Hz. by simplify_eq. }
  destruct s as [|c s]; [cbn in Hz; by simplify_eq|]. cbn [duration_loop] in Hz.
  apply outcome_bind_Ok in Hz as ([v rest] & _ & Hz).
  destruct (Z.ltb_spec (2 ^ 63) (u64_wrap (d + v))); [done|].
  eapply IH; [|exact Hz]. pose proof (u64_wrap_range (d + v)) as [? ?]. lia.
Qed.

Lemma ParseDuration_bounds s z : ParseDuration s = Ok z -> is_i64 z.
Proof.
  unfold ParseDuration. destruct (match s with String "-" t => _ | _ => _ end) as [neg t].
  case_bool_decide; [intros; simplify_eq; unfold is_i64; lia|]. case_bool_decide; [done|].
  intros (d & Hd & Hz)%outcome_bind_Ok. apply duration_loop_bounds in Hd; [|lia].
  destruct neg; [simplify_eq; apply i64_wrap_range|].
  destruct (Z.ltb_spec (2 ^ 63 - 1) d); [done|]. simplify_eq. unfold is_i64. lia.
Qed.
