(* ===== verification/GoBase64.v ===== *)
(** * base64 ([encoding/base64], [StdEncoding])

    The encoding of keys in configurations and of byte slices in JSON documents. *)

From Stdlib Require Import Ascii.
From S2P Require Import Prelude GoBytes GoStrings.

#[local] Open Scope string_scope.
#[local] Open Scope list_scope.
#[local] Open Scope Z_scope.

Definition b64_char (n : Z) : ascii :=
  Ascii.ascii_of_nat (Z.to_nat (
    if n <? 26 then n + 65
    else if n <? 52 then n + 71
    else if n <? 62 then n - 4
    else if n =? 62 then 43
    else 47)).

Definition b64_value (a : ascii) : option Z :=
  let n := Z.of_nat (Ascii.nat_of_ascii a) in
  if (65 <=? n) && (n <=? 90) then Some (n - 65)
  else if (97 <=? n) && (n <=? 122) then Some (n - 71)
  else if (48 <=? n) && (n <=? 57) then Some (n + 4)
  else if n =? 43 then Some 62
  else if n =? 47 then Some 63
  else None.

(** [EncodeToString]: three bytes in four characters, the last group padded. *)
Fixpoint base64_encode (l : bytes) : string :=
  match l with
  | a :: b :: c :: l' =>
      String (b64_char (bval a / 4)) (String (b64_char (bval a mod 4 * 16 + bval b / 16))
        (String (b64_char (bval b mod 16 * 4 + bval c / 64)) (String (b64_char (bval c mod 64)) (base64_encode l'))))
  | [a; b] =>
      String (b64_char (bval a / 4)) (String (b64_char (bval a mod 4 * 16 + bval b / 16))
        (String (b64_char (bval b mod 16 * 4)) "="))
  | [a] => String (b64_char (bval a / 4)) (String (b64_char (bval a mod 4 * 16)) "==")
  | [] => ""
  end.

(** [DecodeString] on text without line ends. *)
Fixpoint base64_decode (s : string) : option bytes :=
  match s with
  | EmptyString => Some []
  | String c1 (String c2 (String c3 (String c4 s'))) =>
      x ← b64_value c1; y ← b64_value c2;
      let a := byte_of (x * 4 + y / 16) in
      match b64_value c3, b64_value c4 with
      | Some z, Some w =>
          l ← base64_decode s';
          Some (a :: byte_of (y mod 16 * 16 + z / 4) :: byte_of (z mod 4 * 64 + w) :: l)
      | Some z, None =>
          if Ascii.eqb c4 "=" && bool_decide (s' = "") then Some [a; byte_of (y mod 16 * 16 + z / 4)] else None
      | None, _ =>
          if Ascii.eqb c3 "=" && Ascii.eqb c4 "=" && bool_decide (s' = "") then Some [a] else None
      end
  | _ => None
  end.

(** ** base64 is read back *)

Lemma b64_value_char n : 0 <= n < 64 -> b64_value (b64_char n) = Some n.
Proof.
  intros Hn.
  assert (forallb (fun k => bool_decide (b64_value (b64_char k) = Some k)) (seqZ 0 64) = true)
    as Hall by (vm_compute; reflexivity).
  rewrite List.forallb_forall in Hall. eapply bool_decide_eq_true, Hall.
  apply list_elem_of_In, elem_of_seqZ. lia.
Qed.

Lemma digits_split n k q : 0 <= n < q * k -> 0 < k -> 0 <= n / k < q /\ 0 <= n mod k < k /\ n = n / k * k + n mod k.
Proof.
  intros Hn Hk. split; [split; [by apply Z.div_pos; lia|apply Z.div_lt_upper_bound; lia]|].
  split; [by apply Z.mod_pos_bound|]. rewrite (Z.mul_comm (n / k)). by apply Z.div_mod; lia.
Qed.

Lemma join_digits h l k : 0 <= l < k -> (h * k + l) / k = h /\ (h * k + l) mod k = l.
Proof.
  intros Hl. rewrite Z.div_add_l, Z.div_small by lia. split; [lia|].
  by rewrite Z.add_comm, Z.mod_add, Z.mod_small by lia.
Qed.

(** The three bytes of a group from its four digits. *)
Lemma b64_group a b c :
  let x := bval a / 4 in let y := bval a mod 4 * 16 + bval b / 16 in
  let z := bval b mod 16 * 4 + bval c / 64 in let w := bval c mod 64 in
  (0 <= x < 64 /\ 0 <= y < 64 /\ 0 <= z < 64 /\ 0 <= w < 64) /\
  byte_of (x * 4 + y / 16) = a /\ byte_of (y mod 16 * 16 + z / 4) = b /\ byte_of (z mod 4 * 64 + w) = c.
Proof.
  intros x y z w. pose proof (bval_range a). pose proof (bval_range b). pose proof (bval_range c).
  destruct (digits_split (bval a) 4 64) as (? & ? & Ha); [lia..|].
  destruct (digits_split (bval b) 16 16) as (? & ? & Hb); [lia..|].
  destruct (digits_split (bval c) 64 4) as (? & ? & Hc); [lia..|].
  destruct (join_digits (bval a mod 4) (bval b / 16) 16) as [E1 E2]; [lia|].
  destruct (join_digits (bval b mod 16) (bval c / 64) 4) as [E3 E4]; [lia|].
  split; [unfold x, y, z, w; lia|]. unfold y, z. rewrite E1, E2, E3, E4.
  assert (forall n d, n = bval d -> byte_of n = d) as Hof by (intros ? d ->; apply byte_of_bval).
  split_and!; apply Hof; unfold x, w; lia.
Qed.

Lemma b64_pad : b64_value "=" = None. Proof. reflexivity. Qed.

(** Every group is read back; the padded ones are groups whose last bytes are 0. *)
Lemma base64_decode_encode : forall l, base64_decode (base64_encode l) = Some l.
Proof.
  fix IH 1. intros [|a [|b [|c l]]]; cbn [base64_encode base64_decode].
  - done.
  - destruct (b64_group a Byte.x00 Byte.x00) as ((Hx & Hy & _) & E1 & _).
    rewrite Z.add_0_r in Hy, E1. rewrite !b64_value_char by done. cbn [mbind option_bind]. by rewrite b64_pad, E1.
  - destruct (b64_group a b Byte.x00) as ((Hx & Hy & Hz & _) & E1 & E2 & _).
    rewrite Z.add_0_r in Hz, E2. rewrite !b64_value_char by done. cbn [mbind option_bind]. by rewrite b64_pad, E1, E2.
  - destruct (b64_group a b c) as ((Hx & Hy & Hz & Hw) & E1 & E2 & E3).
    rewrite !b64_value_char by done. cbn [mbind option_bind]. rewrite IH. cbn. by rewrite E1, E2, E3.
Qed.

Example base64_example :
  base64_encode (bytes_of_string "relayer") = "cmVsYXllcg==" /\
  base64_decode "cmVsYXllcg==" = Some (bytes_of_string "relayer") /\ base64_decode "cmV=YXll" = None.
Proof. by vm_compute. Qed.
