(* ===== verification/GoJson.v ===== *)
(** * JSON ([encoding/json])

    The wire messages of the relayers, their start parameters, the topology and the
    answers of the services are JSON documents.  This file is the grammar of
    [encoding/json] of Go 1.19: [json.Unmarshal] checks the whole document and then
    stores its values, so a document is parsed to a value of [json] and a type is
    decoded from it; [json.Marshal] prints a value on one line.  The types of the
    program are decoded in the file that uses them. *)

From Stdlib Require Import Ascii.
From S2P Require Import Prelude GoBytes GoStrings GoParse GoBase64.

#[local] Open Scope string_scope.
#[local] Open Scope list_scope.
#[local] Open Scope Z_scope.

(** A number keeps its text, a string is without its escapes. *)
Inductive json :=
| JNull
| JBool (b : bool)
| JNumber (text : string)
| JString (s : string)
| JArray (l : list json)
| JObject (fields : list (string * json)).

Definition dquote : ascii := "034".
Definition backslash : ascii := "092".

(** ** Characters *)

Definition is_space (c : ascii) : bool :=
  (code c =? 32) || (code c =? 9) || (code c =? 10) || (code c =? 13).

Fixpoint skip_space (s : string) : string :=
  match s with
  | String c s' => if is_space c then skip_space s' else s
  | EmptyString => EmptyString
  end.

Definition chr (z : Z) : ascii := Ascii.ascii_of_nat (Z.to_nat z).

(** A byte in a range. *)
Definition within (lo hi : Z) (c : ascii) : bool := (lo <=? code c) && (code c <=? hi).

(** [utf8.DecodeRune]: the number of bytes after the first one of the valid encoding of
    a character above 127 that the string starts with, if it starts with one. *)
Definition rune_tail (s : string) : option nat :=
  match s with
  | String c0 (String c1 s1) =>
      if within 194 223 c0 then if within 128 191 c1 then Some 1%nat else None
      else
        match s1 with
        | String c2 s2 =>
            if within 224 239 c0 then
              if within (if code c0 =? 224 then 160 else 128) (if code c0 =? 237 then 159 else 191) c1
                 && within 128 191 c2 then Some 2%nat else None
            else
              match s2 with
              | String c3 _ =>
                  if within 240 244 c0 && within (if code c0 =? 240 then 144 else 128)
                                                 (if code c0 =? 244 then 143 else 191) c1
                     && within 128 191 c2 && within 128 191 c3 then Some 3%nat else None
              | EmptyString => None
              end
        | EmptyString => None
        end
  | _ => None
  end.

(** [utf8.EncodeRune]; the replacement character is U+FFFD. *)
Definition utf8_encode (r : Z) : string :=
  if r <? 128 then String (chr r) ""
  else if r <? 2048 then String (chr (192 + r / 64)) (String (chr (128 + r mod 64)) "")
  else if r <? 65536 then
    String (chr (224 + r / 4096)) (String (chr (128 + r / 64 mod 64)) (String (chr (128 + r mod 64)) ""))
  else String (chr (240 + r / 262144)) (String (chr (128 + r / 4096 mod 64))
         (String (chr (128 + r / 64 mod 64)) (String (chr (128 + r mod 64)) ""))).
Definition replacement : string := utf8_encode 65533.

(** ** Reading strings *)

(** Four hexadecimal digits; [hex_value] takes both cases. *)
Definition u4 (a b c d : ascii) : option Z :=
  x ← hex_value a; y ← hex_value b; z ← hex_value c; w ← hex_value d;
  Some (x * 4096 + y * 256 + z * 16 + w).

(** The characters after a backslash that stand for one character. *)
Definition escaped (e : ascii) : option ascii :=
  if Ascii.eqb e dquote || Ascii.eqb e backslash || Ascii.eqb e "/" then Some e
  else if Ascii.eqb e "b" then Some "008"%char
  else if Ascii.eqb e "f" then Some "012"%char
  else if Ascii.eqb e "n" then Some "010"%char
  else if Ascii.eqb e "r" then Some "013"%char
  else if Ascii.eqb e "t" then Some "009"%char
  else None.

(** The scanner inside a string: the text up to the closing quote and the rest. *)
Fixpoint scan_string (s : string) : option (string * string) :=
  match s with
  | EmptyString => None
  | String c s' =>
      if Ascii.eqb c dquote then Some ("", s')
      else if Ascii.eqb c backslash then
        match s' with
        | EmptyString => None
        | String e t =>
            if Ascii.eqb e "u" then
              match t with
              | String a (String b (String c' (String d t'))) =>
                  _ ← u4 a b c' d; '(raw, rest) ← scan_string t';
                  Some (String c (String e (String a (String b (String c' (String d raw))))), rest)
              | _ => None
              end
            else _ ← escaped e; '(raw, rest) ← scan_string t; Some (String c (String e raw), rest)
        end
      else if code c <? 32 then None
      else '(raw, rest) ← scan_string s'; Some (String c raw, rest)
  end.

(** [unquote] on the text of a scanned string; [n] bytes of a character are left to be
    copied.  A surrogate that is not the first of a pair, and a byte that is not part of
    a valid character, is replaced. *)
Fixpoint unquote (n : nat) (s : string) : string :=
  match s with
  | EmptyString => EmptyString
  | String c s' =>
      match n with
      | S n' => String c (unquote n' s')
      | O =>
          if Ascii.eqb c backslash then
            match s' with
            | EmptyString => EmptyString
            | String e t =>
                if Ascii.eqb e "u" then
                  match t with
                  | String a (String b (String c' (String d t'))) =>
                      let r := default 0 (u4 a b c' d) in
                      if (55296 <=? r) && (r <? 57344) then
                        match t' with
                        | String k (String v (String a2 (String b2 (String c2 (String d2 t2))))) =>
                            let r2 := default 0 (u4 a2 b2 c2 d2) in
                            if Ascii.eqb k backslash && Ascii.eqb v "u" && (r <? 56320) && (56320 <=? r2) && (r2 <? 57344)
                            then utf8_encode ((r - 55296) * 1024 + (r2 - 56320) + 65536) +:+ unquote O t2
                            else replacement +:+ unquote O t'
                        | _ => replacement +:+ unquote O t'
                        end
                      else utf8_encode r +:+ unquote O t'
                  | _ => EmptyString
                  end
                else String (default e (escaped e)) (unquote O t)
            end
          else if code c <? 128 then String c (unquote O s')
          else match rune_tail s with
               | Some k => String c (unquote k s')
               | None => replacement +:+ unquote O s'
               end
      end
  end.

(** ** Reading numbers *)

Fixpoint span_digits (s : string) : string * string :=
  match s with
  | String c s' => if is_num c then let (d, rest) := span_digits s' in (String c d, rest) else ("", s)
  | EmptyString => ("", "")
  end.

Definition some_digits (s : string) : option (string * string) :=
  match span_digits s with (EmptyString, _) => None | r => Some r end.

(** The part before the point: no digit follows a leading zero. *)
Definition scan_int (s : string) : option (string * string) :=
  match s with
  | String c s' => if Ascii.eqb c "0" then Some ("0", s') else some_digits s
  | EmptyString => None
  end.

Definition scan_frac (s : string) : option (string * string) :=
  match s with
  | String c s' => if Ascii.eqb c "." then '(d, rest) ← some_digits s'; Some (String c d, rest) else Some ("", s)
  | EmptyString => Some ("", s)
  end.

Definition scan_exp (s : string) : option (string * string) :=
  match s with
  | String c s' =>
      if Ascii.eqb c "e" || Ascii.eqb c "E" then
        match s' with
        | String g s'' =>
            if Ascii.eqb g "+" || Ascii.eqb g "-"
            then '(d, rest) ← some_digits s''; Some (String c (String g d), rest)
            else '(d, rest) ← some_digits s'; Some (String c d, rest)
        | EmptyString => None
        end
      else Some ("", s)
  | EmptyString => Some ("", s)
  end.

Definition scan_unsigned (s : string) : option (string * string) :=
  '(i, s1) ← scan_int s; '(f, s2) ← scan_frac s1; '(e, rest) ← scan_exp s2;
  Some (i +:+ f +:+ e, rest).

Definition scan_number (s : string) : option (string * string) :=
  match s with
  | String c s' =>
      if Ascii.eqb c "-" then '(t, rest) ← scan_unsigned s'; Some (String c t, rest) else scan_unsigned s
  | EmptyString => None
  end.

(** ** Reading values *)

(** The rest of a string after a prefix. *)
Fixpoint strip (p s : string) : option string :=
  match p, s with
  | EmptyString, _ => Some s
  | String a p', String c s' => if Ascii.eqb a c then strip p' s' else None
  | _, EmptyString => None
  end.

(** The elements of an array and the members of an object, after the opening bracket
    of one that is not empty.  Every round takes a character, so the length of the
    text is enough fuel. *)
Fixpoint parse_elements (pv : string -> option (json * string)) (fuel : nat) (s : string)
    : option (list json * string) :=
  match fuel with
  | O => None
  | S fuel' =>
      '(v, s1) ← pv s;
      match skip_space s1 with
      | String c s2 =>
          if Ascii.eqb c "," then '(l, rest) ← parse_elements pv fuel' s2; Some (v :: l, rest)
          else if Ascii.eqb c "]" then Some ([v], s2)
          else None
      | EmptyString => None
      end
  end.

Fixpoint parse_members (pv : string -> option (json * string)) (fuel : nat) (s : string)
    : option (list (string * json) * string) :=
  match fuel with
  | O => None
  | S fuel' =>
      s1 ← strip (String dquote "") (skip_space s);
      '(key, s2) ← scan_string s1;
      s3 ← strip ":" (skip_space s2);
      '(v, s4) ← pv s3;
      match skip_space s4 with
      | String c s5 =>
          if Ascii.eqb c "," then
            '(l, rest) ← parse_members pv fuel' s5; Some ((unquote O key, v) :: l, rest)
          else if Ascii.eqb c "}" then Some ([(unquote O key, v)], s5)
          else None
      | EmptyString => None
      end
  end.

(** A value nested [depth] times at most, and the rest of the text. *)
Fixpoint parse_value (depth : nat) (s : string) {struct depth} : option (json * string) :=
  match skip_space s with
  | EmptyString => None
  | String c s' =>
      if Ascii.eqb c dquote then '(raw, rest) ← scan_string s'; Some (JString (unquote O raw), rest)
      else if Ascii.eqb c "[" then
        match depth with
        | O => None
        | S depth' =>
            match strip "]" (skip_space s') with
            | Some rest => Some (JArray [], rest)
            | None =>
                '(l, rest) ← parse_elements (parse_value depth') (String.length s') s'; Some (JArray l, rest)
            end
        end
      else if Ascii.eqb c "{" then
        match depth with
        | O => None
        | S depth' =>
            match strip "}" (skip_space s') with
            | Some rest => Some (JObject [], rest)
            | None =>
                '(l, rest) ← parse_members (parse_value depth') (String.length s') s'; Some (JObject l, rest)
            end
        end
      else if Ascii.eqb c "n" then rest ← strip "ull" s'; Some (JNull, rest)
      else if Ascii.eqb c "t" then rest ← strip "rue" s'; Some (JBool true, rest)
      else if Ascii.eqb c "f" then rest ← strip "alse" s'; Some (JBool false, rest)
      else '(t, rest) ← scan_number (String c s'); Some (JNumber t, rest)
  end.

Definition maxNestingDepth : nat := Z.to_nat 10000.

(** [checkValid]: one value and nothing but space around it. *)
Definition parse_with (depth : nat) (s : string) : res json :=
  match parse_value depth s with
  | Some (v, rest) => if bool_decide (skip_space rest = "") then Ok v else Err "invalid character after top-level value"
  | None => Err "invalid JSON"
  end.
Definition json_parse (s : string) : res json := parse_with maxNestingDepth s.

(** ** Writing *)

(** A character below 128 in a string: quotes, control characters and those that mean
    something in HTML are escaped. *)
Definition quote_char (c : ascii) : string :=
  if Ascii.eqb c dquote || Ascii.eqb c backslash then String backslash (String c "")
  else if code c =? 10 then String backslash "n"
  else if code c =? 13 then String backslash "r"
  else if code c =? 9 then String backslash "t"
  else if (code c <? 32) || Ascii.eqb c "<" || Ascii.eqb c ">" || Ascii.eqb c "&"
  then String backslash ("u00" +:+ String (hex_digit (code c / 16)) (String (hex_digit (code c mod 16)) ""))
  else String c "".

(** [n] bytes of a character are left to be copied.  The line separators U+2028 and
    U+2029 are escaped, bytes that are not part of a character are replaced. *)
Fixpoint quote (n : nat) (s : string) : string :=
  match s with
  | EmptyString => EmptyString
  | String c s' =>
      match n with
      | S n' => String c (quote n' s')
      | O =>
          if code c <? 128 then quote_char c +:+ quote O s'
          else
            match rune_tail s with
            | None => String backslash "ufffd" +:+ quote O s'
            | Some k =>
                match s' with
                | String c1 (String c2 t) =>
                    if (code c =? 226) && (code c1 =? 128) && ((code c2 =? 168) || (code c2 =? 169))
                    then String backslash "u202" +:+ String (hex_digit (code c2 mod 16)) (quote O t)
                    else String c (quote k s')
                | _ => String c (quote k s')
                end
            end
      end
  end.

Definition print_string (s : string) : string := String dquote (quote O s +:+ String dquote "").

Fixpoint json_print (j : json) : string :=
  match j with
  | JNull => "null"
  | JBool b => if b then "true" else "false"
  | JNumber t => t
  | JString s => print_string s
  | JArray l => "[" +:+ String.concat "," (map json_print l) +:+ "]"
  | JObject fields =>
      "{" +:+ String.concat "," (map (fun '(key, v) => print_string key +:+ ":" +:+ json_print v) fields) +:+ "}"
  end.

(** ** Decoding into Go types

    A value is stored into a variable of a type, which keeps its contents when the value
    is [null].  An error anywhere makes [json.Unmarshal] return an error. *)

Definition json_type_error {A} : res A := Err "json: cannot unmarshal".

Definition into_string (cur : string) (j : json) : res string :=
  match j with JNull => Ok cur | JString s => Ok s | _ => json_type_error end.
Definition into_bool (cur : bool) (j : json) : res bool :=
  match j with JNull => Ok cur | JBool b => Ok b | _ => json_type_error end.

(** Integers of a width: the text is a decimal integer in range. *)
Definition into_uint (bits : Z) (cur : Z) (j : json) : res Z :=
  match j with
  | JNull => Ok cur
  | JNumber t => match ParseUint t bits with Ok z => Ok z | _ => json_type_error end
  | _ => json_type_error
  end.
Definition into_int (bits : Z) (cur : Z) (j : json) : res Z :=
  match j with
  | JNull => Ok cur
  | JNumber t => match ParseInt t bits with Ok z => Ok z | _ => json_type_error end
  | _ => json_type_error
  end.

(** A slice: [null] is the nil slice, which is empty. *)
Fixpoint into_elements {A} (into : json -> res A) (l : list json) : res (list A) :=
  match l with
  | [] => Ok []
  | j :: l' => a ← into j; rest ← into_elements into l'; Ok (a :: rest)
  end.
Definition into_slice {A} (into : json -> res A) (j : json) : res (list A) :=
  match j with JNull => Ok [] | JArray l => into_elements into l | _ => json_type_error end.

(** The base64 decoder ignores line ends. *)
Fixpoint strip_lines (s : string) : string :=
  match s with
  | EmptyString => EmptyString
  | String c s' => if (code c =? 10) || (code c =? 13) then strip_lines s' else String c (strip_lines s')
  end.

(** A byte slice is a base64 string, or an array of numbers. *)
Definition into_bytes (j : json) : res bytes :=
  match j with
  | JString s => from_opt "illegal base64 data" (base64_decode (strip_lines s))
  | _ => l ← into_slice (into_uint 8 0) j; Ok (map byte_of l)
  end.

#[global] Arguments fmt_d : simpl never.
#[global] Arguments into_uint : simpl never.
#[global] Arguments into_int : simpl never.
#[global] Arguments into_bytes : simpl never.

(** The key of an object in the form in which field names are compared: letters in
    lower case, with the long s and the Kelvin sign as s and k. *)
Fixpoint fold_key (s : string) : string :=
  match s with
  | EmptyString => EmptyString
  | String c s' =>
      let one := String (if within 65 90 c then chr (code c + 32) else c) (fold_key s') in
      match s' with
      | String c1 t =>
          if (code c =? 197) && (code c1 =? 191) then String "s" (fold_key t)
          else
            match t with
            | String c2 t' =>
                if (code c =? 226) && (code c1 =? 132) && (code c2 =? 170) then String "k" (fold_key t') else one
            | EmptyString => one
            end
      | EmptyString => one
      end
  end.

(** The field of a struct that a key names: the one of that name, or else the first one
    whose name is the same up to case. *)
Definition field_of (names : list string) (key : string) : option string :=
  if bool_decide (key ∈ names) then Some key
  else snd <$> list_find (fun name => fold_key name = fold_key key) names.

(** A struct: the members in their order, those that name no field ignored. *)
Definition into_struct {A} (names : list string) (store : A -> string -> json -> res A) (zero : A) (j : json)
    : res A :=
  match j with
  | JNull => Ok zero
  | JObject fields =>
      foldl (fun acc '(key, v) =>
        a ← acc; match field_of names key with Some name => store a name v | None => Ok a end) (Ok zero) fields
  | _ => json_type_error
  end.

(** ** What is written is read back *)

(** Text of characters below 128. *)
Definition ascii_text (s : string) : bool := str_forall (fun c => code c <? 128) s.

(** All characters below 128 have a property that holds for each of them. *)
Lemma plain_char (P : ascii -> bool) c :
  forallb (fun n => P (chr n)) (seqZ 0 128) = true -> (code c <? 128) = true -> P c = true.
Proof.
  intros Hall Hc. rewrite List.forallb_forall in Hall. unfold code in Hc.
  replace c with (chr (Z.of_nat (Ascii.nat_of_ascii c))).
  - apply Hall, list_elem_of_In, elem_of_seqZ. lia.
  - unfold chr. rewrite Nat2Z.id. apply Ascii.ascii_nat_embedding.
Qed.

(** The forms a character is written in. *)
Inductive char_form (c : ascii) : string -> Prop :=
| form_plain : Ascii.eqb c dquote = false -> Ascii.eqb c backslash = false -> (code c <? 32) = false ->
    char_form c (String c "")
| form_escape e : Ascii.eqb e "u" = false -> escaped e = Some c -> char_form c (String backslash (String e ""))
| form_hex a b : u4 "0" "0" a b = Some (code c) ->
    char_form c (String backslash (String "u" (String "0" (String "0" (String a (String b "")))))).

Definition form_test (c : ascii) : bool :=
  match quote_char c with
  | String d EmptyString =>
      Ascii.eqb c d && negb (Ascii.eqb c dquote) && negb (Ascii.eqb c backslash) && negb (code c <? 32)
  | String k (String e EmptyString) =>
      Ascii.eqb k backslash && negb (Ascii.eqb e "u") && bool_decide (escaped e = Some c)
  | String k (String e (String x (String y (String a (String b EmptyString))))) =>
      Ascii.eqb k backslash && Ascii.eqb e "u" && Ascii.eqb x "0" && Ascii.eqb y "0"
      && bool_decide (u4 "0" "0" a b = Some (code c))
  | _ => false
  end.

Lemma quote_char_form c : (code c <? 128) = true -> char_form c (quote_char c).
Proof.
  intros Hc. pose proof (plain_char form_test c ltac:(vm_compute; reflexivity) Hc) as Ht.
  unfold form_test in Ht. destruct (quote_char c) as [|k [|e [|x [|y [|a [|b [|]]]]]]]; try done.
  - rewrite !andb_true_iff, !negb_true_iff in Ht. destruct Ht as [[[<-%Ascii.eqb_eq ?] ?] ?]. by constructor.
  - rewrite !andb_true_iff, negb_true_iff, bool_decide_eq_true in Ht.
    destruct Ht as [[->%Ascii.eqb_eq ?] ?]. by constructor.
  - rewrite !andb_true_iff, bool_decide_eq_true in Ht.
    destruct Ht as [[[[->%Ascii.eqb_eq ->%Ascii.eqb_eq] ->%Ascii.eqb_eq] ->%Ascii.eqb_eq] ?]. by constructor.
Qed.

Lemma scan_quote s rest : ascii_text s = true -> scan_string (quote O s +:+ String dquote rest) = Some (quote O s, rest).
Proof.
  induction s as [|c s IH]; intros Hp; [done|]. apply andb_true_iff in Hp as [Hc Hp].
  cbn [quote]. rewrite Hc, str_app_assoc. specialize (IH Hp).
  destruct (quote_char_form c Hc) as [? ? ? | e He Hd | a b Hu]; rewrite !str_app_String, str_app_nil_l.
  - cbn [scan_string]. rewrite H, H0, H1, IH. done.
  - cbn [scan_string]. cbn [Ascii.eqb]. change (Ascii.eqb backslash dquote) with false.
    change (Ascii.eqb backslash backslash) with true. cbn iota. rewrite He, Hd. cbn. by rewrite IH.
  - cbn [scan_string]. change (Ascii.eqb backslash dquote) with false.
    change (Ascii.eqb backslash backslash) with true. change (Ascii.eqb "u" "u") with true. cbn iota.
    rewrite Hu. cbn. by rewrite IH.
Qed.

Lemma unquote_quote s : ascii_text s = true -> unquote O (quote O s) = s.
Proof.
  induction s as [|c s IH]; intros Hp; [done|]. apply andb_true_iff in Hp as [Hc Hp].
  cbn [quote]. rewrite Hc. specialize (IH Hp).
  destruct (quote_char_form c Hc) as [Hq Hb ?|e He Hd|a b Hu]; rewrite !str_app_String, str_app_nil_l.
  - cbn [unquote]. by rewrite Hb, Hc, IH.
  - cbn [unquote]. change (Ascii.eqb backslash backslash) with true. cbn iota. rewrite He, Hd. cbn. by rewrite IH.
  - cbn [unquote]. change (Ascii.eqb backslash backslash) with true. change (Ascii.eqb "u" "u") with true.
    cbn iota. rewrite Hu. unfold default, from_option, id. cbv zeta.
    replace (55296 <=? code c) with false by lia. cbn [andb].
    assert (utf8_encode (code c) = String c "") as ->; [|by rewrite IH].
    unfold utf8_encode, chr, code in *. by rewrite Hc, Nat2Z.id, Ascii.ascii_nat_embedding.
Qed.

(** No control characters. *)
Definition visible (s : string) : bool := str_forall (fun c => negb (code c <? 32)) s.

Lemma visible_app s t : visible (s +:+ t) = visible s && visible t.
Proof. apply str_forall_app. Qed.

Lemma visible_lacks c s : visible s = true -> (code c <? 32) = true -> lacks c s = true.
Proof.
  intros Hs Hc. eapply str_forall_impl; [|exact Hs]. intros x Hx. cbn beta in *.
  destruct (Ascii.eqb x c) eqn:E; [|done]. apply Ascii.eqb_eq in E as ->. by rewrite Hc in Hx.
Qed.

Lemma quote_visible s : ascii_text s = true -> visible (quote O s) = true.
Proof.
  intros Hs. induction s as [|d s IH]; [done|]. apply andb_true_iff in Hs as [Hd Hs].
  cbn [quote]. rewrite Hd, visible_app, (IH Hs), andb_true_r.
  apply (plain_char (fun e => visible (quote_char e))); [vm_compute; reflexivity|done].
Qed.

(** *** Numbers *)

(** What may follow a number. *)
Definition ends_number (rest : string) : bool :=
  match rest with
  | String c _ => negb (is_num c || Ascii.eqb c "." || Ascii.eqb c "e" || Ascii.eqb c "E")
  | EmptyString => true
  end.

Lemma is_num_digit c : is_num c = is_digit c.
Proof.
  unfold is_num, is_digit, code. repeat match goal with
  | |- context [Z.leb ?a ?b] => destruct (Z.leb_spec a b)
  | |- context [Nat.leb ?a ?b] => destruct (Nat.leb_spec a b) end; cbn; lia.
Qed.

Lemma span_digits_app d rest :
  str_forall is_digit d = true -> ends_number rest = true -> span_digits (d +:+ rest) = (d, rest).
Proof.
  intros Hd Hr. induction d as [|c d IH].
  - rewrite str_app_nil_l. destruct rest as [|c rest]; [done|]. cbn in Hr |- *.
    rewrite !negb_true_iff, !orb_false_iff in Hr. by destruct Hr as [[[-> _] _] _].
  - apply andb_true_iff in Hd as [Hc Hd]. rewrite str_app_String. cbn. by rewrite is_num_digit, Hc, IH.
Qed.

Lemma fmt_u_zero z s : fmt_u z = String "0" s -> s = "".
Proof.
  unfold fmt_u. destruct (Z.to_N z) as [|p]; [by intros [= <-]|].
  destruct (N.to_uint (N.pos p)) eqn:E; cbn; try (intros [=]; done).
  exfalso. by apply to_uint_no_zero in E.
Qed.

Lemma scan_fmt_u z rest : ends_number rest = true -> scan_unsigned (fmt_u z +:+ rest) = Some (fmt_u z, rest).
Proof.
  intros Hr. unfold scan_unsigned. pose proof (digits_fmt_u z) as Hd.
  destruct (fmt_u_head z) as (c & s & E & Hc).
  assert (scan_int (fmt_u z +:+ rest) = Some (fmt_u z, rest)) as ->.
  { rewrite E, str_app_String. cbn [scan_int]. destruct (Ascii.eqb_spec c "0") as [->|].
    - apply fmt_u_zero in E as ->. by rewrite str_app_nil_l.
    - unfold some_digits. rewrite <- str_app_String, <- E, span_digits_app by done. by rewrite E. }
  cbn [mbind option_bind]. assert (scan_frac rest = Some ("", rest) /\ scan_exp rest = Some ("", rest)) as [Ef Ee].
  { destruct rest as [|d rest]; [done|]. cbn in Hr |- *. rewrite negb_true_iff, !orb_false_iff in Hr.
    by destruct Hr as [[[_ ->] ->] ->]. }
  rewrite Ef. cbn [mbind option_bind]. rewrite Ee. cbn. by rewrite !str_app_nil_r.
Qed.

Lemma scan_fmt_d z rest : ends_number rest = true -> scan_number (fmt_d z +:+ rest) = Some (fmt_d z, rest).
Proof.
  intros Hr. unfold fmt_d. destruct (z <? 0).
  - rewrite str_app_assoc. cbn [scan_number]. change ("-" +:+ ?x) with (String "-" x). cbn [scan_number].
    change (Ascii.eqb "-" "-") with true. cbn iota. by rewrite scan_fmt_u.
  - destruct (fmt_u_head z) as (c & s & E & Hc). rewrite E at 1. rewrite str_app_String. cbn [scan_number].
    destruct (Ascii.eqb_spec c "-") as [->|]; [done|]. by rewrite <- str_app_String, <- E, scan_fmt_u.
Qed.

(** *** Values *)

(** Values that [json.Marshal] makes of integers and text of characters below 128, nested [depth] times
    at most. *)
Fixpoint printable (depth : nat) (j : json) : Prop :=
  match j with
  | JNull | JBool _ => True
  | JNumber t => exists z, t = fmt_d z
  | JString s => ascii_text s = true
  | JArray l => match depth with O => False | S d => Forall (printable d) l end
  | JObject fields =>
      match depth with
      | O => False
      | S d => Forall (fun f => ascii_text f.1 = true /\ printable d f.2) fields
      end
  end.

(** A character that a hypothesis tells apart from another one. *)
Ltac other_char :=
  match goal with |- Ascii.eqb ?c ?d = false => destruct (Ascii.eqb_spec c d) as [->|]; done end.

Lemma skip_space_head c s : is_space c = false -> skip_space (String c s) = String c s.
Proof. intros Hc. cbn. by rewrite Hc. Qed.

(** The first character of a printed value: not space, and no closing bracket. *)
Definition starts_value (c : ascii) : bool :=
  Ascii.eqb c dquote || Ascii.eqb c "[" || Ascii.eqb c "{" || Ascii.eqb c "n" || Ascii.eqb c "t"
  || Ascii.eqb c "f" || Ascii.eqb c "-" || is_num c.

Lemma starts_value_spec c :
  starts_value c = true -> is_space c = false /\ Ascii.eqb c "]" = false /\ Ascii.eqb c "}" = false.
Proof.
  intros H. unfold starts_value in H. repeat (apply orb_true_iff in H as [H|H]);
    try (apply Ascii.eqb_eq in H as ->; done).
  unfold is_num in H. unfold is_space. split; [lia|].
  split; other_char.
Qed.

Lemma fmt_d_head z : exists c s, fmt_d z = String c s /\ (Ascii.eqb c "-" || is_num c) = true.
Proof.
  unfold fmt_d. destruct (z <? 0); [by eexists _, _|].
  destruct (fmt_u_head z) as (c & s & E & Hc). exists c, s. split; [done|].
  by rewrite is_num_digit, Hc, orb_true_r.
Qed.

Lemma print_head depth j : printable depth j -> exists c s, json_print j = String c s /\ starts_value c = true.
Proof.
  destruct j as [|[]|t|s|l|fs]; cbn [json_print].
  1-3,5-7: by eexists _, _. intros Hj. assert (exists z, t = fmt_d z) as [z ->] by (by destruct depth).
  destruct (fmt_d_head z) as (c & s & E & Hc). exists c, s. split; [done|].
  unfold starts_value. by rewrite <- orb_assoc, Hc, orb_true_r.
Qed.

(** Numbers are what no other rule takes. *)
Lemma parse_number_text depth z rest :
  ends_number rest = true -> parse_value depth (fmt_d z +:+ rest) = Some (JNumber (fmt_d z), rest).
Proof.
  intros Hr. pose proof (scan_fmt_d z rest Hr) as Hs. destruct (fmt_d_head z) as (c & s & E & Hc).
  rewrite E, str_app_String in Hs |- *.
  assert (is_space c = false /\ Ascii.eqb c dquote = false /\ Ascii.eqb c "[" = false /\ Ascii.eqb c "{" = false /\
          Ascii.eqb c "n" = false /\ Ascii.eqb c "t" = false /\ Ascii.eqb c "f" = false) as (H1 & H2 & H3 & H4 & H5 & H6 & H7).
  { apply orb_true_iff in Hc as [->%Ascii.eqb_eq|Hc]; [done|].
    split; [unfold is_space; unfold is_num in Hc; lia|].
    split_and!; other_char. }
  destruct depth; cbn [parse_value]; rewrite (skip_space_head _ _ H1), H2, H3, H4, H5, H6, H7, Hs; done.
Qed.

Lemma strip_app p s : strip p (p +:+ s) = Some s.
Proof. induction p as [|c p IH]; [done|]. rewrite str_app_String. cbn. by rewrite Ascii.eqb_refl. Qed.

Lemma concat_cons sep a b l : String.concat sep (a :: b :: l) = a +:+ sep +:+ String.concat sep (b :: l).
Proof. done. Qed.

Lemma str_length_app s t : String.length (s +:+ t) = (String.length s + String.length t)%nat.
Proof. induction s as [|c s IH]; [done|]. rewrite str_app_String. cbn. by rewrite IH. Qed.

Lemma parse_string_text depth s rest :
  ascii_text s = true -> parse_value depth (print_string s +:+ rest) = Some (JString s, rest).
Proof.
  intros Hs. unfold print_string. rewrite str_app_String, str_app_assoc.
  assert (forall t, skip_space (String dquote t) = String dquote t) as Hsp by done.
  destruct depth; cbn [parse_value]; rewrite Hsp; change (Ascii.eqb dquote dquote) with true; cbn iota;
    rewrite str_app_String, str_app_nil_l, scan_quote by done; cbn; by rewrite unquote_quote.
Qed.

Section containers.
Context (d : nat).
Context (IH : forall j rest, printable d j -> ends_number rest = true ->
                parse_value d (json_print j +:+ rest) = Some (j, rest)).

Lemma parse_print_elements l j rest fuel :
  Forall (printable d) (j :: l) -> (length l < fuel)%nat ->
  parse_elements (parse_value d) fuel (String.concat "," (map json_print (j :: l)) +:+ "]" +:+ rest) = Some (j :: l, rest).
Proof.
  revert j fuel. induction l as [|k l IHl]; intros j [|fuel] Hall Hf; [cbn in Hf; lia| |cbn in Hf; lia|].
  - apply list.Forall_cons in Hall as [Hj _]. cbn [map String.concat parse_elements]. rewrite IH by done. done.
  - apply list.Forall_cons in Hall as [Hj Hall]. cbn [map]. rewrite concat_cons, !str_app_assoc.
    cbn [parse_elements]. rewrite IH by done. cbn [mbind option_bind].
    change (skip_space ("," +:+ ?x)) with (String "," x). cbn iota.
    change (Ascii.eqb "," ",") with true. cbn iota. cbn [map] in IHl. rewrite IHl; [done|done|cbn in Hf; lia].
Qed.

Abbreviation member := (fun '(key, v) => print_string key +:+ ":" +:+ json_print v).
Abbreviation member_ok := (fun f : string * json => ascii_text f.1 = true /\ printable d f.2).

(** A key and what follows its colon. *)
Lemma parse_print_members l f rest fuel :
  Forall member_ok (f :: l) -> (length l < fuel)%nat ->
  parse_members (parse_value d) fuel (String.concat "," (map member (f :: l)) +:+ "}" +:+ rest) = Some (f :: l, rest).
Proof.
  assert (forall key t, skip_space (print_string key +:+ t) = print_string key +:+ t) as Hsp by done.
  assert (forall key t, strip (String dquote "") (print_string key +:+ t)
            = Some (quote O key +:+ String dquote t)) as Hst.
  { intros key t. unfold print_string. rewrite str_app_String, str_app_assoc. done. }
  revert f fuel. induction l as [|g l IHl]; intros [key v] [|fuel] Hall Hf; [cbn in Hf; lia| |cbn in Hf; lia|];
    apply list.Forall_cons in Hall as [[Hk Hv] Hall]; cbn [fst snd] in Hk, Hv.
  - cbn [map String.concat parse_members]. rewrite !str_app_assoc, Hsp, Hst. cbn [mbind option_bind].
    rewrite scan_quote by done. cbn [mbind option_bind]. change (skip_space (":" +:+ ?x)) with (":" +:+ x).
    rewrite strip_app. cbn [mbind option_bind]. rewrite IH by done. cbn. by rewrite unquote_quote.
  - cbn [map]. rewrite concat_cons, !str_app_assoc. cbn [parse_members]. rewrite Hsp, Hst. cbn [mbind option_bind].
    rewrite scan_quote by done. cbn [mbind option_bind]. change (skip_space (":" +:+ ?x)) with (":" +:+ x).
    rewrite strip_app. cbn [mbind option_bind]. rewrite IH by done. cbn [mbind option_bind].
    change (skip_space ("," +:+ ?x)) with (String "," x). cbn iota.
    change (Ascii.eqb "," ",") with true. cbn iota. cbn [map] in IHl. rewrite IHl; [|done|cbn in Hf; lia].
    cbn. by rewrite unquote_quote.
Qed.
End containers.

Lemma concat_length sep x l : String.length sep = 1%nat ->
  (length l <= String.length (String.concat sep (x :: l)))%nat.
Proof.
  intros Hs. revert x. induction l as [|y l IH]; intros x; [cbn; lia|].
  rewrite concat_cons, !str_length_app. specialize (IH y). cbn [length]. lia.
Qed.

Lemma concat_head sep x l c s : x = String c s -> exists s', String.concat sep (x :: l) = String c s'.
Proof. intros ->. destruct l as [|y l]; [by eexists|]. rewrite concat_cons, str_app_String. by eexists. Qed.

(** The text of elements starts with the first one. *)
Lemma no_closing close c s rest :
  starts_value c = true -> close = "]"%char \/ close = "}"%char ->
  strip (String close "") (skip_space (String c s +:+ rest)) = None.
Proof.
  intros (Hs & H1 & H2)%starts_value_spec Hc. rewrite str_app_String, skip_space_head by done. cbn.
  destruct Hc as [->| ->]; by rewrite Ascii.eqb_sym, ?H1, ?H2.
Qed.

Lemma parse_print depth j rest :
  printable depth j -> ends_number rest = true -> parse_value depth (json_print j +:+ rest) = Some (j, rest).
Proof.
  revert j rest. induction depth as [|d IH]; intros j rest Hj Hr.
  { destruct j as [|[]|t|s|l|fs]; cbn [json_print]; try done; [|by apply parse_string_text].
    destruct Hj as [z ->]. by apply parse_number_text. }
  destruct j as [|[]|t|s|l|fs]; cbn [json_print]; try done; [|by apply parse_string_text|..].
  - destruct Hj as [z ->]. by apply parse_number_text.
  - rewrite !str_app_assoc. cbn [parse_value]. change (skip_space ("[" +:+ ?x)) with (String "[" x). cbn iota.
    change (Ascii.eqb "[" dquote) with false. change (Ascii.eqb "[" "[") with true. cbn iota.
    destruct l as [|k l]; [done|]. cbn in Hj. pose proof Hj as [Hk _]%list.Forall_cons.
    destruct (print_head _ _ Hk) as (c & s & E & Hc).
    destruct (concat_head "," _ (map json_print l) _ _ E) as [s' E']. cbn [map].
    rewrite E' at 1. rewrite (no_closing "]" c s') by auto. cbn iota.
    rewrite (parse_print_elements d IH l k rest); [done|done|].
    pose proof (concat_length "," (json_print k) (map json_print l) eq_refl) as Hl.
    rewrite !str_length_app. rewrite length_map in Hl. cbn [String.length]. lia.
  - rewrite !str_app_assoc. cbn [parse_value]. change (skip_space ("{" +:+ ?x)) with (String "{" x). cbn iota.
    change (Ascii.eqb "{" dquote) with false. change (Ascii.eqb "{" "[") with false.
    change (Ascii.eqb "{" "{") with true. cbn iota.
    destruct fs as [|[key v] fs]; [done|]. cbn in Hj.
    set (member := fun '(key, v) => print_string key +:+ ":" +:+ json_print v).
    destruct (concat_head "," (member (key, v)) (map member fs) dquote _ eq_refl) as [s' E']. cbn [map].
    rewrite E' at 1. rewrite (no_closing "}" dquote s') by auto. cbn iota.
    rewrite (parse_print_members d IH fs (key, v) rest); [done|done|].
    pose proof (concat_length "," (member (key, v)) (map member fs) eq_refl) as Hl.
    rewrite !str_length_app. rewrite length_map in Hl. cbn [String.length]. lia.
Qed.

(** What is printed is one document. *)
Lemma json_roundtrip_text depth j :
  printable depth j -> parse_with depth (json_print j) = Ok j.
Proof.
  intros Hj. unfold parse_with. rewrite <- (str_app_nil_r (json_print j)), parse_print by done.
  by rewrite bool_decide_eq_true_2.
Qed.

Lemma printable_mono d d' j : (d <= d')%nat -> printable d j -> printable d' j.
Proof.
  revert d' j. induction d as [|d IH]; intros [|d'] j Hd; [done| |lia|].
  - by destruct j.
  - assert (forall k, printable d k -> printable d' k) as Hk by (intros; apply IH; [lia|done]).
    destruct j as [| | | |l|fs]; [done..| |]; cbn; intros Hall;
      (eapply list.Forall_impl; [exact Hall|]); cbn; naive_solver.
Qed.

Lemma json_parse_print d j : (d <= 100)%nat -> printable d j -> json_parse (json_print j) = Ok j.
Proof. intros Hd Hj. apply json_roundtrip_text. eapply printable_mono; [|exact Hj]. unfold maxNestingDepth. lia. Qed.

(** ** The parser reads at least one character

    so that the length of the text is enough fuel for its elements and members. *)

Lemma skip_space_length s : (String.length (skip_space s) <= String.length s)%nat.
Proof. induction s as [|c s IH]; cbn; [done|]. destruct (is_space c); cbn; lia. Qed.

Lemma strip_length p s rest : strip p s = Some rest -> String.length s = (String.length p + String.length rest)%nat.
Proof.
  revert s. induction p as [|a p IH]; intros [|c s] E; cbn in *; simplify_eq; [done..|].
  destruct (Ascii.eqb a c); [|done]. by rewrite (IH _ E).
Qed.

Lemma scan_string_length s raw rest : scan_string s = Some (raw, rest) -> (String.length rest < String.length s)%nat.
Proof.
  revert raw. induction s as [s IH] using (induction_ltof1 _ String.length). unfold ltof in IH. intros raw E.
  destruct s as [|c s]; [done|]. cbn [scan_string] in E.
  repeat case_match; simplify_eq; simplify_option_eq; repeat case_match; simplify_eq; cbn;
    repeat match goal with H : scan_string _ = Some _ |- _ => apply IH in H; [|cbn; lia] end; cbn in *; lia.
Qed.

Lemma span_digits_length s d rest :
  span_digits s = (d, rest) -> String.length s = (String.length d + String.length rest)%nat.
Proof.
  revert d rest. induction s as [|c s IH]; intros d rest E; cbn in E; simplify_eq; [done|].
  destruct (is_num c); [|by simplify_eq]. destruct (span_digits s) as [d' r] eqn:Es. simplify_eq.
  cbn. by rewrite (IH _ _ eq_refl).
Qed.

Lemma some_digits_length s d rest : some_digits s = Some (d, rest) -> (String.length rest < String.length s)%nat.
Proof.
  unfold some_digits. destruct (span_digits s) as [[|a d'] r] eqn:E; [done|]. intros [= <- <-].
  apply span_digits_length in E. cbn in E. lia.
Qed.

Lemma scan_unsigned_length s t rest : scan_unsigned s = Some (t, rest) -> (String.length rest < String.length s)%nat.
Proof.
  unfold scan_unsigned. intros E. destruct (scan_int s) as [[i s1]|] eqn:Ei; [|done]. cbn in E.
  destruct (scan_frac s1) as [[f s2]|] eqn:Ef; [|done]. cbn in E.
  destruct (scan_exp s2) as [[e s3]|] eqn:Ee; [|done]. cbn in E. simplify_eq.
  assert (String.length s1 < String.length s)%nat.
  { unfold scan_int in Ei. repeat case_match; simplify_eq; [cbn; lia|]. by eapply some_digits_length. }
  assert (String.length s2 <= String.length s1)%nat.
  { unfold scan_frac in Ef. destruct s1 as [|c s1]; [by simplify_eq|].
    destruct (Ascii.eqb c "."); [|by simplify_eq]. destruct (some_digits s1) as [[d r]|] eqn:Ed; [|done].
    cbn in Ef. simplify_eq. apply some_digits_length in Ed. cbn. lia. }
  assert (String.length rest <= String.length s2)%nat; [|lia].
  unfold scan_exp in Ee. destruct s2 as [|c s2]; [by simplify_eq|]. destruct (_ || _); [|by simplify_eq].
  destruct s2 as [|g s2]; [done|].
  destruct (_ || _);
    (destruct (some_digits _) as [[d r]|] eqn:Ed; [|done]); cbn in Ee; simplify_eq;
    apply some_digits_length in Ed; cbn in *; lia.
Qed.

Lemma scan_number_length s t rest : scan_number s = Some (t, rest) -> (String.length rest < String.length s)%nat.
Proof.
  destruct s as [|c s]; [done|]. unfold scan_number. destruct (Ascii.eqb c "-"); [|apply scan_unsigned_length].
  destruct (scan_unsigned s) as [[t' r]|] eqn:E; [|done]. cbn. intros [= <- <-].
  apply scan_unsigned_length in E. cbn. lia.
Qed.

(** A reader of values that takes at least one character. *)
Definition consumes (pv : string -> option (json * string)) : Prop :=
  forall s v rest, pv s = Some (v, rest) -> (String.length rest < String.length s)%nat.

Section consumes.
Context (pv : string -> option (json * string)) (Hpv : consumes pv).

Lemma consumes_space s v s1 c s2 :
  pv s = Some (v, s1) -> skip_space s1 = String c s2 -> (String.length s2 < String.length s)%nat.
Proof. intros E%Hpv Hs. pose proof (skip_space_length s1) as Hl. rewrite Hs in Hl. cbn in Hl. lia. Qed.

(** The text after the colon of a member. *)
Lemma member_length s s1 key s2 s3 :
  strip (String dquote "") (skip_space s) = Some s1 -> scan_string s1 = Some (key, s2) ->
  strip ":" (skip_space s2) = Some s3 -> (String.length s3 < String.length s)%nat.
Proof.
  intros E1%strip_length E2%scan_string_length E3%strip_length.
  pose proof (skip_space_length s). pose proof (skip_space_length s2). cbn in *. lia.
Qed.

(** The length of the text is enough: more fuel does not change what is read. *)
Lemma parse_elements_fuel n m s :
  (String.length s <= n)%nat -> (String.length s <= m)%nat -> parse_elements pv n s = parse_elements pv m s.
Proof.
  revert m s. assert (pv "" = None) as He.
  { destruct (pv "") as [[v r]|] eqn:E; [|done]. apply Hpv in E. cbn in E. lia. }
  induction n as [|n IH]; intros [|m] s Hn Hm; [done|destruct s; [cbn; by rewrite He|cbn in *; lia]..|].
  cbn [parse_elements]. destruct (pv s) as [[v s1]|] eqn:E; [|done]. cbn [mbind option_bind].
  destruct (skip_space s1) as [|c s2] eqn:Es; [done|]. pose proof (consumes_space _ _ _ _ _ E Es).
  by rewrite (IH m s2) by lia.
Qed.

Lemma parse_members_fuel n m s :
  (String.length s <= n)%nat -> (String.length s <= m)%nat -> parse_members pv n s = parse_members pv m s.
Proof.
  revert m s. induction n as [|n IH]; intros [|m] s Hn Hm; [done|by destruct s; [|cbn in *; lia]..|].
  cbn [parse_members]. destruct (strip _ (skip_space s)) as [s1|] eqn:E1; [|done]. cbn [mbind option_bind].
  destruct (scan_string s1) as [[key s2]|] eqn:E2; [|done]. cbn [mbind option_bind].
  destruct (strip _ (skip_space s2)) as [s3|] eqn:E3; [|done]. cbn [mbind option_bind].
  pose proof (member_length _ _ _ _ _ E1 E2 E3).
  destruct (pv s3) as [[v s4]|] eqn:E4; [|done]. cbn [mbind option_bind].
  destruct (skip_space s4) as [|c s5] eqn:E5; [done|]. pose proof (consumes_space _ _ _ _ _ E4 E5).
  by rewrite (IH m s5) by lia.
Qed.

Lemma parse_elements_length n s l rest :
  parse_elements pv n s = Some (l, rest) -> (String.length rest < String.length s)%nat.
Proof.
  revert s l. induction n as [|n IH]; intros s l E; [done|]. cbn [parse_elements] in E.
  destruct (pv s) as [[v s1]|] eqn:E1; [|done]. cbn [mbind option_bind] in E.
  destruct (skip_space s1) as [|c s2] eqn:Es; [done|]. pose proof (consumes_space _ _ _ _ _ E1 Es).
  destruct (Ascii.eqb c ","); [|by case_match; simplify_eq].
  destruct (parse_elements pv n s2) as [[l' r]|] eqn:E2; [|done]. cbn in E. simplify_eq. apply IH in E2. lia.
Qed.

Lemma parse_members_length n s l rest :
  parse_members pv n s = Some (l, rest) -> (String.length rest < String.length s)%nat.
Proof.
  revert s l. induction n as [|n IH]; intros s l E; [done|]. cbn [parse_members] in E.
  destruct (strip _ (skip_space s)) as [s1|] eqn:E1; [|done]. cbn [mbind option_bind] in E.
  destruct (scan_string s1) as [[key s2]|] eqn:E2; [|done]. cbn [mbind option_bind] in E.
  destruct (strip _ (skip_space s2)) as [s3|] eqn:E3; [|done]. cbn [mbind option_bind] in E.
  pose proof (member_length _ _ _ _ _ E1 E2 E3).
  destruct (pv s3) as [[v s4]|] eqn:E4; [|done]. cbn [mbind option_bind] in E.
  destruct (skip_space s4) as [|c s5] eqn:E5; [done|]. pose proof (consumes_space _ _ _ _ _ E4 E5).
  destruct (Ascii.eqb c ","); [|by case_match; simplify_eq; lia].
  destruct (parse_members pv n s5) as [[l' r]|] eqn:E6; [|done]. cbn in E. simplify_eq. apply IH in E6. lia.
Qed.
End consumes.

(** What is left after a reader whose value is wrapped. *)
Lemma bind_rest {A B} (o : option (A * string)) (f : A -> B) v rest :
  ('(a, r) ← o; Some (f a, r)) = Some (v, rest) -> exists a, o = Some (a, rest).
Proof. destruct o as [[a r]|]; cbn; [|done]. intros [= <- <-]. by exists a. Qed.

Lemma word_length p (j : json) s v rest :
  (r ← strip p s; Some (j, r)) = Some (v, rest) -> (String.length rest <= String.length s)%nat.
Proof.
  destruct (strip p s) as [r|] eqn:E; cbn; [|done]. intros [= _ <-]. apply strip_length in E. lia.
Qed.

(** A bracketed value: empty, or read by a reader that takes a character. *)
Lemma bracket_length {A} close (e : json) (o : option (A * string)) (f : A -> json) s v rest :
  (forall l r, o = Some (l, r) -> (String.length r < String.length s)%nat) ->
  match strip close (skip_space s) with
  | Some r => Some (e, r)
  | None => '(l, r) ← o; Some (f l, r)
  end = Some (v, rest) -> (String.length rest <= String.length s)%nat.
Proof.
  intros Ho. pose proof (skip_space_length s). destruct (strip close (skip_space s)) as [r|] eqn:E.
  - intros [= _ <-]. apply strip_length in E. lia.
  - intros [l El]%bind_rest. apply Ho in El. lia.
Qed.

(** The reader of values takes a character, at every depth. *)
Lemma parse_value_consumes depth : consumes (parse_value depth).
Proof.
  induction depth as [|depth IH]; intros s v rest E; pose proof (skip_space_length s) as Hl; cbn [parse_value] in E;
    (destruct (skip_space s) as [|c s'] eqn:Es; [done|]); cbn [String.length] in Hl;
    (destruct (Ascii.eqb c dquote); [apply bind_rest in E as [? E%scan_string_length]; lia|]);
    (destruct (Ascii.eqb c "[");
      [first [done|apply bracket_length in E; [lia|apply parse_elements_length, IH]]|]);
    (destruct (Ascii.eqb c "{");
      [first [done|apply bracket_length in E; [lia|apply parse_members_length, IH]]|]);
    do 3 (destruct (Ascii.eqb c _); [apply word_length in E; lia|]);
    apply bind_rest in E as [? E%scan_number_length]; cbn in E; lia.
Qed.

(** The fuel that [parse_value] passes on is enough. *)
Lemma parse_fuel depth n s :
  (String.length s <= n)%nat ->
  parse_elements (parse_value depth) (String.length s) s = parse_elements (parse_value depth) n s /\
  parse_members (parse_value depth) (String.length s) s = parse_members (parse_value depth) n s.
Proof.
  intros Hn. split; [apply parse_elements_fuel|apply parse_members_fuel]; auto using parse_value_consumes.
Qed.

(** ** A document that is cut off is refused *)

(** A scanner that took its text does not look further: more text is left over. *)
Lemma scan_string_ext s raw rest t : scan_string s = Some (raw, rest) -> scan_string (s +:+ t) = Some (raw, rest +:+ t).
Proof.
  revert s raw rest. fix IH 1. intros s raw rest. destruct s as [|c s]; [done|]. rewrite str_app_String.
  cbn [scan_string]. destruct (Ascii.eqb c dquote); [by intros [= <- <-]|].
  destruct (Ascii.eqb c backslash).
  - destruct s as [|e s]; [done|]. rewrite str_app_String. destruct (Ascii.eqb e "u").
    + destruct s as [|a [|b [|c' [|d s]]]]; [done..|]. rewrite !str_app_String.
      destruct (u4 a b c' d); [|done]. cbn [mbind option_bind].
      destruct (scan_string s) as [[raw' rest']|] eqn:E; [|done]. cbn. intros [= <- <-].
      by rewrite (IH s raw' rest' E).
    + destruct (escaped e); [|done]. cbn [mbind option_bind].
      destruct (scan_string s) as [[raw' rest']|] eqn:E; [|done]. cbn. intros [= <- <-].
      by rewrite (IH s raw' rest' E).
  - destruct (code c <? 32); [done|]. destruct (scan_string s) as [[raw' rest']|] eqn:E; [|done].
    cbn. intros [= <- <-]. by rewrite (IH s raw' rest' E).
Qed.

Lemma strip_ext p s rest t : strip p s = Some rest -> strip p (s +:+ t) = Some (rest +:+ t).
Proof.
  revert s. induction p as [|a p IH]; intros s; [by intros [= ->]|]. destruct s as [|c s]; [done|].
  rewrite str_app_String. cbn. destruct (Ascii.eqb a c); [apply IH|done].
Qed.

Lemma span_digits_ext s d rest t :
  span_digits s = (d, rest) -> rest <> "" -> span_digits (s +:+ t) = (d, rest +:+ t).
Proof.
  revert d rest. induction s as [|c s IH]; intros d rest; [by intros [= <- <-]|]. rewrite str_app_String. cbn.
  destruct (is_num c); [|by intros [= <- <-]]. destruct (span_digits s) as [d' rest'] eqn:E.
  intros [= <- <-] Hr. by rewrite (IH _ _ eq_refl Hr).
Qed.

Lemma some_digits_ext s d rest t :
  some_digits s = Some (d, rest) -> rest <> "" -> some_digits (s +:+ t) = Some (d, rest +:+ t).
Proof.
  unfold some_digits. destruct (span_digits s) as [[|c d'] rest'] eqn:E; [done|]. intros [= <- <-] Hr.
  by rewrite (span_digits_ext _ _ _ _ E Hr).
Qed.

Lemma scan_int_ext s d rest t : scan_int s = Some (d, rest) -> rest <> "" -> scan_int (s +:+ t) = Some (d, rest +:+ t).
Proof.
  destruct s as [|c s]; [done|]. rewrite str_app_String. cbn [scan_int].
  destruct (Ascii.eqb c "0"); [by intros [= <- <-]|]. rewrite <- str_app_String. apply some_digits_ext.
Qed.

Lemma scan_frac_ext s d rest t :
  scan_frac s = Some (d, rest) -> rest <> "" -> s <> "" /\ scan_frac (s +:+ t) = Some (d, rest +:+ t).
Proof.
  destruct s as [|c s]; [by intros [= <- <-]|]. rewrite str_app_String. cbn [scan_frac]. intros Hs Hr. split; [done|].
  destruct (Ascii.eqb c "."); [|by injection Hs as <- <-].
  destruct (some_digits s) as [[d' rest']|] eqn:E; [|done]. cbn in Hs. injection Hs as <- <-.
  by rewrite (some_digits_ext _ _ _ _ E Hr).
Qed.

Lemma scan_exp_ext s d rest t :
  scan_exp s = Some (d, rest) -> rest <> "" -> s <> "" /\ scan_exp (s +:+ t) = Some (d, rest +:+ t).
Proof.
  destruct s as [|c s]; [by intros [= <- <-]|]. rewrite str_app_String. cbn [scan_exp]. intros Hs Hr. split; [done|].
  destruct (Ascii.eqb c "e" || Ascii.eqb c "E"); [|by injection Hs as <- <-].
  destruct s as [|g s]; [done|]. rewrite str_app_String. destruct (Ascii.eqb g "+" || Ascii.eqb g "-").
  - destruct (some_digits s) as [[d' rest']|] eqn:E; [|done]. cbn in Hs. injection Hs as <- <-.
    by rewrite (some_digits_ext _ _ _ _ E Hr).
  - destruct (some_digits (String g s)) as [[d' rest']|] eqn:E; [|done]. cbn in Hs. injection Hs as <- <-.
    rewrite <- str_app_String. by rewrite (some_digits_ext _ _ _ _ E Hr).
Qed.

Lemma scan_number_ext s d rest t :
  scan_number s = Some (d, rest) -> rest <> "" -> scan_number (s +:+ t) = Some (d, rest +:+ t).
Proof.
  assert (forall s d rest, scan_unsigned s = Some (d, rest) -> rest <> "" ->
            scan_unsigned (s +:+ t) = Some (d, rest +:+ t)) as Hu.
  { intros s0 d0 rest0. unfold scan_unsigned.
    destruct (scan_int s0) as [[i s1]|] eqn:Ei; [|done]. cbn [mbind option_bind].
    destruct (scan_frac s1) as [[f s2]|] eqn:Ef; [|done]. cbn [mbind option_bind].
    destruct (scan_exp s2) as [[e s3]|] eqn:Ee; [|done]. cbn. intros [= <- <-] Hr.
    apply (scan_exp_ext _ _ _ t) in Ee as [H2 Ee]; [|done]. apply (scan_frac_ext _ _ _ t) in Ef as [H1 Ef]; [|done].
    rewrite (scan_int_ext _ _ _ _ Ei H1). cbn. rewrite Ef. cbn. by rewrite Ee. }
  destruct s as [|c s]; [done|]. rewrite str_app_String. cbn [scan_number].
  destruct (Ascii.eqb c "-"); [|rewrite <- str_app_String; apply Hu].
  destruct (scan_unsigned s) as [[d' rest']|] eqn:E; [|done]. cbn. intros [= <- <-] Hr. by rewrite (Hu _ _ _ E Hr).
Qed.

Lemma skip_space_ext s c s' t : skip_space s = String c s' -> skip_space (s +:+ t) = String c (s' +:+ t).
Proof.
  induction s as [|d s IH]; [done|]. rewrite str_app_String. cbn. destruct (is_space d); [apply IH|].
  by intros [= <- <-].
Qed.

Definition is_number (j : json) : bool := match j with JNumber _ => true | _ => false end.

Section extension.
Context (t : string) (pv : string -> option (json * string)).
Context (pv_ext : forall s v rest, pv s = Some (v, rest) -> rest <> "" -> pv (s +:+ t) = Some (v, rest +:+ t)).

Lemma parse_elements_ext n m s l rest :
  (n <= m)%nat -> parse_elements pv n s = Some (l, rest) -> parse_elements pv m (s +:+ t) = Some (l, rest +:+ t).
Proof.
  revert m s l. induction n as [|n IH]; intros [|m] s l Hm; [done..|lia|]. cbn [parse_elements].
  destruct (pv s) as [[v s1]|] eqn:Ev; [|done]. cbn [mbind option_bind].
  destruct (skip_space s1) as [|c s2] eqn:Es; [done|].
  rewrite (pv_ext _ _ _ Ev) by (intros ->; done). cbn [mbind option_bind]. rewrite (skip_space_ext _ _ _ t Es).
  destruct (Ascii.eqb c ","); [|by destruct (Ascii.eqb c "]"); intros [= <- <-]].
  destruct (parse_elements pv n s2) as [[l' rest']|] eqn:E; [|done]. cbn. intros [= <- <-].
  by rewrite (IH m s2 l') by (lia || done).
Qed.

Lemma parse_members_ext n m s l rest :
  (n <= m)%nat -> parse_members pv n s = Some (l, rest) -> parse_members pv m (s +:+ t) = Some (l, rest +:+ t).
Proof.
  revert m s l. induction n as [|n IH]; intros [|m] s l Hm; [done..|lia|]. cbn [parse_members].
  destruct (skip_space s) as [|c0 s0] eqn:E0; [done|]. rewrite (skip_space_ext _ _ _ t E0), <- str_app_String.
  destruct (strip _ (String c0 s0)) as [s1|] eqn:E1; [|done]. rewrite (strip_ext _ _ _ t E1). cbn [mbind option_bind].
  destruct (scan_string s1) as [[key s2]|] eqn:E2; [|done]. rewrite (scan_string_ext _ _ _ t E2). cbn [mbind option_bind].
  destruct (skip_space s2) as [|c2 s2'] eqn:E2'; [done|]. rewrite (skip_space_ext _ _ _ t E2'), <- str_app_String.
  destruct (strip ":" (String c2 s2')) as [s3|] eqn:E3; [|done]. rewrite (strip_ext _ _ _ t E3). cbn [mbind option_bind].
  destruct (pv s3) as [[v s4]|] eqn:Ev; [|done]. cbn [mbind option_bind].
  destruct (skip_space s4) as [|c s5] eqn:Es; [done|].
  rewrite (pv_ext _ _ _ Ev) by (intros ->; done). cbn [mbind option_bind]. rewrite (skip_space_ext _ _ _ t Es).
  destruct (Ascii.eqb c ","); [|by destruct (Ascii.eqb c "}"); intros [= <- <-]].
  destruct (parse_members pv n s5) as [[l' rest']|] eqn:E; [|done]. cbn. intros [= <- <-].
  by rewrite (IH m s5 l') by (lia || done).
Qed.
End extension.

Lemma parse_value_blank depth s : skip_space s = "" -> parse_value depth s = None.
Proof. intros Hs. destruct depth; cbn [parse_value]; by rewrite Hs. Qed.

Lemma parse_elements_blank d n s : skip_space s = "" -> parse_elements (parse_value d) n s = None.
Proof. intros Hs. destruct n; [done|]. cbn [parse_elements]. by rewrite parse_value_blank. Qed.

Lemma parse_members_blank pv n s : skip_space s = "" -> parse_members pv n s = None.
Proof. intros Hs. destruct n; [done|]. cbn [parse_members]. by rewrite Hs. Qed.

Lemma strip_one c s1 s2 d : strip (String c "") (String d s1) = None -> strip (String c "") (String d s2) = None.
Proof. cbn. by destruct (Ascii.eqb c d). Qed.

(** The rules for a value that is not an array or object. *)
Lemma scalar_ext t c s' v rest :
  (if Ascii.eqb c "n" then rest ← strip "ull" s'; Some (JNull, rest)
   else if Ascii.eqb c "t" then rest ← strip "rue" s'; Some (JBool true, rest)
   else if Ascii.eqb c "f" then rest ← strip "alse" s'; Some (JBool false, rest)
   else '(t, rest) ← scan_number (String c s'); Some (JNumber t, rest)) = Some (v, rest) ->
  rest <> "" \/ is_number v = false ->
  (if Ascii.eqb c "n" then rest ← strip "ull" (s' +:+ t); Some (JNull, rest)
   else if Ascii.eqb c "t" then rest ← strip "rue" (s' +:+ t); Some (JBool true, rest)
   else if Ascii.eqb c "f" then rest ← strip "alse" (s' +:+ t); Some (JBool false, rest)
   else '(t, rest) ← scan_number (String c (s' +:+ t)); Some (JNumber t, rest)) = Some (v, rest +:+ t).
Proof.
  destruct (Ascii.eqb c "n"); [|destruct (Ascii.eqb c "t"); [|destruct (Ascii.eqb c "f")]].
  1-3: destruct (strip _ s') as [r|] eqn:E; [|done]; cbn [mbind option_bind]; intros [= <- <-] _;
    by rewrite (strip_ext _ _ _ t E).
  destruct (scan_number (String c s')) as [[d r]|] eqn:E; [|done]. cbn [mbind option_bind].
  intros [= <- <-] [Hr|?]; [|done]. rewrite <- str_app_String. by rewrite (scan_number_ext _ _ _ t E Hr).
Qed.

Lemma parse_value_ext t depth s v rest :
  parse_value depth s = Some (v, rest) -> rest <> "" \/ is_number v = false ->
  parse_value depth (s +:+ t) = Some (v, rest +:+ t).
Proof.
  revert s v rest. induction depth as [|d IH]; intros s v rest; cbn [parse_value];
    (destruct (skip_space s) as [|c s'] eqn:Es; [done|]); rewrite (skip_space_ext _ _ _ t Es);
    (destruct (Ascii.eqb c dquote);
      [destruct (scan_string s') as [[raw r]|] eqn:E; [|done]; cbn; intros [= <- <-] _;
       by rewrite (scan_string_ext _ _ _ t E)|]).
  { destruct (Ascii.eqb c "["); [done|]. destruct (Ascii.eqb c "{"); [done|]. apply scalar_ext. }
  assert (forall s v rest, parse_value d s = Some (v, rest) -> rest <> "" ->
            parse_value d (s +:+ t) = Some (v, rest +:+ t)) as Hpv by (intros; apply IH; auto).
  assert (String.length s' <= String.length (s' +:+ t))%nat as Hlen by (rewrite str_length_app; lia).
  destruct (Ascii.eqb c "["); [|destruct (Ascii.eqb c "{"); [|apply scalar_ext]];
    destruct (skip_space s') as [|c2 s2] eqn:Es2.
  - cbn [strip]. by rewrite parse_elements_blank.
  - rewrite (skip_space_ext _ _ _ t Es2). destruct (strip "]" (String c2 s2)) as [r|] eqn:Er.
    + rewrite <- str_app_String, (strip_ext _ _ _ t Er). by intros [= <- <-].
    + rewrite (strip_one _ _ _ _ Er). destruct (parse_elements _ _ s') as [[l r]|] eqn:E; [|done].
      cbn. intros [= <- <-] _. by rewrite (parse_elements_ext t _ Hpv _ _ _ _ _ Hlen E).
  - cbn [strip]. by rewrite parse_members_blank.
  - rewrite (skip_space_ext _ _ _ t Es2). destruct (strip "}" (String c2 s2)) as [r|] eqn:Er.
    + rewrite <- str_app_String, (strip_ext _ _ _ t Er). by intros [= <- <-].
    + rewrite (strip_one _ _ _ _ Er). destruct (parse_members _ _ s') as [[l r]|] eqn:E; [|done].
      cbn. intros [= <- <-] _. by rewrite (parse_members_ext t _ Hpv _ _ _ _ _ Hlen E).
Qed.

Lemma parse_not_number depth c s' v rest :
  parse_value depth (String c s') = Some (v, rest) -> c = dquote \/ c = "["%char \/ c = "{"%char -> is_number v = false.
Proof.
  intros Hp Hc. destruct depth, Hc as [->|[->| ->]]; cbn [parse_value] in Hp;
    rewrite skip_space_head in Hp by done; lazy [Ascii.eqb Bool.eqb dquote] in Hp; try done.
  all: repeat match type of Hp with
       | context [scan_string ?x] => destruct (scan_string x) as [[]|]
       | context [match strip ?p ?x with _ => _ end] => destruct (strip p x)
       | context [parse_elements ?pv ?n ?x] => destruct (parse_elements pv n x) as [[]|]
       | context [parse_members ?pv ?n ?x] => destruct (parse_members pv n x) as [[]|]
       end; cbn in Hp; by simplify_eq.
Qed.

(** A strict prefix of a printed string, array or object is no document. *)
Lemma json_prefix_refused depth j p t :
  printable depth j -> match j with JString _ | JArray _ | JObject _ => True | _ => False end ->
  json_print j = p +:+ t -> t <> "" -> exists e, parse_with depth p = Err e.
Proof.
  intros Hj Hk Hp Ht. unfold parse_with. destruct (parse_value depth p) as [[v rest]|] eqn:E; [|eauto].
  case_bool_decide as Hs; [exfalso|eauto]. destruct p as [|c p]; [by rewrite parse_value_blank in E|].
  assert (is_number v = false) as Hv.
  { apply (parse_not_number _ _ _ _ _ E). destruct j; try done; cbn [json_print] in Hp; unfold print_string in Hp;
      rewrite str_app_String in Hp; injection Hp as <- _; auto. }
  apply (parse_value_ext t) in E; [|by right]. rewrite <- Hp in E.
  pose proof (parse_print depth j "" Hj eq_refl) as Hfull. rewrite str_app_nil_r, E in Hfull. injection Hfull as _ Hr.
  destruct rest; [by rewrite str_app_nil_l in Hr|]. by rewrite str_app_String in Hr.
Qed.

(** ** Decoding what was encoded *)

Lemma field_of_exact names key : key ∈ names -> field_of names key = Some key.
Proof. intros Hk. unfold field_of. by rewrite bool_decide_eq_true_2. Qed.

Lemma into_struct_fields {A} names (store : A -> string -> json -> res A) zero l :
  Forall (fun f => f.1 ∈ names) l ->
  into_struct names store zero (JObject l) = foldl (fun acc f => a ← acc; store a f.1 f.2) (Ok zero) l.
Proof.
  cbn. generalize (Ok zero : res A). induction l as [|[key v] l IH]; intros acc Hall; [done|].
  apply list.Forall_cons in Hall as [Hk Hall]. cbn in Hk |- *. rewrite IH by done. f_equal.
  destruct acc; cbn; [|done..]. by rewrite field_of_exact.
Qed.

Lemma base64_chars l : str_forall (within 43 122) (base64_encode l) = true.
Proof.
  assert (forall n, 0 <= n < 64 -> within 43 122 (b64_char n) = true) as Hc.
  { intros n Hn. assert (forallb (fun k => within 43 122 (b64_char k)) (seqZ 0 64) = true) as Hall
      by (vm_compute; reflexivity).
    rewrite List.forallb_forall in Hall. apply Hall, list_elem_of_In, elem_of_seqZ. lia. }
  revert l. fix IH 1. intros [|a [|b [|c l]]]; cbn [base64_encode str_forall].
  - done.
  - destruct (b64_group a Byte.x00 Byte.x00) as ((Hx & Hy & _) & _). rewrite Z.add_0_r in Hy. by rewrite !Hc.
  - destruct (b64_group a b Byte.x00) as ((Hx & Hy & Hz & _) & _). rewrite Z.add_0_r in Hz. by rewrite !Hc.
  - destruct (b64_group a b c) as ((Hx & Hy & Hz & Hw) & _). by rewrite !Hc, IH.
Qed.

Lemma base64_plain l : ascii_text (base64_encode l) = true.
Proof.
  eapply str_forall_impl; [|apply base64_chars]. intros c Hc. cbn in *. unfold within in Hc. lia.
Qed.

#[global] Arguments base64_encode : simpl never.

Lemma into_bytes_encode l : into_bytes (JString (base64_encode l)) = Ok l.
Proof.
  unfold into_bytes. assert (strip_lines (base64_encode l) = base64_encode l) as ->; [|by rewrite base64_decode_encode].
  pose proof (base64_chars l) as Hc. induction (base64_encode l) as [|c s IH]; [done|].
  apply andb_true_iff in Hc as [Hc Hs]. cbn. unfold within in Hc.
  replace ((code c =? 10) || (code c =? 13)) with false by lia. by rewrite IH.
Qed.

Lemma into_uint_fmt bits cur z : 0 <= z < 2 ^ bits -> into_uint bits cur (JNumber (fmt_d z)) = Ok z.
Proof. intros Hz. unfold into_uint. rewrite fmt_d_nonneg by lia. by rewrite ParseUint_fmt_u. Qed.

Lemma ParseInt_fmt_d bits z : 0 < bits -> - 2 ^ (bits - 1) <= z < 2 ^ (bits - 1) -> ParseInt (fmt_d z) bits = Ok z.
Proof.
  intros Hb Hz. assert (2 ^ bits = 2 * 2 ^ (bits - 1)) as Hp
    by (rewrite <- Z.pow_succ_r by lia; f_equal; lia).
  unfold fmt_d. destruct (Z.ltb_spec z 0).
  - change ("-" +:+ ?x) with (String "-" x). cbn [ParseInt]. rewrite ParseUint_fmt_u by lia. cbn.
    replace (- z <=? 2 ^ (bits - 1)) with true by lia. f_equal. lia.
  - apply ParseInt_fmt_u; lia.
Qed.

Lemma into_int_fmt bits cur z :
  0 < bits -> - 2 ^ (bits - 1) <= z < 2 ^ (bits - 1) -> into_int bits cur (JNumber (fmt_d z)) = Ok z.
Proof. intros Hb Hz. unfold into_int. by rewrite ParseInt_fmt_d. Qed.

Lemma into_slice_map {A B} (into : json -> res A) (to : B -> json) (from : B -> A) l :
  Forall (fun b => into (to b) = Ok (from b)) l -> into_slice into (JArray (map to l)) = Ok (map from l).
Proof. intros Hall. cbn. induction Hall as [|b l Hb Hall IH]; [done|]. cbn. by rewrite Hb, IH. Qed.

(** A printed document has no control characters. *)
Lemma concat_visible sep l :
  visible sep = true -> Forall (fun s => visible s = true) l -> visible (String.concat sep l) = true.
Proof.
  intros Hs Hall. induction Hall as [|x l Hx Hall IH]; [done|]. destruct l as [|y l]; [done|].
  by rewrite concat_cons, !visible_app, Hx, Hs, IH.
Qed.

Lemma print_string_visible s : ascii_text s = true -> visible (print_string s) = true.
Proof.
  intros Hs. unfold print_string. change (visible (String dquote ?x)) with (visible x).
  by rewrite visible_app, quote_visible.
Qed.

Lemma fmt_d_visible z : visible (fmt_d z) = true.
Proof.
  assert (forall n, visible (fmt_u n) = true) as Hu.
  { intros n. eapply str_forall_impl; [|apply (digits_fmt_u n)]. intros c. rewrite <- is_num_digit.
    unfold is_num. cbn. lia. }
  unfold fmt_d. destruct (z <? 0); [|done]. by rewrite visible_app, Hu.
Qed.

Lemma print_visible depth j : printable depth j -> visible (json_print j) = true.
Proof.
  revert j. induction depth as [|d IH]; intros j Hj; destruct j as [|[]|t|s|l|fs]; cbn [json_print]; try done.
  1,3: destruct Hj as [z ->]; apply fmt_d_visible. 1,2: by apply print_string_visible.
  - rewrite !visible_app. rewrite concat_visible; [done|done|]. apply Forall_fmap.
    eapply list.Forall_impl; [exact Hj|]. intros k. apply IH.
  - rewrite !visible_app. rewrite concat_visible; [done|done|]. apply Forall_fmap.
    eapply list.Forall_impl; [exact Hj|]. intros [key v] [Hk Hv]. cbn in Hk, Hv |- *.
    by rewrite !visible_app, print_string_visible, IH.
Qed.

(** ** Documents as bytes *)

(** [json.Marshal] of a value, and [json.Unmarshal] into a type. *)
Definition marshal_json (j : json) : bytes := bytes_of_string (json_print j).
Definition unmarshal_json {A} (into : json -> res A) (b : bytes) : res A :=
  j ← json_parse (string_of_bytes b); into j.

Lemma unmarshal_marshal {A} (into : json -> res A) d j :
  (d <= 100)%nat -> printable d j -> unmarshal_json into (marshal_json j) = into j.
Proof.
  intros Hd Hj. unfold unmarshal_json, marshal_json. by rewrite string_of_bytes_of_string, (json_parse_print d).
Qed.

Lemma string_of_bytes_app a b : string_of_bytes (a ++ b) = string_of_bytes a +:+ string_of_bytes b.
Proof. unfold string_of_bytes. induction a as [|c a IH]; [done|]. cbn. rewrite str_app_String. by f_equal. Qed.

Lemma unmarshal_prefix {A} (into : json -> res A) d j n :
  (d <= 100)%nat -> printable d j -> match j with JString _ | JArray _ | JObject _ => True | _ => False end ->
  (n < length (marshal_json j))%nat -> exists e, unmarshal_json into (take n (marshal_json j)) = Err e.
Proof.
  intros Hd Hj Hk Hn. unfold unmarshal_json.
  destruct (json_prefix_refused maxNestingDepth j (string_of_bytes (take n (marshal_json j)))
              (string_of_bytes (drop n (marshal_json j)))) as [e He].
  - eapply printable_mono; [|exact Hj]. unfold maxNestingDepth. lia.
  - done.
  - rewrite <- string_of_bytes_app, take_drop. symmetry. apply string_of_bytes_of_string.
  - intros E. assert (length (drop n (marshal_json j)) <> O) as Hl by (rewrite length_drop; lia).
    by destruct (drop n (marshal_json j)).
  - exists e. unfold json_parse. by rewrite He.
Qed.

Lemma unmarshal_empty {A} (into : json -> res A) : exists e, unmarshal_json into [] = Err e.
Proof. eexists. unfold unmarshal_json, json_parse, parse_with. cbn. by rewrite parse_value_blank. Qed.

(** Proofs use the laws above, never the parser itself. *)
#[global] Strategy opaque [json_parse json_print marshal_json unmarshal_json].

(** ** Examples *)

Module JsonExample.
Definition quoted (s : string) : string := String dquote (s +:+ String dquote "").
End JsonExample.
Import JsonExample.

(** Trailing commas, leading zeros, control characters in strings and cut literals are
    refused; escapes are resolved, lone surrogates and stray bytes replaced. *)
Example json_grammar :
  json_parse (" {" +:+ quoted "a" +:+ " : [1, -2.5e+3, true ,null, {}, []]} ")
  = Ok (JObject [("a", JArray [JNumber "1"; JNumber "-2.5e+3"; JBool true; JNull; JObject []; JArray []])]) /\
  existsb (fun s => is_ok (json_parse s))
    ["[1,]"; "01"; "1."; "tru"; ""; "{}{}"; quoted (String "010" ""); quoted "\x"; String dquote "a"] = false /\
  json_parse (quoted "\u0041\ud83d\ude00\ud83d!") =
    Ok (JString ("A" +:+ utf8_encode 128512 +:+ replacement +:+ "!")) /\
  json_parse (quoted (String "255" "")) = Ok (JString replacement).
Proof. split_and!; vm_compute; reflexivity. Qed.
