(* ===== verification/Files.v ===== *)
(** * Files

    Go's [os.OpenFile] with [O_CREATE|O_TRUNC], [File.Write] and [os.ReadFile] on
    one file system, as the key share and topology stores use them.  Each call may
    fail, and a failed write may leave a part of the data. *)

From S2P Require Import Prelude GoBytes.

#[local] Open Scope list_scope.
#[local] Open Scope Z_scope.

Abbreviation files := (gmap string bytes).

(** What the system answers to the calls of one operation: an error of opening, an
    error of writing after some bytes, an error of reading. *)
Record os_env := {
  os_open : option error;
  os_write : option (nat * error);
  os_read : option error;
}.
Definition os_ok : os_env := {| os_open := None; os_write := None; os_read := None |}.

(** Open with truncation, then build the contents, then write them: the order of
    the stores of the relayer. *)
Definition store_file (env : os_env) (path : string) (contents : res bytes) (fs : files)
    : res unit * files :=
  match os_open env with
  | Some e => (Err e, fs)
  | None =>
      let fs' := <[path := []]> fs in
      match contents with
      | Ok kb =>
          match os_write env with
          | Some (n, e) => (Err e, <[path := take n kb]> fs')
          | None => (Ok tt, <[path := kb]> fs')
          end
      | Err e => (Err e, fs')
      | Panic => (Panic, fs')
      end
  end.

Definition ReadFile (env : os_env) (path : string) (fs : files) : res bytes :=
  match os_read env, fs !! path with
  | Some e, _ => Err e
  | None, Some b => Ok b
  | None, None => Err "no such file or directory"
  end.

(** A file that was stored is read back; other files are not touched. *)
Lemma store_file_read env env' path contents fs fs' :
  store_file env path contents fs = (Ok tt, fs') -> os_read env' = None ->
  exists kb, contents = Ok kb /\ ReadFile env' path fs' = Ok kb.
Proof.
  unfold store_file, ReadFile. intros E ->. destruct (os_open env); [done|].
  destruct contents as [kb| |]; [|done..]. destruct (os_write env) as [[]|]; [done|]. simplify_eq.
  exists kb. by rewrite lookup_insert_eq.
Qed.

Lemma store_file_other env path contents fs r fs' path' :
  store_file env path contents fs = (r, fs') -> path <> path' -> fs' !! path' = fs !! path'.
Proof.
  unfold store_file. intros E Hne. repeat case_match; simplify_eq; by simplify_map_eq.
Qed.

(** Once the file is open, a failure leaves a strict or improper prefix of the new
    contents and nothing of the old. *)
Lemma store_file_fails env path contents fs e fs' :
  store_file env path contents fs = (Err e, fs') -> os_open env = None ->
  exists kb, fs' !! path = Some kb /\ (kb = [] \/ exists full, contents = Ok full /\ kb `prefix_of` full).
Proof.
  unfold store_file. intros E Ho. rewrite Ho in E. destruct contents as [full| |]; [|simplify_eq|done].
  - destruct (os_write env) as [[n e']|]; simplify_eq. eexists. rewrite lookup_insert_eq. split; [done|]. right. eexists. split; [done|].
    apply prefix_take.
  - exists []. rewrite lookup_insert_eq. auto.
Qed.
