(* ===== verification/Keyshare.v ===== *)
(** * Key share files ([keyshare])

    The ECDSA and FROST key shares of the relayer, each kept in a file of its own.
    The key material, its binary form and JSON are arguments; the lock that guards a
    file is in [Tss]. *)

From S2P Require Import Prelude GoBytes GoJson Files.

#[local] Open Scope string_scope.
#[local] Open Scope list_scope.
#[local] Open Scope Z_scope.

(** JSON of a Go struct: what is encoded is decoded, and no strict prefix of an
    encoding is a document. *)
Class JSON (A : Type) := {
  json_Marshal : A -> res bytes;
  json_Unmarshal : bytes -> res A;
  json_roundtrip : forall a b, json_Marshal a = Ok b -> json_Unmarshal b = Ok a;
  json_prefix : forall a b n, json_Marshal a = Ok b -> (n < length b)%nat ->
                              exists e, json_Unmarshal (take n b) = Err e;
  json_empty : exists e, json_Unmarshal [] = Err e;
}.

(** A struct encoded as a JSON document that is decoded to it. *)
Definition struct_json {A} (to : A -> json) (into : json -> res A)
    (Hto : forall a, printable 9 (to a) /\ match to a with JArray _ | JObject _ => True | _ => False end)
    (Hinto : forall a, into (to a) = Ok a) : JSON A.
Proof.
  refine {| json_Marshal a := Ok (marshal_json (to a)); json_Unmarshal := unmarshal_json into |}.
  - intros a b Hb. assert (b = marshal_json (to a)) as -> by congruence.
    rewrite (unmarshal_marshal into 9) by (lia || apply Hto). apply Hinto.
  - intros a b n Hb Hn. assert (b = marshal_json (to a)) as -> by congruence.
    destruct (Hto a) as [Hp Hk]. apply (unmarshal_prefix into 9); [lia|done| |done]. by destruct (to a).
  - apply unmarshal_empty.
Defined.

(** ** ECDSA *)

Record ECDSAKeyshare (K : Type) := {
  ek_Key : K;
  ek_Threshold : Z;
  ek_Peers : list PeerID;
}.
Arguments ek_Key {K} _.
Arguments ek_Threshold {K} _.
Arguments ek_Peers {K} _.

Definition NewECDSAKeyshare {K} (key : K) (threshold : Z) (peers : list PeerID) : ECDSAKeyshare K :=
  {| ek_Key := key; ek_Threshold := threshold; ek_Peers := peers |}.

Section ecdsa.
Context {K : Type} `{JSON (ECDSAKeyshare K)}.

Definition ecdsa_StoreKeyshare (env : os_env) (path : string) (keyshare : ECDSAKeyshare K) (fs : files)
    : res unit * files :=
  store_file env path (json_Marshal keyshare) fs.

Definition ecdsa_GetKeyshare (env : os_env) (path : string) (fs : files) : res (ECDSAKeyshare K) :=
  match ReadFile env path fs with
  | Ok kb =>
      match json_Unmarshal kb with
      | Ok k => Ok k
      | Err e => Err ("error on unmarshaling keyshare file: " +:+ e)
      | Panic => Panic
      end
  | Err e => Err ("error on reading keyshare file: " +:+ e)
  | Panic => Panic
  end.
End ecdsa.

(** ** FROST *)

(** The curve library: binary forms of scalars and points. *)
Class CurveCodec (Scalar Point : Type) := {
  scalar_Marshal : Scalar -> res bytes;
  scalar_Unmarshal : bytes -> res Scalar;
  point_Marshal : Point -> res bytes;
  point_Unmarshal : bytes -> res Point;
  scalar_roundtrip : forall x b, scalar_Marshal x = Ok b -> scalar_Unmarshal b = Ok x;
  point_roundtrip : forall x b, point_Marshal x = Ok b -> point_Unmarshal b = Ok x;
}.

(** [frost.TaprootConfig] *)
Record TaprootConfig (Scalar Point : Type) := {
  tc_ID : string;
  tc_Threshold : Z;
  tc_PrivateShare : Scalar;
  tc_PublicKey : bytes;
  tc_ChainKey : bytes;
  tc_VerificationShares : gmap string Point;
}.
Arguments tc_ID {Scalar Point} _.
Arguments tc_Threshold {Scalar Point} _.
Arguments tc_PrivateShare {Scalar Point} _.
Arguments tc_PublicKey {Scalar Point} _.
Arguments tc_ChainKey {Scalar Point} _.
Arguments tc_VerificationShares {Scalar Point} _.

Record FrostKeyshare (Scalar Point : Type) := {
  fk_Key : TaprootConfig Scalar Point;
  fk_Threshold : Z;
  fk_Peers : list PeerID;
}.
Arguments fk_Key {Scalar Point} _.
Arguments fk_Threshold {Scalar Point} _.
Arguments fk_Peers {Scalar Point} _.

Definition NewFrostKeyshare {Scalar Point} (key : TaprootConfig Scalar Point) (threshold : Z)
    (peers : list PeerID) : FrostKeyshare Scalar Point :=
  {| fk_Key := key; fk_Threshold := threshold; fk_Peers := peers |}.

Record frostKey := {
  fr_ID : string;
  fr_Threshold : Z;
  fr_PrivateShare : bytes;
  fr_PublicKey : bytes;
  fr_ChainKey : bytes;
  fr_VerificationShares : gmap string bytes;
}.

Record frostKeyshareStore := {
  fs_Key : frostKey;
  fs_Threshold : Z;
  fs_Peers : list PeerID;
}.

(** A loop that builds a map from the entries of another, in the order given; the
    first failure ends it. *)
Fixpoint convert_shares {A B} (f : A -> res B) (order : list (string * A)) (acc : gmap string B)
    : res (gmap string B) :=
  match order with
  | [] => Ok acc
  | (id, a) :: rest => b ← f a; convert_shares f rest (<[id := b]> acc)
  end.

Section frost.
Context {Scalar Point : Type} `{CurveCodec Scalar Point} `{JSON frostKeyshareStore}.

(** The document of a key share; [order] is the iteration order of its map. *)
Definition frost_document (keyshare : FrostKeyshare Scalar Point) (order : list (string * Point))
    : res bytes :=
  let key := fk_Key keyshare in
  privateShareBytes ← scalar_Marshal (tc_PrivateShare key);
  verificationShares ← convert_shares point_Marshal order ∅;
  json_Marshal
    {| fs_Key := {| fr_ID := tc_ID key; fr_Threshold := tc_Threshold key;
                    fr_PrivateShare := privateShareBytes; fr_PublicKey := tc_PublicKey key;
                    fr_ChainKey := tc_ChainKey key; fr_VerificationShares := verificationShares |};
       fs_Threshold := fk_Threshold keyshare; fs_Peers := fk_Peers keyshare |}.

Definition frost_StoreKeyshare (env : os_env) (path : string) (keyshare : FrostKeyshare Scalar Point)
    (order : list (string * Point)) (fs : files) : res unit * files :=
  store_file env path (frost_document keyshare order) fs.

(** [order] is the iteration order of the decoded map, as a function of it. *)
Definition frost_GetKeyshare (env : os_env) (path : string)
    (order : gmap string bytes -> list (string * bytes)) (fs : files) : res (FrostKeyshare Scalar Point) :=
  match ReadFile env path fs with
  | Err e => Err ("error on reading keyshare file: " +:+ e)
  | Panic => Panic
  | Ok kb =>
      match json_Unmarshal kb with
      | Err e => Err ("error on unmarshaling keyshare file: " +:+ e)
      | Panic => Panic
      | Ok fStore =>
          privateShare ← scalar_Unmarshal (fr_PrivateShare (fs_Key fStore));
          verificationShares ←
            convert_shares point_Unmarshal (order (fr_VerificationShares (fs_Key fStore))) ∅;
          Ok {| fk_Key := {| tc_ID := fr_ID (fs_Key fStore); tc_Threshold := fr_Threshold (fs_Key fStore);
                             tc_PrivateShare := privateShare; tc_PublicKey := fr_PublicKey (fs_Key fStore);
                             tc_ChainKey := fr_ChainKey (fs_Key fStore);
                             tc_VerificationShares := verificationShares |};
                fk_Threshold := fs_Threshold fStore; fk_Peers := fs_Peers fStore |}
      end
  end.
End frost.

(** ** Storing and reading back *)

(** After a write that was started, the file holds the whole document or a strict
    prefix of it, or nothing. *)
Lemma store_file_outcomes env path contents fs r fs' :
  store_file env path contents fs = (r, fs') ->
  (os_open env <> None /\ fs' = fs) \/
  (r = Ok tt /\ exists b, contents = Ok b /\ fs' !! path = Some b) \/
  (r <> Ok tt /\ os_open env = None /\ is_ok contents = false /\ fs' !! path = Some []) \/
  (r <> Ok tt /\ os_open env = None /\ exists b n, contents = Ok b /\ fs' !! path = Some (take n b)).
Proof.
  unfold store_file. intros E. destruct (os_open env) eqn:Eo; [left; by simplify_eq|right].
  destruct contents as [b| |].
  - destruct (os_write env) as [[n e]|]; simplify_eq; rewrite lookup_insert_eq; [|left; by eauto].
    right; right. split_and!; [done..|]. by exists b, n.
  - simplify_eq. rewrite lookup_insert_eq. right; left. by split_and!.
  - simplify_eq. rewrite lookup_insert_eq. right; left. by split_and!.
Qed.

Lemma Unmarshal_part {A} `{JSON A} a b n r :
  json_Marshal a = Ok b -> json_Unmarshal (take n b) = Ok r -> r = a.
Proof.
  intros Hb Hr. destruct (decide (n < length b)%nat) as [Hn|Hn].
  - destruct (json_prefix a b n Hb Hn) as [e He]. congruence.
  - rewrite take_ge in Hr by lia. rewrite (json_roundtrip a b Hb) in Hr. congruence.
Qed.

Lemma convert_shares_Ok {A B} (f : A -> res B) order acc m :
  convert_shares f order acc = Ok m -> NoDup order.*1 ->
  (forall id a, (id, a) ∈ order -> exists b, f a = Ok b /\ m !! id = Some b) /\
  (forall id, id ∉ order.*1 -> m !! id = acc !! id).
Proof.
  revert acc. induction order as [|[id a] order IH]; intros acc E Hnd; cbn in E.
  { simplify_eq. split; [set_solver|done]. }
  apply outcome_bind_Ok in E as (b & Hb & E). rewrite fmap_cons in Hnd |- *.
  apply list.NoDup_cons in Hnd as [Hid Hnd]. destruct (IH _ E Hnd) as [Hin Hout]. split.
  - intros id' a' [[= -> ->]|Hin']%elem_of_cons; [|by apply Hin].
    exists b. split; [done|]. rewrite Hout by done. by rewrite lookup_insert_eq.
  - intros id' Hid'. apply not_elem_of_cons in Hid' as [Hne Hid']. rewrite Hout by done.
    by rewrite lookup_insert_ne.
Qed.

Lemma convert_shares_total {A B} (f : A -> res B) order acc :
  (forall id a, (id, a) ∈ order -> is_ok (f a) = true) -> exists m, convert_shares f order acc = Ok m.
Proof.
  revert acc. induction order as [|[id a] order IH]; intros acc Hall; cbn; [eauto|].
  pose proof (Hall id a ltac:(by left)) as Ha. destruct (f a); [|done..]. apply IH.
  intros id' a' Hin. apply (Hall id'). by right.
Qed.

(** The order of a loop over a map. *)
Definition order_of {A} (m : gmap string A) (order : list (string * A)) : Prop := order ≡ₚ map_to_list m.

Lemma order_of_elem {A} (m : gmap string A) order id a :
  order_of m order -> (id, a) ∈ order <-> m !! id = Some a.
Proof. intros ->. apply elem_of_map_to_list. Qed.

Lemma order_of_NoDup {A} (m : gmap string A) order : order_of m order -> NoDup order.*1.
Proof. intros ->. apply NoDup_fst_map_to_list. Qed.

Lemma order_of_not_in {A} (m : gmap string A) order id :
  order_of m order -> m !! id = None -> id ∉ order.*1.
Proof.
  intros Ho Hid ([k a] & -> & Hin)%list_elem_of_fmap. apply (order_of_elem m order) in Hin; [|done].
  cbn in Hid. congruence.
Qed.

(** Converting the shares and converting them back gives the same shares, in
    whatever orders the two loops run. *)
Lemma convert_shares_back {A B} (f : A -> res B) (g : B -> res A) m order r order' :
  (forall a b, f a = Ok b -> g b = Ok a) ->
  order_of m order -> convert_shares f order ∅ = Ok r -> order_of r order' ->
  convert_shares g order' ∅ = Ok m.
Proof.
  intros Hfg Ho Er Ho'. destruct (convert_shares_Ok _ _ _ _ Er (order_of_NoDup _ _ Ho)) as [Hin Hout].
  assert (forall id b, r !! id = Some b -> exists a, m !! id = Some a /\ f a = Ok b) as Hr.
  { intros id b Hb. destruct (m !! id) as [a|] eqn:Ea.
    - destruct (Hin id a) as (b' & Hf & Hb'); [by apply (order_of_elem m)|]. exists a. split; [done|congruence].
    - rewrite Hout in Hb by (by eapply order_of_not_in). by rewrite lookup_empty in Hb. }
  destruct (convert_shares_total g order' ∅) as [m' Em'].
  { intros id b Hb. apply (order_of_elem r) in Hb; [|done]. destruct (Hr id b Hb) as (a & _ & Hf).
    by rewrite (Hfg _ _ Hf). }
  rewrite Em'. f_equal.
  destruct (convert_shares_Ok _ _ _ _ Em' (order_of_NoDup _ _ Ho')) as [Hin' Hout'].
  apply map_eq. intros id. destruct (r !! id) as [b|] eqn:Eb.
  - destruct (Hr id b Eb) as (a & Ha & Hf). destruct (Hin' id b) as (a' & Hg & Ha');
      [by apply (order_of_elem r)|]. rewrite (Hfg _ _ Hf) in Hg. congruence.
  - rewrite Hout' by (by eapply order_of_not_in). rewrite lookup_empty.
    destruct (m !! id) as [a|] eqn:Ea; [|done].
    destruct (Hin id a) as (b & _ & Hb); [by apply (order_of_elem m)|congruence].
Qed.

Section keyshare_spec.
Context {K Scalar Point : Type} `{JSON (ECDSAKeyshare K)} `{CurveCodec Scalar Point}
  `{JSON frostKeyshareStore}.

(** What is read after storing a key share over another one: the new one if it was
    stored, the old one if the file could not be opened, and otherwise the new one
    or none at all. *)
Definition stored_or_lost {A} (env : os_env) (r : res unit) (new old now : res A) : Prop :=
  (r = Ok tt /\ now = new) \/
  (os_open env <> None /\ now = old) \/
  (r <> Ok tt /\ os_open env = None /\ forall k, now = Ok k -> new = Ok k).

Lemma frost_document_back ks order order' b :
  order_of (tc_VerificationShares (fk_Key ks)) order ->
  (forall m, order_of m (order' m)) ->
  frost_document ks order = Ok b ->
  exists st, json_Marshal st = Ok b /\
    (privateShare ← scalar_Unmarshal (fr_PrivateShare (fs_Key st));
     verificationShares ← convert_shares point_Unmarshal (order' (fr_VerificationShares (fs_Key st))) ∅;
     Ok {| fk_Key := {| tc_ID := fr_ID (fs_Key st); tc_Threshold := fr_Threshold (fs_Key st);
                        tc_PrivateShare := privateShare; tc_PublicKey := fr_PublicKey (fs_Key st);
                        tc_ChainKey := fr_ChainKey (fs_Key st);
                        tc_VerificationShares := verificationShares |};
           fk_Threshold := fs_Threshold st; fk_Peers := fs_Peers st |}) = Ok (E := error) ks.
Proof.
  intros Ho Ho' E. unfold frost_document in E. apply outcome_bind_Ok in E as (p & Hp & E).
  apply outcome_bind_Ok in E as (v & Hv & E). eexists. split; [exact E|]. cbn.
  rewrite (scalar_roundtrip _ _ Hp). cbn.
  rewrite (convert_shares_back point_Marshal point_Unmarshal _ _ _ _ point_roundtrip Ho Hv (Ho' v)). cbn.
  by destruct ks as [[] ? ?].
Qed.

(** A key share that was stored is read back. *)
Lemma ecdsa_stored_read env path (ks : ECDSAKeyshare K) fs fs' :
  ecdsa_StoreKeyshare env path ks fs = (Ok tt, fs') -> ecdsa_GetKeyshare os_ok path fs' = Ok ks.
Proof.
  intros E. destruct (store_file_read env os_ok _ _ _ _ E eq_refl) as (kb & Hm & Hr).
  unfold ecdsa_GetKeyshare. rewrite Hr. by rewrite (json_roundtrip _ _ Hm).
Qed.

Lemma frost_stored_read env path (ks : FrostKeyshare Scalar Point) order order' fs fs' :
  order_of (tc_VerificationShares (fk_Key ks)) order -> (forall m, order_of m (order' m)) ->
  frost_StoreKeyshare env path ks order fs = (Ok tt, fs') -> frost_GetKeyshare os_ok path order' fs' = Ok ks.
Proof.
  intros Ho Ho' E. destruct (store_file_read env os_ok _ _ _ _ E eq_refl) as (kb & Hm & Hr).
  destruct (frost_document_back _ _ _ _ Ho Ho' Hm) as (st & Hst & Hks).
  unfold frost_GetKeyshare. rewrite Hr. by rewrite (json_roundtrip _ _ Hst).
Qed.

(** C15. Key shares survive being stored.  After storing an ECDSA or a FROST key
    share, reading gives that key share; when the file cannot be opened the old one
    is kept; but when anything fails later, encoding or writing, the old key share
    is gone: reading gives the new one or an error. *)
Theorem keyshare_stored path fs env :
  (forall (ks : ECDSAKeyshare K) r fs', ecdsa_StoreKeyshare env path ks fs = (r, fs') ->
     stored_or_lost env r (Ok ks) (ecdsa_GetKeyshare os_ok path fs) (ecdsa_GetKeyshare os_ok path fs')) /\
  (forall (ks : FrostKeyshare Scalar Point) order order' r fs',
     order_of (tc_VerificationShares (fk_Key ks)) order -> (forall m, order_of m (order' m)) ->
     frost_StoreKeyshare env path ks order fs = (r, fs') ->
     stored_or_lost env r (Ok ks) (frost_GetKeyshare os_ok path order' fs)
       (frost_GetKeyshare os_ok path order' fs')).
Proof.
  unfold stored_or_lost. split.
  - intros ks r fs' E. unfold ecdsa_GetKeyshare, ReadFile. cbn.
    apply store_file_outcomes in E as [[Ho ->]|[(-> & b & Hb & ->)|[(Hr & Ho & _ & ->)|(Hr & Ho & b & n & Hb & ->)]]].
    + right; left. done.
    + left. by rewrite (json_roundtrip _ _ Hb).
    + right; right. split_and!; [done..|]. destruct (json_empty (A := ECDSAKeyshare K)) as [e ->]. done.
    + right; right. split_and!; [done..|]. intros k Hk. destruct (json_Unmarshal (take n b)) eqn:Eu; [|done..].
      apply (Unmarshal_part _ _ _ _ Hb) in Eu. congruence.
  - intros ks order order' r fs' Ho1 Ho2 E. unfold frost_GetKeyshare, ReadFile. cbn.
    apply store_file_outcomes in E as [[Ho ->]|[(-> & b & Hb & ->)|[(Hr & Ho & _ & ->)|(Hr & Ho & b & n & Hb & ->)]]].
    + right; left. done.
    + left. destruct (frost_document_back _ _ _ _ Ho1 Ho2 Hb) as (st & Hst & Hks).
      by rewrite (json_roundtrip _ _ Hst).
    + right; right. split_and!; [done..|]. destruct (json_empty (A := frostKeyshareStore)) as [e ->]. done.
    + right; right. split_and!; [done..|]. intros k Hk. destruct (json_Unmarshal (take n b)) as [st'| |] eqn:Eu; [|done..].
      destruct (frost_document_back _ _ _ _ Ho1 Ho2 Hb) as (st & Hst & Hks).
      apply (Unmarshal_part _ _ _ _ Hst) in Eu. subst st'. congruence.
Qed.
End keyshare_spec.

(** ** Concrete key shares *)

Module KeyshareExample.
Import NumberCode.

(** Sealed numbers as documents. *)
Definition sealed_json {A B} `{Countable B} (to : A -> B) (from : B -> A)
    (Hinv : forall a, from (to a) = a) : JSON A.
Proof.
  refine {| json_Marshal a := Ok (seal (enc (to a)));
            json_Unmarshal b := match unseal b with
                                | Ok l => match dec l with Ok x => Ok (from x) | _ => Err "json" end
                                | _ => Err "json" end |}.
  - intros a b Hb. simplify_eq. rewrite unseal_seal, dec_enc. by rewrite Hinv.
  - intros a b n Hb Hn. simplify_eq. apply unseal_prefix in Hn. destruct (unseal _); [done|by eauto..].
  - by eexists.
Defined.

#[export] Instance ecdsa_json : JSON (ECDSAKeyshare Z) :=
  sealed_json (B := Z * Z * list PeerID) (fun k => (ek_Key k, ek_Threshold k, ek_Peers k))
    (fun '(a, b, c) => {| ek_Key := a; ek_Threshold := b; ek_Peers := c |}) ltac:(by intros []).

#[export] Instance frost_json : JSON frostKeyshareStore :=
  sealed_json (B := string * Z * bytes * (bytes * bytes * gmap string bytes) * Z * list PeerID)
    (fun s => (fr_ID (fs_Key s), fr_Threshold (fs_Key s), NumberCode.enc (fr_PrivateShare (fs_Key s)),
               (fr_PublicKey (fs_Key s), fr_ChainKey (fs_Key s), fr_VerificationShares (fs_Key s)),
               fs_Threshold s, fs_Peers s))
    (fun '(id, t, p, (k, c, v), t', ps) =>
       {| fs_Key := {| fr_ID := id; fr_Threshold := t;
                       fr_PrivateShare := match dec p with Ok x => x | _ => [] end;
                       fr_PublicKey := k; fr_ChainKey := c; fr_VerificationShares := v |};
          fs_Threshold := t'; fs_Peers := ps |})
    ltac:(by intros [[] ? ?]; cbn; rewrite dec_enc).

#[export] Program Instance numbers : CurveCodec Z Z :=
  {| scalar_Marshal x := Ok (enc x); scalar_Unmarshal := dec; point_Marshal x := Ok (enc x); point_Unmarshal := dec |}.
Next Obligation. intros x b Hb. cbn in Hb. simplify_eq. apply dec_enc. Qed.
Next Obligation. intros x b Hb. cbn in Hb. simplify_eq. apply dec_enc. Qed.

Definition old_share : ECDSAKeyshare Z := NewECDSAKeyshare 11 1 ["a"; "b"].
Definition new_share : ECDSAKeyshare Z := NewECDSAKeyshare 12 2 ["a"; "b"; "c"].
Definition disk : files := (ecdsa_StoreKeyshare os_ok "share" old_share ∅).2.
Definition full_disk : os_env := {| os_open := None; os_write := Some (3%nat, "no space left"); os_read := None |}.
Definition frost_share : FrostKeyshare Z Z :=
  NewFrostKeyshare {| tc_ID := "a"; tc_Threshold := 1; tc_PrivateShare := 5; tc_PublicKey := [Byte.x09];
                      tc_ChainKey := []; tc_VerificationShares := {["a" := 7; "b" := 8]} |} 1 ["a"; "b"].
End KeyshareExample.

Import KeyshareExample.

(** On a full disk the old key share is lost. *)
Lemma keyshare_stored_witness :
  ecdsa_GetKeyshare os_ok "share" disk = Ok old_share /\
  is_ok (ecdsa_GetKeyshare (K := Z) os_ok "share" (ecdsa_StoreKeyshare full_disk "share" new_share disk).2) = false /\
  ecdsa_GetKeyshare os_ok "share" (ecdsa_StoreKeyshare os_ok "share" new_share disk).2 = Ok new_share /\
  frost_GetKeyshare os_ok "frost" map_to_list
    (frost_StoreKeyshare os_ok "frost" frost_share (map_to_list (tc_VerificationShares (fk_Key frost_share)))
       disk).2 = Ok frost_share.
Proof.
  split; [vm_compute; reflexivity|]. split; [vm_compute; reflexivity|]. split.
  - destruct (proj1 (keyshare_stored (K := Z) (Scalar := Z) (Point := Z) "share" disk os_ok) new_share _ _
      (surjective_pairing (ecdsa_StoreKeyshare os_ok "share" new_share disk))) as [[_ E]|[[Ho _]|[Hr _]]];
      [exact E|by destruct Ho|by destruct Hr; vm_compute].
  - destruct (proj2 (keyshare_stored (K := Z) (Scalar := Z) (Point := Z) "frost" disk os_ok) frost_share
      (map_to_list (tc_VerificationShares (fk_Key frost_share))) map_to_list _ _
      (reflexivity _) (fun m => reflexivity _)
      (surjective_pairing (frost_StoreKeyshare os_ok "frost" frost_share
         (map_to_list (tc_VerificationShares (fk_Key frost_share))) disk))) as [[_ E]|[[Ho _]|[Hr _]]];
      [exact E|by destruct Ho|by destruct Hr; vm_compute].
Defined.
