(* ===== verification/Topology.v ===== *)
(** * Network topology ([topology], [comm/p2p/gater.go], [comm/p2p/host.go],
      [cli/topology])

    The peers of the network and the signing threshold are published as an
    encrypted JSON document; the relayer fetches it, checks its hash, keeps it in a
    file, and allows connections to its peers only.  SHA-256, the AES key stream,
    multiaddresses and the libp2p peer store are arguments. *)

From Stdlib Require Import Ascii.
From S2P Require Import Prelude GoBytes GoStrings GoFloat GoParse GoJson Files.

#[local] Open Scope string_scope.
#[local] Open Scope list_scope.
#[local] Open Scope Z_scope.

(** ** Data *)

(** libp2p's [peer.AddrInfo]. *)
Record AddrInfo := { ai_ID : PeerID; ai_Addrs : list string }.

Record NetworkTopology := { nt_Peers : list AddrInfo; nt_Threshold : Z }.

Record RawTopology := { rt_Peers : list string; rt_Threshold : string }.

Definition IsAllowedPeer (nt : NetworkTopology) (p : PeerID) : bool :=
  existsb (fun q => bool_decide (ai_ID q = p)) (nt_Peers nt).

(** ** Reading a topology *)

Section process.
Context (AddrInfoFromString : string -> res AddrInfo).

Fixpoint process_peers (peers : list string) : res (list AddrInfo) :=
  match peers with
  | [] => Ok []
  | p :: rest =>
      match AddrInfoFromString p with
      | Ok addrInfo => infos ← process_peers rest; Ok (addrInfo :: infos)
      | Err e => Err ("invalid peer address " +:+ p +:+ ": " +:+ e)
      | Panic => Panic
      end
  end.

Definition ProcessRawTopology (rawTopology : RawTopology) : res NetworkTopology :=
  peers ← process_peers (rt_Peers rawTopology);
  match ParseInt0 (rt_Threshold rawTopology) 64 with
  | Ok threshold =>
      if threshold <? 1 then Err "mpc threshold must be bigger then 0"
      else Ok {| nt_Peers := peers; nt_Threshold := threshold |}
  | Err e => Err ("unable to parse mpc threshold from topology " +:+ e)
  | Panic => Panic
  end.
End process.

(** ** Encryption: AES in counter mode *)

Definition BlockSize : nat := 16.

Definition xor_bytes (l k : bytes) : bytes :=
  zip_with (fun a b => byte_of (Z.lxor (bval a) (bval b))) l k.

(** The key stream of a key and an initial vector, of a given length. *)
Class CTR := {
  KeyStream : bytes -> bytes -> nat -> bytes;
  KeyStream_length : forall key iv n, length (KeyStream key iv n) = n;
}.

Section encryption.
Context `{CTR}.

(** [NewAESEncryption]: [aes.NewCipher] takes keys of 16, 24 or 32 bytes. *)
Definition NewAESEncryption (key : bytes) : res bytes :=
  if bool_decide (length key = 16%nat \/ length key = 24%nat \/ length key = 32%nat) then Ok key
  else Err "crypto/aes: invalid key size".

Definition Decrypt (key ct : bytes) : res bytes :=
  if (length ct <? BlockSize)%nat then Panic
  else let data := drop BlockSize ct in
       Ok (xor_bytes data (KeyStream key (take BlockSize ct) (length data))).

(** [Encrypt] with the 16 random bytes of [rand.Read]. *)
Definition Encrypt (key data : bytes) (random : res bytes) : res bytes :=
  iv ← random;
  Ok (iv ++ xor_bytes data (KeyStream key iv (length data))).
End encryption.

(** ** Publishing and fetching *)

(** [json.Unmarshal] into a [RawTopology]; a [RawPeer] is its address. *)
Definition into_raw_peer : json -> res string :=
  into_struct ["peerAddress"] (fun cur _ v => into_string cur v) "".

Definition store_raw (t : RawTopology) (name : string) (v : json) : res RawTopology :=
  if bool_decide (name = "peers") then
    l ← into_slice into_raw_peer v; Ok {| rt_Peers := l; rt_Threshold := rt_Threshold t |}
  else
    n ← into_string (rt_Threshold t) v; Ok {| rt_Peers := rt_Peers t; rt_Threshold := n |}.

Definition UnmarshalRaw (b : bytes) : res RawTopology :=
  unmarshal_json (into_struct ["peers"; "threshold"] store_raw {| rt_Peers := []; rt_Threshold := "" |}) b.
#[global] Arguments UnmarshalRaw : simpl never.
#[global] Strategy opaque [UnmarshalRaw].

Class TopologyLibs := {
  sha256 : bytes -> bytes;
  AddrInfoFromString : string -> res AddrInfo;
}.

(** [strings.TrimSuffix(s, "\n")] *)
Fixpoint trim_newline (s : string) : string :=
  match s with
  | EmptyString => ""
  | String "010" EmptyString => ""
  | String c s' => String c (trim_newline s')
  end.

Section provider.
Context `{CTR} `{TopologyLibs}.

(** The command [topology encrypt]: the document and the hash it prints.  The
    error of an invalid key is dropped, so that [Encrypt] uses a nil block, and
    the deferred [Close] panics when the file cannot be opened. *)
Definition encryptTopology (encryptionKey : bytes) (topologyFile : res bytes) (random : res bytes)
    : res (string * string) :=
  match topologyFile with
  | Ok byteValue =>
      match UnmarshalRaw byteValue with
      | Ok _ =>
          match NewAESEncryption encryptionKey with
          | Ok block =>
              ct ← Encrypt block byteValue random;
              Ok (hex_encode ct, hex_encode (sha256 ct))
          | _ => Panic
          end
      | Err e => Err ("topology was wrong formed " +:+ e)
      | Panic => Panic
      end
  | _ => Panic
  end.

(** [TopologyProvider.NetworkTopology] on the body the fetcher gets. *)
Definition fetch_topology (decrypter : bytes) (body : res string) (hash : string) : res NetworkTopology :=
  body ← body;
  ct ← from_opt "encoding/hex: invalid byte" (hex_decode (trim_newline body));
  let eh := hex_encode (sha256 ct) in
  if negb (bool_decide (hash = "")) && negb (bool_decide (eh = hash))
  then Err ("topology hash " +:+ eh +:+ " not matching expected hash " +:+ hash)
  else
    unecryptedBody ← Decrypt decrypter ct;
    rawTopology ← UnmarshalRaw unecryptedBody;
    ProcessRawTopology AddrInfoFromString rawTopology.
End provider.

(** ** The topology file *)

Class TopologyJSON := {
  MarshalTopology : NetworkTopology -> res bytes;
  UnmarshalTopology : bytes -> res NetworkTopology;
  topology_json : forall t b, MarshalTopology t = Ok b -> UnmarshalTopology b = Ok t;
  topology_empty : is_ok (UnmarshalTopology []) = false;
}.

Section store.
Context `{TopologyJSON}.

Definition StoreTopology (env : os_env) (path : string) (topology : NetworkTopology) (fs : files)
    : res unit * files :=
  store_file env path (MarshalTopology topology) fs.

Definition stored_Topology (env : os_env) (path : string) (fs : files) : res NetworkTopology :=
  tb ← ReadFile env path fs; UnmarshalTopology tb.
End store.

(** ** Connections and the peer store *)

(** [ConnectionGate]: its topology is replaced by [SetTopology]. *)
Definition InterceptPeerDial (gate : NetworkTopology) (p : PeerID) : bool := IsAllowedPeer gate p.
Definition InterceptSecured (gate : NetworkTopology) (p : PeerID) : bool := IsAllowedPeer gate p.
Definition InterceptAddrDial (gate : NetworkTopology) (p : PeerID) (addr : string) : bool := true.
Definition InterceptAccept (gate : NetworkTopology) : bool := true.
Definition InterceptUpgraded (gate : NetworkTopology) : bool * Z := (true, 0).

(** libp2p's peer store: the peers that have keys or addresses. *)
Class Peerstore (PS : Type) := {
  ps_Peers : PS -> list PeerID;
  RemovePeer : PeerID -> PS -> PS;
  ClearAddrs : PeerID -> PS -> PS;
  AddAddr : PeerID -> string -> PS -> PS;
}.

Class PeerstoreSpec (PS : Type) `{Peerstore PS} : Prop := {
  ps_Peers_NoDup : forall s, NoDup (ps_Peers s);
  ps_Peers_forget : forall p s q,
    q ∈ ps_Peers (ClearAddrs p (RemovePeer p s)) <-> q <> p /\ q ∈ ps_Peers s;
  ps_Peers_add : forall p a s q, q ∈ ps_Peers (AddAddr p a s) <-> q = p \/ q ∈ ps_Peers s;
}.

Section host.
Context {PS : Type} `{Peerstore PS}.

(** The second loop of [LoadPeers]: [p.Addrs[0]] panics for a peer without an
    address; the peers before it are loaded. *)
Fixpoint add_peers (peers : list AddrInfo) (s : PS) : res unit * PS :=
  match peers with
  | [] => (Ok tt, s)
  | p :: rest =>
      match ai_Addrs p with
      | [] => (Panic, s)
      | a :: _ => add_peers rest (AddAddr (ai_ID p) a s)
      end
  end.

Definition LoadPeers (peers : list AddrInfo) (s : PS) : res unit * PS :=
  add_peers peers (foldl (fun s p => ClearAddrs p (RemovePeer p s)) s (ps_Peers s)).

(** [NewHost] on the peer store of the host libp2p creates. *)
Definition NewHost (privKey : bool) (libp2p_New : res PS) (networkTopology : NetworkTopology)
    : res PS :=
  if negb privKey then Err "unable to create libp2p host: private key not defined"
  else match libp2p_New with
       | Ok h => match LoadPeers (nt_Peers networkTopology) h with
                 | (Ok _, h') => Ok h'
                 | (Err e, _) => Err e
                 | (Panic, _) => Panic
                 end
       | Err e => Err ("unable to create libp2p host: " +:+ e)
       | Panic => Panic
       end.
End host.

(** ** What a topology is *)

Section process_spec.
Context (AddrInfoFromString : string -> res AddrInfo).

Lemma process_peers_Ok peers infos :
  process_peers AddrInfoFromString peers = Ok infos <->
  Forall2 (fun p i => AddrInfoFromString p = Ok i) peers infos.
Proof.
  revert infos. induction peers as [|p peers IH]; intros infos; cbn.
  { split; [intros; by simplify_eq|by inversion 1]. }
  destruct (AddrInfoFromString p) as [i| |] eqn:E;
    [|split; [done|inversion 1; congruence]..].
  split.
  - intros (l & Hl & Hi)%outcome_bind_Ok. simplify_eq. constructor; [done|]. by apply IH.
  - inversion 1 as [|? i' ? l Hi Hl]; simplify_eq. apply IH in Hl. rewrite Hl. cbn. congruence.
Qed.

(** A topology that is accepted is well formed: its threshold is between 1 and
    2^63 - 1 and its peers are those of the document, in order.  A document whose
    addresses are valid and whose threshold is a decimal numeral in this range is
    accepted, whatever the number of peers. *)
Theorem ProcessRawTopology_wf raw :
  (forall t, ProcessRawTopology AddrInfoFromString raw = Ok t ->
     1 <= nt_Threshold t < 2 ^ 63 /\
     Forall2 (fun p i => AddrInfoFromString p = Ok i) (rt_Peers raw) (nt_Peers t) /\
     ParseInt0 (rt_Threshold raw) 64 = Ok (nt_Threshold t)) /\
  (forall infos n, Forall2 (fun p i => AddrInfoFromString p = Ok i) (rt_Peers raw) infos ->
     rt_Threshold raw = fmt_u n -> 1 <= n < 2 ^ 63 ->
     ProcessRawTopology AddrInfoFromString raw = Ok {| nt_Peers := infos; nt_Threshold := n |}).
Proof.
  unfold ProcessRawTopology. split.
  - intros t (infos & Hp%process_peers_Ok & Ht)%outcome_bind_Ok.
    destruct (ParseInt0 _ 64) as [n| |] eqn:En; [|done..]. destruct (Z.ltb_spec n 1); [done|].
    simplify_eq. cbn. split_and!; [done| |done|done].
    apply ParseInt0_bounds in En; [|done]. apply En.
  - intros infos n Hp%process_peers_Ok En Hn. rewrite Hp, En. cbn [mbind outcome_bind].
    rewrite ParseInt0_fmt_u by (cbn; lia). by replace (n <? 1) with false by lia.
Qed.
End process_spec.

(** ** Published documents *)

Lemma xor_bytes_length l k : length k = length l -> length (xor_bytes l k) = length l.
Proof. intros E. unfold xor_bytes. rewrite length_zip_with. lia. Qed.

Lemma byte_xor_twice a b :
  byte_of (Z.lxor (bval (byte_of (Z.lxor (bval a) (bval b)))) (bval b)) = a.
Proof.
  pose proof (bval_range a) as Ha. pose proof (bval_range b) as Hb.
  rewrite bval_byte_of, Z.mod_small.
  - by rewrite Z.lxor_assoc, Z.lxor_nilpotent, Z.lxor_0_r, byte_of_bval.
  - split; [apply Z.lxor_nonneg; lia|].
    destruct (Z.eq_dec (Z.lxor (bval a) (bval b)) 0) as [->|Hne]; [lia|].
    change 256 with (2 ^ 8). apply Z.log2_lt_pow2; [pose proof (proj2 (Z.lxor_nonneg (bval a) (bval b))); lia|].
    eapply Z.le_lt_trans; [apply Z.log2_lxor; lia|].
    apply Z.max_lub_lt; [destruct (Z.eq_dec (bval a) 0) as [->|]|destruct (Z.eq_dec (bval b) 0) as [->|]];
      try done; apply Z.log2_lt_pow2; lia.
Qed.

Lemma xor_bytes_twice l k : length k = length l -> xor_bytes (xor_bytes l k) k = l.
Proof.
  revert k. induction l as [|a l IH]; intros [|b k] E; try done. cbn in E |- *.
  f_equal; [apply byte_xor_twice|apply IH; lia].
Qed.

Lemma trim_newline_lacks s : lacks "010" s = true -> trim_newline s = s.
Proof.
  unfold lacks. induction s as [|c s IH]; [done|]. cbn [str_forall].
  intros [Hc Hs]%andb_prop. apply IH in Hs. cbn [trim_newline].
  destruct c as [[] [] [] [] [] [] [] []]; try (by rewrite Hs); done.
Qed.

Lemma trim_newline_one s : lacks "010" s = true -> trim_newline (s +:+ String "010" "") = s.
Proof.
  unfold lacks. induction s as [|c s IH]; [done|]. cbn [str_forall].
  intros [Hc Hs]%andb_prop. apply IH in Hs. rewrite str_app_String. cbn [trim_newline].
  destruct c as [[] [] [] [] [] [] [] []]; try (by rewrite Hs); done.
Qed.

Lemma hex_encode_lacks c l : hex_value c = None -> lacks c (hex_encode l) = true.
Proof.
  intros Hc. assert (forall n, 0 <= n < 16 -> negb (Ascii.eqb (hex_digit n) c) = true) as Hd.
  { intros n Hn. destruct (Ascii.eqb_spec (hex_digit n) c) as [<-|]; [|done].
    by rewrite hex_value_digit in Hc. }
  unfold lacks. induction l as [|b l IH]; [done|]. cbn [hex_encode str_forall].
  pose proof (bval_range b). rewrite !Hd, IH; [done|apply Z.mod_pos_bound; lia|].
  split; [apply Z.div_pos; lia|apply Z.div_lt_upper_bound; lia].
Qed.

Section provider_spec.
Context `{CTR} `{TopologyLibs}.

Lemma Decrypt_Encrypt key data iv ct :
  length iv = BlockSize -> Encrypt key data (Ok iv) = Ok ct -> Decrypt key ct = Ok data.
Proof.
  intros Hiv E. unfold Encrypt in E. cbn in E. simplify_eq. unfold Decrypt.
  destruct (Nat.ltb_spec (length (iv ++ xor_bytes data (KeyStream key iv (length data)))) BlockSize) as [Hl|_].
  { rewrite length_app in Hl. lia. }
  rewrite <- Hiv, take_app_length, drop_app_length. rewrite xor_bytes_length by apply KeyStream_length.
  by rewrite xor_bytes_twice by apply KeyStream_length.
Qed.

Lemma fetch_topology_Ok key body hash t :
  fetch_topology key body hash = Ok t ->
  exists b ct, body = Ok b /\ hex_decode (trim_newline b) = Some ct /\
    (hash = "" \/ hex_encode (sha256 ct) = hash) /\
    fetch_topology key body hash
    = (unecryptedBody ← Decrypt key ct; rawTopology ← UnmarshalRaw unecryptedBody;
       ProcessRawTopology AddrInfoFromString rawTopology).
Proof.
  unfold fetch_topology. destruct body as [b| |]; [|done..]. cbn [mbind outcome_bind].
  destruct (hex_decode (trim_newline b)) as [ct|] eqn:Ect; [|done]. cbn [from_opt mbind outcome_bind].
  destruct (negb _ && _) eqn:Ec; [done|]. intros _. exists b, ct. split_and!; [done..| |done].
  apply andb_false_iff in Ec as [E|E]; apply negb_false_iff, bool_decide_eq_true in E; auto.
Qed.

(** What the tool prints: a ciphertext of the file and its hash. *)
Lemma encryptTopology_Ok key file iv published hash :
  encryptTopology key (Ok file) (Ok iv) = Ok (published, hash) -> length iv = BlockSize ->
  exists ct, published = hex_encode ct /\ hash = hex_encode (sha256 ct) /\ Decrypt key ct = Ok file.
Proof.
  intros E Hiv. unfold encryptTopology in E. destruct (UnmarshalRaw file) eqn:Er; [|done..].
  destruct (NewAESEncryption key) as [block| |] eqn:En; [|done..].
  assert (block = key) as -> by (unfold NewAESEncryption in En; case_bool_decide; by simplify_eq).
  apply outcome_bind_Ok in E as (ct & Ect & E). simplify_eq. exists ct.
  split_and!; [done..|by eapply Decrypt_Encrypt].
Qed.

Lemma trim_published ct body :
  body = hex_encode ct \/ body = hex_encode ct +:+ String "010" "" -> trim_newline body = hex_encode ct.
Proof.
  pose proof (hex_encode_lacks "010" ct eq_refl) as Hl.
  intros [-> | ->]; [by apply trim_newline_lacks|by apply trim_newline_one].
Qed.

(** What the tool published, with or without a line end, is read back under its hash or
    without one, and refused under any other. *)
Lemma fetch_published key file iv published hash body h :
  encryptTopology key (Ok file) (Ok iv) = Ok (published, hash) -> length iv = BlockSize ->
  body = published \/ body = published +:+ String "010" "" -> h = hash \/ h = "" ->
  fetch_topology key (Ok body) h = (raw ← UnmarshalRaw file; ProcessRawTopology AddrInfoFromString raw).
Proof.
  intros E Hiv Hb Hh. destruct (encryptTopology_Ok _ _ _ _ _ E Hiv) as (ct & -> & -> & Ed).
  unfold fetch_topology. cbv beta iota delta [mbind outcome_bind]. rewrite (trim_published ct body Hb), hex_decode_encode.
  cbn [from_opt mbind outcome_bind]. rewrite Ed. destruct (UnmarshalRaw file) eqn:Er, Hh as [-> | ->].
  all: try rewrite (bool_decide_eq_true_2 (hex_encode (sha256 ct) = hex_encode (sha256 ct))) by done.
  all: try rewrite (bool_decide_eq_true_2 ("" = "")) by done.
  all: cbn [negb andb]; rewrite ?andb_false_r; cbn [mbind outcome_bind]; rewrite ?Er; done.
Qed.

Lemma fetch_refused key file iv published hash body h :
  encryptTopology key (Ok file) (Ok iv) = Ok (published, hash) -> length iv = BlockSize ->
  body = published \/ body = published +:+ String "010" "" -> h <> hash -> h <> "" ->
  is_ok (fetch_topology key (Ok body) h) = false.
Proof.
  intros E Hiv Hb Hh Hne. destruct (encryptTopology_Ok _ _ _ _ _ E Hiv) as (ct & -> & -> & Ed).
  unfold fetch_topology. cbv beta iota delta [mbind outcome_bind]. rewrite (trim_published ct body Hb), hex_decode_encode.
  cbn [from_opt mbind outcome_bind]. rewrite (bool_decide_eq_false_2 (h = "")) by done.
  by rewrite (bool_decide_eq_false_2 (hex_encode (sha256 ct) = h)) by congruence.
Qed.

Lemma bind_of_Ok {A B} (a : A) (f : A -> res B) : (x ← Ok a; f x) = f a.
Proof. done. Qed.

Lemma fetch_same key file iv published hash body h t :
  encryptTopology key (Ok file) (Ok iv) = Ok (published, hash) -> length iv = BlockSize ->
  fetch_topology key body h = Ok t -> h <> "" ->
  exists b ct, body = Ok b /\ hex_decode (trim_newline b) = Some ct /\ hex_encode (sha256 ct) = h /\
    (h = hash -> exists ct0, hex_decode published = Some ct0 /\ sha256 ct = sha256 ct0 /\
       (ct = ct0 -> (raw ← UnmarshalRaw file; ProcessRawTopology AddrInfoFromString raw) = Ok t)).
Proof.
  intros E Hiv Ht Hne. destruct (encryptTopology_Ok _ _ _ _ _ E Hiv) as (ct & -> & -> & Ed).
  destruct (fetch_topology_Ok _ _ _ _ Ht) as (b & ct' & Hbody & Eb & Hs & E').
  exists b, ct'. destruct Hs as [?|Hs]; [done|]. split; [exact Hbody|]. split; [exact Eb|]. split; [exact Hs|].
  intros Hh. exists ct. split; [apply hex_decode_encode|]. split.
  - rewrite Hh in Hs. apply (f_equal hex_decode) in Hs. rewrite !hex_decode_encode in Hs. by injection Hs.
  - intros ->. rewrite Ht, Ed, bind_of_Ok in E'. by rewrite <- E'.
Qed.

(** C16. What is published is what the relayers use.  The document and the hash the
    command line tool prints, served with or without a final newline: a relayer that has
    the key and is given this hash, or none, reads the topology of the file, and one that
    is given any other hash refuses the document.  For a hash that is not empty a relayer
    accepts only documents that have it; so what it accepts for the published hash is the
    published document and gives the topology of the file, unless it is one with another
    ciphertext and the same SHA-256 digest. *)
Theorem topology_published key file iv published hash :
  encryptTopology key (Ok file) (Ok iv) = Ok (published, hash) -> length iv = BlockSize ->
  (forall body h, body = published \/ body = published +:+ String "010" "" ->
     (h = hash \/ h = "" -> fetch_topology key (Ok body) h
        = (raw ← UnmarshalRaw file; ProcessRawTopology AddrInfoFromString raw)) /\
     (h <> hash -> h <> "" -> is_ok (fetch_topology key (Ok body) h) = false)) /\
  (forall body h t, fetch_topology key body h = Ok t -> h <> "" ->
     exists b ct, body = Ok b /\ hex_decode (trim_newline b) = Some ct /\ hex_encode (sha256 ct) = h /\
       (h = hash -> exists ct0, hex_decode published = Some ct0 /\ sha256 ct = sha256 ct0 /\
          (ct = ct0 -> (raw ← UnmarshalRaw file; ProcessRawTopology AddrInfoFromString raw) = Ok t))).
Proof.
  intros E Hiv. split.
  - intros body h Hb. split; [by eapply fetch_published|by eapply fetch_refused].
  - intros body h t. by apply (fetch_same key file iv).
Qed.
End provider_spec.

(** ** Allowed peers *)

Lemma IsAllowedPeer_spec nt p : IsAllowedPeer nt p = true <-> p ∈ ai_ID <$> nt_Peers nt.
Proof.
  unfold IsAllowedPeer. rewrite existsb_exists, list_elem_of_fmap. split.
  - intros (q & Hq & E%bool_decide_eq_true). exists q. split; [done|by apply list_elem_of_In].
  - intros (q & -> & Hq). exists q. split; [by apply list_elem_of_In|by apply bool_decide_eq_true].
Qed.

Section host_spec.
Context {PS : Type} `{PeerstoreSpec PS}.

Lemma forget_all l s q :
  q ∈ ps_Peers (foldl (fun s p => ClearAddrs p (RemovePeer p s)) s l) <-> (q ∉ l) /\ q ∈ ps_Peers s.
Proof.
  revert s. induction l as [|p l IH]; intros s; cbn; [set_solver|].
  rewrite IH, ps_Peers_forget, not_elem_of_cons. naive_solver.
Qed.

Lemma add_peers_Ok peers s s' :
  add_peers peers s = (Ok tt, s') ->
  forall q, q ∈ ps_Peers s' <-> q ∈ ai_ID <$> peers \/ q ∈ ps_Peers s.
Proof.
  revert s. induction peers as [|p peers IH]; intros s E q; cbn in E; [simplify_eq; set_solver|].
  destruct (ai_Addrs p) as [|a l]; [done|]. rewrite (IH _ E q), ps_Peers_add, fmap_cons, elem_of_cons. tauto.
Qed.

Lemma add_peers_total peers s :
  (exists s', add_peers peers s = (Ok tt, s')) <-> Forall (fun p => ai_Addrs p <> []) peers.
Proof.
  revert s. induction peers as [|p peers IH]; intros s; cbn.
  { split; [constructor|by exists s]. }
  destruct (ai_Addrs p) as [|a l] eqn:E.
  - split; [by intros [??]|]. intros [Hp _]%Forall_cons_1. congruence.
  - rewrite (IH (AddAddr (ai_ID p) a s)), list.Forall_cons, E. split; [by intros ?|by intros [_ ?]].
Qed.

Lemma add_peers_never_errs peers s e s' : add_peers peers s <> (Err e, s').
Proof. revert s. induction peers as [|p peers IH]; intros s; cbn; [done|]. by case_match. Qed.

(** Loading succeeds exactly when every peer has an address, and then the peer
    store has exactly these peers. *)
Lemma LoadPeers_spec peers s :
  ((exists s', LoadPeers peers s = (Ok tt, s')) <-> Forall (fun p => ai_Addrs p <> []) peers) /\
  (forall s', LoadPeers peers s = (Ok tt, s') -> forall q, q ∈ ps_Peers s' <-> q ∈ ai_ID <$> peers).
Proof.
  unfold LoadPeers. split; [apply add_peers_total|]. intros s' E q.
  rewrite (add_peers_Ok _ _ _ E), forget_all. tauto.
Qed.

Lemma NewHost_allowed privKey r nt s :
  NewHost privKey r nt = Ok s -> forall p, InterceptPeerDial nt p = true <-> p ∈ ps_Peers s.
Proof.
  unfold NewHost, InterceptPeerDial. intros E p. destruct privKey; [|done]. cbn in E.
  destruct r as [h| |]; [|done..].
  destruct (LoadPeers (nt_Peers nt) h) as [[[]| |] s'] eqn:El; simplify_eq.
  rewrite IsAllowedPeer_spec. symmetry. by apply (proj2 (LoadPeers_spec (nt_Peers nt) h)).
Qed.

(** The peers a relayer talks to.  A host is created exactly when it has a key,
    libp2p starts and every peer of the topology has an address; the peers it then
    knows, each once, are exactly those its gate allows it to dial and to be dialled
    by. *)
Theorem NewHost_peers privKey h nt :
  ((exists s, NewHost privKey (Ok h) nt = Ok s) <->
     privKey = true /\ Forall (fun p => ai_Addrs p <> []) (nt_Peers nt)) /\
  (forall s, NewHost privKey (Ok h) nt = Ok s -> NoDup (ps_Peers s) /\
     forall p, p ∈ ps_Peers s <-> InterceptPeerDial nt p = true /\ InterceptSecured nt p = true) /\
  (forall r, is_ok r = false -> is_ok (NewHost privKey r nt) = false).
Proof.
  destruct (LoadPeers_spec (nt_Peers nt) h) as [Hl Hp].
  unfold NewHost, InterceptPeerDial, InterceptSecured. split_and!.
  - destruct privKey; cbn; [|naive_solver]. split.
    + intros [s E]. split; [done|]. apply Hl. destruct (LoadPeers _ h) as [[[]| |] s'] eqn:El; [|done..]. eauto.
    + intros [_ Ha]. apply Hl in Ha as [s' ->]. eauto.
  - intros s E. split; [apply ps_Peers_NoDup|]. intros p. destruct privKey; [|done]. cbn in E.
    destruct (LoadPeers _ h) as [[[]| |] s'] eqn:El; [|done..]. simplify_eq.
    rewrite (Hp _ eq_refl), <- IsAllowedPeer_spec. tauto.
  - intros r Hr. destruct privKey; [|done]. by destruct r.
Qed.
End host_spec.

(** ** A concrete network *)

Module TopologyExample.
Import NumberCode.

(** A peer store that keeps addresses only. *)
Definition addr_book : Type := gmap PeerID (list string).

#[export] Instance addr_peerstore : Peerstore (gmap PeerID (list string)) := {
  ps_Peers s := (map_to_list s).*1;
  RemovePeer p s := s;
  ClearAddrs p s := delete p s;
  AddAddr p a s := <[p := a :: default [] (s !! p)]> s;
}.

Lemma addr_peers (s : gmap PeerID (list string)) q : q ∈ ps_Peers s <-> is_Some (s !! q).
Proof.
  cbn. rewrite list_elem_of_fmap. split.
  - intros ([k l] & -> & Hin%elem_of_map_to_list). by exists l.
  - intros [l Hl]. exists (q, l). split; [done|]. by apply elem_of_map_to_list.
Qed.

#[export] Instance addr_peerstore_spec : PeerstoreSpec (gmap PeerID (list string)).
Proof.
  split.
  - intros s. cbn. apply NoDup_fst_map_to_list.
  - intros p s q. rewrite !addr_peers. cbn. rewrite lookup_delete_is_Some. naive_solver.
  - intros p a s q. rewrite !addr_peers. cbn. rewrite lookup_insert_is_Some'. naive_solver.
Qed.

(** Stored topologies as numbers, the sum of the bytes as the hash, and a key stream that
    repeats the key. *)
#[export] Program Instance number_topology : TopologyJSON := {|
  MarshalTopology t := Ok (enc ((fun i => (ai_ID i, ai_Addrs i)) <$> nt_Peers t, nt_Threshold t));
  UnmarshalTopology b :=
    '(l, n) ← dec b;
    Ok {| nt_Peers := (fun '(i, a) => {| ai_ID := i; ai_Addrs := a |}) <$> l; nt_Threshold := n |};
|}.
Next Obligation.
  intros [l n] b Hb. simpl in *. injection Hb as <-. rewrite dec_enc. cbn. do 2 f_equal.
  rewrite <- list_fmap_compose. rewrite <- (list_fmap_id l) at 2. apply list_fmap_ext. by intros ? [? ?] _.
Qed.
Next Obligation. done. Qed.

#[export] Program Instance repeated_key : CTR :=
  {| KeyStream key iv n := take n (concat (replicate n (key ++ iv ++ [Byte.x00]))) |}.
Next Obligation.
  intros key iv n. cbn beta. rewrite length_take_le; [done|]. induction n as [|n IH]; cbn; [lia|].
  rewrite !length_app. cbn. lia.
Qed.

#[export] Instance libs : TopologyLibs := {|
  sha256 l := be_fixed 32 (be_val l mod 1000003);
  AddrInfoFromString s := if bool_decide (s = "") then Err "empty multiaddr"
                          else Ok {| ai_ID := s; ai_Addrs := ["/dns4/" +:+ s] |};
|}.

Definition raw : RawTopology := {| rt_Peers := ["a"; "b"; "c"]; rt_Threshold := "0x2" |}.
Definition raw_doc (t : RawTopology) : json :=
  JObject [("peers", JArray (map (fun p => JObject [("peerAddress", JString p)]) (rt_Peers t)));
           ("threshold", JString (rt_Threshold t))].
Definition file : bytes := marshal_json (raw_doc raw).
Definition secret : bytes := be_fixed 16 77.
Definition iv : bytes := be_fixed 16 12345.
Definition published : NetworkTopology :=
  {| nt_Peers := (fun p => {| ai_ID := p; ai_Addrs := ["/dns4/" +:+ p] |}) <$> ["a"; "b"; "c"];
     nt_Threshold := 2 |}.
Definition refreshed : NetworkTopology :=
  {| nt_Peers := (fun p => {| ai_ID := p; ai_Addrs := ["/dns4/" +:+ p] |}) <$> ["a"; "b"];
     nt_Threshold := 2 |}.
End TopologyExample.

Import TopologyExample.

Lemma topology_published_witness :
  exists doc hash, encryptTopology secret (Ok file) (Ok iv) = Ok (doc, hash) /\
    fetch_topology secret (Ok (doc +:+ String "010" "")) hash
    = (raw ← UnmarshalRaw file; ProcessRawTopology AddrInfoFromString raw) /\
    (raw ← UnmarshalRaw file; ProcessRawTopology AddrInfoFromString raw) = Ok published /\
    is_ok (fetch_topology secret (Ok doc) "00") = false.
Proof.
  destruct (encryptTopology secret (Ok file) (Ok iv)) as [[doc hash]| |] eqn:E;
    [|exfalso; assert (is_ok (encryptTopology secret (Ok file) (Ok iv)) = true) as Hok
        by (vm_compute; reflexivity); rewrite E in Hok; discriminate Hok..].
  assert (bool_decide ((snd <$> encryptTopology secret (Ok file) (Ok iv)) = Ok "00") = false) as Hh
    by (vm_compute; reflexivity).
  rewrite E in Hh. apply bool_decide_eq_false in Hh.
  destruct (topology_published secret file iv doc hash E eq_refl) as [Hp _].
  exists doc, hash. split; [reflexivity|]. split_and!.
  - apply (Hp (doc +:+ String "010" "") hash); [by right|by left].
  - vm_compute. reflexivity.
  - apply (Hp doc "00"); [by left| |discriminate]. intros <-. by apply Hh.
Defined.
