(* ===== verification/Transfer.v ===== *)
(** * Messages and proposals

    The records that travel between the chains ([relayer/transfer],
    [relayer/retry]) and the two envelopes of sygma-core they are wrapped in
    ([message.Message], [proposal.Proposal]).  A field of type [interface{}] is a
    value of an inductive type with one constructor per dynamic type the relayer
    stores in it and one for every other type. *)

From S2P Require Import Prelude GoBytes.

#[local] Open Scope string_scope.
#[local] Open Scope list_scope.
#[local] Open Scope Z_scope.

(** Values of type [interface{}] in [Payload] and [Metadata]. *)
Inductive iface :=
| IBytes (l : bytes)
| IBigInts (l : list Z)
| IUint64 (z : Z)
| IOther (dynamic_type : string).

#[export] Instance iface_eq_dec : EqDecision iface.
Proof. solve_decision. Defined.

(** The comma-ok assertions [x.([]byte)] and [x.([]*big.Int)]. *)
Definition as_bytes (v : iface) : option bytes :=
  match v with IBytes l => Some l | _ => None end.
Definition as_big_ints (v : iface) : option (list Z) :=
  match v with IBigInts l => Some l | _ => None end.
Definition as_uint64 (v : iface) : option Z :=
  match v with IUint64 z => Some z | _ => None end.

(** ** Transfer types: a Go string type with named constants *)

Abbreviation TransferType := string.
Definition FungibleTransfer : TransferType := "fungible".
Definition SemiFungibleTransfer : TransferType := "semiFungible".
Definition NonFungibleTransfer : TransferType := "nonFungible".
Definition PermissionedGenericTransfer : TransferType := "permissionedGeneric".
Definition PermissionlessGenericTransfer : TransferType := "permissionlessGeneric".

(** A nil map reads as an empty one. *)
Abbreviation metadata_map := (gmap string iface).

Record TransferMessageData := {
  tmd_DepositNonce : Z;
  tmd_ResourceId : bytes;
  tmd_Metadata : metadata_map;
  tmd_Payload : list iface;
  tmd_Type : TransferType;
}.

Definition TransferMessageType : string := "TransferMessage".
Definition TransferProposalType : string := "TransferProposal".
Definition RetryMessageType : string := "RetryMessage".

Record RetryMessageData := {
  rmd_SourceDomainID : Z;
  rmd_DestinationDomainID : Z;
  rmd_BlockHeight : Z;
  rmd_ResourceID : bytes;
}.

Record TransferProposalData := {
  tpd_DepositNonce : Z;
  tpd_ResourceId : bytes;
  tpd_Metadata : metadata_map;
  tpd_Data : bytes;
}.

Record BtcTransferProposalData := {
  bpd_Amount : Z;
  bpd_Recipient : string;
  bpd_DepositNonce : Z;
  bpd_ResourceId : bytes;
}.

(** The [Data] field of [message.Message]. *)
Inductive message_data :=
| TransferData (d : TransferMessageData)
| RetryData (d : RetryMessageData)
| OtherData.

(** The [Data] field of [proposal.Proposal]. *)
Inductive proposal_data :=
| TransferPropData (d : TransferProposalData)
| BtcPropData (d : BtcTransferProposalData)
| OtherPropData.

#[export] Instance TransferMessageData_eq_dec : EqDecision TransferMessageData.
Proof. solve_decision. Defined.
#[export] Instance RetryMessageData_eq_dec : EqDecision RetryMessageData.
Proof. solve_decision. Defined.
#[export] Instance TransferProposalData_eq_dec : EqDecision TransferProposalData.
Proof. solve_decision. Defined.
#[export] Instance BtcTransferProposalData_eq_dec : EqDecision BtcTransferProposalData.
Proof. solve_decision. Defined.
#[export] Instance message_data_eq_dec : EqDecision message_data.
Proof. solve_decision. Defined.
#[export] Instance proposal_data_eq_dec : EqDecision proposal_data.
Proof. solve_decision. Defined.

(** ** Envelopes *)

Record Message := NewMessage {
  m_Source : Z;
  m_Destination : Z;
  m_Data : message_data;
  m_ID : string;
  m_Type : string;
  m_Timestamp : Z;
}.

Record Proposal := NewProposal {
  p_Source : Z;
  p_Destination : Z;
  p_Data : proposal_data;
  p_MessageID : string;
  p_Type : string;
}.

#[export] Instance Message_eq_dec : EqDecision Message.
Proof. solve_decision. Defined.
#[export] Instance Proposal_eq_dec : EqDecision Proposal.
Proof. solve_decision. Defined.

(** [transfer.TransferMessage] and [transfer.TransferProposal]: an envelope whose
    [Data] has been asserted to its concrete type. *)
Record TransferMessage := {
  tm_Source : Z;
  tm_Destination : Z;
  tm_Data : TransferMessageData;
  tm_Type : string;
  tm_ID : string;
}.

Record TransferProposal := {
  tp_Source : Z;
  tp_Destination : Z;
  tp_Data : TransferProposalData;
  tp_Type : string;
  tp_MessageID : string;
}.

#[export] Instance TransferProposal_eq_dec : EqDecision TransferProposal.
Proof. solve_decision. Defined.

(** [msg.Data.(transfer.TransferMessageData)] and its siblings; a failed
    assertion panics. *)
Definition as_transfer (d : message_data) : option TransferMessageData :=
  match d with TransferData x => Some x | _ => None end.
Definition as_retry (d : message_data) : option RetryMessageData :=
  match d with RetryData x => Some x | _ => None end.
Definition as_transfer_prop (d : proposal_data) : option TransferProposalData :=
  match d with TransferPropData x => Some x | _ => None end.
Definition as_btc_prop (d : proposal_data) : option BtcTransferProposalData :=
  match d with BtcPropData x => Some x | _ => None end.

(** The envelope of a transfer message with its data asserted, as every message
    handler builds it before dispatching on the transfer type. *)
Definition transfer_message_of (msg : Message) : res TransferMessage :=
  data ← or_panic (as_transfer (m_Data msg));
  Ok {| tm_Source := m_Source msg; tm_Destination := m_Destination msg;
        tm_Data := data; tm_Type := m_Type msg; tm_ID := m_ID msg |}.

(** The proposal every transfer handler returns around its [data] bytes. *)
Definition transfer_proposal_of (msg : TransferMessage) (data : bytes) : Proposal :=
  NewProposal (tm_Source msg) (tm_Destination msg)
    (TransferPropData
       {| tpd_DepositNonce := tmd_DepositNonce (tm_Data msg);
          tpd_ResourceId := tmd_ResourceId (tm_Data msg);
          tpd_Metadata := tmd_Metadata (tm_Data msg);
          tpd_Data := data |})
    (tm_ID msg) TransferProposalType.

(** Indexing a payload: [Payload[i]] panics out of range. *)
Definition payload_at (msg : TransferMessage) (i : nat) : res iface :=
  or_panic (tmd_Payload (tm_Data msg) !! i).

(** [Payload[i].([]byte)] with its comma-ok error. *)
Definition payload_bytes (msg : TransferMessage) (i : nat) (e : error) : res bytes :=
  v ← payload_at msg i; from_opt e (as_bytes v).
