(* ===== verification/Routing.v ===== *)
(** * Routing messages by destination

    Every event handler collects the messages it resolves in a map from
    destination domain to messages, appending in the order of the events, and
    sends one slice per domain.  The lemmas here are shared by the bitcoin, EVM
    and substrate handlers. *)

From S2P Require Import Prelude GoBytes GoStrings Transfer.

#[local] Open Scope list_scope.
#[local] Open Scope Z_scope.

(** [domainDeposits[m.Destination] = append(domainDeposits[m.Destination], m)] *)
Definition add_deposit (m : Message) (dd : gmap Z (list Message)) : gmap Z (list Message) :=
  <[m_Destination m := default [] (dd !! m_Destination m) ++ [m]]> dd.

Definition to_domain (d : Z) (om : option Message) : option Message :=
  m ← om; if decide (m_Destination m = d) then Some m else None.

Definition nonempty {A} (l : list A) : option (list A) :=
  match l with [] => None | _ => Some l end.

Lemma nonempty_default {A} (l : list A) : default [] (nonempty l) = l.
Proof. by destruct l. Qed.

Lemma add_deposit_lookup m dd d :
  add_deposit m dd !! d
  = if decide (m_Destination m = d) then Some (default [] (dd !! d) ++ [m]) else dd !! d.
Proof.
  unfold add_deposit. case_decide as Hd.
  - subst d. by rewrite lookup_insert_eq.
  - by rewrite lookup_insert_ne.
Qed.

Section collect.
Context {E : Type} (resolve : E -> option Message).

(** The loop over the events; [resolve] is [None] for an event that is skipped. *)
Definition collect (evts : list E) (dd : gmap Z (list Message)) : gmap Z (list Message) :=
  fold_left (fun dd evt => match resolve evt with
                           | Some m => add_deposit m dd
                           | None => dd
                           end) evts dd.

(** The messages for a domain are those of the events, in their order. *)
Lemma collect_lookup evts dd d :
  collect evts dd !! d
  = nonempty (default [] (dd !! d) ++ omap (fun evt => to_domain d (resolve evt)) evts)
    \/ (exists l, dd !! d = Some l /\ l = []).
Proof.
  destruct (decide (dd !! d = Some [])) as [He|He]; [right; eauto|left].
  revert dd He. induction evts as [|evt evts IH]; intros dd He; simpl.
  { rewrite app_nil_r. by destruct (dd !! d) as [[|m l]|]. }
  destruct (resolve evt) as [m|]; [|by apply IH]. simpl. rewrite IH.
  - rewrite add_deposit_lookup. case_decide; simpl; [|done]. by rewrite <- app_assoc.
  - rewrite add_deposit_lookup. case_decide; [|done]. intros [= E0]. by destruct (default [] (dd !! d)).
Qed.

Lemma collect_empty_lookup evts d :
  collect evts ∅ !! d = nonempty (omap (fun evt => to_domain d (resolve evt)) evts).
Proof. destruct (collect_lookup evts ∅ d) as [->|(l & E0 & _)]; done. Qed.

(** Every collected message was resolved from an event and has its key as
    destination. *)
Lemma collect_elem evts d m :
  m ∈ default [] (collect evts ∅ !! d) <->
  m_Destination m = d /\ exists evt, evt ∈ evts /\ resolve evt = Some m.
Proof.
  rewrite collect_empty_lookup, nonempty_default, list_elem_of_omap. unfold to_domain. split.
  - intros (evt & Hin & Hm). destruct (resolve evt) as [m'|] eqn:Er; [|done]. simpl in Hm.
    case_decide; [|done]. injection Hm as ->. eauto.
  - intros (Hd & evt & Hin & Er). exists evt. rewrite Er. simpl. by rewrite decide_True.
Qed.
End collect.
