(* ===== verification/PropStore.v ===== *)
(** * Proposal status store ([store/propstore.go])

    Statuses are kept in a key-value database under a formatted key.  The
    database is sygma-core's [KeyValueReaderWriter] over leveldb and is an
    interface here; [PropStorer] is the interface the executors and the retry
    handlers use, and the last section shows that the store implements it. *)

From S2P Require Import Prelude GoBytes GoStrings.

#[local] Open Scope string_scope.
#[local] Open Scope list_scope.
#[local] Open Scope Z_scope.

(** ** Statuses: a Go string type with named constants *)

Abbreviation PropStatusT := string.
Definition MissingProp : PropStatusT := "missing".
Definition PendingProp : PropStatusT := "pending".
Definition FailedProp : PropStatusT := "failed".
Definition ExecutedProp : PropStatusT := "executed".

(** ** The key-value database *)

Inductive get_result :=
| Found (v : bytes)
| NotFound            (* leveldb.ErrNotFound *)
| GetError (e : error).

Class KeyValueStore (DB : Type) := {
  GetByKey : bytes -> DB -> get_result;
  SetByKey : bytes -> bytes -> DB -> option error * DB;
}.

(** What the store relies on: a successful write is read back, and a write
    touches no other key. *)
Class KeyValueStoreSpec (DB : Type) `{KeyValueStore DB} : Prop := {
  GetByKey_SetByKey_eq : forall k v db db',
    SetByKey k v db = (None, db') -> GetByKey k db' = Found v;
  GetByKey_SetByKey_ne : forall k k' v db r db',
    k <> k' -> SetByKey k v db = (r, db') -> GetByKey k' db' = GetByKey k' db;
}.

(** ** The interface to the executors and the retry handlers *)

Class PropStorer (S : Type) := {
  StorePropStatus : Z -> Z -> Z -> PropStatusT -> S -> option error * S;
  PropStatus : Z -> Z -> Z -> S -> PropStatusT * option error;
}.

Definition valid_key (source destination nonce : Z) : Prop :=
  is_u8 source /\ is_u8 destination /\ is_u64 nonce.

Class PropStorerSpec (S : Type) `{PropStorer S} : Prop := {
  PropStatus_store_eq : forall source destination nonce status s s',
    valid_key source destination nonce ->
    StorePropStatus source destination nonce status s = (None, s') ->
    PropStatus source destination nonce s' = (status, None);
  PropStatus_store_ne : forall source destination nonce source' destination' nonce' status s r s',
    valid_key source destination nonce -> valid_key source' destination' nonce' ->
    (source, destination, nonce) <> (source', destination', nonce') ->
    StorePropStatus source destination nonce status s = (r, s') ->
    PropStatus source' destination' nonce' s' = PropStatus source' destination' nonce' s;
}.

(** ** The store *)

(** [fmt.Sprintf(KEY, source, destination, depositNonce)] *)
Definition KEY (source destination depositNonce : Z) : string :=
  "source:" +:+ fmt_u source +:+ ":destination:" +:+ fmt_u destination
    +:+ ":depositNonce:" +:+ fmt_u depositNonce.

Section propstore.
Context {DB : Type} `{KeyValueStore DB}.

Definition store_StorePropStatus (source destination depositNonce : Z)
    (status : PropStatusT) (db : DB) : option error * DB :=
  match SetByKey (bytes_of_string (KEY source destination depositNonce))
          (bytes_of_string status) db with
  | (Some err, db') => (Some err, db')
  | (None, db') => (None, db')
  end.

Definition store_PropStatus (source destination depositNonce : Z) (db : DB)
    : PropStatusT * option error :=
  match GetByKey (bytes_of_string (KEY source destination depositNonce)) db with
  | NotFound => (MissingProp, None)
  | GetError err => (MissingProp, Some err)
  | Found v => (string_of_bytes v, None)
  end.

#[export] Instance PropStore_PropStorer : PropStorer DB := {
  StorePropStatus := store_StorePropStatus;
  PropStatus := store_PropStatus;
}.
End propstore.

(** ** Keys *)

Lemma KEY_inj_aux s d n s' d' n' :
  valid_key s d n -> valid_key s' d' n' ->
  KEY s d n = KEY s' d' n' -> (s, d, n) = (s', d', n').
Proof.
  intros ([? ?] & [? ?] & [? ?]) ([? ?] & [? ?] & [? ?]).
  unfold KEY. intros [= HK].
  apply str_cut_inj in HK as [Hs HK]; [|by apply fmt_u_lacks..].
  injection HK as HK. apply str_cut_inj in HK as [Hd HK]; [|by apply fmt_u_lacks..].
  injection HK as Hn.
  apply fmt_u_inj in Hs, Hd, Hn; [by subst|done..].
Qed.

(** Two deposits that differ in source domain, destination domain or nonce
    are stored under different keys, although the key is one flat string. *)
Theorem KEY_distinct s d n s' d' n' :
  valid_key s d n -> valid_key s' d' n' -> (s, d, n) <> (s', d', n') ->
  bytes_of_string (KEY s d n) <> bytes_of_string (KEY s' d' n').
Proof. intros ? ? Hne ?%bytes_of_string_inj. by apply Hne, KEY_inj_aux. Qed.

Lemma KEY_distinct_witness :
  bytes_of_string (KEY 1 11 1) <> bytes_of_string (KEY 11 1 1).
Proof. apply KEY_distinct; [repeat split; lia..|congruence]. Defined.

(** ** The store implements the interface *)

Section propstore_spec.
Context {DB : Type} `{KeyValueStoreSpec DB}.

Lemma store_PropStatus_eq s d n status (db db' : DB) :
  store_StorePropStatus s d n status db = (None, db') ->
  store_PropStatus s d n db' = (status, None).
Proof.
  unfold store_StorePropStatus, store_PropStatus.
  destruct (SetByKey _ _ db) as [[e|] db1] eqn:E; intros [= <-].
  rewrite (GetByKey_SetByKey_eq _ _ _ _ E). by rewrite string_of_bytes_of_string.
Qed.

Lemma store_PropStatus_ne s d n s' d' n' status (db : DB) r db' :
  valid_key s d n -> valid_key s' d' n' -> (s, d, n) <> (s', d', n') ->
  store_StorePropStatus s d n status db = (r, db') ->
  store_PropStatus s' d' n' db' = store_PropStatus s' d' n' db.
Proof.
  intros Hk Hk' Hne. unfold store_StorePropStatus, store_PropStatus.
  destruct (SetByKey _ _ db) as [e db1] eqn:E.
  intros Heq. assert (db1 = db') as <- by (destruct e; congruence).
  assert (bytes_of_string (KEY s d n) <> bytes_of_string (KEY s' d' n')) as HK.
  { intros ?%bytes_of_string_inj. by apply Hne, KEY_inj_aux. }
  by rewrite (GetByKey_SetByKey_ne _ _ _ _ _ _ HK E).
Qed.

#[export] Instance PropStore_PropStorerSpec : PropStorerSpec DB.
Proof.
  constructor.
  - intros s d n st db db' _. apply store_PropStatus_eq.
  - intros s d n s' d' n' st db r db' Hk Hk' Hne. by apply store_PropStatus_ne.
Qed.
End propstore_spec.

(** ** A concrete database *)

Module MapDB.
#[export] Instance map_kv : KeyValueStore (gmap bytes bytes) := {
  GetByKey k db := match db !! k with Some v => Found v | None => NotFound end;
  SetByKey k v db := (None, <[k := v]> db);
}.

#[export] Instance map_kv_spec : KeyValueStoreSpec (gmap bytes bytes).
Proof.
  split.
  - intros k v db db' [= <-]. simpl. by rewrite lookup_insert_eq.
  - intros k k' v db r db' Hne [= _ <-]. simpl. by rewrite lookup_insert_ne.
Qed.
End MapDB.

(** C1. The status written for a deposit is the status read for it, a status
    never written reads as missing, and writing one deposit's status leaves
    every other deposit's status as it was. *)
Theorem PropStore_refines_PropStorer {DB} `{KeyValueStoreSpec DB} :
  (forall s d n status (db db' : DB),
     store_StorePropStatus s d n status db = (None, db') ->
     store_PropStatus s d n db' = (status, None)) /\
  (forall s d n (db : DB),
     GetByKey (bytes_of_string (KEY s d n)) db = NotFound ->
     store_PropStatus s d n db = (MissingProp, None)) /\
  (forall s d n s' d' n' status (db : DB) r db',
     valid_key s d n -> valid_key s' d' n' -> (s, d, n) <> (s', d', n') ->
     store_StorePropStatus s d n status db = (r, db') ->
     store_PropStatus s' d' n' db' = store_PropStatus s' d' n' db).
Proof.
  split_and!.
  - apply store_PropStatus_eq.
  - intros s d n db Hg. unfold store_PropStatus. by rewrite Hg.
  - apply store_PropStatus_ne.
Qed.

Import MapDB.

Lemma PropStore_refines_PropStorer_witness :
  store_PropStatus (DB := gmap bytes bytes) 1 2 3
    (snd (store_StorePropStatus 1 2 3 ExecutedProp ∅)) = (ExecutedProp, None).
Proof.
  refine (proj1 (PropStore_refines_PropStorer (DB := gmap bytes bytes)) 1 2 3 ExecutedProp ∅ _ _).
  reflexivity.
Defined.
