(* ===== verification/Retry.v ===== *)
(** * Retrying deposits

    [relayer/retry/retry.go] ([FilterDeposits], [isExecuted]) and the retry
    message handlers of the three chain executors, which fetch the deposits of
    the block named by a retry message, drop the executed ones and hand the rest
    to the relayer. *)

From S2P Require Import Prelude GoBytes GoStrings Transfer PropStore.

#[local] Open Scope string_scope.
#[local] Open Scope list_scope.
#[local] Open Scope Z_scope.

Section filter.
Context {S : Type} `{PropStorer S}.

(** [isExecuted]: the [bool] and the [error] are returned together, and a stuck
    pending proposal is marked failed so that it can be retried. *)
Definition isExecuted (msg : Message) (data : TransferMessageData) (s : S)
    : (bool * option error) * S :=
  match PropStatus (m_Source msg) (m_Destination msg) (tmd_DepositNonce data) s with
  | (_, Some err) => ((true, Some err), s)
  | (propStatus, None) =>
      if bool_decide (propStatus = ExecutedProp) then ((true, None), s)
      else if bool_decide (propStatus = PendingProp) then
        let '(err, s') := StorePropStatus (m_Source msg) (m_Destination msg)
                            (tmd_DepositNonce data) FailedProp s in
        ((false, err), s')
      else ((false, None), s)
  end.

(** The inner loop over the deposits of one domain; [acc] is
    [filteredDeposits]. *)
Fixpoint filter_deposits (resourceID : bytes) (deposits acc : list Message)
    : gom S (list Message) :=
  match deposits with
  | [] => mret acc
  | deposit :: rest => fun s =>
      match as_transfer (m_Data deposit) with
      | None => (Panic, s)
      | Some data =>
          if bool_decide (tmd_ResourceId data <> resourceID)
          then filter_deposits resourceID rest acc s
          else match isExecuted deposit data s with
               | ((_, Some _), s') => filter_deposits resourceID rest acc s'
               | ((true, None), s') => filter_deposits resourceID rest acc s'
               | ((false, None), s') =>
                   filter_deposits resourceID rest (acc ++ [deposit]) s'
               end
      end
  end.

(** The outer loop ranges over a map: [entries] lists its pairs in iteration
    order. *)
Fixpoint filter_entries (resourceID : bytes) (destination : Z)
    (entries : list (Z * list Message)) (acc : list Message) : gom S (list Message) :=
  match entries with
  | [] => mret acc
  | (domain, deposits) :: rest =>
      if bool_decide (domain <> destination)
      then filter_entries resourceID destination rest acc
      else acc' ← filter_deposits resourceID deposits acc;
           filter_entries resourceID destination rest acc'
  end.

Definition FilterDeposits (domainDeposits : gmap Z (list Message)) (resourceID : bytes)
    (destination : Z) : gom S (list Message) :=
  filter_entries resourceID destination (map_to_list domainDeposits) [].
End filter.

(** ** The retry message handlers

    A handler returns no proposal; what it produces is the list of deposits it
    sends on [msgChan] ([None] when it sends nothing). *)

Definition sent := option (list Message).

Definition to_send (l : list Message) : sent :=
  match l with [] => None | _ => Some l end.

Section handlers.
Context {S : Type} `{PropStorer S}.

(** The common tail: filter the deposits of the block and send what is left. *)
Definition retry_deposits (domainDeposits : res (gmap Z (list Message)))
    (retryData : RetryMessageData) : gom S sent :=
  match domainDeposits with
  | Err err => gom_fail err
  | Panic => gom_panic
  | Ok dd =>
      filteredDeposits ← FilterDeposits dd (rmd_ResourceID retryData)
                           (rmd_DestinationDomainID retryData);
      mret (to_send filteredDeposits)
  end.

Definition not_confirmed (latest bound : Z) : error :=
  "latest block " +:+ fmt_d latest
    +:+ " higher than receipt block number + block confirmations " +:+ fmt_d bound.

(** [chains/evm/executor] *)
Definition evm_retry_HandleMessage (LatestBlock : res Z) (blockConfirmations : Z)
    (ProcessDeposits : Z -> Z -> res (gmap Z (list Message))) (msg : Message)
    : gom S sent := fun s =>
  match as_retry (m_Data msg) with
  | None => (Panic, s)
  | Some retryData =>
      match LatestBlock with
      | Err err => (Err err, s)
      | Panic => (Panic, s)
      | Ok latestBlock =>
          let bound := rmd_BlockHeight retryData + blockConfirmations in
          if bool_decide (latestBlock ≤ bound) then (Err (not_confirmed latestBlock bound), s)
          else retry_deposits
                 (ProcessDeposits (rmd_BlockHeight retryData) (rmd_BlockHeight retryData))
                 retryData s
      end
  end.

(** [chains/btc/executor]: the height is read from the best block. *)
Definition btc_retry_HandleMessage {Hash} (GetBestBlockHash : res Hash)
    (GetBlockVerboseTx : Hash -> res Z) (blockConfirmations : Z)
    (ProcessDeposits : Z -> res (gmap Z (list Message))) (msg : Message)
    : gom S sent := fun s =>
  match as_retry (m_Data msg) with
  | None => (Panic, s)
  | Some retryData =>
      match hash ← GetBestBlockHash; GetBlockVerboseTx hash with
      | Err err => (Err err, s)
      | Panic => (Panic, s)
      | Ok latestBlock =>
          let bound := rmd_BlockHeight retryData + blockConfirmations in
          if bool_decide (latestBlock ≤ bound) then (Err (not_confirmed latestBlock bound), s)
          else retry_deposits (ProcessDeposits (rmd_BlockHeight retryData)) retryData s
      end
  end.

(** [chains/substrate/executor]: the finalized head is compared without
    confirmations. *)
Definition substrate_retry_HandleMessage {Hash} (GetFinalizedHead : res Hash)
    (GetBlock : Hash -> res Z)
    (ProcessDeposits : Z -> Z -> res (gmap Z (list Message))) (msg : Message)
    : gom S sent := fun s =>
  match as_retry (m_Data msg) with
  | None => (Panic, s)
  | Some retryData =>
      match hash ← GetFinalizedHead; GetBlock hash with
      | Err err => (Err err, s)
      | Panic => (Panic, s)
      | Ok latestBlock =>
          if bool_decide (latestBlock ≤ rmd_BlockHeight retryData)
          then (Err ("latest block " +:+ fmt_d latestBlock
                       +:+ " higher than receipt block number "
                       +:+ fmt_d (rmd_BlockHeight retryData)), s)
          else retry_deposits
                 (ProcessDeposits (rmd_BlockHeight retryData) (rmd_BlockHeight retryData))
                 retryData s
      end
  end.
End handlers.

(** ** Properties of the filter *)

(** A deposit whose envelope carries a transfer with a key of the right widths. *)
Definition deposit_key (m : Message) : option (Z * Z * Z) :=
  data ← as_transfer (m_Data m);
  Some (m_Source m, m_Destination m, tmd_DepositNonce data).

Definition wf_deposit (m : Message) : Prop :=
  match deposit_key m with Some (s, d, n) => valid_key s d n | None => False end.

Definition for_resource (rid : bytes) (m : Message) : Prop :=
  match as_transfer (m_Data m) with Some data => tmd_ResourceId data = rid | None => False end.

#[export] Instance for_resource_dec rid m : Decision (for_resource rid m).
Proof. unfold for_resource. destruct (as_transfer (m_Data m)); apply _. Defined.

Section filter_spec.
Context {S : Type} `{PropStorerSpec S}.

(** The status of a deposit in a store, [None] when it cannot be read. *)
Definition deposit_status (s : S) (m : Message) : option PropStatusT :=
  match deposit_key m with
  | Some (src, dst, n) =>
      match PropStatus src dst n s with (st, None) => Some st | (_, Some _) => None end
  | None => None
  end.

(** The store never reports an error. *)
Definition storage_ok : Prop :=
  (forall a b n (s : S), snd (PropStatus a b n s) = None) /\
  (forall a b n st (s : S), fst (StorePropStatus a b n st s) = None).

Definition retryable (s : S) (rid : bytes) (m : Message) : Prop :=
  for_resource rid m /\ deposit_status s m <> Some ExecutedProp.

#[export] Instance retryable_dec s rid m : Decision (retryable s rid m).
Proof. apply _. Defined.

(** The only change a run of the filter makes to a status is from pending to
    failed. *)
Definition agree (s s' : S) : Prop :=
  forall m, wf_deposit m ->
    deposit_status s' m = deposit_status s m \/
    (deposit_status s m = Some PendingProp /\ deposit_status s' m = Some FailedProp).

Lemma agree_refl s : agree s s.
Proof. intros m _. by left. Qed.

Lemma agree_trans s1 s2 s3 : agree s1 s2 -> agree s2 s3 -> agree s1 s3.
Proof.
  intros H12 H23 m Hm.
  destruct (H12 m Hm) as [E12|[E1 E2]], (H23 m Hm) as [E23|[E2' E3]];
    rewrite ?E12, ?E23 in *; auto.
Qed.

Lemma agree_executed s s' m :
  agree s s' -> wf_deposit m ->
  (deposit_status s' m = Some ExecutedProp <-> deposit_status s m = Some ExecutedProp).
Proof. intros Hag Hm. by destruct (Hag m Hm) as [->|[-> ->]]. Qed.

Lemma agree_not_pending s s' m :
  agree s s' -> wf_deposit m -> deposit_status s m <> Some PendingProp ->
  deposit_status s' m <> Some PendingProp.
Proof. intros Hag Hm. by destruct (Hag m Hm) as [->|[-> ->]]. Qed.

Lemma isExecuted_agree msg data s r s' :
  storage_ok -> wf_deposit msg -> as_transfer (m_Data msg) = Some data ->
  isExecuted msg data s = (r, s') ->
  agree s s' /\ r = (bool_decide (deposit_status s msg = Some ExecutedProp), None) /\
  deposit_status s' msg <> Some PendingProp.
Proof.
  intros [HokG HokS] Hwf Hd. unfold isExecuted.
  assert (deposit_key msg = Some (m_Source msg, m_Destination msg, tmd_DepositNonce data)) as Hk
    by (unfold deposit_key; by rewrite Hd).
  assert (valid_key (m_Source msg) (m_Destination msg) (tmd_DepositNonce data)) as Hv
    by (unfold wf_deposit in Hwf; by rewrite Hk in Hwf).
  destruct (PropStatus _ _ _ s) as [st [e|]] eqn:EP.
  { exfalso. specialize (HokG (m_Source msg) (m_Destination msg) (tmd_DepositNonce data) s).
    by rewrite EP in HokG. }
  assert (deposit_status s msg = Some st) as Est by (unfold deposit_status; by rewrite Hk, EP).
  rewrite Est. destruct (bool_decide_reflect (st = ExecutedProp)) as [->|Hne].
  { intros [= <- <-]. rewrite Est. eauto using agree_refl. }
  rewrite (bool_decide_eq_false_2 (Some st = _)) by congruence.
  destruct (bool_decide_reflect (st = PendingProp)) as [->|Hnp]; last first.
  { intros [= <- <-]. rewrite Est. split_and!; [apply agree_refl|done|congruence]. }
  destruct (StorePropStatus _ _ _ _ s) as [e s1] eqn:ES.
  assert (e = None) as ->.
  { specialize (HokS (m_Source msg) (m_Destination msg) (tmd_DepositNonce data) FailedProp s).
    by rewrite ES in HokS. }
  pose proof (PropStatus_store_eq _ _ _ _ _ _ Hv ES) as Hnew.
  intros [= <- <-]. split_and!; [|done|]; last first.
  { unfold deposit_status. by rewrite Hk, Hnew. }
  intros m Hm. unfold wf_deposit in Hm.
  unfold deposit_status. destruct (deposit_key m) as [[[a b] n]|]; [|by left].
  destruct (decide ((m_Source msg, m_Destination msg, tmd_DepositNonce data) = (a, b, n)))
    as [[= <- <- <-]|Hne'].
  - rewrite Hnew, EP. by right.
  - left. by rewrite (PropStatus_store_ne _ _ _ _ _ _ _ _ _ _ Hv Hm Hne' ES).
Qed.

Lemma filter_agree s s1 rid l :
  agree s s1 -> Forall wf_deposit l ->
  filter (retryable s1 rid) l = filter (retryable s rid) l.
Proof.
  intros Hag Hl. induction Hl as [|x l Hx Hl IHl]; [done|].
  rewrite !filter_cons, IHl.
  destruct (decide (retryable s1 rid x)) as [[? Hn]|Hn],
           (decide (retryable s rid x)) as [[? Hn']|Hn']; try done; exfalso.
  - apply Hn'. split; [done|]. by rewrite <- (agree_executed _ _ _ Hag Hx).
  - apply Hn. split; [done|]. by rewrite (agree_executed _ _ _ Hag Hx).
Qed.

Lemma filter_deposits_spec rid deposits acc s :
  storage_ok -> Forall wf_deposit deposits ->
  exists s', filter_deposits rid deposits acc s
               = (Ok (acc ++ filter (retryable s rid) deposits), s') /\ agree s s' /\
             Forall (fun m => deposit_status s' m <> Some PendingProp)
               (filter (retryable s rid) deposits).
Proof.
  intros Hok. revert acc s. induction deposits as [|d ds IH]; intros acc s Hwf; simpl.
  { exists s. rewrite filter_nil, app_nil_r. eauto using agree_refl. }
  apply Forall_cons_1 in Hwf as [Hd Hds].
  destruct (as_transfer (m_Data d)) as [data|] eqn:Ed;
    [|by unfold wf_deposit, deposit_key in Hd; rewrite Ed in Hd].
  assert (for_resource rid d <-> tmd_ResourceId data = rid) as Hres
    by (unfold for_resource; by rewrite Ed).
  destruct (bool_decide_reflect (tmd_ResourceId data <> rid)) as [Hne|Heq].
  { rewrite filter_cons_False; [by apply IH|]. intros [? _]; tauto. }
  apply dec_stable in Heq.
  destruct (isExecuted d data s) as [r s1] eqn:EX.
  destruct (isExecuted_agree _ _ _ _ _ Hok Hd Ed EX) as (Hag & -> & Hnp).
  pose proof (filter_agree s s1 rid ds Hag Hds) as Hfilter.
  destruct (bool_decide_reflect (deposit_status s d = Some ExecutedProp)) as [Hx|Hx].
  - rewrite filter_cons_False; [|intros [_ ?]; done].
    destruct (IH acc s1 Hds) as (s' & -> & Hag' & Hall). exists s'.
    rewrite Hfilter in *. eauto using agree_trans.
  - rewrite filter_cons_True; [|split; [by apply Hres|done]].
    destruct (IH (acc ++ [d]) s1 Hds) as (s' & -> & Hag' & Hall). exists s'.
    rewrite Hfilter, <- app_assoc in *.
    split_and!; [done|by eapply agree_trans|]. constructor; [|done].
    by eapply agree_not_pending.
Qed.

Lemma filter_entries_skip rid dest entries acc :
  dest ∉ entries.*1 -> filter_entries (S:=S) rid dest entries acc = mret acc.
Proof.
  revert acc. induction entries as [|[d ds] es IH]; intros acc; simpl; [done|].
  intros [Hne Hnotin]%not_elem_of_cons.
  rewrite bool_decide_eq_true_2 by done. by apply IH.
Qed.

Lemma filter_entries_spec rid dest entries deposits acc s :
  storage_ok -> NoDup entries.*1 -> (dest, deposits) ∈ entries ->
  Forall wf_deposit deposits ->
  exists s', filter_entries rid dest entries acc s
               = (Ok (acc ++ filter (retryable s rid) deposits), s') /\ agree s s' /\
             Forall (fun m => deposit_status s' m <> Some PendingProp)
               (filter (retryable s rid) deposits).
Proof.
  intros Hok. induction entries as [|[d ds] es IH]; simpl.
  { by intros _ ?%elem_of_nil. }
  intros [Hnotin Hnd]%list.NoDup_cons Hin Hwf.
  destruct (decide (d = dest)) as [->|Hne].
  - rewrite bool_decide_eq_false_2 by auto.
    assert (ds = deposits) as ->.
    { apply elem_of_cons in Hin as [[= <-]|Hin]; [done|].
      exfalso. apply Hnotin, list_elem_of_fmap. by exists (dest, deposits). }
    destruct (filter_deposits_spec rid deposits acc s Hok Hwf) as (s' & E & Hag & Hall).
    exists s'. unfold mbind, gom_bind. rewrite E.
    rewrite filter_entries_skip by done. eauto.
  - rewrite bool_decide_eq_true_2 by done.
    apply elem_of_cons in Hin as [[= -> _]|Hin]; [done|]. by apply IH.
Qed.
End filter_spec.

(** C31. Whatever the iteration order of the deposits map, when the store reports
    no error the filter returns exactly the deposits of the retried destination
    and resource that are not marked executed, in their original order; it
    changes no status other than from pending to failed, and leaves no deposit it
    returns pending, so that all of them can be executed again. *)
Theorem FilterDeposits_correct {S} `{PropStorerSpec S} (dd : gmap Z (list Message))
    (rid : bytes) (dest : Z) (entries : list (Z * list Message)) (s : S) :
  storage_ok (S := S) ->
  entries ≡ₚ map_to_list dd ->
  Forall wf_deposit (default [] (dd !! dest)) ->
  exists s', filter_entries rid dest entries [] s
               = (Ok (filter (retryable s rid) (default [] (dd !! dest))), s') /\
             agree s s' /\
             Forall (fun m => deposit_status s' m <> Some PendingProp)
               (filter (retryable s rid) (default [] (dd !! dest))).
Proof.
  intros Hok Hperm Hwf.
  assert (NoDup entries.*1) as Hnd by (rewrite Hperm; apply NoDup_fst_map_to_list).
  destruct (dd !! dest) as [deposits|] eqn:E; simpl in *.
  - apply (filter_entries_spec rid dest entries deposits [] s); [done..| |done].
    rewrite Hperm. by apply elem_of_map_to_list.
  - exists s. rewrite filter_entries_skip; [eauto using agree_refl|].
    rewrite Hperm. intros ([d ds] & -> & Hin)%list_elem_of_fmap.
    apply elem_of_map_to_list in Hin. simpl in E. congruence.
Qed.

(** ** Properties of the handlers *)

Section handler_spec.
Context {S : Type} `{PropStorerSpec S}.

Lemma retry_deposits_spec dd rd (s : S) :
  storage_ok (S := S) -> Forall wf_deposit (default [] (dd !! rmd_DestinationDomainID rd)) ->
  exists s', retry_deposits (Ok dd) rd s
    = (Ok (to_send (filter (retryable s (rmd_ResourceID rd))
                      (default [] (dd !! rmd_DestinationDomainID rd)))), s').
Proof.
  intros Hok Hwf.
  assert (exists s', FilterDeposits dd (rmd_ResourceID rd) (rmd_DestinationDomainID rd) s
    = (Ok (filter (retryable s (rmd_ResourceID rd))
             (default [] (dd !! rmd_DestinationDomainID rd))), s')) as (s' & E).
  { unfold FilterDeposits.
    destruct (dd !! rmd_DestinationDomainID rd) as [ds|] eqn:Ed; simpl in *.
    - destruct (filter_entries_spec (rmd_ResourceID rd) (rmd_DestinationDomainID rd)
                  (map_to_list dd) ds [] s) as (s' & -> & _); eauto.
      + apply NoDup_fst_map_to_list.
      + by apply elem_of_map_to_list.
    - rewrite filter_entries_skip; [by eexists|].
      intros ([d ds] & Hd & Hin)%list_elem_of_fmap.
      apply elem_of_map_to_list in Hin. simpl in *. congruence. }
  exists s'. unfold retry_deposits, mbind, gom_bind. by rewrite E.
Qed.

Section one_message.
Context (msg : Message) (rd : RetryMessageData) (dd : gmap Z (list Message)) (s : S).
Hypothesis Hmsg : m_Data msg = RetryData rd.
Hypothesis Hok : storage_ok (S := S).
Hypothesis Hwf : Forall wf_deposit (default [] (dd !! rmd_DestinationDomainID rd)).

(** What a retry handler sends when it does not refuse the message. *)
Definition retried : sent :=
  to_send (filter (retryable s (rmd_ResourceID rd))
             (default [] (dd !! rmd_DestinationDomainID rd))).

Lemma evm_retry_gate latest conf PD :
  PD (rmd_BlockHeight rd) (rmd_BlockHeight rd) = Ok dd ->
  if bool_decide (latest ≤ rmd_BlockHeight rd + conf)
  then exists e, evm_retry_HandleMessage (Ok latest) conf PD msg s = (Err e, s)
  else exists s', evm_retry_HandleMessage (Ok latest) conf PD msg s = (Ok retried, s').
Proof.
  intros HPD. unfold evm_retry_HandleMessage. rewrite Hmsg. simpl. case_match; [eauto|].
  rewrite HPD. by apply retry_deposits_spec.
Qed.

Lemma btc_retry_gate {Hash} (h : Hash) latest conf GBV PD :
  GBV h = Ok latest -> PD (rmd_BlockHeight rd) = Ok dd ->
  if bool_decide (latest ≤ rmd_BlockHeight rd + conf)
  then exists e, btc_retry_HandleMessage (Ok h) GBV conf PD msg s = (Err e, s)
  else exists s', btc_retry_HandleMessage (Ok h) GBV conf PD msg s = (Ok retried, s').
Proof.
  intros HG HPD. unfold btc_retry_HandleMessage. rewrite Hmsg. simpl. rewrite HG.
  case_match; [eauto|]. rewrite HPD. by apply retry_deposits_spec.
Qed.

Lemma substrate_retry_gate {Hash} (h : Hash) latest GB PD :
  GB h = Ok latest -> PD (rmd_BlockHeight rd) (rmd_BlockHeight rd) = Ok dd ->
  if bool_decide (latest ≤ rmd_BlockHeight rd)
  then exists e, substrate_retry_HandleMessage (Ok h) GB PD msg s = (Err e, s)
  else exists s', substrate_retry_HandleMessage (Ok h) GB PD msg s = (Ok retried, s').
Proof.
  intros HG HPD. unfold substrate_retry_HandleMessage. rewrite Hmsg. simpl. rewrite HG.
  case_match; [eauto|]. rewrite HPD. by apply retry_deposits_spec.
Qed.
End one_message.
End handler_spec.

(** The retry handlers of the three chains act only on blocks behind the
    head by more than the confirmation distance (behind the finalized head on
    Substrate): for a nearer block they fail, send nothing and leave every
    status unchanged; otherwise they send exactly the non-executed deposits of
    the retried destination and resource, and send nothing when there is none. *)
Theorem retry_handlers_gated {S Hash} `{PropStorerSpec S}
    (msg : Message) (rd : RetryMessageData) (dd : gmap Z (list Message)) (s : S)
    (h : Hash) (latest conf : Z) (GBV GB : Hash -> res Z)
    (PD2 : Z -> Z -> res (gmap Z (list Message))) (PD1 : Z -> res (gmap Z (list Message))) :
  m_Data msg = RetryData rd -> storage_ok (S := S) ->
  Forall wf_deposit (default [] (dd !! rmd_DestinationDomainID rd)) ->
  GBV h = Ok latest -> GB h = Ok latest ->
  PD2 (rmd_BlockHeight rd) (rmd_BlockHeight rd) = Ok dd -> PD1 (rmd_BlockHeight rd) = Ok dd ->
  (if bool_decide (latest ≤ rmd_BlockHeight rd + conf)
   then (exists e, evm_retry_HandleMessage (Ok latest) conf PD2 msg s = (Err e, s)) /\
        (exists e, btc_retry_HandleMessage (Ok h) GBV conf PD1 msg s = (Err e, s))
   else (exists s', evm_retry_HandleMessage (Ok latest) conf PD2 msg s = (Ok (retried rd dd s), s')) /\
        (exists s', btc_retry_HandleMessage (Ok h) GBV conf PD1 msg s = (Ok (retried rd dd s), s')))
  /\
  (if bool_decide (latest ≤ rmd_BlockHeight rd)
   then exists e, substrate_retry_HandleMessage (Ok h) GB PD2 msg s = (Err e, s)
   else exists s', substrate_retry_HandleMessage (Ok h) GB PD2 msg s = (Ok (retried rd dd s), s')).
Proof.
  intros Hm Hok Hwf HGBV HGB H2 H1. split; [|by apply substrate_retry_gate].
  pose proof (evm_retry_gate msg rd dd s Hm Hok Hwf latest conf PD2 H2) as He.
  pose proof (btc_retry_gate msg rd dd s Hm Hok Hwf h latest conf GBV PD1 HGBV H1) as Hb.
  case_match; eauto.
Qed.

(** ** A concrete run: one executed, one pending and one unknown deposit *)

Module RetryExample.
Import MapDB.

Definition rid : bytes := replicate 32 Byte.x00.

Definition deposit (nonce : Z) : Message :=
  NewMessage 1 2
    (TransferData {| tmd_DepositNonce := nonce; tmd_ResourceId := rid; tmd_Metadata := ∅;
                     tmd_Payload := []; tmd_Type := FungibleTransfer |})
    "1-2-10-14" TransferMessageType 0.

Definition dd : gmap Z (list Message) := {[ 2 := [deposit 1; deposit 2; deposit 3] ]}.

Definition db : gmap bytes bytes :=
  snd (StorePropStatus 1 2 2 PendingProp (snd (StorePropStatus 1 2 1 ExecutedProp ∅))).

Definition retry_data : RetryMessageData :=
  {| rmd_SourceDomainID := 1; rmd_DestinationDomainID := 2; rmd_BlockHeight := 12;
     rmd_ResourceID := rid |}.

Definition retry_msg : Message := NewMessage 3 1 (RetryData retry_data) "retry-1-2" RetryMessageType 0.

Lemma db_ok : storage_ok (S := gmap bytes bytes).
Proof.
  split; [|done]. intros a b n s. cbn. unfold store_PropStatus, GetByKey, map_kv. by destruct (s !! _).
Qed.

Lemma deposits_wf : Forall wf_deposit (default [] (dd !! 2)).
Proof. repeat constructor; simpl; lia. Qed.
End RetryExample.

Import MapDB RetryExample.

Lemma FilterDeposits_correct_witness :
  filter (retryable db rid) (default [] (dd !! 2)) = [deposit 2; deposit 3] /\
  exists s', filter_entries rid 2 (map_to_list dd) [] db
               = (Ok (filter (retryable db rid) (default [] (dd !! 2))), s') /\
             agree db s' /\
             Forall (fun m => deposit_status s' m <> Some PendingProp)
               (filter (retryable db rid) (default [] (dd !! 2))).
Proof.
  split; [vm_compute; reflexivity|].
  apply (FilterDeposits_correct dd rid 2 (map_to_list dd) db db_ok); [done|apply deposits_wf].
Defined.

Lemma retry_handlers_gated_witness :
  (exists s', evm_retry_HandleMessage (Ok 23) 10 (fun _ _ => Ok dd) retry_msg db
                = (Ok (retried retry_data dd db), s')) /\
  retried retry_data dd db = Some [deposit 2; deposit 3].
Proof.
  split; [|vm_compute; reflexivity].
  exact (proj1 (proj1 (retry_handlers_gated retry_msg retry_data dd db tt 23 10
    (fun _ => Ok 23) (fun _ => Ok 23) (fun _ _ => Ok dd) (fun _ => Ok dd)
    eq_refl db_ok deposits_wf eq_refl eq_refl eq_refl eq_refl))).
Defined.
