(* ===== verification/EvmDeposit.v ===== *)
(** * EVM deposit handlers ([chains/evm/listener/depositHandlers])

    A deposit handler turns the calldata of a deposit event into a transfer
    message.  The calldata slice is the state of the computation because the
    ERC20 handler writes the raised execution fee back into it. *)

From S2P Require Import Prelude GoBytes Transfer.

#[local] Open Scope string_scope.
#[local] Open Scope list_scope.
#[local] Open Scope Z_scope.

(** The arguments of [HandleDeposit] other than the calldata. *)
Record DepositArgs := {
  da_sourceID : Z;
  da_destID : Z;
  da_nonce : Z;
  da_resourceID : bytes;
  da_handlerResponse : gslice;
  da_messageID : string;
  da_timestamp : Z;
}.

Definition OPTIONAL_REVERT_GAS : Z := 100000.

(** [message.NewMessage(...)] as every deposit handler calls it. *)
Definition deposit_message (a : DepositArgs) (metadata : metadata_map)
    (payload : list iface) (type : TransferType) : Message :=
  NewMessage (da_sourceID a) (da_destID a)
    (TransferData {| tmd_DepositNonce := da_nonce a; tmd_ResourceId := da_resourceID a;
                     tmd_Metadata := metadata; tmd_Payload := payload; tmd_Type := type |})
    (da_messageID a) TransferMessageType (da_timestamp a).

(** The handlers that can be registered, under 20-byte addresses. *)
Inductive DepositHandler :=
| Erc20DepositHandler
| Erc721DepositHandler
| Erc1155DepositHandler
| PermissionlessGenericDepositHandler.

Abbreviation DepositHandlers := (gmap bytes DepositHandler).

Section handlers.
Context `{LeftPad}.

(** [Erc20DepositHandler.HandleDeposit] *)
Definition Erc20_HandleDeposit (a : DepositArgs) : gom gslice Message :=
  calldata ← gom_get;
  if gs_len calldata <? 84 then gom_fail "invalid calldata length: less than 84 bytes" else
  amount ← gom_lift (if 0 <? gs_len (da_handlerResponse a)
                     then gs_slice (da_handlerResponse a) 0 32
                     else gs_slice calldata 0 32);
  lengthField ← gom_lift (gs_slice calldata 32 64);
  let recipientAddressLength := i64_wrap (be_val lengthField) in
  recipientAddress ← gom_lift (gs_slice calldata 64 (i64_wrap (64 + recipientAddressLength)));
  let payload := [IBytes amount; IBytes recipientAddress] in
  if i64_wrap (96 + recipientAddressLength) <? gs_len calldata then
    let feeStart := i64_wrap (64 + recipientAddressLength) in
    let feeEnd := i64_wrap (96 + recipientAddressLength) in
    feeField ← gom_lift (gs_slice calldata feeStart feeEnd);
    let maxFee := be_val feeField + OPTIONAL_REVERT_GAS in
    calldata' ← gom_lift (gs_copy calldata feeStart feeEnd
                            (LeftPadBytes (big_bytes maxFee) 32));
    _ ← gom_put calldata';
    optionalMessage ← gom_lift (gs_from calldata' feeStart);
    mret (deposit_message a {["gasLimit" := IUint64 (u64_wrap maxFee)]}
            (payload ++ [IBytes optionalMessage]) FungibleTransfer)
  else mret (deposit_message a ∅ payload FungibleTransfer).

(** [Erc721DepositHandler.HandleDeposit] *)
Definition Erc721_HandleDeposit (a : DepositArgs) : gom gslice Message :=
  calldata ← gom_get;
  if gs_len calldata <? 64 then gom_fail "invalid calldata length: less than 84 bytes" else
  tokenId ← gom_lift (gs_slice calldata 0 32);
  lengthField ← gom_lift (gs_slice calldata 32 64);
  let recipientAddressLength := i64_wrap (be_val lengthField) in
  let recipientEnd := i64_wrap (64 + recipientAddressLength) in
  recipientAddress ← gom_lift (gs_slice calldata 64 recipientEnd);
  metadataField ← gom_lift (gs_slice calldata recipientEnd (i64_wrap (recipientEnd + 32)));
  let metadataLength := be_val metadataField in
  metadata ← gom_lift
    (if 0 <? metadataLength then
       let metadataStart := i64_wrap (recipientEnd + 32) in
       gs_slice calldata metadataStart (i64_wrap (metadataStart + i64_wrap metadataLength))
     else Ok []);
  mret (deposit_message a ∅ [IBytes tokenId; IBytes recipientAddress; IBytes metadata]
          NonFungibleTransfer).

(** [Erc1155DepositHandler.HandleDeposit]; [UnpackValues] is go-ethereum's ABI
    decoder at the argument types of [GetErc1155Type]. *)
Definition Erc1155_HandleDeposit (UnpackValues : bytes -> res (list iface))
    (a : DepositArgs) : gom gslice Message :=
  calldata ← gom_get;
  decoded ← gom_lift (UnpackValues (gs_data calldata));
  d0 ← gom_lift (or_panic (decoded !! 0%nat));
  d1 ← gom_lift (or_panic (decoded !! 1%nat));
  d2 ← gom_lift (or_panic (decoded !! 2%nat));
  d3 ← gom_lift (or_panic (decoded !! 3%nat));
  mret (deposit_message a ∅ [d0; d1; d2; d3] SemiFungibleTransfer).

(** [PermissionlessGenericDepositHandler.HandleDeposit] *)
Definition PermissionlessGeneric_HandleDeposit (a : DepositArgs) : gom gslice Message :=
  calldata ← gom_get;
  if gs_len calldata <? 76 then gom_fail "invalid calldata length: less than 76 bytes" else
  maxFee ← gom_lift (gs_slice calldata 0 32);
  sigLenField ← gom_lift (gs_slice calldata 32 34);
  let functionSigEnd := i64_wrap (34 + i64_wrap (be_val sigLenField)) in
  functionSig ← gom_lift (gs_slice calldata 34 functionSigEnd);
  addrLenField ← gom_lift (gs_slice calldata functionSigEnd (i64_wrap (functionSigEnd + 1)));
  let contractAddressEnd := i64_wrap (functionSigEnd + 1 + i64_wrap (be_val addrLenField)) in
  contractAddress ← gom_lift (gs_slice calldata (i64_wrap (functionSigEnd + 1)) contractAddressEnd);
  depLenField ← gom_lift
    (gs_slice calldata contractAddressEnd (i64_wrap (contractAddressEnd + 1)));
  let depositorEnd := i64_wrap (contractAddressEnd + 1 + i64_wrap (be_val depLenField)) in
  depositorAddress ← gom_lift (gs_slice calldata (i64_wrap (contractAddressEnd + 1)) depositorEnd);
  executionData ← gom_lift (gs_from calldata depositorEnd);
  mret (deposit_message a {["gasLimit" := IUint64 (u64_wrap (i64_wrap (be_val maxFee)))]}
          [IBytes functionSig; IBytes contractAddress; IBytes maxFee; IBytes depositorAddress;
           IBytes executionData]
          PermissionlessGenericTransfer).

(** ** The registry [ETHDepositHandler] *)

(** The interface call [depositHandler.HandleDeposit]. *)
Definition HandleDeposit_of (UnpackValues : bytes -> res (list iface)) (h : DepositHandler)
    : DepositArgs -> gom gslice Message :=
  match h with
  | Erc20DepositHandler => Erc20_HandleDeposit
  | Erc721DepositHandler => Erc721_HandleDeposit
  | Erc1155DepositHandler => Erc1155_HandleDeposit UnpackValues
  | PermissionlessGenericDepositHandler => PermissionlessGeneric_HandleDeposit
  end.

Definition matchAddressWithHandlerFunc (e : DepositHandlers) (handlerAddress : bytes)
    : res DepositHandler :=
  match e !! handlerAddress with
  | None => Err "no corresponding deposit handler for this address exists"
  | Some hf => Ok hf
  end.

Definition RegisterDepositHandler (HexToAddress : string -> bytes) (handlerAddress : string)
    (handler : DepositHandler) (e : DepositHandlers) : DepositHandlers :=
  if bool_decide (handlerAddress = "") then e
  else <[HexToAddress handlerAddress := handler]> e.

Definition ETH_HandleDeposit (UnpackValues : bytes -> res (list iface))
    (GetHandlerAddressForResourceID : bytes -> res bytes) (e : DepositHandlers)
    (a : DepositArgs) : gom gslice Message :=
  handlerAddr ← gom_lift (GetHandlerAddressForResourceID (da_resourceID a));
  depositHandler ← gom_lift (matchAddressWithHandlerFunc e handlerAddr);
  HandleDeposit_of UnpackValues depositHandler a.
End handlers.

(** ** Handlers never change the envelope

    Whatever the calldata, a message produced by any handler carries the
    arguments of the call. *)

Definition carries (a : DepositArgs) (m : Message) : Prop :=
  exists md pl ty, m = deposit_message a md pl ty.

Ltac gom_inv :=
  repeat match goal with
  | H : (_ ≫= _) _ = (Ok _, _) |- _ =>
      let x := fresh "x" in let c := fresh "c" in let E := fresh "E" in
      apply gom_bind_Ok in H as (x & c & E & H)
  | H : gom_lift _ _ = (Ok _, _) |- _ => apply gom_lift_Ok in H as [H ->]
  | H : gom_get _ = (Ok _, _) |- _ => injection H as <- <-
  | H : gom_put _ _ = (Ok _, _) |- _ => injection H as _ <-
  | H : mret _ _ = (Ok _, _) |- _ => injection H as <- <-
  | H : gom_fail _ _ = (Ok _, _) |- _ => discriminate H
  | H : (if ?b then _ else _) _ = (Ok _, _) |- _ => destruct b eqn:?
  end.

Section carries.
Context `{LeftPad}.

Lemma HandleDeposit_carries Unpack h a c m c' :
  HandleDeposit_of Unpack h a c = (Ok m, c') -> carries a m.
Proof.
  destruct h; simpl;
    unfold Erc20_HandleDeposit, Erc721_HandleDeposit, Erc1155_HandleDeposit,
      PermissionlessGeneric_HandleDeposit; intros E; gom_inv; repeat eexists.
Qed.

Lemma ETH_HandleDeposit_carries Unpack GetH e a c m c' :
  ETH_HandleDeposit Unpack GetH e a c = (Ok m, c') -> carries a m.
Proof. unfold ETH_HandleDeposit. intros E. gom_inv. by eapply HandleDeposit_carries. Qed.
End carries.
