(* ===== verification/EvmMessage.v ===== *)
(** * EVM message handlers ([chains/evm/executor/message-handler.go])

    Each handler checks the payload of a transfer message and encodes it as the
    data of a proposal for the destination bridge contract.  The theorems relate
    the encoding to the calldata the deposit handlers decoded. *)

From S2P Require Import Prelude GoBytes GoStrings Transfer EvmDeposit.

#[local] Open Scope string_scope.
#[local] Open Scope list_scope.
#[local] Open Scope Z_scope.

Section handlers.
Context `{LeftPad}.

(** [big.NewInt(int64(len(l))).Bytes()] *)
Definition len_bytes (l : bytes) : bytes := big_bytes (Z.of_nat (length l)).

Definition PermissionlessGenericMessageHandler (msg : TransferMessage) : res Proposal :=
  executeFunctionSignature ← payload_bytes msg 0 "wrong function signature format";
  executeContractAddress ← payload_bytes msg 1 "wrong contract address format";
  maxFee ← payload_bytes msg 2 "wrong max fee format";
  depositor ← payload_bytes msg 3 "wrong depositor data format";
  executionData ← payload_bytes msg 4 "wrong execution data format";
  let data :=
    LeftPadBytes maxFee 32
    ++ LeftPadBytes (len_bytes executeFunctionSignature) 2
    ++ executeFunctionSignature
    ++ [byte_of (Z.of_nat (length executeContractAddress))]
    ++ executeContractAddress
    ++ [byte_of (Z.of_nat (length depositor))]
    ++ depositor
    ++ executionData in
  Ok (transfer_proposal_of msg data).

Definition ERC20MessageHandler (msg : TransferMessage) : res Proposal :=
  let payload := tmd_Payload (tm_Data msg) in
  if bool_decide (length payload <> 2%nat) && bool_decide (length payload <> 3%nat)
  then Err ("wrong payload length " +:+ fmt_u (Z.of_nat (length payload)))
  else
    amount ← payload_bytes msg 0 "wrong payload amount format";
    recipient ← payload_bytes msg 1 "wrong payload recipient format";
    let data := LeftPadBytes amount 32 ++ LeftPadBytes (len_bytes recipient) 32 ++ recipient in
    if bool_decide (length payload = 3%nat) then
      optionalMessage ← payload_bytes msg 2 "wrong optional message format";
      Ok (transfer_proposal_of msg (data ++ optionalMessage))
    else Ok (transfer_proposal_of msg data).

Definition ERC721MessageHandler (msg : TransferMessage) : res Proposal :=
  if bool_decide (length (tmd_Payload (tm_Data msg)) <> 3%nat)
  then Err "malformed payload. Len  of payload should be 3"
  else
    tokenID ← payload_bytes msg 0 "wrong payload tokenID format";
    recipient ← payload_bytes msg 1 "wrong payload recipient format";
    metadata ← payload_bytes msg 2 "wrong payload metadata format";
    let data :=
      LeftPadBytes tokenID 32
      ++ LeftPadBytes (len_bytes recipient) 32 ++ recipient
      ++ LeftPadBytes (len_bytes metadata) 32 ++ metadata in
    Ok (transfer_proposal_of msg data).

(** [PackValues] is go-ethereum's ABI encoder at the types of [GetErc1155Type]. *)
Definition ERC1155MessageHandler (PackValues : list iface -> res bytes)
    (msg : TransferMessage) : res Proposal :=
  let payload := tmd_Payload (tm_Data msg) in
  if bool_decide (length payload <> 4%nat)
  then Err "malformed payload. Len  of payload should be 4"
  else
    p0 ← payload_at msg 0; _ ← from_opt "wrong payload tokenID format" (as_big_ints p0);
    p1 ← payload_at msg 1; _ ← from_opt "wrong payload amount format" (as_big_ints p1);
    recipient ← payload_bytes msg 2 "wrong payload recipient format";
    if bool_decide (length recipient <> 20%nat)
    then Err "malformed payload. Len  of recipient should be 20"
    else
      _ ← payload_bytes msg 3 "wrong payload transferData format";
      data ← PackValues payload;
      Ok (transfer_proposal_of msg data).

Definition GenericMessageHandler (msg : TransferMessage) : res Proposal :=
  if bool_decide (length (tmd_Payload (tm_Data msg)) <> 1%nat)
  then Err "malformed payload. Len  of payload should be 1"
  else
    metadata ← payload_bytes msg 0 "wrong payload metadata format";
    Ok (transfer_proposal_of msg (LeftPadBytes (len_bytes metadata) 32 ++ metadata)).

(** [TransferMessageHandler.HandleMessage] *)
Definition TransferMessageHandler_HandleMessage (PackValues : list iface -> res bytes)
    (msg : Message) : res Proposal :=
  transferMessage ← transfer_message_of msg;
  let type := tmd_Type (tm_Data transferMessage) in
  if bool_decide (type = FungibleTransfer) then ERC20MessageHandler transferMessage
  else if bool_decide (type = SemiFungibleTransfer)
       then ERC1155MessageHandler PackValues transferMessage
  else if bool_decide (type = NonFungibleTransfer) then ERC721MessageHandler transferMessage
  else if bool_decide (type = PermissionedGenericTransfer)
       then GenericMessageHandler transferMessage
  else if bool_decide (type = PermissionlessGenericTransfer)
       then PermissionlessGenericMessageHandler transferMessage
  else Err "wrong message type passed while handling message".
End handlers.

(** The data bytes of the proposal a message is turned into. *)
Definition proposal_bytes (m : res Proposal) : option bytes :=
  match m with
  | Ok p => tpd_Data <$> as_transfer_prop (p_Data p)
  | _ => None
  end.

Section roundtrip.
Context `{LP : LeftPad, LPS : !LeftPadSpec}.
Context (Pack : list iface -> res bytes).

(** ** Positions in calldata *)

Lemma sub_list_32 (c : gslice) l :
  gs_slice (E := error) c 0 32 = Ok l -> length l = 32%nat.
Proof.
  intros (_ & _ & Hc & ->)%gs_slice_Ok. unfold gs_cap in Hc.
  pose proof (length_sub_list (gs_back c) 0 32). lia.
Qed.

Lemma length_gs_slice (c : gslice) lo hi l :
  gs_slice (E := error) c lo hi = Ok l -> Z.of_nat (length l) = hi - lo.
Proof.
  intros (? & ? & Hc & ->)%gs_slice_Ok. unfold gs_cap in Hc. apply length_sub_list; lia.
Qed.

Lemma gs_slice_app (c : gslice) lo mid hi l k :
  gs_slice (E := error) c lo mid = Ok l -> gs_slice (E := error) c mid hi = Ok k ->
  gs_slice (E := error) c lo hi = Ok (l ++ k).
Proof.
  intros (? & ? & ? & ->)%gs_slice_Ok (? & ? & ? & ->)%gs_slice_Ok.
  apply gs_slice_Ok. split_and!; [lia..|]. apply sub_list_split; lia.
Qed.

Lemma gs_slice_all l : gs_slice (E := error) (gs_of l) 0 (Z.of_nat (length l)) = Ok l.
Proof.
  apply gs_slice_Ok. unfold gs_cap, gs_back; simpl. rewrite app_nil_r.
  split_and!; [lia..|]. by rewrite sub_list_full.
Qed.

(** An end offset computed in [int64] that passes the slice check did not wrap. *)
Lemma gs_slice_end_exact (c : gslice) lo z l :
  0 <= z < 2 ^ 63 ->
  gs_slice (E := error) c lo (i64_wrap z) = Ok l ->
  gs_slice (E := error) c lo z = Ok l.
Proof. intros Hz. by rewrite i64_wrap_small by (unfold is_i64; lia). Qed.

Lemma i64_wrap_add_pos a b :
  is_i64 a -> 0 <= b < 2 ^ 62 -> 0 <= a -> 0 <= i64_wrap (b + a) - b ->
  i64_wrap (b + a) = b + a.
Proof.
  unfold is_i64, i64_wrap. intros Ha Hb H0 Hw.
  destruct (decide (b + a < 2 ^ 63)); [rewrite Z.mod_small; lia|].
  exfalso. assert ((b + a + 2 ^ 63) mod 2 ^ 64 = b + a + 2 ^ 63 - 2 ^ 64) as E.
  { symmetry. apply (Z.mod_unique_pos _ _ 1); lia. }
  rewrite E in Hw. lia.
Qed.

(** The recipient slice [calldata[64 : 64 + n]] succeeds only for a non-negative
    length that does not overflow. *)
Lemma recipient_range (c : gslice) n l :
  is_i64 n -> gs_slice (E := error) c 64 (i64_wrap (64 + n)) = Ok l ->
  0 <= n /\ i64_wrap (64 + n) = 64 + n /\ Z.of_nat (length l) = n.
Proof.
  intros Hn E. pose proof (length_gs_slice _ _ _ _ E) as Hl.
  apply gs_slice_Ok in E as (_ & Hge & _ & _).
  assert (0 <= n).
  { destruct (decide (0 <= n)); [done|]. exfalso.
    rewrite i64_wrap_small in Hge; unfold is_i64 in *; lia. }
  assert (i64_wrap (64 + n) = 64 + n) as Ew by (apply i64_wrap_add_pos; [done|lia..]).
  rewrite Ew in *. lia.
Qed.

Lemma len_bytes_padded l n :
  Z.of_nat (length l) < 256 ^ Z.of_nat n ->
  LeftPadBytes (len_bytes l) n = be_fixed n (Z.of_nat (length l)).
Proof. intros Hl. apply LeftPadBytes_big_bytes. lia. Qed.

(** The transfer message a handler sees for a deposit message. *)
Definition envelope (a : DepositArgs) (md : metadata_map) (pl : list iface) (ty : TransferType)
    : TransferMessage :=
  {| tm_Source := da_sourceID a; tm_Destination := da_destID a;
     tm_Data := {| tmd_DepositNonce := da_nonce a; tmd_ResourceId := da_resourceID a;
                   tmd_Metadata := md; tmd_Payload := pl; tmd_Type := ty |};
     tm_Type := TransferMessageType; tm_ID := da_messageID a |}.

Lemma dispatch_fungible_data m d :
  m_Data m = TransferData d -> tmd_Type d = FungibleTransfer ->
  TransferMessageHandler_HandleMessage Pack m
  = ERC20MessageHandler {| tm_Source := m_Source m; tm_Destination := m_Destination m;
                           tm_Data := d; tm_Type := m_Type m; tm_ID := m_ID m |}.
Proof.
  intros Hd Ht. unfold TransferMessageHandler_HandleMessage, transfer_message_of.
  rewrite Hd. unfold as_transfer, or_panic, mbind, outcome_bind, tm_Data. by rewrite Ht.
Qed.

Lemma dispatch_fungible a md pl :
  TransferMessageHandler_HandleMessage Pack (deposit_message a md pl FungibleTransfer)
  = ERC20MessageHandler (envelope a md pl FungibleTransfer).
Proof. done. Qed.

Lemma dispatch_non_fungible a md pl :
  TransferMessageHandler_HandleMessage Pack (deposit_message a md pl NonFungibleTransfer)
  = ERC721MessageHandler (envelope a md pl NonFungibleTransfer).
Proof. done. Qed.

Lemma dispatch_permissionless a md pl :
  TransferMessageHandler_HandleMessage Pack (deposit_message a md pl PermissionlessGenericTransfer)
  = PermissionlessGenericMessageHandler (envelope a md pl PermissionlessGenericTransfer).
Proof. done. Qed.

(** ** Slices of a slice with no spare capacity *)

Lemma gs_of_slice cd lo hi :
  0 <= lo -> lo <= hi -> hi <= Z.of_nat (length cd) ->
  gs_slice (E := error) (gs_of cd) lo hi = Ok (sub_list cd lo hi).
Proof.
  intros. assert (gs_back (gs_of cd) = cd) as Hb by (unfold gs_back; simpl; apply app_nil_r).
  rewrite gs_slice_in_range; unfold gs_cap; rewrite ?Hb; [done|lia..].
Qed.

Lemma gs_of_from cd lo :
  0 <= lo -> lo <= Z.of_nat (length cd) ->
  gs_from (E := error) (gs_of cd) lo = Ok (drop (Z.to_nat lo) cd).
Proof.
  intros. unfold gs_from, gs_len. rewrite gs_of_slice by (simpl; lia). simpl.
  unfold sub_list. rewrite take_ge; [done|]. rewrite length_drop. lia.
Qed.

Lemma gs_of_copy cd lo hi src :
  0 <= lo -> hi = lo + Z.of_nat (length src) -> hi <= Z.of_nat (length cd) ->
  gs_copy (E := error) (gs_of cd) lo hi src
  = Ok (gs_of (take (Z.to_nat lo) cd ++ src ++ drop (Z.to_nat hi) cd)).
Proof.
  intros Hlo -> Hhi. unfold gs_copy.
  assert (gs_back (gs_of cd) = cd) as Hb by (unfold gs_back; simpl; apply app_nil_r).
  unfold gs_cap. rewrite Hb.
  replace (_ && _) with true by lia.
  rewrite (take_ge src) by lia.
  replace (Z.to_nat lo + length src)%nat with (Z.to_nat (lo + Z.of_nat (length src))) by lia.
  set (back := take _ cd ++ _). simpl.
  assert (length back = length cd) as El.
  { unfold back. rewrite !length_app, length_take, length_drop. lia. }
  rewrite take_ge, drop_ge by lia. done.
Qed.

Lemma gs_of_0_32 cd : (32 <= length cd)%nat ->
  gs_slice (E := error) (gs_of cd) 0 32 = Ok (take 32 cd).
Proof. intros. rewrite gs_of_slice by lia. unfold sub_list. by rewrite drop_0. Qed.

(** ** ERC20 *)

(** The amount an ERC20 message carries: the first word of the handler response
    when there is one, else the first word of the calldata. *)
Definition erc20_amount (a : DepositArgs) (cd : bytes) : bytes :=
  if 0 <? gs_len (da_handlerResponse a)
  then take 32 (gs_data (da_handlerResponse a)) else take 32 cd.

(** The length field of the recipient and the execution fee after it. *)
Definition recipient_len (cd : bytes) : Z := be_val (sub_list cd 32 64).
Definition fee_field (cd : bytes) : Z :=
  be_val (sub_list cd (64 + recipient_len cd) (96 + recipient_len cd)).

Definition has_optional (cd : bytes) : bool := 96 + recipient_len cd <? Z.of_nat (length cd).

(** Calldata of a deposit the ERC20 handler accepts. *)
Definition erc20_wf (a : DepositArgs) (cd : bytes) : Prop :=
  (84 <= length cd)%nat /\ Z.of_nat (length cd) < 2 ^ 62 /\
  64 + recipient_len cd <= Z.of_nat (length cd) /\
  fee_field cd + OPTIONAL_REVERT_GAS < 2 ^ 256 /\
  (gs_len (da_handlerResponse a) = 0 \/ (32 <= length (gs_data (da_handlerResponse a)))%nat).

Definition erc20_optional (cd : bytes) : bytes :=
  be_fixed 32 (fee_field cd + OPTIONAL_REVERT_GAS)
    ++ drop (Z.to_nat (96 + recipient_len cd)) cd.

(** The message the ERC20 handler builds from accepted calldata. *)
Definition erc20_message (a : DepositArgs) (cd : bytes) : Message :=
  let base := [IBytes (erc20_amount a cd); IBytes (sub_list cd 64 (64 + recipient_len cd))] in
  if has_optional cd then
    deposit_message a
      {["gasLimit" := IUint64 (u64_wrap (fee_field cd + OPTIONAL_REVERT_GAS))]}
      (base ++ [IBytes (erc20_optional cd)]) FungibleTransfer
  else deposit_message a ∅ base FungibleTransfer.

Lemma erc20_amount_slice a cd :
  erc20_wf a cd ->
  (if 0 <? gs_len (da_handlerResponse a) then gs_slice (E := error) (da_handlerResponse a) 0 32
   else gs_slice (gs_of cd) 0 32) = Ok (erc20_amount a cd).
Proof.
  intros (? & ? & ? & ? & Hr). unfold erc20_amount. case_match; [|by apply gs_of_0_32; lia].
  destruct Hr as [Hr|Hr]; [lia|].
  rewrite gs_slice_in_range; [|lia..|].
  - f_equal. unfold sub_list, gs_back. rewrite drop_0, take_app_le; [done|lia].
  - unfold gs_cap, gs_back. rewrite length_app. lia.
Qed.

Lemma Erc20_accepts a cd :
  erc20_wf a cd -> exists c', Erc20_HandleDeposit a (gs_of cd) = (Ok (erc20_message a cd), c').
Proof.
  intros Hwf. pose proof (erc20_amount_slice a cd Hwf) as Ham.
  destruct Hwf as (Hlen & Hmax & Hrec & Hfee & _).
  pose proof (be_val_range (sub_list cd 32 64)) as [Hn0 _]. fold (recipient_len cd) in Hn0.
  unfold Erc20_HandleDeposit. unfold mbind at 1, gom_bind at 1, gom_get at 1.
  replace (gs_len (gs_of cd) <? 84) with false by (unfold gs_len; simpl; lia).
  rewrite gom_lift_bind, Ham, gom_lift_bind, gs_of_slice by lia.
  fold (recipient_len cd).
  rewrite (i64_wrap_small (recipient_len cd)) by (unfold is_i64; lia).
  rewrite !(i64_wrap_small (_ + recipient_len cd)) by (unfold is_i64; lia).
  rewrite gom_lift_bind, gs_of_slice by lia.
  unfold erc20_message, has_optional. change (gs_len (gs_of cd)) with (Z.of_nat (length cd)).
  destruct (Z.ltb_spec (96 + recipient_len cd) (Z.of_nat (length cd))) as [Hopt|Hopt];
    [|by eexists].
  rewrite gom_lift_bind, gs_of_slice by lia. fold (fee_field cd).
  assert (0 <= fee_field cd) by apply be_val_range.
  rewrite LeftPadBytes_big_bytes by (unfold OPTIONAL_REVERT_GAS in *; simpl; lia).
  rewrite gom_lift_bind, gs_of_copy by (rewrite ?length_be_fixed; lia).
  set (cd' := take _ cd ++ _ ++ _).
  unfold mbind at 1, gom_bind at 1, gom_put at 1. rewrite gom_lift_bind.
  assert (drop (Z.to_nat (64 + recipient_len cd)) cd' = erc20_optional cd) as Hd.
  { unfold cd'. rewrite drop_app_ge; rewrite length_take; [|lia].
    replace (_ - _)%nat with O by lia. done. }
  rewrite gs_of_from; [|lia|].
  - rewrite Hd. by eexists.
  - unfold cd'. rewrite !length_app, length_take, length_drop, length_be_fixed. lia.
Qed.

(** Whatever the calldata: the amount and the recipient of a message without optional
    message are those of the deposit. *)
Lemma Erc20_plain_inv a cd hr md amount recipient c' :
  da_handlerResponse a = gs_of hr ->
  Erc20_HandleDeposit a (gs_of cd)
    = (Ok (deposit_message a md [IBytes amount; IBytes recipient] FungibleTransfer), c') ->
  amount = erc20_amount a cd /\ recipient = sub_list cd 64 (64 + i64_wrap (recipient_len cd)).
Proof.
  intros Hhr E. unfold Erc20_HandleDeposit in E. gom_inv; [done|]. simplify_eq.
  rename select (gs_slice _ 32 64 = _) into El. rename select (gs_slice _ 64 _ = _) into Er.
  apply gs_slice_Ok in El as (_ & _ & _ & ->).
  apply recipient_range in Er as Hr; [|apply i64_wrap_range]. destruct Hr as (_ & Ew & _).
  apply gs_slice_Ok in Er as (_ & _ & _ & ->). rewrite Ew. unfold gs_back. cbn. rewrite app_nil_r.
  split; [|done]. unfold erc20_amount. rewrite Hhr in *.
  match goal with H : (if ?b then _ else _) = Ok _ |- _ => destruct b; apply gs_slice_Ok in H as (_ & _ & _ & ->) end;
    unfold gs_back, sub_list; cbn; by rewrite app_nil_r, drop_0.
Qed.

(** A length field of [n] bytes re-encoded from the length it announces. *)
Lemma len_field_reencode (f l : bytes) :
  be_val f = Z.of_nat (length l) -> LeftPadBytes (len_bytes l) (length f) = f.
Proof.
  intros Hf. rewrite len_bytes_padded.
  - rewrite <- Hf. apply be_fixed_val.
  - rewrite <- Hf. apply be_val_range.
Qed.

Lemma ERC20_data_plain msg amount recipient :
  tmd_Payload (tm_Data msg) = [IBytes amount; IBytes recipient] ->
  proposal_bytes (ERC20MessageHandler msg)
  = Some (LeftPadBytes amount 32 ++ LeftPadBytes (len_bytes recipient) 32 ++ recipient).
Proof.
  intros Hp. unfold ERC20MessageHandler, payload_bytes, payload_at. by rewrite Hp.
Qed.

Lemma ERC20_data_optional msg amount recipient optional :
  tmd_Payload (tm_Data msg) = [IBytes amount; IBytes recipient; IBytes optional] ->
  proposal_bytes (ERC20MessageHandler msg)
  = Some ((LeftPadBytes amount 32 ++ LeftPadBytes (len_bytes recipient) 32 ++ recipient)
            ++ optional).
Proof.
  intros Hp. unfold ERC20MessageHandler, payload_bytes, payload_at. by rewrite Hp.
Qed.

Lemma length_erc20_amount a cd : erc20_wf a cd -> length (erc20_amount a cd) = 32%nat.
Proof.
  intros (? & ? & ? & ? & Hr). unfold erc20_amount. case_match; rewrite length_take; [|lia].
  unfold gs_len in *. destruct Hr; lia.
Qed.

Lemma erc20_message_data a cd :
  erc20_wf a cd ->
  proposal_bytes (TransferMessageHandler_HandleMessage Pack (erc20_message a cd))
  = Some (erc20_amount a cd ++ sub_list cd 32 (64 + recipient_len cd)
            ++ (if has_optional cd then erc20_optional cd else [])).
Proof.
  intros Hwf. pose proof (length_erc20_amount a cd Hwf) as Ham.
  destruct Hwf as (Hlen & Hmax & Hrec & _ & _).
  assert (0 <= recipient_len cd) by apply be_val_range.
  assert (length (sub_list cd 32 64) = 32%nat) as H64
    by (pose proof (length_sub_list cd 32 64); lia).
  assert (LeftPadBytes (len_bytes (sub_list cd 64 (64 + recipient_len cd))) 32
          = sub_list cd 32 64) as Hf.
  { rewrite <- H64 at 1. apply len_field_reencode.
    rewrite length_sub_list by lia. fold (recipient_len cd). lia. }
  assert (LeftPadBytes (erc20_amount a cd) 32 = erc20_amount a cd) as Hpad
    by (apply LeftPadBytes_long; lia).
  unfold erc20_message. destruct (has_optional cd); rewrite dispatch_fungible.
  - erewrite ERC20_data_optional by reflexivity. rewrite Hf, Hpad. f_equal.
    rewrite <- (sub_list_split cd 32 64 (64 + recipient_len cd)) by lia. by rewrite <- !app_assoc.
  - erewrite ERC20_data_plain by reflexivity. rewrite Hf, Hpad. f_equal.
    rewrite <- (sub_list_split cd 32 64 (64 + recipient_len cd)) by lia. by rewrite <- !app_assoc, app_nil_r.
Qed.

(** ** ERC721 *)

(** The calldata of an ERC721 deposit. *)
Definition erc721_calldata (tokenId recipient metadata trailing : bytes) : bytes :=
  tokenId ++ be_fixed 32 (Z.of_nat (length recipient)) ++ recipient
    ++ be_fixed 32 (Z.of_nat (length metadata)) ++ metadata ++ trailing.

Definition erc721_message (a : DepositArgs) (tokenId recipient metadata : bytes) : Message :=
  deposit_message a ∅ [IBytes tokenId; IBytes recipient; IBytes metadata] NonFungibleTransfer.

Lemma be_val_len32 (l : bytes) :
  Z.of_nat (length l) < 2 ^ 61 -> be_val (be_fixed 32 (Z.of_nat (length l))) = Z.of_nat (length l).
Proof. intros. rewrite be_val_fixed. apply Z.mod_small. simpl. lia. Qed.

Lemma Erc721_accepts a tokenId recipient metadata trailing :
  length tokenId = 32%nat -> Z.of_nat (length recipient) < 2 ^ 61 ->
  Z.of_nat (length metadata) < 2 ^ 61 ->
  Erc721_HandleDeposit a (gs_of (erc721_calldata tokenId recipient metadata trailing))
  = (Ok (erc721_message a tokenId recipient metadata),
     gs_of (erc721_calldata tokenId recipient metadata trailing)).
Proof.
  intros Ht Hr Hm. set (cd := erc721_calldata _ _ _ _).
  set (n := Z.of_nat (length recipient)) in *. set (k := Z.of_nat (length metadata)) in *.
  assert (Z.of_nat (length cd) = 96 + n + k + Z.of_nat (length trailing)) as Hlen.
  { unfold cd, erc721_calldata. rewrite !length_app, !length_be_fixed. lia. }
  assert (sub_list cd 0 32 = tokenId) as E0.
  { unfold cd, erc721_calldata. replace 32 with (Z.of_nat (length tokenId)) by lia.
    apply sub_list_prefix. }
  assert (sub_list cd 32 64 = be_fixed 32 n) as E1.
  { apply sub_list_middle; rewrite ?length_be_fixed; lia. }
  assert (sub_list cd 64 (64 + n) = recipient) as E2.
  { unfold cd, erc721_calldata. rewrite (app_assoc tokenId).
    apply sub_list_middle; rewrite ?length_app, ?length_be_fixed; lia. }
  assert (sub_list cd (64 + n) (64 + n + 32) = be_fixed 32 k) as E3.
  { unfold cd, erc721_calldata. rewrite (app_assoc tokenId), (app_assoc (tokenId ++ _)).
    apply sub_list_middle; rewrite ?length_app, ?length_be_fixed; lia. }
  assert (sub_list cd (64 + n + 32) (64 + n + 32 + k) = metadata) as E4.
  { unfold cd, erc721_calldata.
    rewrite (app_assoc tokenId), (app_assoc (tokenId ++ _)), (app_assoc ((tokenId ++ _) ++ _)).
    apply sub_list_middle; rewrite ?length_app, ?length_be_fixed; lia. }
  unfold Erc721_HandleDeposit, mbind at 1, gom_bind at 1, gom_get at 1.
  replace (gs_len (gs_of cd) <? 64) with false by (unfold gs_len; simpl; lia).
  rewrite gom_lift_bind, gs_of_slice, E0, gom_lift_bind, gs_of_slice, E1 by lia.
  assert (be_val (be_fixed 32 n) = n) as En by (by apply be_val_len32).
  assert (be_val (be_fixed 32 k) = k) as Ek by (by apply be_val_len32).
  rewrite En, (i64_wrap_small n) by (unfold is_i64; lia).
  rewrite !(i64_wrap_small (64 + n)) by (unfold is_i64; lia).
  rewrite gom_lift_bind, gs_of_slice, E2 by lia.
  rewrite !(i64_wrap_small (64 + n + 32)) by (unfold is_i64; lia).
  rewrite gom_lift_bind, gs_of_slice, E3, Ek, gom_lift_bind by lia.
  destruct (Z.ltb_spec 0 k).
  - rewrite (i64_wrap_small k), i64_wrap_small by (unfold is_i64; lia).
    rewrite gs_of_slice, E4 by lia. done.
  - assert (metadata = []) as Hnil by (apply nil_length_inv; lia).
    unfold erc721_message. by rewrite Hnil.
Qed.

Lemma ERC721_data msg tokenId recipient metadata :
  tmd_Payload (tm_Data msg) = [IBytes tokenId; IBytes recipient; IBytes metadata] ->
  proposal_bytes (ERC721MessageHandler msg)
  = Some (LeftPadBytes tokenId 32 ++ LeftPadBytes (len_bytes recipient) 32 ++ recipient
            ++ LeftPadBytes (len_bytes metadata) 32 ++ metadata).
Proof.
  intros Hp. unfold ERC721MessageHandler, payload_bytes, payload_at. by rewrite Hp.
Qed.

Lemma erc721_message_data a tokenId recipient metadata :
  length tokenId = 32%nat -> Z.of_nat (length recipient) < 2 ^ 61 ->
  Z.of_nat (length metadata) < 2 ^ 61 ->
  proposal_bytes (TransferMessageHandler_HandleMessage Pack
    (erc721_message a tokenId recipient metadata))
  = Some (erc721_calldata tokenId recipient metadata []).
Proof.
  intros Ht Hr Hm. unfold erc721_message. rewrite dispatch_non_fungible.
  erewrite ERC721_data by reflexivity. unfold erc721_calldata.
  by rewrite app_nil_r, LeftPadBytes_long, !len_bytes_padded by (simpl; lia).
Qed.

(** ** Permissionless generic *)

Definition permissionless_calldata (maxFee sig addr dep exec : bytes) : bytes :=
  maxFee ++ be_fixed 2 (Z.of_nat (length sig)) ++ sig
    ++ [byte_of (Z.of_nat (length addr))] ++ addr
    ++ [byte_of (Z.of_nat (length dep))] ++ dep ++ exec.

Lemma Permissionless_data msg maxFee sig addr dep exec :
  tmd_Payload (tm_Data msg) = [IBytes sig; IBytes addr; IBytes maxFee; IBytes dep; IBytes exec] ->
  proposal_bytes (PermissionlessGenericMessageHandler msg)
  = Some (LeftPadBytes maxFee 32 ++ LeftPadBytes (len_bytes sig) 2 ++ sig
            ++ [byte_of (Z.of_nat (length addr))] ++ addr
            ++ [byte_of (Z.of_nat (length dep))] ++ dep ++ exec).
Proof.
  intros Hp. unfold PermissionlessGenericMessageHandler, payload_bytes, payload_at. by rewrite Hp.
Qed.

Lemma permissionless_message_data a md maxFee sig addr dep exec :
  length maxFee = 32%nat -> Z.of_nat (length sig) < 2 ^ 16 ->
  proposal_bytes (TransferMessageHandler_HandleMessage Pack
    (deposit_message a md [IBytes sig; IBytes addr; IBytes maxFee; IBytes dep; IBytes exec]
       PermissionlessGenericTransfer))
  = Some (permissionless_calldata maxFee sig addr dep exec).
Proof.
  intros Hf Hs. rewrite dispatch_permissionless.
  erewrite Permissionless_data by reflexivity. unfold permissionless_calldata.
  by rewrite (LeftPadBytes_long maxFee), len_bytes_padded by (simpl; lia).
Qed.

Lemma gs_slice_byte (c : gslice) lo l :
  gs_slice (E := error) c lo (lo + 1) = Ok l -> l = [byte_of (be_val l)].
Proof.
  intros E. pose proof (length_gs_slice _ _ _ _ E) as Hl.
  destruct l as [|b [|b' l]]; simpl in Hl; [lia| |lia].
  change (be_val [b]) with (bval b). by rewrite byte_of_bval.
Qed.

Lemma gs_slice_bounds (c : gslice) lo hi l :
  gs_slice (E := error) c lo hi = Ok l -> 0 <= lo <= hi /\ hi <= gs_cap c.
Proof. intros (? & ? & ? & _)%gs_slice_Ok. lia. Qed.

(** A one- or two-byte length field fits in an [int64]. *)
Lemma small_field (c : gslice) lo hi l :
  gs_slice (E := error) c lo hi = Ok l -> hi - lo <= 2 ->
  i64_wrap (be_val l) = be_val l /\ 0 <= be_val l < 2 ^ 16.
Proof.
  intros E Hd. apply length_gs_slice in E. pose proof (be_val_range l).
  assert (256 ^ Z.of_nat (length l) <= 256 ^ 2) by (apply Z.pow_le_mono_r; lia).
  split; [apply i64_wrap_small; unfold is_i64|]; lia.
Qed.

(** Every calldata the permissionless handler accepts is the encoding of the
    payload it builds. *)
Lemma Permissionless_accepted a cd m c' :
  Z.of_nat (length cd) < 2 ^ 62 ->
  PermissionlessGeneric_HandleDeposit a (gs_of cd) = (Ok m, c') ->
  exists md maxFee sig addr dep exec,
    m = deposit_message a md [IBytes sig; IBytes addr; IBytes maxFee; IBytes dep; IBytes exec]
          PermissionlessGenericTransfer /\
    length maxFee = 32%nat /\ Z.of_nat (length sig) < 2 ^ 16 /\
    cd = permissionless_calldata maxFee sig addr dep exec.
Proof.
  intros Hcd E. unfold PermissionlessGeneric_HandleDeposit in E. gom_inv.
  rename x into fee, x0 into l0, x1 into sig, x2 into l2, x3 into addr, x4 into l4,
    x5 into dep, x6 into exec.
  destruct (small_field _ _ _ _ E1 ltac:(lia)) as [W0 R0]. rewrite W0 in *.
  rewrite (i64_wrap_small (34 + be_val l0)) in * by (unfold is_i64; lia).
  set (p1 := 34 + be_val l0) in *.
  rewrite (i64_wrap_small (p1 + 1)) in * by (unfold is_i64; lia).
  destruct (small_field _ _ _ _ E3 ltac:(lia)) as [W2 R2]. rewrite W2 in *.
  rewrite (i64_wrap_small (p1 + 1 + be_val l2)) in * by (unfold is_i64; lia).
  set (p2 := p1 + 1 + be_val l2) in *.
  rewrite (i64_wrap_small (p2 + 1)) in * by (unfold is_i64; lia).
  destruct (small_field _ _ _ _ E5 ltac:(lia)) as [W4 R4]. rewrite W4 in *.
  rewrite (i64_wrap_small (p2 + 1 + be_val l4)) in * by (unfold is_i64; lia).
  unfold gs_from in E7. change (gs_len (gs_of cd)) with (Z.of_nat (length cd)) in E7.
  pose proof (gs_slice_app _ _ _ _ _ _ E0 (gs_slice_app _ _ _ _ _ _ E1
    (gs_slice_app _ _ _ _ _ _ E2 (gs_slice_app _ _ _ _ _ _ E3
      (gs_slice_app _ _ _ _ _ _ E4 (gs_slice_app _ _ _ _ _ _ E5
        (gs_slice_app _ _ _ _ _ _ E6 E7))))))) as Hall.
  rewrite gs_slice_all in Hall. injection Hall as Hall.
  apply length_gs_slice in E0 as L0, E1 as L1, E2 as L2, E4 as L4, E6 as L6.
  apply gs_slice_byte in E3 as B2, E5 as B4.
  eexists _, fee, sig, addr, dep, exec. split_and!; [done|lia|lia|].
  rewrite Hall. unfold permissionless_calldata.
  replace (Z.of_nat (length addr)) with (be_val l2) by lia.
  replace (Z.of_nat (length dep)) with (be_val l4) by lia.
  replace (Z.of_nat (length sig)) with (be_val l0) by lia.
  rewrite <- B2, <- B4. replace 2%nat with (length l0) by lia. by rewrite be_fixed_val.
Qed.

Lemma length_permissionless_calldata maxFee sig addr dep exec :
  length maxFee = 32%nat ->
  Z.of_nat (length (permissionless_calldata maxFee sig addr dep exec))
  = 36 + Z.of_nat (length sig) + Z.of_nat (length addr) + Z.of_nat (length dep)
    + Z.of_nat (length exec).
Proof.
  intros. unfold permissionless_calldata. rewrite !length_app, length_be_fixed. simpl. lia.
Qed.

(** Reading off a field of a calldata that is a concatenation. *)
Lemma gs_of_next (cd pre l post : bytes) lo hi :
  cd = pre ++ l ++ post ->
  lo = Z.of_nat (length pre) -> hi = lo + Z.of_nat (length l) ->
  gs_slice (E := error) (gs_of cd) lo hi = Ok l.
Proof.
  intros -> -> ->. rewrite gs_of_slice by (rewrite ?length_app; lia).
  f_equal. by apply sub_list_middle.
Qed.

Ltac next_field pre post :=
  apply (gs_of_next _ pre _ post);
  [unfold permissionless_calldata; by rewrite <- ?app_assoc, ?app_nil_r
  |rewrite ?length_app, ?length_be_fixed; simpl; lia
  |rewrite ?length_app, ?length_be_fixed; simpl; lia].

Lemma be_val_byte (l : bytes) :
  Z.of_nat (length l) < 256 -> be_val [byte_of (Z.of_nat (length l))] = Z.of_nat (length l).
Proof.
  intros. change (be_val [?b]) with (bval b). rewrite bval_byte_of. apply Z.mod_small. lia.
Qed.

Definition permissionless_message (a : DepositArgs) (maxFee sig addr dep exec : bytes) : Message :=
  deposit_message a {["gasLimit" := IUint64 (u64_wrap (i64_wrap (be_val maxFee)))]}
    [IBytes sig; IBytes addr; IBytes maxFee; IBytes dep; IBytes exec]
    PermissionlessGenericTransfer.

Lemma Permissionless_accepts a maxFee sig addr dep exec :
  length maxFee = 32%nat -> Z.of_nat (length sig) < 2 ^ 16 ->
  Z.of_nat (length addr) < 256 -> Z.of_nat (length dep) < 256 ->
  76 <= Z.of_nat (length (permissionless_calldata maxFee sig addr dep exec)) < 2 ^ 62 ->
  PermissionlessGeneric_HandleDeposit a (gs_of (permissionless_calldata maxFee sig addr dep exec))
  = (Ok (permissionless_message a maxFee sig addr dep exec),
     gs_of (permissionless_calldata maxFee sig addr dep exec)).
Proof.
  intros Hf Hs Ha Hd Hlen.
  pose proof (length_permissionless_calldata maxFee sig addr dep exec Hf) as Hl.
  set (cd := permissionless_calldata _ _ _ _ _) in *.
  set (n := Z.of_nat (length sig)) in *. set (k := Z.of_nat (length addr)) in *.
  set (d := Z.of_nat (length dep)) in *.
  assert (gs_slice (E := error) (gs_of cd) 0 32 = Ok maxFee) as E0 by next_field (@nil byte)
    (be_fixed 2 n ++ sig ++ [byte_of k] ++ addr ++ [byte_of d] ++ dep ++ exec).
  assert (gs_slice (E := error) (gs_of cd) 32 34 = Ok (be_fixed 2 n)) as E1
    by next_field maxFee (sig ++ [byte_of k] ++ addr ++ [byte_of d] ++ dep ++ exec).
  assert (gs_slice (E := error) (gs_of cd) 34 (34 + n) = Ok sig) as E2
    by next_field (maxFee ++ be_fixed 2 n) ([byte_of k] ++ addr ++ [byte_of d] ++ dep ++ exec).
  assert (gs_slice (E := error) (gs_of cd) (34 + n) (34 + n + 1) = Ok [byte_of k]) as E3
    by next_field (maxFee ++ be_fixed 2 n ++ sig) (addr ++ [byte_of d] ++ dep ++ exec).
  assert (gs_slice (E := error) (gs_of cd) (34 + n + 1) (34 + n + 1 + k) = Ok addr) as E4
    by next_field (maxFee ++ be_fixed 2 n ++ sig ++ [byte_of k]) ([byte_of d] ++ dep ++ exec).
  assert (gs_slice (E := error) (gs_of cd) (34 + n + 1 + k) (34 + n + 1 + k + 1)
          = Ok [byte_of d]) as E5
    by next_field (maxFee ++ be_fixed 2 n ++ sig ++ [byte_of k] ++ addr) (dep ++ exec).
  assert (gs_slice (E := error) (gs_of cd) (34 + n + 1 + k + 1) (34 + n + 1 + k + 1 + d)
          = Ok dep) as E6
    by next_field (maxFee ++ be_fixed 2 n ++ sig ++ [byte_of k] ++ addr ++ [byte_of d]) exec.
  assert (gs_from (E := error) (gs_of cd) (34 + n + 1 + k + 1 + d) = Ok exec) as E7.
  { unfold gs_from, gs_len. simpl.
    next_field (maxFee ++ be_fixed 2 n ++ sig ++ [byte_of k] ++ addr ++ [byte_of d] ++ dep)
      (@nil byte). }
  unfold PermissionlessGeneric_HandleDeposit, mbind at 1, gom_bind at 1, gom_get at 1.
  replace (gs_len (gs_of cd) <? 76) with false by (unfold gs_len; simpl; lia).
  rewrite gom_lift_bind, E0, gom_lift_bind, E1, be_val_fixed, Z.mod_small by (simpl; lia).
  rewrite (i64_wrap_small n), !(i64_wrap_small (34 + n)), gom_lift_bind, E2
    by (unfold is_i64; lia).
  rewrite !(i64_wrap_small (34 + n + 1)), gom_lift_bind, E3 by (unfold is_i64; lia).
  assert (be_val [byte_of k] = k) as Ek by (by apply be_val_byte).
  assert (be_val [byte_of d] = d) as Ed by (by apply be_val_byte).
  rewrite Ek, (i64_wrap_small k), !(i64_wrap_small (34 + n + 1 + k)), gom_lift_bind, E4
    by (unfold is_i64; lia).
  rewrite !(i64_wrap_small (34 + n + 1 + k + 1)), gom_lift_bind, E5 by (unfold is_i64; lia).
  rewrite Ed, (i64_wrap_small d), !(i64_wrap_small (34 + n + 1 + k + 1 + d)), gom_lift_bind, E6
    by (unfold is_i64; lia).
  by rewrite gom_lift_bind, E7.
Qed.

(** ** The claims *)

(** A fungible deposit whose calldata announces a recipient inside the
    calldata is always accepted, and the destination proposal carries the
    deposited amount (the handler response when there is one), the recipient
    field of the calldata unchanged, and, when an optional message follows, that
    message with its execution fee raised by exactly [OPTIONAL_REVERT_GAS]; the
    gas limit put in the metadata is that raised fee cut to 64 bits. *)
Theorem erc20_deposit_to_proposal a cd :
  erc20_wf a cd ->
  exists m c',
    HandleDeposit_of (fun _ => Panic) Erc20DepositHandler a (gs_of cd) = (Ok m, c') /\
    proposal_bytes (TransferMessageHandler_HandleMessage Pack m)
    = Some (erc20_amount a cd ++ sub_list cd 32 (64 + recipient_len cd)
              ++ (if has_optional cd then erc20_optional cd else [])) /\
    (has_optional cd = true ->
     exists d, m_Data m = TransferData d /\
       tmd_Metadata d !! ("gasLimit" : string)
       = Some (IUint64 (u64_wrap (fee_field cd + OPTIONAL_REVERT_GAS)))).
Proof.
  intros Hwf. destruct (Erc20_accepts a cd Hwf) as [c' E].
  exists (erc20_message a cd), c'. split_and!; [done|by apply erc20_message_data|].
  intros Ho. unfold erc20_message. rewrite Ho. by eexists.
Qed.

(** A non-fungible deposit of a 32-byte token id with any recipient and
    metadata is accepted, leaves the calldata untouched, and its destination
    proposal is exactly the deposited calldata without the bytes that follow the
    metadata. *)
Theorem erc721_deposit_to_proposal a tokenId recipient metadata trailing :
  length tokenId = 32%nat -> Z.of_nat (length recipient) < 2 ^ 61 ->
  Z.of_nat (length metadata) < 2 ^ 61 ->
  exists m,
    HandleDeposit_of (fun _ => Panic) Erc721DepositHandler a
      (gs_of (erc721_calldata tokenId recipient metadata trailing))
    = (Ok m, gs_of (erc721_calldata tokenId recipient metadata trailing)) /\
    proposal_bytes (TransferMessageHandler_HandleMessage Pack m)
    = Some (erc721_calldata tokenId recipient metadata []).
Proof.
  intros. exists (erc721_message a tokenId recipient metadata).
  split; [by apply Erc721_accepts|by apply erc721_message_data].
Qed.

(** Permissionless generic deposits pass through unchanged: a proposal made
    from a calldata the deposit handler accepts is that calldata, byte for byte;
    and the handler accepts every encoding of a 32-byte fee, a signature of fewer
    than 2^16 bytes and an address and a depositor of fewer than 256 bytes that
    has the 76 bytes it asks for. *)
Theorem permissionless_passthrough a cd :
  Z.of_nat (length cd) < 2 ^ 62 ->
  (forall m c',
     HandleDeposit_of (fun _ => Panic) PermissionlessGenericDepositHandler a (gs_of cd)
       = (Ok m, c') ->
     proposal_bytes (TransferMessageHandler_HandleMessage Pack m) = Some cd) /\
  (forall maxFee sig addr dep exec,
     cd = permissionless_calldata maxFee sig addr dep exec -> (76 <= length cd)%nat ->
     length maxFee = 32%nat -> Z.of_nat (length sig) < 2 ^ 16 ->
     Z.of_nat (length addr) < 256 -> Z.of_nat (length dep) < 256 ->
     is_ok (fst (HandleDeposit_of (fun _ => Panic) PermissionlessGenericDepositHandler a
                   (gs_of cd))) = true).
Proof.
  intros Hcd. split.
  - intros m c' (md & maxFee & sig & addr & dep & exec & -> & Hf & Hs & ->)%Permissionless_accepted;
      [|done].
    by apply permissionless_message_data.
  - intros maxFee sig addr dep exec -> Hlen Hf Hs Ha Hd. simpl.
    by rewrite Permissionless_accepts by (done || lia).
Qed.
End roundtrip.

(** ** Concrete deposits *)

Module EvmMessageExample.
Import LeftPadRef.

Definition args : DepositArgs :=
  {| da_sourceID := 1; da_destID := 2; da_nonce := 7; da_resourceID := be_fixed 32 1;
     da_handlerResponse := gs_of []; da_messageID := "1-2-5-9"; da_timestamp := 0 |}.

Definition noPack : list iface -> res bytes := fun _ => Err "abi".

(** Amount 5, a 20-byte recipient, fee 1000 and a two-byte message. *)
Definition erc20_cd : bytes :=
  be_fixed 32 5 ++ be_fixed 32 20 ++ be_fixed 20 77 ++ be_fixed 32 1000 ++ be_fixed 2 513.

Definition permissionless_cd : bytes :=
  permissionless_calldata (be_fixed 32 9) (be_fixed 4 1) (be_fixed 20 2) (be_fixed 20 3)
    (be_fixed 3 4).

Lemma erc20_cd_wf : erc20_wf args erc20_cd.
Proof.
  assert (recipient_len erc20_cd = 20) as Er by reflexivity.
  assert (fee_field erc20_cd = 1000) as Ef by reflexivity.
  assert (length erc20_cd = 118%nat) as El by reflexivity.
  unfold erc20_wf. rewrite Er, Ef, El. unfold OPTIONAL_REVERT_GAS.
  split_and!; [lia..|by left].
Qed.
End EvmMessageExample.

Import LeftPadRef EvmMessageExample.

Lemma erc20_deposit_to_proposal_witness :
  has_optional erc20_cd = true /\
  exists m c',
    HandleDeposit_of (fun _ => Panic) Erc20DepositHandler args (gs_of erc20_cd) = (Ok m, c') /\
    proposal_bytes (TransferMessageHandler_HandleMessage noPack m)
    = Some (be_fixed 32 5 ++ be_fixed 32 20 ++ be_fixed 20 77 ++ be_fixed 32 101000
              ++ be_fixed 2 513).
Proof.
  split; [reflexivity|].
  destruct (erc20_deposit_to_proposal noPack args erc20_cd erc20_cd_wf) as (m & c' & E & D & _).
  exists m, c'. split; [exact E|]. rewrite D. vm_compute. reflexivity.
Defined.

Lemma erc721_deposit_to_proposal_witness :
  exists m,
    HandleDeposit_of (fun _ => Panic) Erc721DepositHandler args
      (gs_of (erc721_calldata (be_fixed 32 3) (be_fixed 20 8) (be_fixed 4 6) (be_fixed 1 1)))
    = (Ok m, gs_of (erc721_calldata (be_fixed 32 3) (be_fixed 20 8) (be_fixed 4 6) (be_fixed 1 1)))
    /\ proposal_bytes (TransferMessageHandler_HandleMessage noPack m)
       = Some (erc721_calldata (be_fixed 32 3) (be_fixed 20 8) (be_fixed 4 6) []).
Proof. apply (erc721_deposit_to_proposal noPack args); [reflexivity|simpl; lia..]. Defined.

Lemma permissionless_passthrough_witness :
  is_ok (fst (HandleDeposit_of (fun _ => Panic) PermissionlessGenericDepositHandler args
                (gs_of permissionless_cd))) = true.
Proof.
  apply (proj2 (permissionless_passthrough noPack args permissionless_cd
                  ltac:(vm_compute; reflexivity))
           (be_fixed 32 9) (be_fixed 4 1) (be_fixed 20 2) (be_fixed 20 3) (be_fixed 3 4));
    [reflexivity|vm_compute; lia|reflexivity|simpl; lia..].
Defined.
