(* ===== verification/EvmListener.v ===== *)
(** * EVM listener

    [chains/evm/calls/events] (fetching and decoding logs),
    [chains/evm/listener/eventHandlers] (the handlers of deposit, retry, keygen
    and refresh events) and [chains/util.go] (the start block). *)

From S2P Require Import Prelude GoBytes GoStrings Transfer Routing PropStore Retry EvmDeposit Files Topology.

#[local] Open Scope string_scope.
#[local] Open Scope list_scope.
#[local] Open Scope Z_scope.

(** ** Start block *)

(** [CalculateStartingBlock]; [big.Int.Mod] is Euclidean and panics on zero. *)
Definition CalculateStartingBlock (startBlock blockConfirmations : option Z) : res Z :=
  match startBlock, blockConfirmations with
  | Some s, Some c => if c =? 0 then Panic else Ok (s - s mod Z.abs c)
  | _, _ => Err "startBlock or blockConfirmations can not be nill when calculating CalculateStartingBlock"
  end.

(** ** Events *)

Definition DepositSig : string := "Deposit(uint8,bytes32,uint64,address,bytes,bytes)".
Definition StartKeygenSig : string := "StartKeygen()".
Definition StartFrostKeygenSig : string := "StartedFROSTKeygen()".
Definition KeyRefreshSig : string := "KeyRefresh(string)".
Definition RetryV2Sig : string := "Retry(uint8,uint8,uint256,bytes32)".
Definition RetryV1Sig : string := "Retry(string)".

(** The fields of go-ethereum's [Log] and [Receipt] that are read. *)
Record Log := {
  lg_Address : bytes;
  lg_Topics : list bytes;
  lg_Data : bytes;
  lg_BlockNumber : Z;
}.

Record Receipt := { rc_BlockNumber : Z; rc_Logs : list Log }.

Record RetryV2Event := {
  rv_SourceDomainID : Z;
  rv_DestinationDomainID : Z;
  rv_BlockHeight : Z;
  rv_ResourceID : bytes;
}.

(** [events.Deposit] *)
Record EvmDepositEvent := {
  ed_DestinationDomainID : Z;
  ed_ResourceID : bytes;
  ed_DepositNonce : Z;
  ed_SenderAddress : bytes;
  ed_Data : bytes;
  ed_HandlerResponse : bytes;
  ed_Timestamp : Z;
}.

(** go-ethereum's client and ABI decoder, and the clock. *)
Class EvmNode := {
  FetchEventLogs : bytes -> string -> Z -> Z -> res (list Log);
  WaitAndReturnTxReceipt : bytes -> res Receipt;
  LatestBlock : res Z;
  BlockTime : Z -> res Z;
  UnpackDeposit : bytes -> res EvmDepositEvent;
  UnpackRetryV1 : bytes -> res string;
  UnpackRetryV2 : bytes -> res RetryV2Event;
  UnpackKeyRefresh : bytes -> res string;
  BytesToAddress : bytes -> bytes;
  HexToHash : string -> bytes;
  HashHex : bytes -> string;
  Now : Z;
}.

Section events.
Context `{EvmNode}.

(** [for _, l := range logs] with a failed decode logged and skipped; a panic
    ends the loop. *)
Fixpoint decode_logs {A} (unpack : Log -> res A) (logs : list Log) : res (list A) :=
  match logs with
  | [] => Ok []
  | l :: rest =>
      match unpack l with
      | Ok a => r ← decode_logs unpack rest; Ok (a :: r)
      | Err _ => decode_logs unpack rest
      | Panic => Panic
      end
  end.

(** [dl.Topics[1]] panics when the log has no second topic. *)
Definition parseDeposit (dl : Log) : res EvmDepositEvent :=
  d ← UnpackDeposit (lg_Data dl);
  topic ← or_panic (lg_Topics dl !! 1%nat);
  let timestamp := match BlockTime (lg_BlockNumber dl) with
                   | Ok t => i64_wrap t
                   | _ => Now
                   end in
  Ok {| ed_DestinationDomainID := ed_DestinationDomainID d; ed_ResourceID := ed_ResourceID d;
        ed_DepositNonce := ed_DepositNonce d; ed_SenderAddress := BytesToAddress topic;
        ed_Data := ed_Data d; ed_HandlerResponse := ed_HandlerResponse d;
        ed_Timestamp := timestamp |}.

Definition FetchDeposits (contractAddress : bytes) (startBlock endBlock : Z)
    : res (list EvmDepositEvent) :=
  logs ← FetchEventLogs contractAddress DepositSig startBlock endBlock;
  decode_logs parseDeposit logs.

Definition FetchRetryDepositEvents (txHash : string) (bridgeAddress : bytes)
    (blockConfirmations : Z) : res (list EvmDepositEvent) :=
  receipt ← match WaitAndReturnTxReceipt (HexToHash txHash) with
            | Err e => Err ("unable to fetch logs for retried deposit " +:+ HashHex (HexToHash txHash)
                              +:+ ", because of: " +:+ e)
            | r => r
            end;
  latestBlock ← LatestBlock;
  let bound := rc_BlockNumber receipt + blockConfirmations in
  if latestBlock <=? bound then Err (not_confirmed latestBlock (bound + blockConfirmations))
  else decode_logs parseDeposit (filter (fun lg => lg_Address lg = bridgeAddress) (rc_Logs receipt)).

Definition FetchRetryV1Events (contractAddress : bytes) (startBlock endBlock : Z)
    : res (list string) :=
  logs ← FetchEventLogs contractAddress RetryV1Sig startBlock endBlock;
  decode_logs (fun dl => UnpackRetryV1 (lg_Data dl)) logs.

Definition FetchRetryV2Events (contractAddress : bytes) (startBlock endBlock : Z)
    : res (list RetryV2Event) :=
  logs ← FetchEventLogs contractAddress RetryV2Sig startBlock endBlock;
  decode_logs (fun dl => UnpackRetryV2 (lg_Data dl)) logs.

Definition FetchKeygenEvents (contractAddress : bytes) (startBlock endBlock : Z) : res (list Log) :=
  FetchEventLogs contractAddress StartKeygenSig startBlock endBlock.

Definition FetchFrostKeygenEvents (contractAddress : bytes) (startBlock endBlock : Z)
    : res (list Log) :=
  FetchEventLogs contractAddress StartFrostKeygenSig startBlock endBlock.

Definition FetchRefreshEvents (contractAddress : bytes) (startBlock endBlock : Z)
    : res (list string) :=
  logs ← FetchEventLogs contractAddress KeyRefreshSig startBlock endBlock;
  decode_logs (fun re => UnpackKeyRefresh (lg_Data re)) logs.

(** ** Deposits *)

(** The [DepositHandler] interface as [ETHDepositHandler] implements it. *)
Context (HandleDeposit : DepositArgs -> gom gslice Message) (domainID : Z).

Definition args_of (messageID : string) (d : EvmDepositEvent) : DepositArgs :=
  {| da_sourceID := domainID; da_destID := ed_DestinationDomainID d; da_nonce := ed_DepositNonce d;
     da_resourceID := ed_ResourceID d; da_handlerResponse := gs_of (ed_HandlerResponse d);
     da_messageID := messageID; da_timestamp := ed_Timestamp d |}.

(** The outcome of [HandleDeposit] on a freshly decoded calldata slice. *)
Definition handle (messageID : string) (d : EvmDepositEvent) : res Message :=
  fst (HandleDeposit (args_of messageID d) (gs_of (ed_Data d))).

Definition range_id (d : EvmDepositEvent) (startBlock endBlock : Z) : string :=
  fmt_u domainID +:+ "-" +:+ fmt_u (ed_DestinationDomainID d) +:+ "-" +:+ fmt_d startBlock
    +:+ "-" +:+ fmt_d endBlock.

(** The function literal of [ProcessDeposits]: an error and a recovered panic both
    leave the deposit out. *)
Definition resolve_deposit (startBlock endBlock : Z) (d : EvmDepositEvent) : option Message :=
  match handle (range_id d startBlock endBlock) d with
  | Ok m => Some m
  | _ => None
  end.

Definition evm_ProcessDeposits (bridgeAddress : bytes) (startBlock endBlock : Z)
    : res (gmap Z (list Message)) :=
  match FetchDeposits bridgeAddress startBlock endBlock with
  | Err e => Err ("unable to fetch deposit events because of: " +:+ e)
  | Panic => Panic
  | Ok deposits => Ok (collect (resolve_deposit startBlock endBlock) deposits ∅)
  end.

(** What is sent on the channel, a slice for each destination. *)
Definition evm_HandleEvents (bridgeAddress : bytes) (startBlock endBlock : Z)
    : res (list (list Message)) :=
  domainDeposits ← evm_ProcessDeposits bridgeAddress startBlock endBlock;
  Ok (snd <$> map_to_list domainDeposits).

(** ** Retries *)

Definition retry_v2_message (e : RetryV2Event) : Message :=
  NewMessage domainID (rv_SourceDomainID e)
    (RetryData {| rmd_SourceDomainID := rv_SourceDomainID e;
                  rmd_DestinationDomainID := rv_DestinationDomainID e;
                  rmd_BlockHeight := rv_BlockHeight e; rmd_ResourceID := rv_ResourceID e |})
    ("retry-" +:+ fmt_u (rv_SourceDomainID e) +:+ "-" +:+ fmt_u (rv_DestinationDomainID e))
    RetryMessageType Now.

(** [RetryV2EventHandler.HandleEvents]: one message on the channel per event. *)
Definition RetryV2_HandleEvents (retryAddress : bytes) (startBlock endBlock : Z)
    : res (list (list Message)) :=
  match FetchRetryV2Events retryAddress startBlock endBlock with
  | Err e => Err ("unable to fetch retry v2 events because of: " +:+ e)
  | Panic => Panic
  | Ok evts => Ok ((fun e => [retry_v2_message e]) <$> evts)
  end.

Section retry_v1.
Context {S : Type} `{PropStorer S}.

Definition retry_range_id (d : EvmDepositEvent) (startBlock endBlock : Z) : string :=
  "retry-" +:+ range_id d startBlock endBlock.

(** [RetryV1EventHandler.isExecuted]: as [retry.isExecuted] after asserting the
    data of the message. *)
Definition v1_isExecuted (msg : Message) (s : S) : res (bool * option error) * S :=
  match as_transfer (m_Data msg) with
  | None => (Panic, s)
  | Some data => let (r, s') := isExecuted msg data s in (Ok r, s')
  end.

(** The loop over the deposits of one retry event.  A failed [HandleDeposit]
    returned a nil message, which the logging of the error dereferences: the panic
    is recovered outside the loop and ends it. *)
Fixpoint retry_v1_deposits (startBlock endBlock : Z) (deposits : list EvmDepositEvent)
    (retries : gmap Z (list Message)) (s : S) : gmap Z (list Message) * S :=
  match deposits with
  | [] => (retries, s)
  | d :: rest =>
      match handle (retry_range_id d startBlock endBlock) d with
      | Ok msg =>
          match v1_isExecuted msg s with
          | (Ok (false, None), s') =>
              retry_v1_deposits startBlock endBlock rest (add_deposit msg retries) s'
          | (Ok _, s') => retry_v1_deposits startBlock endBlock rest retries s'
          | (_, s') => (retries, s')
          end
      | _ => (retries, s)
      end
  end.

Definition retry_v1_event (bridgeAddress : bytes) (blockConfirmations startBlock endBlock : Z)
    (st : gmap Z (list Message) * S) (txHash : string) : gmap Z (list Message) * S :=
  match FetchRetryDepositEvents txHash bridgeAddress blockConfirmations with
  | Ok deposits => retry_v1_deposits startBlock endBlock deposits (fst st) (snd st)
  | _ => st
  end.

Definition RetryV1_HandleEvents (bridgeAddress : bytes) (blockConfirmations startBlock endBlock : Z)
    : gom S (list (list Message)) := fun s =>
  match FetchRetryV1Events bridgeAddress startBlock endBlock with
  | Err e => (Err ("unable to fetch retry events because of: " +:+ e), s)
  | Panic => (Panic, s)
  | Ok evts =>
      let (retries, s') :=
        fold_left (retry_v1_event bridgeAddress blockConfirmations startBlock endBlock) evts (∅, s) in
      (Ok (snd <$> map_to_list retries), s')
  end.
End retry_v1.
End events.

(** ** Key generation and refresh *)

(** A tss process handed to the coordinator. *)
Inductive tss_request :=
| StartKeygen (sessionID : string) (threshold : Z)
| StartFrostKeygen (sessionID : string) (threshold : Z)
| StartResharing (sessionID : string) (threshold : Z).

(** The relayer's view of the network: its files, among them the stored topology,
    the topology of the connection gate, and the peer store of the host. *)
Record network_state (PS : Type) := {
  ns_files : files;
  ns_gate : NetworkTopology;
  ns_peers : PS;
}.
Arguments ns_files {PS} _.
Arguments ns_gate {PS} _.
Arguments ns_peers {PS} _.

Section tss_events.
Context `{EvmNode}.

Definition keygen_sessionID (block : Z) : string := "keygen-" +:+ fmt_d block.
Definition frost_sessionID (block : Z) : string := "frost-keygen-" +:+ fmt_d block.
Definition resharing_sessionID (block : Z) : string := "resharing-" +:+ fmt_d block.

(** [GetKeyshare] returns a threshold with an error; an error of the coordinator
    is only logged. *)
Definition Keygen_HandleEvents (GetKeyshare : Z * option error) (threshold : Z)
    (bridgeAddress : bytes) (startBlock endBlock : Z) : res (list tss_request) :=
  let (keyThreshold, keyErr) := GetKeyshare in
  if negb (keyThreshold =? 0) && (if keyErr is Some _ then false else true) then Ok []
  else
    match FetchKeygenEvents bridgeAddress startBlock endBlock with
    | Err e => Err ("unable to fetch keygen events because of: " +:+ e)
    | Panic => Panic
    | Ok [] => Ok []
    | Ok (ev :: _) => Ok [StartKeygen (keygen_sessionID (lg_BlockNumber ev)) threshold]
    end.

Definition FrostKeygen_HandleEvents (threshold : Z) (contractAddress : bytes)
    (startBlock endBlock : Z) : res (list tss_request) :=
  match FetchFrostKeygenEvents contractAddress startBlock endBlock with
  | Err e => Err ("unable to fetch keygen events because of: " +:+ e)
  | Panic => Panic
  | Ok [] => Ok []
  | Ok (ev :: _) => Ok [StartFrostKeygen (frost_sessionID (lg_BlockNumber ev)) threshold]
  end.

(** [RefreshEventHandler.HandleEvents].  [NetworkTopology] is the provider,
    [env] what the system answers when the topology is stored at [path]. *)
Definition Refresh_HandleEvents {PS : Type} `{TopologyJSON} `{Peerstore PS}
    (NetworkTopology : string -> res NetworkTopology) (env : os_env) (path : string)
    (bridgeAddress : bytes) (startBlock endBlock : Z) (ns : network_state PS)
    : res (list tss_request) * network_state PS :=
  match FetchRefreshEvents bridgeAddress startBlock endBlock with
  | Err e => (Err ("unable to fetch keygen events because of: " +:+ e), ns)
  | Panic => (Panic, ns)
  | Ok refreshEvents =>
      match rev refreshEvents with
      | [] => (Ok [], ns)
      | hash :: _ =>
          if bool_decide (hash = "") then (Ok [], ns)
          else match NetworkTopology hash with
               | Ok topology =>
                   let (stored, fs) := StoreTopology env path topology (ns_files ns) in
                   let ns1 := {| ns_files := fs; ns_gate := ns_gate ns; ns_peers := ns_peers ns |} in
                   match stored with
                   | Err _ => (Ok [], ns1)
                   | Panic => (Panic, ns1)
                   | Ok _ =>
                       let (loaded, peers) := LoadPeers (nt_Peers topology) (ns_peers ns) in
                       let ns2 := {| ns_files := fs; ns_gate := topology; ns_peers := peers |} in
                       match loaded with
                       | Ok _ => (Ok [StartResharing (resharing_sessionID startBlock)
                                        (nt_Threshold topology)], ns2)
                       | Err e => (Err e, ns2)
                       | Panic => (Panic, ns2)
                       end
                   end
               | Err _ => (Ok [], ns)
               | Panic => (Panic, ns)
               end
      end
  end.
End tss_events.

(** ** Ranges of blocks *)

Lemma CalculateStartingBlock_Ok s c b :
  0 < c -> CalculateStartingBlock (Some s) (Some c) = Ok b ->
  b <= s < b + c /\ b mod c = 0.
Proof.
  intros Hc. unfold CalculateStartingBlock. destruct (Z.eqb_spec c 0); [lia|].
  rewrite Z.abs_eq by lia. intros [= <-].
  pose proof (Z.mod_pos_bound s c Hc). split; [lia|].
  rewrite Zminus_mod, Z.mod_mod, Z.sub_diag by lia. by apply Z.mod_0_l; lia.
Qed.

(** Relayers that resume from different blocks poll the same ranges: the
    start block is the last multiple of the interval up to the block resumed from,
    so any later block lies in the range that starts at the multiple below it,
    whichever relayer reaches it; message and session identifiers made from the
    bounds of a range therefore agree. *)
Theorem CalculateStartingBlock_aligned s interval b :
  0 < interval -> CalculateStartingBlock (Some s) (Some interval) = Ok b ->
  b <= s < b + interval /\
  forall n, b <= n -> exists k, 0 <= k /\ b + k * interval = n - n mod interval.
Proof.
  intros Hi E. destruct (CalculateStartingBlock_Ok _ _ _ Hi E) as [Hb Hm]. split; [done|].
  intros n Hn. apply Z.mod_divide in Hm as [q ->]; [|lia].
  exists (n / interval - q). split.
  - assert (q <= n / interval); [|lia]. apply Z.div_le_lower_bound; lia.
  - pose proof (Z.div_mod n interval). lia.
Qed.

(** ** Deposits *)

Section deposits.
Context `{EN : EvmNode} `{LP : LeftPad}.
Context (Unpack : bytes -> res (list iface)) (GetHandler : bytes -> res bytes) (e : DepositHandlers).
Context (domainID : Z).

Abbreviation eth := (ETH_HandleDeposit Unpack GetHandler e).

Lemma handle_carries messageID d m :
  handle eth domainID messageID d = Ok m -> carries (args_of domainID messageID d) m.
Proof.
  unfold handle. intros E. destruct (eth _ _) as [r c] eqn:Eh. simpl in E. subst r.
  by eapply ETH_HandleDeposit_carries.
Qed.

(** The deposits of a range of blocks: the messages for a domain are those
    of the deposit events to that domain whose handler succeeds, in the order of
    the events, whatever happens to other events; each message carries the domain,
    nonce, resource and timestamp of its event and the identifier of the range. *)
Theorem evm_ProcessDeposits_routes bridgeAddress startBlock endBlock deposits dd :
  FetchDeposits bridgeAddress startBlock endBlock = Ok deposits ->
  evm_ProcessDeposits eth domainID bridgeAddress startBlock endBlock = Ok dd ->
  forall d,
    dd !! d = nonempty (omap (fun ev => to_domain d
                (resolve_deposit eth domainID startBlock endBlock ev)) deposits) /\
    (forall m, m ∈ default [] (dd !! d) ->
       exists ev, ev ∈ deposits /\ ed_DestinationDomainID ev = d /\
         carries (args_of domainID (range_id domainID ev startBlock endBlock) ev) m) /\
    (forall ev m, ev ∈ deposits -> ed_DestinationDomainID ev = d ->
       handle eth domainID (range_id domainID ev startBlock endBlock) ev = Ok m ->
       m ∈ default [] (dd !! d)).
Proof.
  intros Hf E d. unfold evm_ProcessDeposits in E. rewrite Hf in E. injection E as <-.
  split_and!; [apply collect_empty_lookup|..].
  - intros m (Hd & ev & Hin & Hr)%collect_elem. unfold resolve_deposit in Hr.
    case_match eqn:Eh; simplify_eq. apply handle_carries in Eh.
    exists ev. split_and!; [done| |done]. by destruct Eh as (md & pl & ty & ->).
  - intros ev m Hin Hd Eh. apply collect_elem. split.
    + apply handle_carries in Eh as (md & pl & ty & ->). done.
    + exists ev. split; [done|]. unfold resolve_deposit. by rewrite Eh.
Qed.
End deposits.

(** ** Retried deposits *)

Section retries.
Context `{EN : EvmNode} {S : Type} `{PS : PropStorer S, PSS : !PropStorerSpec S}.
Context (HandleDeposit : DepositArgs -> gom gslice Message) (domainID startBlock endBlock : Z).

Definition retry_handle (d : EvmDepositEvent) : res Message :=
  handle HandleDeposit domainID (retry_range_id domainID d startBlock endBlock) d.

(** The deposits before the first one whose handler fails. *)
Fixpoint before_failure (deposits : list EvmDepositEvent) : list EvmDepositEvent :=
  match deposits with
  | [] => []
  | d :: rest => if is_ok (retry_handle d) then d :: before_failure rest else []
  end.

(** A deposit that the store does not have as executed. *)
Definition resolve_retry (s : S) (d : EvmDepositEvent) : option Message :=
  match retry_handle d with
  | Ok m => if decide (deposit_status s m = Some ExecutedProp) then None else Some m
  | _ => None
  end.

Lemma resolve_retry_agree s s1 ds :
  agree s s1 -> (forall d m, d ∈ ds -> retry_handle d = Ok m -> wf_deposit m) ->
  forall acc, collect (resolve_retry s1) ds acc = collect (resolve_retry s) ds acc.
Proof.
  intros Hag. unfold collect. induction ds as [|d ds IH]; intros Hwf acc; simpl; [done|].
  rewrite IH by (intros; eapply Hwf; [by right|done]). f_equal. unfold resolve_retry.
  destruct (retry_handle d) as [m| |] eqn:Em; [|done..].
  pose proof (agree_executed _ _ m Hag (Hwf d m ltac:(by left) Em)) as Hex.
  destruct (decide (deposit_status s1 m = Some ExecutedProp)) as [Hs1|Hs1],
    (decide (deposit_status s m = Some ExecutedProp)) as [Hs|Hs]; tauto || done.
Qed.

Lemma wf_deposit_data (m : Message) : wf_deposit m -> exists t, as_transfer (m_Data m) = Some t.
Proof. unfold wf_deposit, deposit_key. destruct (as_transfer (m_Data m)); [eauto|done]. Qed.

Lemma retry_v1_deposits_spec ds retries s :
  storage_ok (S := S) -> (forall d m, d ∈ ds -> retry_handle d = Ok m -> wf_deposit m) ->
  exists s', retry_v1_deposits HandleDeposit domainID startBlock endBlock ds retries s
             = (collect (resolve_retry s) (before_failure ds) retries, s') /\ agree s s'.
Proof.
  intros Hok. revert retries s. induction ds as [|d ds IH]; intros retries s Hwf.
  { exists s. eauto using agree_refl. }
  simpl. change (handle HandleDeposit domainID (retry_range_id domainID d startBlock endBlock) d)
    with (retry_handle d).
  destruct (retry_handle d) as [m| |] eqn:Em; simpl; [|exists s; eauto using agree_refl..].
  assert (wf_deposit m) as Hm by (eapply Hwf; [by left|done]).
  destruct (wf_deposit_data m Hm) as [t Ht]. unfold v1_isExecuted. rewrite Ht.
  destruct (isExecuted m t s) as [r s1] eqn:Ex.
  destruct (isExecuted_agree _ _ _ _ _ Hok Hm Ht Ex) as (Hag & -> & _).
  assert (forall d m, d ∈ ds -> retry_handle d = Ok m -> wf_deposit m) as Hwf'
    by (intros; eapply Hwf; [by right|done]).
  assert (forall d m, d ∈ before_failure ds -> retry_handle d = Ok m -> wf_deposit m) as Hwfb.
  { intros d' m' Hin. apply Hwf'. clear -Hin. induction ds as [|x ds IH]; simpl in Hin; [done|].
    destruct (is_ok (retry_handle x)); [|by apply not_elem_of_nil in Hin].
    apply elem_of_cons in Hin as [->|Hin]; [by left|by right; apply IH]. }
  assert (resolve_retry s d = if decide (deposit_status s m = Some ExecutedProp) then None
                              else Some m) as -> by (unfold resolve_retry; by rewrite Em).
  destruct (bool_decide_reflect (deposit_status s m = Some ExecutedProp)) as [Hx|Hx].
  - rewrite decide_True by done. destruct (IH retries s1 Hwf') as (s' & -> & Hag').
    exists s'. rewrite (resolve_retry_agree s s1) by done. eauto using agree_trans.
  - rewrite decide_False by done. destruct (IH (add_deposit m retries) s1 Hwf') as (s' & -> & Hag').
    exists s'. rewrite (resolve_retry_agree s s1) by done. eauto using agree_trans.
Qed.

(** What a retry event of the first version sends: exactly the deposits of
    its transaction that are not recorded executed and come before the first
    deposit whose handler fails; a failure loses every deposit after it.  The only
    change to the recorded statuses is from pending to failed. *)
Theorem retry_v1_stops_at_failure ds retries s :
  storage_ok (S := S) -> (forall d m, d ∈ ds -> retry_handle d = Ok m -> wf_deposit m) ->
  exists s', retry_v1_deposits HandleDeposit domainID startBlock endBlock ds retries s
             = (collect (resolve_retry s) (before_failure ds) retries, s') /\ agree s s' /\
    (forall pre bad post, ds = pre ++ bad :: post -> is_ok (retry_handle bad) = false ->
       before_failure ds = before_failure pre).
Proof.
  intros Hok Hwf. destruct (retry_v1_deposits_spec ds retries s Hok Hwf) as (s' & E & Hag).
  exists s'. split_and!; [done..|]. intros pre bad post -> Hbad. clear -Hbad.
  induction pre as [|d pre IH]; simpl; [by rewrite Hbad|].
  destruct (is_ok (retry_handle d)); [|done]. by rewrite IH.
Qed.
End retries.

(** ** Refresh *)

Section refresh.
Context `{EN : EvmNode} {PS : Type} `{TopologyJSON} `{PeerstoreSpec PS}.
Context (NetworkTopology : string -> res NetworkTopology) (env : os_env) (path : string).

(** Nothing but the stored topology may have changed, and no resharing starts. *)
Definition not_refreshed (ns : network_state PS) (r : res (list tss_request)) (ns' : network_state PS)
    : Prop :=
  ns_gate ns' = ns_gate ns /\ ns_peers ns' = ns_peers ns /\ forall l, r = Ok l -> l = [].

(** C26. A key refresh.  Either the gate and the peers stay as they are and no
    resharing starts; or the topology fetched for the hash of the last refresh event
    is stored and can be read back, the gate uses it, and either the peer store
    holds exactly its peers and one resharing with its threshold starts, or a peer
    without an address stops the handler with a panic.  The stored topology is lost
    exactly when storing fails after the file was opened. *)
Theorem Refresh_switches bridgeAddress startBlock endBlock (ns : network_state PS) r ns' :
  Refresh_HandleEvents NetworkTopology env path bridgeAddress startBlock endBlock ns = (r, ns') ->
  (not_refreshed ns r ns' /\ ns_files ns' = ns_files ns) \/
  (not_refreshed ns r ns' /\ exists kb, ns_files ns' !! path = Some kb /\ os_open env = None) \/
  (exists events hash topology,
     FetchRefreshEvents bridgeAddress startBlock endBlock = Ok (events ++ [hash]) /\ hash <> "" /\
     NetworkTopology hash = Ok topology /\ ns_gate ns' = topology /\
     stored_Topology os_ok path (ns_files ns') = Ok topology /\
     ((r = Ok [StartResharing (resharing_sessionID startBlock) (nt_Threshold topology)] /\
       forall p, p ∈ ps_Peers (ns_peers ns') <-> IsAllowedPeer topology p = true) \/
      (r = Panic /\ Exists (fun p => ai_Addrs p = []) (nt_Peers topology)))).
Proof.
  unfold Refresh_HandleEvents, not_refreshed. intros E.
  destruct (FetchRefreshEvents bridgeAddress startBlock endBlock) as [evts| |];
    [|left; simplify_eq; naive_solver..].
  destruct (rev evts) as [|hash rest] eqn:Er; [left; simplify_eq; naive_solver|].
  destruct (bool_decide_reflect (hash = "")) as [|Hne]; [left; simplify_eq; naive_solver|].
  destruct (NetworkTopology hash) as [t| |] eqn:Et; [|left; simplify_eq; naive_solver..].
  destruct (StoreTopology env path t (ns_files ns)) as [[[]|e|] fs] eqn:Es.
  - right; right. exists (rev rest), hash, t.
    assert (stored_Topology os_ok path fs = Ok t) as Hread.
    { destruct (store_file_read _ os_ok _ _ _ _ Es eq_refl) as (kb & Hm & Hr).
      unfold stored_Topology. rewrite Hr. by apply topology_json. }
    destruct (LoadPeers_spec (nt_Peers t) (ns_peers ns)) as [Hl Hp].
    destruct (LoadPeers (nt_Peers t) (ns_peers ns)) as [[[]|e|] ps] eqn:El.
    2: by apply add_peers_never_errs in El.
    all: simplify_eq; split_and!; [f_equal; by rewrite <- (rev_involutive evts), Er|done..|].
    + left. split; [done|]. intros p. cbn. rewrite (Hp _ eq_refl). by rewrite IsAllowedPeer_spec.
    + right. split; [done|].
      assert (~ Forall (fun p => ai_Addrs p <> []) (nt_Peers t)) as Hn by (rewrite <- Hl; naive_solver).
      apply not_Forall_Exists in Hn; [|apply _]. eapply Exists_impl; [|exact Hn].
      intros p Hx. destruct (ai_Addrs p) eqn:Ep; [done|]. exfalso. apply Hx. cbn. by rewrite Ep.
  - simplify_eq. destruct (os_open env) as [e'|] eqn:Eo.
    + left. unfold StoreTopology, store_file in Es. rewrite Eo in Es. simplify_eq. naive_solver.
    + right; left. destruct (store_file_fails _ _ _ _ _ _ Es Eo) as (kb & Hk & _). cbn. naive_solver.
  - simplify_eq. right; left. unfold StoreTopology, store_file in Es.
    destruct (os_open env) eqn:Eo; [done|]. destruct (MarshalTopology t); [by repeat case_match|done|].
    simplify_eq. split; [naive_solver|]. exists []. cbn. by rewrite lookup_insert_eq.
Qed.
End refresh.

(** ** A concrete node *)

Module EvmListenerExample.
Import LeftPadRef MapDB.

(** Deposit logs hold the destination, the nonce and the calldata. *)
Definition log (data : bytes) : Log :=
  {| lg_Address := be_fixed 20 1; lg_Topics := [be_fixed 32 0; be_fixed 32 9]; lg_Data := data;
     lg_BlockNumber := 8 |}.

Definition calldata : bytes := be_fixed 32 5 ++ be_fixed 32 20 ++ be_fixed 20 77.

(** The second deposit is too short for its handler. *)
Definition logs : list Log :=
  [log (be_fixed 1 2 ++ be_fixed 1 1 ++ calldata); log (be_fixed 1 2 ++ be_fixed 1 2);
   log (be_fixed 1 2 ++ be_fixed 1 3 ++ calldata)].

Definition decode (data : bytes) : res EvmDepositEvent :=
  match data with
  | dest :: nonce :: cd =>
      Ok {| ed_DestinationDomainID := bval dest; ed_ResourceID := be_fixed 32 1;
            ed_DepositNonce := bval nonce; ed_SenderAddress := []; ed_Data := cd;
            ed_HandlerResponse := []; ed_Timestamp := 0 |}
  | _ => Err "abi"
  end.

#[export] Instance node : EvmNode := {|
  FetchEventLogs _ sig _ _ := if bool_decide (sig = DepositSig) then Ok logs
                              else if bool_decide (sig = KeyRefreshSig) then Ok [log (be_fixed 1 4)]
                              else Ok [];
  WaitAndReturnTxReceipt _ := Ok {| rc_BlockNumber := 8; rc_Logs := logs |};
  LatestBlock := Ok 100;
  BlockTime n := Ok (1000 + n);
  UnpackDeposit := decode;
  UnpackRetryV1 _ := Ok "0x1";
  UnpackRetryV2 _ := Err "abi";
  UnpackKeyRefresh _ := Ok "hash";
  BytesToAddress l := drop 12 l;
  HexToHash s := bytes_of_string s;
  HashHex h := string_of_bytes h;
  Now := 5;
|}.

Definition handlers : DepositHandlers := {[be_fixed 20 3 := Erc20DepositHandler]}.
Definition eth : DepositArgs -> gom gslice Message :=
  ETH_HandleDeposit (fun _ => Err "abi") (fun _ => Ok (be_fixed 20 3)) handlers.

Definition deposits : list EvmDepositEvent :=
  match FetchDeposits (be_fixed 20 1) 5 9 with Ok l => l | _ => [] end.

Lemma retried_wf d m : d ∈ deposits -> retry_handle eth 1 5 9 d = Ok m -> wf_deposit m.
Proof.
  intros Hd E. apply (handle_carries (fun _ => Err "abi") (fun _ => Ok (be_fixed 20 3)) handlers)
    in E as (md & pl & ty & ->).
  assert (0 <= ed_DestinationDomainID d < 2 ^ 8 /\ 0 <= ed_DepositNonce d < 2 ^ 64) as [??].
  { assert (Forall (fun d => 0 <= ed_DestinationDomainID d < 2 ^ 8 /\
                             0 <= ed_DepositNonce d < 2 ^ 64) deposits) as Hall
      by (apply (bool_decide_unpack _); vm_compute; done).
    rewrite list.Forall_forall in Hall. by apply Hall. }
  repeat split; simpl; lia.
Qed.

Lemma store_ok : storage_ok (S := gmap bytes bytes).
Proof.
  split; [|done]. intros a b n s. cbn. unfold store_PropStatus, GetByKey, map_kv. by destruct (s !! _).
Qed.
End EvmListenerExample.

Import LeftPadRef MapDB EvmListenerExample NumberCode TopologyExample.

Lemma CalculateStartingBlock_aligned_witness :
  CalculateStartingBlock (Some 104) (Some 5) = Ok 100 /\
  exists k, 0 <= k /\ 100 + k * 5 = 123 - 123 mod 5.
Proof.
  split; [reflexivity|].
  apply (proj2 (CalculateStartingBlock_aligned 104 5 100 ltac:(lia) eq_refl)). lia.
Defined.

Lemma evm_ProcessDeposits_routes_witness :
  exists dd, evm_ProcessDeposits eth 1 (be_fixed 20 1) 5 9 = Ok dd /\
    (fun m => m_ID m) <$> default [] (dd !! 2) = ["1-2-5-9"; "1-2-5-9"] /\
    dd !! 2 = nonempty (omap (fun ev => to_domain 2 (resolve_deposit eth 1 5 9 ev)) deposits).
Proof.
  eexists. split; [reflexivity|]. split; [vm_compute; reflexivity|].
  exact (proj1 (evm_ProcessDeposits_routes (fun _ => Err "abi") (fun _ => Ok (be_fixed 20 3)) handlers
    1 (be_fixed 20 1) 5 9 deposits _ eq_refl eq_refl 2)).
Defined.

(** The third deposit could be handled and is lost. *)
Lemma retry_v1_stops_at_failure_witness :
  length (before_failure eth 1 5 9 deposits) = 1%nat /\
  (is_ok <$> (retry_handle eth 1 5 9 <$> deposits)) = [true; false; true] /\
  exists s', retry_v1_deposits eth 1 5 9 deposits ∅ (∅ : gmap bytes bytes)
             = (collect (resolve_retry eth 1 5 9 (∅ : gmap bytes bytes))
                  (before_failure eth 1 5 9 deposits) ∅, s').
Proof.
  split; [vm_compute; reflexivity|]. split; [vm_compute; reflexivity|].
  destruct (retry_v1_stops_at_failure eth 1 5 9 deposits ∅ (∅ : gmap bytes bytes)
    store_ok retried_wf) as (s' & E & _).
  exists s'. exact E.
Defined.

Lemma Refresh_switches_witness :
  let ns := {| ns_files := {["topology" := enc 0%Z]}; ns_gate := published;
               ns_peers := {["old" := ["/ip4/1"]]} |} in
  let run env path := Refresh_HandleEvents (fun _ => Ok refreshed) env path (be_fixed 20 1) 5 9 ns in
  (run os_ok "topology").1 = Ok [StartResharing (resharing_sessionID 5) 2] /\
  (run {| os_open := None; os_write := Some (0%nat, "disk full"); os_read := None |} "topology").1 = Ok [] /\
  ps_Peers (ns_peers (run os_ok "topology").2) = ["a"; "b"] /\
  ((not_refreshed ns (run os_ok "topology").1 (run os_ok "topology").2 /\
    ns_files (run os_ok "topology").2 = ns_files ns) \/
   (not_refreshed ns (run os_ok "topology").1 (run os_ok "topology").2 /\
    exists kb, ns_files (run os_ok "topology").2 !! "topology" = Some kb /\ os_open os_ok = None) \/
   exists events hash topology,
     FetchRefreshEvents (be_fixed 20 1) 5 9 = Ok (events ++ [hash]) /\ hash <> "" /\
     Ok refreshed = Ok (E := error) topology /\ ns_gate (run os_ok "topology").2 = topology /\
     stored_Topology os_ok "topology" (ns_files (run os_ok "topology").2) = Ok topology /\
     (((run os_ok "topology").1 = Ok [StartResharing (resharing_sessionID 5) (nt_Threshold topology)] /\
       forall p, p ∈ ps_Peers (ns_peers (run os_ok "topology").2) <-> IsAllowedPeer topology p = true) \/
      ((run os_ok "topology").1 = Panic /\ Exists (fun p => ai_Addrs p = []) (nt_Peers topology)))).
Proof.
  intros ns run. split_and!; [vm_compute; reflexivity..|].
  apply (Refresh_switches (fun _ => Ok refreshed) os_ok "topology" (be_fixed 20 1) 5 9 ns).
  apply surjective_pairing.
Defined.
