(* ===== verification/EvmExecutor.v ===== *)
(** * EVM proposal executor ([chains/evm/executor/executor.go])

    Proposals that the bridge contract has not executed are grouped in batches
    bounded by the gas of one transaction; every non-empty batch is signed in a
    session of its own and watched until it is executed. *)

From S2P Require Import Prelude GoBytes GoStrings Transfer.

#[local] Open Scope string_scope.
#[local] Open Scope list_scope.
#[local] Open Scope Z_scope.

Record Batch := {
  b_proposals : list TransferProposal;
  b_gasLimit : Z;
}.

Definition empty_batch : Batch := {| b_proposals := []; b_gasLimit := 0 |}.

(** The calls the executor makes on the bridge contract. *)
Class BridgeContract := {
  IsProposalExecuted : TransferProposal -> res bool;
  ExecuteProposals : list TransferProposal -> bytes -> Z -> res bytes;
  ProposalsHash : list TransferProposal -> res bytes;
}.

(** [tss-lib]'s [SignatureData], the fields the executor reads. *)
Record SignatureData := {
  sd_R : bytes;
  sd_S : bytes;
  sd_SignatureRecovery : bytes;
}.

Section executor.
Context `{BridgeContract}.
Context (transactionMaxGas transferGasCost : Z).

(** The transfer proposal built from [prop], asserting its data. *)
Definition to_transfer_proposal (prop : Proposal) : res TransferProposal :=
  data ← or_panic (as_transfer_prop (p_Data prop));
  Ok {| tp_Source := p_Source prop; tp_Destination := p_Destination prop;
        tp_Data := data; tp_Type := p_Type prop; tp_MessageID := p_MessageID prop |}.

(** The gas a proposal needs: [uint64] addition; a [gasLimit] entry that is not a
    [uint64] panics. *)
Definition propGasLimit (p : TransferProposal) : res Z :=
  match tpd_Metadata (tp_Data p) !! ("gasLimit" : string) with
  | Some l => z ← or_panic (as_uint64 l); Ok (u64_wrap (z + transferGasCost))
  | None => Ok transferGasCost
  end.

(** Lines of the loop body after the gas of [p] is known: the batches but the
    last, and the last ([currentBatch]). *)
Definition add_to_batches (closed : list Batch) (currentBatch : Batch) (p : TransferProposal)
    (gas : Z) : list Batch * Batch :=
  let gasLimit := u64_wrap (b_gasLimit currentBatch + gas) in
  let counted := {| b_proposals := b_proposals currentBatch; b_gasLimit := gasLimit |} in
  if transactionMaxGas <=? gasLimit
  then (closed ++ [counted], {| b_proposals := [p]; b_gasLimit := 0 |})
  else (closed, {| b_proposals := b_proposals counted ++ [p]; b_gasLimit := gasLimit |}).

Fixpoint batches_loop (proposals : list Proposal) (closed : list Batch) (currentBatch : Batch)
    : res (list Batch) :=
  match proposals with
  | [] => Ok (closed ++ [currentBatch])
  | prop :: rest =>
      transferProposal ← to_transfer_proposal prop;
      isExecuted ← IsProposalExecuted transferProposal;
      if isExecuted : bool then batches_loop rest closed currentBatch
      else
        gas ← propGasLimit transferProposal;
        let (closed', current') := add_to_batches closed currentBatch transferProposal gas in
        batches_loop rest closed' current'
  end.

Definition proposalBatches (proposals : list Proposal) : res (list Batch) :=
  batches_loop proposals [] empty_batch.

(** [for _, prop := range proposals], an error counting as not executed. *)
Definition areProposalsExecuted (query : TransferProposal -> res bool)
    (proposals : list TransferProposal) : bool :=
  forallb (fun prop => match query prop with Ok b => b | _ => false end) proposals.

Section execute_batch.
Context `{LeftPad}.

(** [sig[len(sig)-1] += 27] on bytes. *)
Definition add_to_last (sig : bytes) (k : Z) : bytes :=
  match rev sig with
  | [] => []
  | v :: front => rev front ++ [byte_of (bval v + k)]
  end.

Definition batch_signature (sd : SignatureData) : bytes :=
  add_to_last (LeftPadBytes (sd_R sd) 32 ++ LeftPadBytes (sd_S sd) 32
                 ++ sd_SignatureRecovery sd) 27.

Definition executeBatch (send : list TransferProposal -> bytes -> Z -> res bytes)
    (batch : Batch) (sd : SignatureData) : res bytes :=
  send (b_proposals batch) (batch_signature sd) (b_gasLimit batch).

(** ** The watcher of one session

    [watchExecution] is a loop over what its [select] receives; a received event
    carries the answers of the chain at that moment. *)
Inductive watch_event :=
| EvSigResult (sigResult : option SignatureData)
    (send : list TransferProposal -> bytes -> Z -> res bytes)
| EvTick (query : TransferProposal -> res bool)
| EvTimeout
| EvCtxDone.

Inductive watch_action :=
| ActCancelExecution
| ActBroadcastTssFail (sessionID : string)
| ActExecuted (hash : bytes).

(** A running watcher, or the value it returned, with what it did so far. *)
Record watcher := {
  w_result : option (res unit);
  w_actions : list watch_action;
}.

Definition watch_start : watcher := {| w_result := None; w_actions := [] |}.

Definition act (w : watcher) (a : list watch_action) : watcher :=
  {| w_result := w_result w; w_actions := w_actions w ++ a |}.

(** [return r] runs the deferred [cancelExecution]. *)
Definition return_with (w : watcher) (r : res unit) : watcher :=
  {| w_result := Some r; w_actions := w_actions w ++ [ActCancelExecution] |}.

Definition signingTimeout_error : error := "execution timed out in 30m0s".

Definition watchExecution (batch : Batch) (sessionID : string) (w : watcher) (ev : watch_event)
    : watcher :=
  match w_result w with
  | Some _ => w
  | None =>
      match ev with
      | EvSigResult None send => act w [ActCancelExecution]
      | EvSigResult (Some signatureData) send =>
          let w' := act w [ActCancelExecution] in
          match executeBatch send batch signatureData with
          | Ok hash => act w' [ActExecuted hash]
          | Err e => return_with (act w' [ActBroadcastTssFail sessionID]) (Err e)
          | Panic => return_with w' Panic
          end
      | EvTick query =>
          if areProposalsExecuted query (b_proposals batch) then return_with w (Ok tt) else w
      | EvTimeout => return_with w (Err signingTimeout_error)
      | EvCtxDone => return_with w (Ok tt)
      end
  end.
End execute_batch.

(** ** Sessions

    [Execute] starts a goroutine for each batch that is not empty.  The goroutine keeps
    its batch and message in variables of its own, but [i] and [batch] are the variables
    of the loop, which all goroutines and the loop share (the module is built with the
    semantics of Go 1.19): what the goroutine reads of them, after the query for the
    hash, depends on how far the loop has gone on. *)
Record Session := {
  s_sessionID : string;
  s_messageID : string;
  s_msg : Z;
  s_batch : Batch;
}.

(** For the goroutine of batch [k]: the index the loop is at when it reads [i], the one
    it is at when it reads [batch], and the outcome of [NewSigning], which reads the key
    share. *)
Record schedule := {
  sc_i : nat -> nat;
  sc_batch : nat -> nat;
  sc_NewSigning : nat -> res unit;
}.

(** The loop is not behind the batch it started the goroutine for and not past the last
    one. *)
Definition in_loop (n : nat) (sc : schedule) : Prop :=
  forall k, (k < n)%nat -> (k <= sc_i sc k < n)%nat /\ (k <= sc_batch sc k < n)%nat.

Definition session_id (messageID : string) (i : nat) : string :=
  messageID +:+ "-" +:+ fmt_u (Z.of_nat i).

Section sessions.
Context (batches : list Batch) (sc : schedule).

(** The goroutine of batch [k]: it fails, or runs the signing session over the hash of
    its batch.  The log line reads the first proposal of the batch the loop is at. *)
Definition start_session (k : nat) (b : Batch) (first : TransferProposal) : res Session :=
  let messageID := tp_MessageID first in
  propHash ← ProposalsHash (b_proposals b);
  let sessionID := session_id messageID (sc_i sc k) in
  logged ← or_panic (batches !! sc_batch sc k);
  _ ← or_panic (b_proposals logged !! 0%nat);
  _ ← sc_NewSigning sc k;
  Ok {| s_sessionID := sessionID; s_messageID := messageID; s_msg := be_val propHash; s_batch := b |}.

Fixpoint sessions_from (k : nat) (bs : list Batch) : list (res Session) :=
  match bs with
  | [] => []
  | b :: rest =>
      match b_proposals b with
      | [] => sessions_from (S k) rest
      | first :: _ => start_session k b first :: sessions_from (S k) rest
      end
  end.
End sessions.

Definition Execute (sc : schedule) (proposals : list Proposal) : res (list (res Session)) :=
  batches ← proposalBatches proposals;
  Ok (sessions_from batches sc 0 batches).
End executor.

(** ** Batching *)

Section batching.
Context `{BC : BridgeContract}.
Context (transactionMaxGas transferGasCost : Z).

Abbreviation loop := (batches_loop transactionMaxGas transferGasCost).
Abbreviation gas_step := (add_to_batches transactionMaxGas).

(** Every query the batching makes about [prop] succeeds. *)
Definition ready (prop : Proposal) : Prop :=
  exists tp b, to_transfer_proposal prop = Ok tp /\ IsProposalExecuted tp = Ok b /\
               is_ok (propGasLimit transferGasCost tp) = true.

(** The transfer proposals the bridge has not executed, in order. *)
Definition unexecuted (proposals : list Proposal) : list TransferProposal :=
  omap (fun prop =>
          match to_transfer_proposal prop with
          | Ok tp => if decide (IsProposalExecuted tp = Ok false) then Some tp else None
          | _ => None
          end) proposals.

Definition gas_of (p : TransferProposal) : Z :=
  match propGasLimit transferGasCost p with Ok z => z | _ => 0 end.

Definition carried (bs : list Batch) : list TransferProposal := concat (b_proposals <$> bs).

Lemma carried_app bs cs : carried (bs ++ cs) = carried bs ++ carried cs.
Proof. unfold carried. by rewrite fmap_app, concat_app. Qed.

Lemma gas_step_carried closed cur p gas closed' cur' :
  gas_step closed cur p gas = (closed', cur') ->
  carried (closed' ++ [cur']) = carried (closed ++ [cur]) ++ [p].
Proof.
  unfold add_to_batches. case_match; intros E; simplify_eq;
    rewrite !carried_app; unfold carried; simpl; by rewrite ?app_nil_r, <- ?app_assoc.
Qed.

Lemma loop_carried proposals closed cur :
  Forall ready proposals ->
  exists bs, loop proposals closed cur = Ok bs /\
             carried bs = carried (closed ++ [cur]) ++ unexecuted proposals.
Proof.
  intros Hr. revert closed cur.
  induction Hr as [|prop rest (tp & b & Ht & Hq & Hg) _ IH]; intros closed cur.
  { exists (closed ++ [cur]). simpl. by rewrite app_nil_r. }
  simpl. rewrite Ht. simpl. rewrite Hq. simpl. destruct b.
  - rewrite decide_False by done. apply IH.
  - rewrite decide_True by done.
    destruct (propGasLimit transferGasCost tp) as [gas| |]; [simpl|done..].
    destruct (gas_step closed cur tp gas) as [closed' cur'] eqn:Es.
    destruct (IH closed' cur') as (bs & E & Hc). exists bs. split; [done|].
    rewrite Hc, (gas_step_carried _ _ _ _ _ _ Es), <- app_assoc. done.
Qed.

(** ** Gas accounting

    What the gas limit of each batch counts: the gas of the proposals it carries,
    except that a batch opened by a split does not count its first proposal,
    which the batch before it counted. *)
Definition own_gas (opened : bool) (b : Batch) : Z :=
  sumZ gas_of (if opened then tail (b_proposals b) else b_proposals b).

Fixpoint accounted (opened : bool) (bs : list Batch) : Prop :=
  match bs with
  | [] => False
  | b :: rest =>
      (opened = true -> b_proposals b <> []) /\
      (u64_wrap (own_gas opened b) < transactionMaxGas \/ own_gas opened b = 0) /\
      match rest with
      | [] => b_gasLimit b = u64_wrap (own_gas opened b)
      | b' :: _ =>
          b_gasLimit b
          = u64_wrap (own_gas opened b + default 0 (gas_of <$> head (b_proposals b'))) /\
          transactionMaxGas <= b_gasLimit b /\ accounted true rest
      end
  end.

Lemma own_gas_snoc opened b p g :
  (opened = true -> b_proposals b <> []) ->
  own_gas opened {| b_proposals := b_proposals b ++ [p]; b_gasLimit := g |}
  = own_gas opened b + gas_of p.
Proof.
  intros Hne. unfold own_gas. simpl. destruct opened.
  - destruct (b_proposals b) as [|q l]; [by destruct Hne|]. simpl.
    rewrite sumZ_app, sumZ_cons, sumZ_nil. lia.
  - rewrite sumZ_app, sumZ_cons, sumZ_nil. lia.
Qed.

(** Only the head of the following batch matters to a batch before it. *)
Lemma accounted_extend closed cur p opened :
  accounted opened (closed ++ [cur]) ->
  u64_wrap (b_gasLimit cur + gas_of p) < transactionMaxGas ->
  accounted opened (closed ++
    [{| b_proposals := b_proposals cur ++ [p];
        b_gasLimit := u64_wrap (b_gasLimit cur + gas_of p) |}]).
Proof.
  revert opened. induction closed as [|b closed IH]; intros opened; simpl.
  - intros (Hne & Hb & Hg) Hlt. rewrite own_gas_snoc by done.
    rewrite Hg, u64_wrap_add_l in *. split_and!; [|by left|done].
    intros _. by destruct (b_proposals cur).
  - intros (Hne & Hb & Hrest) Hlt. split; [done|]. split; [done|].
    destruct closed as [|b' closed']; simpl in *.
    + destruct Hrest as (Hg & Hmax & Hc). specialize (IH true Hc Hlt).
      destruct Hc as (Hnec & _). specialize (Hnec eq_refl).
      replace (head (b_proposals cur ++ [p])) with (head (b_proposals cur))
        by (by destruct (b_proposals cur)).
      split; [done|]. split; [done|]. exact IH.
    + destruct Hrest as (Hg & Hmax & Hc). split; [done|]. split; [done|]. by apply (IH true).
Qed.

Lemma accounted_split closed cur p opened :
  accounted opened (closed ++ [cur]) ->
  transactionMaxGas <= u64_wrap (b_gasLimit cur + gas_of p) ->
  accounted opened
    ((closed ++ [{| b_proposals := b_proposals cur;
                    b_gasLimit := u64_wrap (b_gasLimit cur + gas_of p) |}])
       ++ [{| b_proposals := [p]; b_gasLimit := 0 |}]).
Proof.
  revert opened. induction closed as [|b closed IH]; intros opened; simpl.
  - intros (Hne & Hb & Hg) Hge. unfold own_gas in *. simpl.
    rewrite Hg, u64_wrap_add_l in *. split_and!; try done. by right.
  - intros (Hne & Hb & Hrest) Hge. split; [done|]. split; [done|].
    destruct closed as [|b' closed']; simpl in *; destruct Hrest as (Hg & Hmax & Hc);
      (split; [done|]; split; [done|]; by apply (IH true)).
Qed.

Lemma loop_accounted proposals closed cur bs :
  accounted false (closed ++ [cur]) -> loop proposals closed cur = Ok bs -> accounted false bs.
Proof.
  revert closed cur. induction proposals as [|prop rest IH]; intros closed cur Ha E; simpl in E.
  { by injection E as <-. }
  invert_ok. destruct x0; [by eapply IH|]. invert_ok.
  assert (gas_of x = x0) as Hgas 
    by (unfold gas_of; match goal with G : propGasLimit _ _ = _ |- _ => by rewrite G end).
  unfold add_to_batches in E. rewrite <- Hgas in *.
  destruct (Z.leb_spec transactionMaxGas (u64_wrap (b_gasLimit cur + gas_of x))) as [Hge|Hlt];
    (eapply IH; [|exact E]).
  - by apply accounted_split.
  - by apply (accounted_extend closed cur x).
Qed.

(** ** Sessions of a list of batches *)

Lemma session_id_index m m' i j : session_id m i = session_id m' j -> i = j.
Proof.
  unfold session_id. rewrite !(str_app_String _ "" (fmt_u _)), !str_app_nil_l. intros E.
  apply str_cut_last_inj in E as [_ E]; [|by apply fmt_u_lacks..].
  apply fmt_u_inj in E; lia.
Qed.

(** Only the first batch can be empty. *)
Definition opened (bs : list Batch) : Prop :=
  forall k b, bs !! k = Some b -> (0 < k)%nat -> b_proposals b <> [].

Lemma loop_opened proposals closed cur bs :
  opened (closed ++ [cur]) -> loop proposals closed cur = Ok bs -> opened bs.
Proof.
  revert closed cur. induction proposals as [|prop rest IH]; intros closed cur Ho E; simpl in E.
  { by injection E as <-. }
  invert_ok. destruct x0; [by eapply IH|]. invert_ok. unfold add_to_batches in E.
  destruct (transactionMaxGas <=? _); (eapply IH; [|exact E]); intros k b Hk Hpos.
  - rewrite <- app_assoc in Hk. apply lookup_app_Some in Hk as [Hk|[Hl Hk]].
    + by apply (Ho k b); [apply lookup_app_l_Some|].
    + destruct (k - length closed)%nat as [|[|n]] eqn:En; simplify_eq/=; [|done].
      apply (Ho k cur); [|done]. rewrite lookup_app_r by done. by rewrite En.
  - apply lookup_app_Some in Hk as [Hk|[Hl Hk]]; [by apply (Ho k b); [apply lookup_app_l_Some|]|].
    destruct (k - length closed)%nat as [|n]; simplify_eq/=. by destruct (b_proposals cur).
Qed.

(** The positions of the batches that are not empty, from [k] on. *)
Fixpoint started_from (k : nat) (bs : list Batch) : list nat :=
  match bs with
  | [] => []
  | b :: rest => (match b_proposals b with [] => [] | _ => [k] end) ++ started_from (S k) rest
  end.

Lemma started_from_ge k bs j : j ∈ started_from k bs -> (k <= j)%nat.
Proof.
  revert k. induction bs as [|b bs IH]; intros k; cbn; [by intros ?%not_elem_of_nil|].
  intros [Hj|Hj%IH]%elem_of_app; [|lia]. destruct (b_proposals b); set_solver by lia.
Qed.

Lemma started_from_NoDup k bs : NoDup (started_from k bs).
Proof.
  revert k. induction bs as [|b bs IH]; intros k; cbn; [constructor|].
  destruct (b_proposals b); [apply IH|]. apply list.NoDup_cons. split; [|apply IH].
  intros Hk%started_from_ge. lia.
Qed.

(** The session of the goroutine of batch [k]. *)
Definition session_of (bs : list Batch) (sc : schedule) (k : nat) (s : Session) : Prop :=
  bs !! k = Some (s_batch s) /\ (s_messageID s = default "" (tp_MessageID <$> head (b_proposals (s_batch s)))) /\
  s_sessionID s = session_id (s_messageID s) (sc_i sc k) /\
  exists h, ProposalsHash (b_proposals (s_batch s)) = Ok h /\ s_msg s = be_val h.

(** The queries and the key share are answered in every goroutine. *)
Definition answered (sc : schedule) : Prop :=
  (forall ps, is_ok (ProposalsHash ps) = true) /\ (forall k, is_ok (sc_NewSigning sc k) = true).

Lemma start_session_Ok batches sc k b first rest :
  opened batches -> in_loop (length batches) sc -> answered sc ->
  batches !! k = Some b -> b_proposals b = first :: rest ->
  exists s, start_session batches sc k b first = Ok s /\ s_batch s = b /\ session_of batches sc k s.
Proof.
  intros Ho Hsc [Hh Hn] Hb Ep. unfold start_session.
  specialize (Hh (b_proposals b)). destruct (ProposalsHash (b_proposals b)) as [h| |] eqn:Eh; [|done..].
  cbn [mbind outcome_bind].
  pose proof (lookup_lt_Some _ _ _ Hb) as Hlt. destruct (Hsc k Hlt) as [_ [Hge Hle]].
  destruct (lookup_lt_is_Some_2 _ _ Hle) as [b' Hb']. rewrite Hb'. cbn.
  assert (b_proposals b' <> []) as Hne.
  { destruct (decide (sc_batch sc k = 0%nat)) as [E0|]; [|by eapply Ho; [exact Hb'|lia]].
    assert (k = 0%nat) as -> by lia. rewrite E0 in Hb'. assert (b' = b) as -> by congruence. by rewrite Ep. }
  destruct (b_proposals b') as [|p' l']; [done|]. cbn.
  specialize (Hn k). destruct (sc_NewSigning sc k); [|done..]. cbn.
  eexists. split; [reflexivity|]. split; [done|]. split_and!; [done|by cbn; rewrite Ep|done|]. by exists h.
Qed.

Lemma sessions_from_Ok batches sc bs k :
  opened batches -> in_loop (length batches) sc -> answered sc -> drop k batches = bs ->
  exists ss, sessions_from batches sc k bs = Ok <$> ss /\
    concat ((fun s => b_proposals (s_batch s)) <$> ss) = carried bs /\
    Forall2 (session_of batches sc) (started_from k bs) ss.
Proof.
  intros Ho Hsc Ha. revert k. induction bs as [|b bs IH]; intros k Hd.
  { exists []. repeat split; constructor. }
  assert (batches !! k = Some b) as Hb by (by rewrite <- (Nat.add_0_r k), <- lookup_drop, Hd).
  destruct (IH (S k)) as (ss & E & Hc & Hf); [by rewrite <- Nat.add_1_r, <- drop_drop, Hd|]. cbn.
  destruct (b_proposals b) as [|p l] eqn:Ep.
  { exists ss. split_and!; [done|exact Hc|done]. }
  destruct (start_session_Ok batches sc k b p l Ho Hsc Ha Hb Ep) as (s & Es & Hs & Hok). rewrite Es, E.
  exists (s :: ss). split_and!; [done| |by constructor].
  cbn. rewrite Hc, Hs, Ep. done.
Qed.

(** Goroutines that read different values of [i] run sessions of different names. *)
Lemma sessions_distinct batches sc ks ss :
  Forall2 (session_of batches sc) ks ss -> NoDup (sc_i sc <$> ks) -> NoDup (s_sessionID <$> ss).
Proof.
  induction 1 as [|k s ks ss (_ & _ & Hid & _) Hf IH]; [constructor|]. rewrite !fmap_cons.
  intros [Hk Hnd]%list.NoDup_cons. apply list.NoDup_cons. split; [|by apply IH].
  intros (t & Et & Ht)%list_elem_of_fmap. apply Hk.
  apply list_elem_of_lookup in Ht as [i Hi]. destruct (Forall2_lookup_r _ _ _ _ _ Hf Hi) as (j & Hj & (_ & _ & Hjd & _)).
  rewrite Hid, Hjd in Et. apply session_id_index in Et. rewrite Et.
  apply list_elem_of_fmap_2. by eapply list_elem_of_lookup_2.
Qed.

(** A schedule of the goroutines of an execution. *)
Definition scheduled (sc : schedule) (proposals : list Proposal) : Prop :=
  forall bs, proposalBatches transactionMaxGas transferGasCost proposals = Ok bs -> in_loop (length bs) sc.

(** When all queries succeed: the sessions of an execution. *)
Lemma Execute_sessions sc proposals :
  Forall ready proposals -> answered sc -> scheduled sc proposals ->
  exists bs ss, proposalBatches transactionMaxGas transferGasCost proposals = Ok bs /\
    Execute transactionMaxGas transferGasCost sc proposals = Ok (Ok <$> ss) /\
    concat ((fun s => b_proposals (s_batch s)) <$> ss) = unexecuted proposals /\
    Forall2 (session_of bs sc) (started_from 0 bs) ss.
Proof.
  intros Hr Ha Hsc. destruct (loop_carried proposals [] empty_batch Hr) as (bs & E & Hc).
  assert (opened bs) as Ho.
  { eapply loop_opened; [|exact E]. intros [|k] b Hk Hpos; [lia|done]. }
  destruct (sessions_from_Ok bs sc bs 0 Ho (Hsc bs E) Ha eq_refl) as (ss & Es & Hcs & Hf).
  exists bs, ss. unfold Execute, proposalBatches. rewrite E. cbn. rewrite Es. split_and!; [done..| |done].
  rewrite Hcs, Hc. done.
Qed.

(** C4. What [Execute] starts.  When the queries and the key share are answered and
    whatever the loop variables are when the goroutines read them: the batches of the
    sessions, one after the other, are the unexecuted proposals in their order; the
    session of a batch signs the hash of this batch, and its identifier is the message of
    its first proposal with the index that its goroutine read, which may be that of a
    later batch.  The identifiers are pairwise different when the goroutines read
    different indices; goroutines of one message that read the same index start two
    sessions with one identifier. *)
Theorem Execute_covers_unexecuted sc proposals :
  Forall ready proposals -> answered sc -> scheduled sc proposals ->
  exists bs ss,
    proposalBatches transactionMaxGas transferGasCost proposals = Ok bs /\
    Execute transactionMaxGas transferGasCost sc proposals = Ok (Ok <$> ss) /\
    concat ((fun s => b_proposals (s_batch s)) <$> ss) = unexecuted proposals /\
    Forall2 (session_of bs sc) (started_from 0 bs) ss /\
    (NoDup (sc_i sc <$> started_from 0 bs) -> NoDup (s_sessionID <$> ss)) /\
    (forall n m s t, ss !! n = Some s -> ss !! m = Some t -> s_messageID s = s_messageID t ->
       (sc_i sc <$> started_from 0 bs !! n) = (sc_i sc <$> started_from 0 bs !! m) -> s_sessionID s = s_sessionID t).
Proof.
  intros Hr Ha Hsc. destruct (Execute_sessions sc proposals Hr Ha Hsc) as (bs & ss & E & Ex & Hc & Hf).
  exists bs, ss. split_and!; [done..|by eapply sessions_distinct|].
  intros n m s t Hs Ht Hm. destruct (Forall2_lookup_r _ _ _ _ _ Hf Hs) as (k & -> & (_ & _ & -> & _)).
  destruct (Forall2_lookup_r _ _ _ _ _ Hf Ht) as (l & -> & (_ & _ & -> & _)). rewrite Hm. by intros [= ->].
Qed.

(** C35. Gas limits of the batches, on 64 bits: the gas counted before a batch is
    split is below the maximum of a transaction; a batch that was split has the
    gas of the proposal that opened the next batch in its limit, and the next
    batch does not count it. *)
Theorem proposalBatches_gas proposals bs :
  proposalBatches transactionMaxGas transferGasCost proposals = Ok bs -> accounted false bs.
Proof.
  apply loop_accounted. simpl. unfold own_gas. simpl. split_and!; [done|by right|done].
Qed.
End batching.

(** ** The signature and the watcher *)

Section watching.
Context `{LP : LeftPad, LPS : !LeftPadSpec}.
Context (batch : Batch) (sessionID : string).

Lemma add_to_last_snoc l v k : add_to_last (l ++ [v]) k = l ++ [byte_of (bval v + k)].
Proof. unfold add_to_last. rewrite rev_app_distr. simpl. by rewrite rev_involutive. Qed.

(** The signature sent on chain is [R || S || V] with [V] moved from 0/1 to 27/28. *)
Lemma batch_signature_shape r s v :
  (length r <= 32)%nat -> (length s <= 32)%nat -> 0 <= v <= 1 ->
  batch_signature {| sd_R := r; sd_S := s; sd_SignatureRecovery := [byte_of v] |}
  = LeftPadBytes r 32 ++ LeftPadBytes s 32 ++ [byte_of (27 + v)] /\
  length (batch_signature {| sd_R := r; sd_S := s; sd_SignatureRecovery := [byte_of v] |}) = 65%nat.
Proof.
  intros Hr Hs Hv. unfold batch_signature. simpl.
  rewrite (app_assoc (LeftPadBytes r 32)), add_to_last_snoc, bval_byte_of, Z.mod_small by lia.
  rewrite <- app_assoc, (Z.add_comm v). split; [done|].
  rewrite !length_app, !length_LeftPadBytes. simpl. lia.
Qed.

Abbreviation run := (run_events (watchExecution batch sessionID) watch_start).

Definition all_executed (query : TransferProposal -> res bool) : Prop :=
  Forall (fun p => query p = Ok true) (b_proposals batch).

Lemma areProposalsExecuted_spec query :
  areProposalsExecuted query (b_proposals batch) = true <-> all_executed query.
Proof.
  unfold areProposalsExecuted, all_executed. rewrite forallb_forall, Forall_forall.
  split; intros Ha p Hp; specialize (Ha p Hp); by destruct (query p) as [[]| |].
Qed.

(** Why a watcher that stopped on [r] did so. *)
Definition stop_reason (evs : list watch_event) (acts : list watch_action) (r : res unit) : Prop :=
  match r with
  | Ok _ => EvCtxDone ∈ evs \/ exists query, EvTick query ∈ evs /\ all_executed query
  | Err e =>
      (EvTimeout ∈ evs /\ e = signingTimeout_error) \/
      (exists sd send, EvSigResult (Some sd) send ∈ evs /\ executeBatch send batch sd = Err e /\
                       ActBroadcastTssFail sessionID ∈ acts)
  | Panic => exists sd send, EvSigResult (Some sd) send ∈ evs /\ executeBatch send batch sd = Panic
  end.

Definition explained (evs : list watch_event) (w : watcher) : Prop :=
  match w_result w with
  | Some r => stop_reason evs (w_actions w) r /\ exists pre, w_actions w = pre ++ [ActCancelExecution]
  | None => (EvTimeout ∉ evs) /\ (EvCtxDone ∉ evs) /\
            (forall query, EvTick query ∈ evs -> ~ all_executed query)
  end.

Lemma stop_reason_snoc evs ev acts r :
  stop_reason evs acts r -> stop_reason (evs ++ [ev]) acts r.
Proof. destruct r; simpl; setoid_rewrite elem_of_app; naive_solver. Qed.

Lemma explained_running_snoc evs ev w w' :
  w_result w = None -> w_result w' = None -> explained evs w ->
  ev <> EvTimeout -> ev <> EvCtxDone -> (forall q, ev = EvTick q -> ~ all_executed q) ->
  explained (evs ++ [ev]) w'.
Proof.
  unfold explained. intros -> ->. setoid_rewrite elem_of_app. setoid_rewrite list_elem_of_singleton.
  intros (H1 & H2 & H3) ???. split_and!; naive_solver.
Qed.

Lemma explained_stopped evs w r :
  stop_reason evs (w_actions w ++ [ActCancelExecution]) r ->
  explained evs (return_with w r).
Proof. unfold explained. simpl. intros Hs. split; [done|]. by eexists. Qed.

Lemma explained_run evs : explained evs (run evs).
Proof.
  induction evs as [|ev evs IH] using rev_ind; [split_and!; simpl; set_solver|].
  rewrite run_events_app. simpl. generalize dependent (run evs). intros w IH.
  unfold watchExecution. destruct (w_result w) as [r|] eqn:Er.
  { unfold explained in *. rewrite Er in *. destruct IH. split; [by apply stop_reason_snoc|done]. }
  assert (ev ∈ evs ++ [ev]) as Hev by set_solver.
  destruct ev as [[sd|] send|query| |].
  - destruct (executeBatch send batch sd) as [h|e|] eqn:Ee.
    + by eapply explained_running_snoc.
    + apply explained_stopped. right. exists sd, send. split_and!; [done..|]. simpl. set_solver.
    + apply explained_stopped. by exists sd, send.
  - by eapply explained_running_snoc.
  - destruct (areProposalsExecuted query (b_proposals batch)) eqn:Ea.
    + apply areProposalsExecuted_spec in Ea. apply explained_stopped. right. eauto.
    + eapply explained_running_snoc; try done. intros q [= <-] Hq%areProposalsExecuted_spec.
      by rewrite Hq in Ea.
  - apply explained_stopped. by left.
  - apply explained_stopped. by left.
Qed.

(** C10. Whatever the watcher of a batch receives and in whatever order: it
    reports success only after a check that found every proposal of the batch
    executed, or because its context ended; it fails only on the timeout, or when
    the execution transaction failed, and then it has told the other relayers
    that the session failed; whenever it stops its last action cancels the
    signing; and it does not go on after a timeout, the end of its context or a
    successful check. *)
Theorem watchExecution_sound evs :
  (forall r, w_result (run evs) = Some r ->
     stop_reason evs (w_actions (run evs)) r /\
     exists pre, w_actions (run evs) = pre ++ [ActCancelExecution]) /\
  (w_result (run evs) = None ->
     (EvTimeout ∉ evs) /\ (EvCtxDone ∉ evs) /\
     (forall query, EvTick query ∈ evs -> ~ all_executed query)).
Proof.
  pose proof (explained_run evs) as He. unfold explained in He.
  split; [intros r Er|intros Er]; by rewrite Er in He.
Qed.
End watching.

(** ** A concrete batch split *)

Module EvmExecutorExample.

Definition prop (nonce : Z) : Proposal :=
  NewProposal 1 2
    (TransferPropData {| tpd_DepositNonce := nonce; tpd_ResourceId := []; tpd_Metadata := ∅;
                         tpd_Data := [] |}) "1-2-5-9" TransferProposalType.

(** Deposit 2 is executed, every batch hashes to its first nonce. *)
Definition bridge : BridgeContract :=
  {| IsProposalExecuted tp := Ok (bool_decide (tpd_DepositNonce (tp_Data tp) = 2));
     ExecuteProposals _ _ _ := Err "not sent";
     ProposalsHash ps := Ok (be_fixed 32 (default 0 (tpd_DepositNonce ∘ tp_Data <$> head ps))) |}.

Definition props : list Proposal := [prop 1; prop 2; prop 3; prop 4].

Definition batches : list Batch :=
  match proposalBatches (H := bridge) 100 60 props with Ok bs => bs | _ => [] end.

Lemma all_ready : Forall (ready (BC := bridge) 60) props.
Proof. repeat constructor; (eexists _, _; split_and!; reflexivity). Qed.
End EvmExecutorExample.

Import EvmExecutorExample.

(** The loop ends before a goroutine reads [i]. *)
Definition late : schedule :=
  {| sc_i _ := 3%nat; sc_batch _ := 3%nat; sc_NewSigning _ := Ok tt |}.

(** Three batches of one message, and every goroutine reads the last index: the three
    sessions have one identifier. *)
Lemma Execute_covers_unexecuted_witness :
  exists bs ss,
    proposalBatches (H := bridge) 50 60 props = Ok bs /\
    Execute (H := bridge) 50 60 late props = Ok (Ok <$> ss) /\
    concat ((fun s => b_proposals (s_batch s)) <$> ss) = unexecuted (BC := bridge) props /\
    (fun s => (s_sessionID s, s_msg s)) <$> ss = [("1-2-5-9-3", 1); ("1-2-5-9-3", 3); ("1-2-5-9-3", 4)].
Proof.
  destruct (Execute_covers_unexecuted (BC := bridge) 50 60 late props all_ready)
    as (bs & ss & E & Ex & Hc & _).
  - split; reflexivity.
  - intros bs E. vm_compute in E. injection E as <-. intros k Hk. cbn in *. lia.
  - exists bs, ss. split; [exact E|]. split; [exact Ex|]. split; [exact Hc|].
    vm_compute in Ex. destruct ss as [|s1 [|s2 [|s3 [|? ?]]]]; try discriminate Ex.
    injection Ex as <- <- <-. vm_compute. reflexivity.
Defined.

(** The first batch has room for two proposals and carries one; the second has
    the gas of one and carries two. *)
Lemma proposalBatches_gas_witness :
  ((fun b => (length (b_proposals b), b_gasLimit b)) <$> batches
   = [(1%nat, 120); (2%nat, 60)]) /\
  accounted 100 60 false batches.
Proof.
  split; [vm_compute; reflexivity|].
  apply (proposalBatches_gas (BC := bridge) 100 60 props). vm_compute. reflexivity.
Defined.

Import LeftPadRef.

Definition example_sig : SignatureData :=
  {| sd_R := be_fixed 31 9; sd_S := be_fixed 32 8; sd_SignatureRecovery := [byte_of 1] |}.
Definition refused : list watch_event :=
  [EvTick (fun _ => Ok false); EvSigResult (Some example_sig) (fun _ _ _ => Err "reverted")].

Lemma watchExecution_sound_witness :
  let w := run_events (watchExecution {| b_proposals := [{| tp_Source := 1; tp_Destination := 2;
             tp_Data := {| tpd_DepositNonce := 1; tpd_ResourceId := []; tpd_Metadata := ∅;
                           tpd_Data := [] |};
             tp_Type := TransferProposalType; tp_MessageID := "1-2-5-9" |}];
             b_gasLimit := 21000 |} "1-2-5-9-0") watch_start refused in
  w_result w = Some (Err "reverted") /\
  exists pre, w_actions w = pre ++ [ActCancelExecution].
Proof.
  intros w. split; [vm_compute; reflexivity|].
  apply (proj1 (watchExecution_sound _ "1-2-5-9-0" refused) (Err "reverted")).
  vm_compute. reflexivity.
Defined.
