(* ===== verification/EvmBridge.v ===== *)
(** * Bridge contract

    [chains/proposal.go] (the EIP-712 hash that is signed) and
    [chains/evm/calls/contracts/bridge/bridge.go] (the calls on the contract).
    The contract binding implements the [BridgeContract] interface the executor
    uses, and the hash it has signed commits to exactly what it submits. *)

From S2P Require Import Prelude GoBytes GoStrings Transfer EvmExecutor.

#[local] Open Scope string_scope.
#[local] Open Scope list_scope.
#[local] Open Scope Z_scope.

Definition bridgeVersion : string := "3.1.0".

(** [BridgeProposal], the tuple of the contract's ABI. *)
Record BridgeProposal := {
  bp_OriginDomainID : Z;
  bp_ResourceID : bytes;
  bp_DepositNonce : Z;
  bp_Data : bytes;
}.

Definition bridge_proposal (prop : TransferProposal) : BridgeProposal :=
  {| bp_OriginDomainID := tp_Source prop; bp_ResourceID := tpd_ResourceId (tp_Data prop);
     bp_DepositNonce := tpd_DepositNonce (tp_Data prop); bp_Data := tpd_Data (tp_Data prop) |}.

(** ** The signed hash *)

(** One entry of the typed data message; [hexutil.Encode] of the resource id. *)
Record typed_proposal := {
  ty_originDomainID : Z;
  ty_depositNonce : Z;
  ty_resourceID : string;
  ty_data : bytes;
}.

Record typed_domain := {
  td_name : string;
  td_chainId : Z;
  td_version : string;
  td_verifyingContract : string;
}.

#[export] Instance typed_proposal_eq_dec : EqDecision typed_proposal.
Proof. solve_decision. Defined.
#[export] Instance typed_domain_eq_dec : EqDecision typed_domain.
Proof. solve_decision. Defined.

(** The types of the message, as they are in the code: names and types of the fields. *)
Definition domain_types : list (string * string) :=
  [("name", "string"); ("version", "string"); ("chainId", "uint256"); ("verifyingContract", "address")].
Definition proposal_types : list (string * string) :=
  [("originDomainID", "uint8"); ("depositNonce", "uint64"); ("resourceID", "bytes32"); ("data", "bytes")].
Definition proposals_types : list (string * string) := [("proposals", "Proposal[]")].

(** EIP-712's [encodeType] of one type. *)
Definition encode_type (name : string) (fields : list (string * string)) : bytes :=
  bytes_of_string (name +:+ "(" +:+ String.concat "," ((fun f => f.2 +:+ " " +:+ f.1) <$> fields) +:+ ")").

(** go-ethereum's typed data encoder at these types, its hexadecimal encoding, its
    reading of an address and Keccak-256. *)
Class Eip712 := {
  hexutil_Encode : bytes -> string;
  HexToAddress : string -> bytes;
  HashStruct_EIP712Domain : typed_domain -> res bytes;
  HashStruct_Proposals : list typed_proposal -> res bytes;
  Keccak256 : bytes -> bytes;
}.

(** ** The encoding that EIP-712 prescribes

    [hashStruct] is the hash of the type and of a word for each field, in which strings,
    bytes and arrays are words by their own hash. *)
Section reference.
Context `{Eip712}.

Definition proposal_preimage (p : BridgeProposal) : bytes :=
  Keccak256 (encode_type "Proposal" proposal_types) ++ be_fixed 32 (bp_OriginDomainID p)
    ++ be_fixed 32 (bp_DepositNonce p) ++ bp_ResourceID p ++ Keccak256 (bp_Data p).
Definition array_preimage (ps : list BridgeProposal) : bytes := concat ((Keccak256 ∘ proposal_preimage) <$> ps).
Definition proposals_preimage (ps : list BridgeProposal) : bytes :=
  Keccak256 (encode_type "Proposals" proposals_types ++ encode_type "Proposal" proposal_types)
    ++ Keccak256 (array_preimage ps).
Definition domain_preimage (d : typed_domain) : bytes :=
  Keccak256 (encode_type "EIP712Domain" domain_types) ++ Keccak256 (bytes_of_string (td_name d))
    ++ Keccak256 (bytes_of_string (td_version d)) ++ be_fixed 32 (td_chainId d)
    ++ be_fixed 32 (be_val (HexToAddress (td_verifyingContract d))).

(** A proposal whose fields have the widths of their types. *)
Definition wide (p : BridgeProposal) : Prop :=
  0 <= bp_OriginDomainID p < 2 ^ 8 /\ 0 <= bp_DepositNonce p < 2 ^ 64 /\ length (bp_ResourceID p) = 32%nat.

Definition typed (p : BridgeProposal) : typed_proposal :=
  {| ty_originDomainID := bp_OriginDomainID p; ty_depositNonce := bp_DepositNonce p;
     ty_resourceID := hexutil_Encode (bp_ResourceID p); ty_data := bp_Data p |}.
End reference.

(** Documented behaviour: the encoder follows EIP-712 on values of the types, and refuses
    a chain identifier that is negative; addresses have 20 bytes and hashes 32. *)
Class Eip712Spec `{Eip712} : Prop := {
  HashStruct_Proposals_eq : forall ps, Forall wide ps ->
    HashStruct_Proposals (typed <$> ps) = Ok (Keccak256 (proposals_preimage ps));
  HashStruct_EIP712Domain_eq : forall d h, HashStruct_EIP712Domain d = Ok h ->
    h = Keccak256 (domain_preimage d) /\ 0 <= td_chainId d < 2 ^ 256;
  HexToAddress_length : forall s, length (HexToAddress s) = 20%nat;
  Keccak256_length : forall l, length (Keccak256 l) = 32%nat;
}.

Section hash.
Context `{Eip712}.

Definition format_proposal (prop : TransferProposal) : typed_proposal :=
  {| ty_originDomainID := tp_Source prop;
     ty_depositNonce := tpd_DepositNonce (tp_Data prop);
     ty_resourceID := hexutil_Encode (tpd_ResourceId (tp_Data prop));
     ty_data := tpd_Data (tp_Data prop) |}.

Definition eip191_prefix : bytes := [byte_of 25; byte_of 1].

Definition chains_ProposalsHash (proposals : list TransferProposal) (chainID : Z)
    (verifContract version : string) : res bytes :=
  let formattedProps := format_proposal <$> proposals in
  domainSeparator ← HashStruct_EIP712Domain
    {| td_name := "Bridge"; td_chainId := chainID; td_version := version;
       td_verifyingContract := verifContract |};
  typedDataHash ← HashStruct_Proposals formattedProps;
  let rawData := eip191_prefix ++ domainSeparator ++ typedDataHash in
  Ok (Keccak256 rawData).
End hash.

(** ** The contract binding *)

(** Arguments of contract calls and the values they return. *)
Inductive abi_value :=
| AUint8 (z : Z)
| ABigInt (z : Z)
| ABytes32 (l : bytes)
| ABytes (l : bytes)
| AString (s : string)
| AUint64 (z : Z)
| AProposalData (d : TransferProposalData)
| ABridgeProposals (l : list BridgeProposal)
| ABool (b : bool)
| AAddress (l : bytes).

(** sygma-core's contract: a read-only call, and a transaction with a gas limit. *)
Class Contract := {
  CallContract : string -> list abi_value -> res (list abi_value);
  ExecuteTransaction : string -> Z -> list abi_value -> res bytes;
  ContractAddressHex : string;
  ChainID : res Z;
}.

Section bridge.
Context `{Contract} `{Eip712}.

Definition bridge_ExecuteProposal (proposal : TransferProposal) (signature : bytes) (gasLimit : Z)
    : res bytes :=
  ExecuteTransaction "executeProposal" gasLimit
    [AUint8 (tp_Source proposal); AUint64 (tpd_DepositNonce (tp_Data proposal));
     AProposalData (tp_Data proposal); ABytes32 (tpd_ResourceId (tp_Data proposal));
     ABytes signature].

Definition bridge_ExecuteProposals (proposals : list TransferProposal) (signature : bytes)
    (gasLimit : Z) : res bytes :=
  ExecuteTransaction "executeProposals" gasLimit
    [ABridgeProposals (bridge_proposal <$> proposals); ABytes signature].

(** [chainID.Int64()] cuts the identifier to 64 bits. *)
Definition bridge_ProposalsHash (proposals : list TransferProposal) : res bytes :=
  chainID ← ChainID;
  chains_ProposalsHash proposals (i64_wrap chainID) ContractAddressHex bridgeVersion.

(** The result is converted to the Go type; another shape panics. *)
Definition bridge_IsProposalExecuted (p : TransferProposal) : res bool :=
  r ← CallContract "isProposalExecuted"
        [AUint8 (tp_Source p); ABigInt (tpd_DepositNonce (tp_Data p))];
  match r with
  | ABool b :: _ => Ok b
  | _ => Panic
  end.

Definition bridge_GetHandlerAddressForResourceID (resourceID : bytes) : res bytes :=
  r ← CallContract "_resourceIDToHandlerAddress" [ABytes32 resourceID];
  match r with
  | AAddress a :: _ => Ok a
  | _ => Panic
  end.

Definition bridge_Retry (hashHex : string) (gasLimit : Z) : res bytes :=
  ExecuteTransaction "retry" gasLimit [AString hashHex].

#[export] Instance Bridge_BridgeContract : BridgeContract := {
  IsProposalExecuted := bridge_IsProposalExecuted;
  ExecuteProposals := bridge_ExecuteProposals;
  ProposalsHash := bridge_ProposalsHash;
}.
End bridge.

(** ** What a signature authorises *)

Lemma be_fixed_inj n a b :
  0 <= a < 256 ^ Z.of_nat n -> 0 <= b < 256 ^ Z.of_nat n -> be_fixed n a = be_fixed n b -> a = b.
Proof. intros Ha Hb E%(f_equal be_val). by rewrite !be_val_fixed, !Z.mod_small in E. Qed.

Lemma be_fixed_val_inj n (l k : bytes) :
  length l = length k -> (length k <= n)%nat -> be_fixed n (be_val l) = be_fixed n (be_val k) -> l = k.
Proof.
  intros Hl Hn E. apply be_val_inj; [done|].
  pose proof (be_val_range l). pose proof (be_val_range k).
  assert (256 ^ Z.of_nat (length k) <= 256 ^ Z.of_nat n) by (apply Z.pow_le_mono_r; lia).
  apply (be_fixed_inj n); [rewrite Hl in *; lia|lia|done].
Qed.

Section commitment.
Context `{EI : Eip712, ES : !Eip712Spec}.

(** The strings that are hashed for the signature over proposals: for each proposal its
    data and its words, the array of the proposals, the message, the domain with its
    strings, and the whole. *)
Definition domain_of (chain : Z) (contract version : string) : typed_domain :=
  {| td_name := "Bridge"; td_chainId := chain; td_version := version; td_verifyingContract := contract |}.
Definition signed_preimage (ps : list BridgeProposal) (d : typed_domain) : bytes :=
  eip191_prefix ++ Keccak256 (domain_preimage d) ++ Keccak256 (proposals_preimage ps).
Definition hashed (ps : list BridgeProposal) (d : typed_domain) : list bytes :=
  [signed_preimage ps d; domain_preimage d; bytes_of_string (td_version d); proposals_preimage ps; array_preimage ps]
    ++ (proposal_preimage <$> ps) ++ (bp_Data <$> ps).

(** Two different ones of these strings with one hash. *)
Definition collide (A B : list bytes) : Prop :=
  exists a b, a ∈ A /\ b ∈ B /\ a <> b /\ Keccak256 a = Keccak256 b.

Lemma same_or_collide A B a b :
  a ∈ A -> b ∈ B -> Keccak256 a = Keccak256 b -> a = b \/ collide A B.
Proof. intros Ha Hb E. destruct (decide (a = b)); [by left|right]. by exists a, b. Qed.

(** Words of one length are read off their concatenation. *)
Lemma concat_words (l k : list bytes) n :
  (0 < n)%nat -> Forall (fun w => length w = n) l -> Forall (fun w => length w = n) k -> concat l = concat k -> l = k.
Proof.
  intros Hn Hl. revert k. induction Hl as [|w l Hw _ IH]; intros k Hk E; destruct Hk as [|v k Hv Hk]; try done.
  - destruct v; cbn in *; [lia|done].
  - destruct w; cbn in *; [lia|done].
  - cbn in E. apply app_inj_1 in E as [-> E]; [|congruence]. by rewrite (IH k).
Qed.

Lemma proposal_same A B p q :
  wide p -> wide q -> proposal_preimage p ∈ A -> proposal_preimage q ∈ B -> bp_Data p ∈ A -> bp_Data q ∈ B ->
  Keccak256 (proposal_preimage p) = Keccak256 (proposal_preimage q) -> p = q \/ collide A B.
Proof.
  intros (Ho & Hn & Hr) (Ho' & Hn' & Hr') Hp Hq Hdp Hdq E.
  destruct (same_or_collide A B _ _ Hp Hq E) as [Ew|]; [|by right]. unfold proposal_preimage in Ew.
  apply app_inv_head in Ew. apply app_inj_1 in Ew as [E1 Ew]; [|by rewrite !length_be_fixed].
  apply app_inj_1 in Ew as [E2 Ew]; [|by rewrite !length_be_fixed]. apply app_inj_1 in Ew as [E3 E4]; [|congruence].
  destruct (same_or_collide A B _ _ Hdp Hdq E4) as [Ed|]; [left|by right].
  apply be_fixed_inj in E1; [|lia..]. apply be_fixed_inj in E2; [|lia..]. destruct p, q; cbn in *. congruence.
Qed.

Lemma array_same A B ps qs :
  Forall wide ps -> Forall wide qs ->
  (forall x, x ∈ (proposal_preimage <$> ps) ++ (bp_Data <$> ps) -> x ∈ A) ->
  (forall x, x ∈ (proposal_preimage <$> qs) ++ (bp_Data <$> qs) -> x ∈ B) ->
  (Keccak256 ∘ proposal_preimage) <$> ps = (Keccak256 ∘ proposal_preimage) <$> qs -> ps = qs \/ collide A B.
Proof.
  intros Hps. revert qs. induction Hps as [|p ps Hp _ IH]; intros qs Hqs HA HB E; destruct Hqs as [|q qs Hq Hqs];
    try done; [by left|].
  rewrite !fmap_cons in *. injection E as E1 E2.
  destruct (proposal_same A B p q Hp Hq) as [->|]; [..|done| |by right].
  1, 3: apply HA; set_solver.
  1, 2: apply HB; set_solver.
  destruct (IH qs Hqs) as [->|]; [set_solver|set_solver|done|by left|by right].
Qed.

Lemma domain_same A B chain contract version chain' contract' version' :
  let d := domain_of chain contract version in let d' := domain_of chain' contract' version' in
  0 <= chain < 2 ^ 256 -> 0 <= chain' < 2 ^ 256 ->
  domain_preimage d ∈ A -> domain_preimage d' ∈ B -> bytes_of_string version ∈ A -> bytes_of_string version' ∈ B ->
  Keccak256 (domain_preimage d) = Keccak256 (domain_preimage d') ->
  (chain = chain' /\ HexToAddress contract = HexToAddress contract' /\ version = version') \/ collide A B.
Proof.
  intros d d' Hc Hc' Hd Hd' Hv Hv' E. destruct (same_or_collide A B _ _ Hd Hd' E) as [Ew|]; [|by right].
  unfold domain_preimage in Ew. apply app_inv_head, app_inv_head in Ew.
  apply app_inj_1 in Ew as [E1 Ew]; [|by rewrite !Keccak256_length].
  apply app_inj_1 in Ew as [E2 E3]; [|by rewrite !length_be_fixed].
  destruct (same_or_collide A B _ _ Hv Hv' E1) as [Ever|]; [left|by right]. apply bytes_of_string_inj in Ever.
  apply be_fixed_inj in E2; [|cbn; lia..].
  apply be_fixed_val_inj in E3; [done|by rewrite !HexToAddress_length|rewrite HexToAddress_length; lia].
Qed.

Lemma chains_ProposalsHash_preimage ps chain contract version h :
  Forall (wide ∘ bridge_proposal) ps -> chains_ProposalsHash ps chain contract version = Ok h ->
  h = Keccak256 (signed_preimage (bridge_proposal <$> ps) (domain_of chain contract version)) /\ 0 <= chain < 2 ^ 256.
Proof.
  intros Hw E. unfold chains_ProposalsHash in E. invert_ok. subst h.
  rename select (HashStruct_EIP712Domain _ = _) into Ed. apply HashStruct_EIP712Domain_eq in Ed as [-> Hc].
  rename select (HashStruct_Proposals _ = _) into Ep.
  assert (format_proposal <$> ps = typed <$> (bridge_proposal <$> ps)) as Ef by (by rewrite <- list_fmap_compose).
  rewrite Ef, HashStruct_Proposals_eq in Ep by (by apply Forall_fmap). injection Ep as <-. done.
Qed.

(** Equal hashes are of the same proposals for the same bridge. *)
Lemma chains_ProposalsHash_inj ps qs chain chain' contract contract' version version' h :
  Forall (wide ∘ bridge_proposal) ps -> Forall (wide ∘ bridge_proposal) qs ->
  chains_ProposalsHash ps chain contract version = Ok h ->
  chains_ProposalsHash qs chain' contract' version' = Ok h ->
  (bridge_proposal <$> ps = bridge_proposal <$> qs /\ chain = chain' /\
   HexToAddress contract = HexToAddress contract' /\ version = version') \/
  collide (hashed (bridge_proposal <$> ps) (domain_of chain contract version))
    (hashed (bridge_proposal <$> qs) (domain_of chain' contract' version')).
Proof.
  intros Hwp Hwq [-> Hc]%chains_ProposalsHash_preimage [E Hc']%chains_ProposalsHash_preimage; [|done..].
  rewrite <- Forall_fmap in Hwp, Hwq. set (P := bridge_proposal <$> ps) in *. set (Q := bridge_proposal <$> qs) in *.
  set (A := hashed P _). set (B := hashed Q _).
  destruct (same_or_collide A B _ _ ltac:(by left) ltac:(by left) E) as [E1|]; [|by right].
  unfold signed_preimage in E1. apply app_inv_head, app_inj_1 in E1 as [Ed Em]; [|by rewrite !Keccak256_length].
  destruct (domain_same A B _ _ _ _ _ _ Hc Hc' ltac:(right; left) ltac:(right; left) ltac:(do 2 right; left)
              ltac:(do 2 right; left) Ed) as [(-> & Ha & ->)|]; [|by right].
  destruct (same_or_collide A B _ _ ltac:(do 3 right; left) ltac:(do 3 right; left) Em) as [E2|]; [|by right].
  apply app_inv_head in E2.
  destruct (same_or_collide A B _ _ ltac:(do 4 right; left) ltac:(do 4 right; left) E2) as [E3|]; [|by right].
  apply concat_words with (n := 32%nat) in E3;
    [|lia|apply list.Forall_forall; intros w (p & -> & _)%list_elem_of_fmap; apply Keccak256_length..].
  destruct (array_same A B P Q) as [Epq|]; [done..| | |done| |by right].
  - intros x Hx. unfold A, hashed. apply elem_of_app. by right.
  - intros x Hx. unfold B, hashed. apply elem_of_app. by right.
  - by left.
Qed.

(** C36. A signature authorises one transaction on one bridge: if a list of proposals for
    a bridge and a list for a bridge, the same or another, have the same hash to sign, the
    chain identifiers (on 64 bits) and the addresses of the bridges are the same, and so
    are the tuples that are submitted with [executeProposals] for every signature and gas
    limit; unless two different ones of the strings that are hashed for the two lists, in
    the encoding of EIP-712, have the same Keccak-256 hash.  The fields of the proposals
    have the widths of their Go types. *)
Theorem ProposalsHash_commits (C C' : Contract) ps qs h :
  Forall (wide ∘ bridge_proposal) ps -> Forall (wide ∘ bridge_proposal) qs ->
  bridge_ProposalsHash (H := C) ps = Ok h -> bridge_ProposalsHash (H := C') qs = Ok h ->
  exists id id', ChainID (Contract := C) = Ok id /\ ChainID (Contract := C') = Ok id' /\
    ((i64_wrap id = i64_wrap id' /\
      HexToAddress (ContractAddressHex (Contract := C)) = HexToAddress (ContractAddressHex (Contract := C')) /\
      forall signature gasLimit,
        bridge_ExecuteProposals (H := C) ps signature gasLimit = bridge_ExecuteProposals (H := C) qs signature gasLimit) \/
     collide (hashed (bridge_proposal <$> ps) (domain_of (i64_wrap id) (ContractAddressHex (Contract := C)) bridgeVersion))
       (hashed (bridge_proposal <$> qs) (domain_of (i64_wrap id') (ContractAddressHex (Contract := C')) bridgeVersion))).
Proof.
  unfold bridge_ProposalsHash. intros Hwp Hwq E1 E2. invert_ok. eexists _, _. split_and!; [done..|].
  destruct (chains_ProposalsHash_inj _ _ _ _ _ _ _ _ _ Hwp Hwq E1 E2) as [(Hb & Hc & Ha & _)|Hc]; [left|by right].
  split_and!; [done..|]. intros sig gas. unfold bridge_ExecuteProposals. by rewrite Hb.
Qed.
End commitment.

Module EvmBridgeExample.

(** A hash of 32 bytes, and the encoder of EIP-712 with it. *)
Definition digest (l : bytes) : bytes := be_fixed 32 (be_val l * 31 + Z.of_nat (length l)).

#[local] Instance keccak : Eip712 := {|
  hexutil_Encode := hex_encode;
  HexToAddress s := be_fixed 20 (be_val (bytes_of_string s));
  HashStruct_EIP712Domain _ := Err ""; HashStruct_Proposals _ := Err "";
  Keccak256 := digest;
|}.

Definition untyped (t : typed_proposal) : BridgeProposal :=
  {| bp_OriginDomainID := ty_originDomainID t; bp_DepositNonce := ty_depositNonce t;
     bp_ResourceID := default [] (hex_decode (ty_resourceID t)); bp_Data := ty_data t |}.

#[export] Instance eip : Eip712 := {|
  hexutil_Encode := hex_encode;
  HexToAddress s := be_fixed 20 (be_val (bytes_of_string s));
  HashStruct_EIP712Domain d :=
    if (0 <=? td_chainId d) && (td_chainId d <? 2 ^ 256) then Ok (digest (domain_preimage d)) else Err "uint256";
  HashStruct_Proposals l := Ok (digest (proposals_preimage (untyped <$> l)));
  Keccak256 := digest;
|}.

#[export] Instance eip_spec : Eip712Spec.
Proof.
  split.
  - intros ps _. unfold HashStruct_Proposals, eip at 1.
    assert (untyped <$> (typed (H := eip) <$> ps) = ps) as ->; [|reflexivity].
    induction ps as [|p ps IH]; [done|]. rewrite !fmap_cons, IH. f_equal. unfold untyped, typed. cbn.
    rewrite hex_decode_encode. by destruct p.
  - intros d h E. unfold HashStruct_EIP712Domain, eip at 1 in E. case_match; [|done]. injection E as <-.
    split; [reflexivity|lia].
  - intros s. apply length_be_fixed.
  - intros l. apply length_be_fixed.
Qed.

#[export] Instance contract : Contract := {|
  CallContract _ _ := Ok [ABool false];
  ExecuteTransaction m gas _ := Ok (be_fixed 8 gas);
  ContractAddressHex := "0x1";
  ChainID := Ok 5;
|}.

(** Two proposals that differ only in what is not submitted. *)
Definition proposal (destination : Z) : TransferProposal :=
  {| tp_Source := 1; tp_Destination := destination;
     tp_Data := {| tpd_DepositNonce := 3; tpd_ResourceId := be_fixed 32 1; tpd_Metadata := ∅;
                   tpd_Data := be_fixed 4 9 |};
     tp_Type := TransferProposalType; tp_MessageID := "1-2-5-9" |}.
End EvmBridgeExample.

Import EvmBridgeExample.

Lemma ProposalsHash_commits_witness :
  (forall signature gasLimit,
     bridge_ExecuteProposals [proposal 2] signature gasLimit
     = bridge_ExecuteProposals [proposal 4] signature gasLimit) \/
  collide (hashed (bridge_proposal <$> [proposal 2]) (domain_of 5 "0x1" bridgeVersion))
    (hashed (bridge_proposal <$> [proposal 4]) (domain_of 5 "0x1" bridgeVersion)).
Proof.
  destruct (bridge_ProposalsHash [proposal 2]) as [h| |] eqn:E; [|vm_compute in E; discriminate..].
  destruct (ProposalsHash_commits contract contract [proposal 2] [proposal 4] h)
    as (id & id' & [= <-] & [= <-] & [(_ & _ & Ht)|Hc]).
  - repeat constructor; cbn; lia.
  - repeat constructor; cbn; lia.
  - exact E.
  - rewrite <- E. vm_compute. reflexivity.
  - left. exact Ht.
  - right. exact Hc.
Defined.
