(* ===== verification/Abi.v ===== *)
(** * Contract interfaces ([chains/evm/calls/consts])

    The ABI texts of the bridge and retry contracts, as they are in the source with
    apostrophes for quotation marks.  They are JSON documents; the interfaces they
    describe are read here by the contract ABI specification and compared with the
    names and types that the listener, the executor and the hash of proposals use. *)

From Stdlib Require Import Ascii.
From S2P Require Import Prelude GoStrings GoParse GoJson EvmListener EvmBridge.

#[local] Open Scope string_scope.
#[local] Open Scope list_scope.
#[local] Open Scope Z_scope.

(** ** The texts *)

Fixpoint requote (s : string) : string :=
  match s with
  | EmptyString => EmptyString
  | String c s' => String (if Ascii.eqb c "'" then dquote else c) (requote s')
  end.

Definition BridgeABI : string := requote (
  "[{'inputs':[{'internalType':'uint8','name':'domainID','type':'uint8'},{'internalType':'address'," +:+
  "'name':'accessControl','type':'address'}],'stateMutability':'nonpayable','type':'constructor'}," +:+
  "{'inputs':[{'internalType':'address','name':'sender','type':'address'},{'internalType':'bytes4'," +:+
  "'name':'funcSig','type':'bytes4'}],'name':'AccessNotAllowed','type':'error'},{'inputs':[]," +:+
  "'name':'DepositToCurrentDomain','type':'error'},{'inputs':[],'name':'EmptyProposalsArray'," +:+
  "'type':'error'},{'inputs':[],'name':'InvalidProposalSigner','type':'error'},{'inputs':[]," +:+
  "'name':'MPCAddressAlreadySet','type':'error'},{'inputs':[],'name':'MPCAddressIsNotUpdatable'," +:+
  "'type':'error'},{'inputs':[],'name':'MPCAddressNotSet','type':'error'},{'inputs':[]," +:+
  "'name':'MPCAddressZeroAddress','type':'error'},{'inputs':[],'name':'NonceDecrementsNotAllowed'," +:+
  "'type':'error'},{'inputs':[],'name':'ResourceIDNotMappedToHandler','type':'error'},{'anonymous':false," +:+
  "'inputs':[{'indexed':false,'internalType':'address','name':'newAccessControl','type':'address'}]," +:+
  "'name':'AccessControlChanged','type':'event'},{'anonymous':false,'inputs':[{'indexed':false," +:+
  "'internalType':'uint8','name':'destinationDomainID','type':'uint8'},{'indexed':false," +:+
  "'internalType':'bytes32','name':'resourceID','type':'bytes32'},{'indexed':false,'internalType':'uint64'," +:+
  "'name':'depositNonce','type':'uint64'},{'indexed':true,'internalType':'address','name':'user'," +:+
  "'type':'address'},{'indexed':false,'internalType':'bytes','name':'data','type':'bytes'}," +:+
  "{'indexed':false,'internalType':'bytes','name':'handlerResponse','type':'bytes'}],'name':'Deposit'," +:+
  "'type':'event'},{'anonymous':false,'inputs':[],'name':'EndKeygen','type':'event'},{'anonymous':false," +:+
  "'inputs':[{'indexed':false,'internalType':'bytes','name':'lowLevelData','type':'bytes'}," +:+
  "{'indexed':false,'internalType':'uint8','name':'originDomainID','type':'uint8'},{'indexed':false," +:+
  "'internalType':'uint64','name':'depositNonce','type':'uint64'}],'name':'FailedHandlerExecution'," +:+
  "'type':'event'},{'anonymous':false,'inputs':[{'indexed':false,'internalType':'address'," +:+
  "'name':'newFeeHandler','type':'address'}],'name':'FeeHandlerChanged','type':'event'},{'anonymous':false," +:+
  "'inputs':[{'indexed':false,'internalType':'string','name':'hash','type':'string'}],'name':'KeyRefresh'," +:+
  "'type':'event'},{'anonymous':false,'inputs':[{'indexed':false,'internalType':'address','name':'account'," +:+
  "'type':'address'}],'name':'Paused','type':'event'},{'anonymous':false,'inputs':[{'indexed':false," +:+
  "'internalType':'uint8','name':'originDomainID','type':'uint8'},{'indexed':false,'internalType':'uint64'," +:+
  "'name':'depositNonce','type':'uint64'},{'indexed':false,'internalType':'bytes32','name':'dataHash'," +:+
  "'type':'bytes32'},{'indexed':false,'internalType':'bytes','name':'handlerResponse','type':'bytes'}]," +:+
  "'name':'ProposalExecution','type':'event'},{'anonymous':false,'inputs':[{'indexed':false," +:+
  "'internalType':'string','name':'txHash','type':'string'}],'name':'Retry','type':'event'}," +:+
  "{'anonymous':false,'inputs':[],'name':'StartKeygen','type':'event'},{'anonymous':false," +:+
  "'inputs':[{'indexed':false,'internalType':'address','name':'account','type':'address'}]," +:+
  "'name':'Unpaused','type':'event'},{'inputs':[],'name':'_MPCAddress'," +:+
  "'outputs':[{'internalType':'address','name':'','type':'address'}],'stateMutability':'view'," +:+
  "'type':'function'},{'inputs':[],'name':'_accessControl'," +:+
  "'outputs':[{'internalType':'contract IAccessControlSegregator','name':'','type':'address'}]," +:+
  "'stateMutability':'view','type':'function'},{'inputs':[{'internalType':'uint8','name':''," +:+
  "'type':'uint8'}],'name':'_depositCounts','outputs':[{'internalType':'uint64','name':''," +:+
  "'type':'uint64'}],'stateMutability':'view','type':'function'},{'inputs':[],'name':'_domainID'," +:+
  "'outputs':[{'internalType':'uint8','name':'','type':'uint8'}],'stateMutability':'view'," +:+
  "'type':'function'},{'inputs':[],'name':'_feeHandler','outputs':[{'internalType':'contract IFeeHandler'," +:+
  "'name':'','type':'address'}],'stateMutability':'view','type':'function'}," +:+
  "{'inputs':[{'internalType':'bytes32','name':'','type':'bytes32'}],'name':'_resourceIDToHandlerAddress'," +:+
  "'outputs':[{'internalType':'address','name':'','type':'address'}],'stateMutability':'view'," +:+
  "'type':'function'},{'inputs':[{'internalType':'address','name':'','type':'address'}]," +:+
  "'name':'isValidForwarder','outputs':[{'internalType':'bool','name':'','type':'bool'}]," +:+
  "'stateMutability':'view','type':'function'},{'inputs':[],'name':'paused'," +:+
  "'outputs':[{'internalType':'bool','name':'','type':'bool'}],'stateMutability':'view','type':'function'}," +:+
  "{'inputs':[{'internalType':'uint8','name':'','type':'uint8'},{'internalType':'uint256','name':''," +:+
  "'type':'uint256'}],'name':'usedNonces','outputs':[{'internalType':'uint256','name':''," +:+
  "'type':'uint256'}],'stateMutability':'view','type':'function'},{'inputs':[]," +:+
  "'name':'adminPauseTransfers','outputs':[],'stateMutability':'nonpayable','type':'function'}," +:+
  "{'inputs':[],'name':'adminUnpauseTransfers','outputs':[],'stateMutability':'nonpayable'," +:+
  "'type':'function'},{'inputs':[{'internalType':'address','name':'handlerAddress','type':'address'}," +:+
  "{'internalType':'bytes32','name':'resourceID','type':'bytes32'},{'internalType':'address'," +:+
  "'name':'contractAddress','type':'address'},{'internalType':'bytes','name':'args','type':'bytes'}]," +:+
  "'name':'adminSetResource','outputs':[],'stateMutability':'nonpayable','type':'function'}," +:+
  "{'inputs':[{'internalType':'address','name':'handlerAddress','type':'address'}," +:+
  "{'internalType':'address','name':'tokenAddress','type':'address'}],'name':'adminSetBurnable'," +:+
  "'outputs':[],'stateMutability':'nonpayable','type':'function'},{'inputs':[{'internalType':'uint8'," +:+
  "'name':'domainID','type':'uint8'},{'internalType':'uint64','name':'nonce','type':'uint64'}]," +:+
  "'name':'adminSetDepositNonce','outputs':[],'stateMutability':'nonpayable','type':'function'}," +:+
  "{'inputs':[{'internalType':'address','name':'forwarder','type':'address'},{'internalType':'bool'," +:+
  "'name':'valid','type':'bool'}],'name':'adminSetForwarder','outputs':[],'stateMutability':'nonpayable'," +:+
  "'type':'function'},{'inputs':[{'internalType':'address','name':'newAccessControl','type':'address'}]," +:+
  "'name':'adminChangeAccessControl','outputs':[],'stateMutability':'nonpayable','type':'function'}," +:+
  "{'inputs':[{'internalType':'address','name':'newFeeHandler','type':'address'}]," +:+
  "'name':'adminChangeFeeHandler','outputs':[],'stateMutability':'nonpayable','type':'function'}," +:+
  "{'inputs':[{'internalType':'address','name':'handlerAddress','type':'address'},{'internalType':'bytes'," +:+
  "'name':'data','type':'bytes'}],'name':'adminWithdraw','outputs':[],'stateMutability':'nonpayable'," +:+
  "'type':'function'},{'inputs':[{'internalType':'uint8','name':'destinationDomainID','type':'uint8'}," +:+
  "{'internalType':'bytes32','name':'resourceID','type':'bytes32'},{'internalType':'bytes'," +:+
  "'name':'depositData','type':'bytes'},{'internalType':'bytes','name':'feeData','type':'bytes'}]," +:+
  "'name':'deposit','outputs':[{'internalType':'uint64','name':'depositNonce','type':'uint64'}," +:+
  "{'internalType':'bytes','name':'handlerResponse','type':'bytes'}],'stateMutability':'payable'," +:+
  "'type':'function'},{'inputs':[{'components':[{'internalType':'uint8','name':'originDomainID'," +:+
  "'type':'uint8'},{'internalType':'uint64','name':'depositNonce','type':'uint64'}," +:+
  "{'internalType':'bytes32','name':'resourceID','type':'bytes32'},{'internalType':'bytes','name':'data'," +:+
  "'type':'bytes'}],'internalType':'struct Bridge.Proposal','name':'proposal','type':'tuple'}," +:+
  "{'internalType':'bytes','name':'signature','type':'bytes'}],'name':'executeProposal','outputs':[]," +:+
  "'stateMutability':'nonpayable','type':'function'},{'inputs':[{'components':[{'internalType':'uint8'," +:+
  "'name':'originDomainID','type':'uint8'},{'internalType':'uint64','name':'depositNonce','type':'uint64'}," +:+
  "{'internalType':'bytes32','name':'resourceID','type':'bytes32'},{'internalType':'bytes','name':'data'," +:+
  "'type':'bytes'}],'internalType':'struct Bridge.Proposal[]','name':'proposals','type':'tuple[]'}," +:+
  "{'internalType':'bytes','name':'signature','type':'bytes'}],'name':'executeProposals','outputs':[]," +:+
  "'stateMutability':'nonpayable','type':'function'},{'inputs':[],'name':'startKeygen','outputs':[]," +:+
  "'stateMutability':'nonpayable','type':'function'},{'inputs':[{'internalType':'address'," +:+
  "'name':'MPCAddress','type':'address'}],'name':'endKeygen','outputs':[],'stateMutability':'nonpayable'," +:+
  "'type':'function'},{'inputs':[{'internalType':'string','name':'hash','type':'string'}]," +:+
  "'name':'refreshKey','outputs':[],'stateMutability':'nonpayable','type':'function'}," +:+
  "{'inputs':[{'internalType':'string','name':'txHash','type':'string'}],'name':'retry','outputs':[]," +:+
  "'stateMutability':'nonpayable','type':'function'},{'inputs':[{'internalType':'uint8','name':'domainID'," +:+
  "'type':'uint8'},{'internalType':'uint256','name':'depositNonce','type':'uint256'}]," +:+
  "'name':'isProposalExecuted','outputs':[{'internalType':'bool','name':'','type':'bool'}]," +:+
  "'stateMutability':'view','type':'function'},{'inputs':[{'components':[{'internalType':'uint8'," +:+
  "'name':'originDomainID','type':'uint8'},{'internalType':'uint64','name':'depositNonce','type':'uint64'}," +:+
  "{'internalType':'bytes32','name':'resourceID','type':'bytes32'},{'internalType':'bytes','name':'data'," +:+
  "'type':'bytes'}],'internalType':'struct Bridge.Proposal[]','name':'proposals','type':'tuple[]'}," +:+
  "{'internalType':'bytes','name':'signature','type':'bytes'}],'name':'verify'," +:+
  "'outputs':[{'internalType':'bool','name':'','type':'bool'}],'stateMutability':'view','type':'function'}]"
  ).

Definition RetryABI : string := requote "
[
	{
		'anonymous': false,
		'inputs': [
			{
				'indexed': true,
				'internalType': 'address',
				'name': 'previousOwner',
				'type': 'address'
			},
			{
				'indexed': true,
				'internalType': 'address',
				'name': 'newOwner',
				'type': 'address'
			}
		],
		'name': 'OwnershipTransferred',
		'type': 'event'
	},
	{
		'anonymous': false,
		'inputs': [
			{
				'indexed': false,
				'internalType': 'uint8',
				'name': 'sourceDomainID',
				'type': 'uint8'
			},
			{
				'indexed': false,
				'internalType': 'uint8',
				'name': 'destinationDomainID',
				'type': 'uint8'
			},
			{
				'indexed': false,
				'internalType': 'uint256',
				'name': 'blockHeight',
				'type': 'uint256'
			},
			{
				'indexed': false,
				'internalType': 'bytes32',
				'name': 'resourceID',
				'type': 'bytes32'
			}
		],
		'name': 'Retry',
		'type': 'event'
	},
	{
		'inputs': [],
		'name': 'owner',
		'outputs': [
			{
				'internalType': 'address',
				'name': '',
				'type': 'address'
			}
		],
		'stateMutability': 'view',
		'type': 'function'
	},
	{
		'inputs': [],
		'name': 'renounceOwnership',
		'outputs': [],
		'stateMutability': 'nonpayable',
		'type': 'function'
	},
	{
		'inputs': [
			{
				'internalType': 'uint8',
				'name': 'sourceDomainID',
				'type': 'uint8'
			},
			{
				'internalType': 'uint8',
				'name': 'destinationDomainID',
				'type': 'uint8'
			},
			{
				'internalType': 'uint256',
				'name': 'blockHeight',
				'type': 'uint256'
			},
			{
				'internalType': 'bytes32',
				'name': 'resourceID',
				'type': 'bytes32'
			}
		],
		'name': 'retry',
		'outputs': [],
		'stateMutability': 'nonpayable',
		'type': 'function'
	},
	{
		'inputs': [
			{
				'internalType': 'address',
				'name': 'newOwner',
				'type': 'address'
			}
		],
		'name': 'transferOwnership',
		'outputs': [],
		'stateMutability': 'nonpayable',
		'type': 'function'
	}
]
".

(** ** Reading an interface *)

(** The last member of an object with a name. *)
Definition member (name : string) (j : json) : option json :=
  match j with
  | JObject fields => snd <$> List.find (fun f => String.eqb f.1 name) (rev fields)
  | _ => None
  end.
Definition text_member (name : string) (j : json) : option string :=
  match member name j with Some (JString s) => Some s | _ => None end.
Definition list_member (name : string) (j : json) : list json :=
  match member name j with Some (JArray l) => l | _ => [] end.

(** The entry of an interface with a type and a name. *)
Definition abi_entry (abi type name : string) : option json :=
  match json_parse abi with
  | Ok (JArray entries) =>
      List.find (fun e => bool_decide (text_member "type" e = Some type) && bool_decide (text_member "name" e = Some name))
        entries
  | _ => None
  end.

(** Names and types of the inputs, those of an event that are in its data only. *)
Definition abi_param (p : json) : option (string * string) :=
  n ← text_member "name" p; t ← text_member "type" p; Some (n, t).
Definition abi_params (l : list json) : option (list (string * string)) := mapM abi_param l.
Definition in_data (p : json) : bool :=
  match member "indexed" p with Some (JBool true) => false | _ => true end.

(** The signature of an event without tuples. *)
Definition event_signature (abi name : string) : option string :=
  e ← abi_entry abi "event" name;
  params ← abi_params (list_member "inputs" e);
  Some (name +:+ "(" +:+ String.concat "," params.*2 +:+ ")").

Definition event_data (abi name : string) : option (list (string * string)) :=
  e ← abi_entry abi "event" name; abi_params (List.filter in_data (list_member "inputs" e)).

(** The inputs of a function, and the components of one that is a tuple. *)
Definition function_inputs (abi name : string) : option (list (string * string)) :=
  e ← abi_entry abi "function" name; abi_params (list_member "inputs" e).
Definition tuple_components (abi name input : string) : option (list (string * string)) :=
  e ← abi_entry abi "function" name;
  p ← List.find (fun p => bool_decide (text_member "name" p = Some input)) (list_member "inputs" e);
  abi_params (list_member "components" p).

(** ** What the program uses *)

(** The fields the ABI decoder fills, with the ABI types of their Go types: of [Deposit]
    without the sender, which is a topic, of [Refresh], [RetryV1Event] and [RetryV2Event]. *)
Definition deposit_fields : list (string * string) :=
  [("DestinationDomainID", "uint8"); ("ResourceID", "bytes32"); ("DepositNonce", "uint64"); ("Data", "bytes");
   ("HandlerResponse", "bytes")].
Definition refresh_fields : list (string * string) := [("Hash", "string")].
Definition retry_v1_fields : list (string * string) := [("TxHash", "string")].
Definition retry_v2_fields : list (string * string) :=
  [("SourceDomainID", "uint8"); ("DestinationDomainID", "uint8"); ("BlockHeight", "uint256"); ("ResourceID", "bytes32")].

(** Field names agree with those of the interface up to the case of the first letter. *)
Definition same_field (f g : string * string) : bool :=
  match f.1, g.1 with
  | String a s, String b t => Ascii.eqb (if within 97 122 b then chr (code b - 32) else b) a && String.eqb s t
  | _, _ => false
  end && String.eqb f.2 g.2.
Definition decodes_to (fields : list (string * string)) (data : option (list (string * string))) : bool :=
  match data with
  | Some l => (length l =? length fields)%nat && forallb (fun '(f, g) => same_field f g) (combine fields l)
  | None => false
  end.

(** The program and the contracts agree on their interfaces.  The events are filtered
    by the signatures they have in the ABI their data is decoded with; their data is
    decoded into all fields, with the names and types of the fields.  The proposals that
    are hashed for signing have the components of the tuples that [executeProposals]
    takes, in their order, and the queries have the inputs that are packed for them. *)
Theorem interfaces_agree :
  event_signature BridgeABI "Deposit" = Some DepositSig /\ event_signature BridgeABI "Retry" = Some RetryV1Sig /\
  event_signature BridgeABI "KeyRefresh" = Some KeyRefreshSig /\
  event_signature BridgeABI "StartKeygen" = Some StartKeygenSig /\
  event_signature RetryABI "Retry" = Some RetryV2Sig /\
  decodes_to deposit_fields (event_data BridgeABI "Deposit") = true /\
  decodes_to refresh_fields (event_data BridgeABI "KeyRefresh") = true /\
  decodes_to retry_v1_fields (event_data BridgeABI "Retry") = true /\
  decodes_to retry_v2_fields (event_data RetryABI "Retry") = true /\
  tuple_components BridgeABI "executeProposals" "proposals" = Some proposal_types /\
  tuple_components BridgeABI "executeProposal" "proposal" = Some proposal_types /\
  function_inputs BridgeABI "isProposalExecuted" = Some [("domainID", "uint8"); ("depositNonce", "uint256")] /\
  function_inputs BridgeABI "_resourceIDToHandlerAddress" = Some [("", "bytes32")].
Proof. split_and!; vm_compute; reflexivity. Qed.
