(* ===== verification/BtcTx.v ===== *)
(** * Bitcoin transactions of the executor

    [chains/btc/executor/message-handler.go] (amounts),
    [chains/btc/mempool/mempool.go] (the mempool client) and the transaction
    assembly of [chains/btc/executor/executor.go] ([rawTx], [outputs], [inputs],
    [fee]).  Amounts are [uint64] with wrap-around; transaction outputs hold
    [int64]. *)

From S2P Require Import Prelude GoBytes GoStrings GoJson Transfer.

#[local] Open Scope string_scope.
#[local] Open Scope list_scope.
#[local] Open Scope Z_scope.

(** ** Amounts of a bitcoin proposal *)

(** [ERC20MessageHandler]: 18 decimals are cut to 8, the result to 64 bits. *)
Definition btc_ERC20MessageHandler (msg : TransferMessage) : res Proposal :=
  if bool_decide (length (tmd_Payload (tm_Data msg)) <> 2%nat)
  then Err "malformed payload. Len  of payload should be 2"
  else
    amount ← payload_bytes msg 0 "wrong payload amount format";
    recipient ← payload_bytes msg 1 "wrong payload recipient format";
    let bigAmount := be_val amount / 10 ^ 10 in
    Ok (NewProposal (tm_Source msg) (tm_Destination msg)
          (BtcPropData {| bpd_Amount := u64_wrap bigAmount;
                          bpd_Recipient := string_of_bytes recipient;
                          bpd_DepositNonce := tmd_DepositNonce (tm_Data msg);
                          bpd_ResourceId := tmd_ResourceId (tm_Data msg) |})
          (tm_ID msg) TransferProposalType).

Definition FungibleMessageHandler_HandleMessage (msg : Message) : res Proposal :=
  transferMessage ← transfer_message_of msg;
  if bool_decide (tmd_Type (tm_Data transferMessage) = FungibleTransfer)
  then btc_ERC20MessageHandler transferMessage
  else Err "wrong message type passed while handling message".

Record BtcTransferProposal := {
  btp_Source : Z;
  btp_Destination : Z;
  btp_Data : BtcTransferProposalData;
}.

(** ** UTXOs in the order the mempool client returns them *)

Record Status := {
  s_Confirmed : bool;
  s_BlockHeight : Z;
  s_BlockHash : string;
  s_BlockTime : Z;
}.

#[export] Instance Status_eq_dec : EqDecision Status.
Proof. solve_decision. Defined.

Record Utxo := {
  u_TxID : string;
  u_Vout : Z;
  u_Value : Z;
  u_Status : Status;
}.

Record Fee := {
  f_FastestFee : Z;
  f_HalfHourFee : Z;
  f_MinimumFee : Z;
  f_EconomyFee : Z;
  f_HourFee : Z;
}.

Definition u_BlockTime (u : Utxo) : Z := s_BlockTime (u_Status u).

#[export] Instance Utxo_eq_dec : EqDecision Utxo.
Proof. solve_decision. Defined.

(** The [less] function given to [sort.Slice]; Go compares strings bytewise. *)
Definition utxo_less (a b : Utxo) : bool :=
  if u_BlockTime a =? u_BlockTime b then String.ltb (u_TxID a) (u_TxID b)
  else u_BlockTime a <? u_BlockTime b.

(** What [sort.Slice] guarantees: a permutation in which no element is less than
    one before it.  The order of ties is not specified. *)
Definition sort_Slice (less : Utxo -> Utxo -> bool) (l l' : list Utxo) : Prop :=
  l' ≡ₚ l /\ StronglySorted (fun a b => less b a = false) l'.

(** The answers of the service are JSON documents.  Fields without a tag have the name
    of the field, which is compared without case. *)
Definition store_status (t : Status) (name : string) (v : json) : res Status :=
  if bool_decide (name = "Confirmed") then
    b ← into_bool (s_Confirmed t) v;
    Ok {| s_Confirmed := b; s_BlockHeight := s_BlockHeight t; s_BlockHash := s_BlockHash t; s_BlockTime := s_BlockTime t |}
  else if bool_decide (name = "block_height") then
    z ← into_uint 64 (s_BlockHeight t) v;
    Ok {| s_Confirmed := s_Confirmed t; s_BlockHeight := z; s_BlockHash := s_BlockHash t; s_BlockTime := s_BlockTime t |}
  else if bool_decide (name = "block_hash") then
    h ← into_string (s_BlockHash t) v;
    Ok {| s_Confirmed := s_Confirmed t; s_BlockHeight := s_BlockHeight t; s_BlockHash := h; s_BlockTime := s_BlockTime t |}
  else
    z ← into_uint 64 (s_BlockTime t) v;
    Ok {| s_Confirmed := s_Confirmed t; s_BlockHeight := s_BlockHeight t; s_BlockHash := s_BlockHash t; s_BlockTime := z |}.

Definition store_utxo (u : Utxo) (name : string) (v : json) : res Utxo :=
  if bool_decide (name = "txid") then
    s ← into_string (u_TxID u) v;
    Ok {| u_TxID := s; u_Vout := u_Vout u; u_Value := u_Value u; u_Status := u_Status u |}
  else if bool_decide (name = "vout") then
    z ← into_uint 32 (u_Vout u) v;
    Ok {| u_TxID := u_TxID u; u_Vout := z; u_Value := u_Value u; u_Status := u_Status u |}
  else if bool_decide (name = "value") then
    z ← into_uint 64 (u_Value u) v;
    Ok {| u_TxID := u_TxID u; u_Vout := u_Vout u; u_Value := z; u_Status := u_Status u |}
  else
    t ← into_struct ["Confirmed"; "block_height"; "block_hash"; "block_time"] store_status (u_Status u) v;
    Ok {| u_TxID := u_TxID u; u_Vout := u_Vout u; u_Value := u_Value u; u_Status := t |}.

Definition zero_utxo : Utxo :=
  {| u_TxID := ""; u_Vout := 0; u_Value := 0;
     u_Status := {| s_Confirmed := false; s_BlockHeight := 0; s_BlockHash := ""; s_BlockTime := 0 |} |}.

Definition UnmarshalUtxos (data : bytes) : res (list Utxo) :=
  unmarshal_json (into_slice (into_struct ["txid"; "vout"; "value"; "status"] store_utxo zero_utxo)) data.

Definition store_fee (f : Fee) (name : string) (v : json) : res Fee :=
  let fee fastest halfHour minimum economy hour :=
    {| f_FastestFee := fastest; f_HalfHourFee := halfHour; f_MinimumFee := minimum; f_EconomyFee := economy;
       f_HourFee := hour |} in
  if bool_decide (name = "FastestFee") then
    z ← into_uint 64 (f_FastestFee f) v; Ok (fee z (f_HalfHourFee f) (f_MinimumFee f) (f_EconomyFee f) (f_HourFee f))
  else if bool_decide (name = "HalfHourFee") then
    z ← into_uint 64 (f_HalfHourFee f) v; Ok (fee (f_FastestFee f) z (f_MinimumFee f) (f_EconomyFee f) (f_HourFee f))
  else if bool_decide (name = "MinimumFee") then
    z ← into_uint 64 (f_MinimumFee f) v; Ok (fee (f_FastestFee f) (f_HalfHourFee f) z (f_EconomyFee f) (f_HourFee f))
  else if bool_decide (name = "EconomyFee") then
    z ← into_uint 64 (f_EconomyFee f) v; Ok (fee (f_FastestFee f) (f_HalfHourFee f) (f_MinimumFee f) z (f_HourFee f))
  else
    z ← into_uint 64 (f_HourFee f) v; Ok (fee (f_FastestFee f) (f_HalfHourFee f) (f_MinimumFee f) (f_EconomyFee f) z).

(** A fee is decoded into a nil pointer, which the document [null] leaves nil. *)
Definition UnmarshalFee (data : bytes) : res (option Fee) :=
  unmarshal_json (fun j =>
    match j with
    | JNull => Ok None
    | _ => f ← into_struct ["FastestFee"; "HalfHourFee"; "MinimumFee"; "EconomyFee"; "HourFee"] store_fee
                 {| f_FastestFee := 0; f_HalfHourFee := 0; f_MinimumFee := 0; f_EconomyFee := 0; f_HourFee := 0 |} j;
           Ok (Some f)
    end) data.

(** The client: [http.Get] with [io.ReadAll] of the body, whatever the status code
    of the response. *)
Class MempoolLib := { http_Get : string -> res bytes }.

Section mempool.
Context `{MempoolLib} (url : string).

Definition mempool_RecommendedFee : res (option Fee) :=
  data ← http_Get (url +:+ "/api/v1/fees/recommended");
  UnmarshalFee data.

(** The UTXOs of the response, before [Utxos] sorts them. *)
Definition utxo_response (address : string) : res (list Utxo) :=
  data ← http_Get (url +:+ "/api/address/" +:+ address +:+ "/utxo");
  UnmarshalUtxos data.

(** [MempoolAPI.Utxos]: the results it may return. *)
Definition Utxos (address : string) (result : res (list Utxo)) : Prop :=
  match utxo_response address with
  | Ok utxos => exists sorted, result = Ok sorted /\ sort_Slice utxo_less utxos sorted
  | Err e => result = Err e
  | Panic => result = Panic
  end.
End mempool.

(** An insertion sort, one of the results [sort.Slice] may give. *)
Fixpoint utxo_insert (u : Utxo) (l : list Utxo) : list Utxo :=
  match l with
  | [] => [u]
  | v :: l' => if utxo_less v u then v :: utxo_insert u l' else u :: l
  end.

Definition sort_utxos (l : list Utxo) : list Utxo := foldr utxo_insert [] l.

(** ** Transactions *)

Record TxIn := { in_hash : bytes; in_index : Z; in_witness : bytes }.
Record TxOut := { out_value : Z; out_script : bytes }.
Record MsgTx := { tx_in : list TxIn; tx_out : list TxOut }.

Definition empty_tx : MsgTx := {| tx_in := []; tx_out := [] |}.
Definition AddTxIn (tx : MsgTx) (i : TxIn) : MsgTx :=
  {| tx_in := tx_in tx ++ [i]; tx_out := tx_out tx |}.
Definition AddTxOut (tx : MsgTx) (o : TxOut) : MsgTx :=
  {| tx_in := tx_in tx; tx_out := tx_out tx ++ [o] |}.

Definition INPUT_SIZE : Z := 180.
Definition OUTPUT_SIZE : Z := 34.
Definition FEE_ROUNDING_FACTOR : Z := 5.

(** btcd's address and script functions and the IPFS uploader. *)
Class BtcLib (Address : Type) := {
  DecodeAddress : string -> res Address;
  PayToAddrScript : Address -> res bytes;
  NullDataScript : bytes -> res bytes;
  NewHashFromStr : string -> res bytes;
  Upload : list (Z * Z) -> res string;
}.

(** [config.Resource], the fields the executor reads. *)
Record Resource (Address : Type) := {
  r_Address : Address;
  r_ResourceID : bytes;
  r_Tweak : string;
  r_Script : bytes;
}.
Arguments r_Address {Address} _.
Arguments r_ResourceID {Address} _.
Arguments r_Tweak {Address} _.
Arguments r_Script {Address} _.

Section rawtx.
Context {Address : Type} `{BtcLib Address}.
(** The answers of the mempool client: the recommended fee, asked for twice, and the
    sorted UTXOs. *)
Context (RecommendedFee : nat -> res (option Fee)) (MempoolUtxos : Address -> res (list Utxo)).

(** The loop of [outputs] over the proposals. *)
Fixpoint outputs_loop (proposals : list BtcTransferProposal) (tx : MsgTx) (outputAmount : Z)
    : res (MsgTx * Z) :=
  match proposals with
  | [] => Ok (tx, outputAmount)
  | prop :: rest =>
      addr ← DecodeAddress (bpd_Recipient (btp_Data prop));
      destinationAddrByte ← PayToAddrScript addr;
      let txOut := {| out_value := i64_wrap (bpd_Amount (btp_Data prop));
                      out_script := destinationAddrByte |} in
      outputs_loop rest (AddTxOut tx txOut)
        (u64_wrap (outputAmount + bpd_Amount (btp_Data prop)))
  end.

Definition upload_data (proposals : list BtcTransferProposal) : list (Z * Z) :=
  (fun p => (btp_Source p, bpd_DepositNonce (btp_Data p))) <$> proposals.

Definition outputs (tx : MsgTx) (proposals : list BtcTransferProposal) : res (MsgTx * Z) :=
  '(tx', outputAmount) ← outputs_loop proposals tx 0;
  cid ← Upload (upload_data proposals);
  opReturnScript ← NullDataScript (bytes_of_string ("syg_" +:+ cid));
  Ok (AddTxOut tx' {| out_value := 0; out_script := opReturnScript |}, outputAmount).

(** The loop of [inputs] over the UTXOs. *)
Fixpoint inputs_loop (utxos : list Utxo) (outputAmount : Z) (tx : MsgTx) (inputAmount : Z)
    (usedUtxos : list Utxo) : res (MsgTx * Z * list Utxo) :=
  match utxos with
  | [] => Ok (tx, inputAmount, usedUtxos)
  | utxo :: rest =>
      previousTxHash ← NewHashFromStr (u_TxID utxo);
      let tx' := AddTxIn tx {| in_hash := previousTxHash; in_index := u_Vout utxo;
                               in_witness := [] |} in
      let usedUtxos' := usedUtxos ++ [utxo] in
      let inputAmount' := u64_wrap (inputAmount + u_Value utxo) in
      if outputAmount <? inputAmount' then Ok (tx', inputAmount', usedUtxos')
      else inputs_loop rest outputAmount tx' inputAmount' usedUtxos'
  end.

Definition inputs (tx : MsgTx) (address : Address) (outputAmount : Z)
    : res (MsgTx * Z * list Utxo) :=
  utxos ← MempoolUtxos address;
  inputs_loop utxos outputAmount tx 0 [].

Definition fee (answer : res (option Fee)) (numOfInputs numOfOutputs : Z) : res Z :=
  recommendedFee ← answer;
  match recommendedFee with
  | None => Panic
  | Some r =>
  Ok (u64_wrap
        (u64_wrap (u64_wrap (numOfInputs * INPUT_SIZE) + u64_wrap (numOfOutputs * OUTPUT_SIZE))
         * u64_wrap (u64_wrap (f_EconomyFee r / FEE_ROUNDING_FACTOR * FEE_ROUNDING_FACTOR)
                     + FEE_ROUNDING_FACTOR)))
  end.

Definition insufficient (inputAmount outputAmount : Z) : error :=
  "utxo input amount " +:+ fmt_u inputAmount +:+ " less than output amount " +:+ fmt_u outputAmount.

Definition rawTx (proposals : list BtcTransferProposal) (resource : Resource Address)
    : res (MsgTx * list Utxo) :=
  let n := Z.of_nat (length proposals) in
  '(tx, outputAmount) ← outputs empty_tx proposals;
  feeEstimate ← fee (RecommendedFee 0) n n;
  '(tx, inputAmount, utxos) ← inputs tx (r_Address resource) (u64_wrap (outputAmount + feeEstimate));
  if inputAmount <? outputAmount then Err (insufficient inputAmount outputAmount) else
  f ← fee (RecommendedFee 1) (Z.of_nat (length utxos)) (u64_wrap (n + 1));
  let returnAmount := u64_wrap (u64_wrap (inputAmount - f) - outputAmount) in
  if 0 <? returnAmount then
    returnScript ← PayToAddrScript (r_Address resource);
    Ok (AddTxOut tx {| out_value := i64_wrap returnAmount; out_script := returnScript |}, utxos)
  else Ok (tx, utxos).
End rawtx.

(** ** Value conservation *)

Definition total_out (ps : list BtcTransferProposal) : Z := sumZ (fun p => bpd_Amount (btp_Data p)) ps.
Definition total_in (us : list Utxo) : Z := sumZ u_Value us.

Lemma i64_of_u64 d : - 2 ^ 63 <= d < 2 ^ 63 -> i64_wrap (u64_wrap d) = d.
Proof.
  intros Hd. unfold i64_wrap, u64_wrap. rewrite Z.add_mod_idemp_l by lia.
  rewrite Z.mod_small by lia. lia.
Qed.

Lemma u64_wrap_zero d : - 2 ^ 63 <= d < 2 ^ 63 -> u64_wrap d = 0 -> d = 0.
Proof. intros Hd E. rewrite <- (i64_of_u64 d Hd), E. done. Qed.

Lemma u64_wrap_sub_l a b : u64_wrap (u64_wrap a - b) = u64_wrap (a - b).
Proof. apply Zminus_mod_idemp_l. Qed.

Section conservation.
Context {Address : Type} `{BL : BtcLib Address}.
Context (RecommendedFee : nat -> res (option Fee)) (MempoolUtxos : Address -> res (list Utxo)).

Lemma outputs_loop_spec ps tx acc tx' amt :
  Forall (fun p => 0 <= bpd_Amount (btp_Data p)) ps -> 0 <= acc -> acc + total_out ps < 2 ^ 63 ->
  outputs_loop ps tx acc = Ok (tx', amt) ->
  amt = acc + total_out ps /\ tx_in tx' = tx_in tx /\
  exists outs, tx_out tx' = tx_out tx ++ outs /\
               out_value <$> outs = (fun p => bpd_Amount (btp_Data p)) <$> ps.
Proof.
  unfold total_out. intros Hps. revert tx acc.
  induction Hps as [|p ps Hp Hps IH]; intros tx acc H0 Hmax E; simpl in E.
  { simplify_eq. split_and!; [rewrite sumZ_nil; lia|done|]. exists []. by rewrite app_nil_r. }
  invert_ok. rewrite sumZ_cons in *. pose proof (sumZ_nonneg _ _ Hps) as Hs.
  rewrite u64_wrap_small in E by (unfold is_u64; lia).
  apply IH in E as (-> & Hin & outs & Hout & Hval); [|lia..].
  split_and!; [lia|done|]. eexists (_ :: outs).
  split; [by rewrite Hout; simpl; rewrite <- app_assoc|].
  rewrite !fmap_cons, Hval. simpl. rewrite i64_wrap_small by (unfold is_i64; lia). done.
Qed.

Lemma outputs_spec ps tx amt :
  Forall (fun p => 0 <= bpd_Amount (btp_Data p)) ps -> total_out ps < 2 ^ 63 ->
  outputs empty_tx ps = Ok (tx, amt) ->
  amt = total_out ps /\ tx_in tx = [] /\
  out_value <$> tx_out tx = ((fun p => bpd_Amount (btp_Data p)) <$> ps) ++ [0].
Proof.
  intros Hps Hmax E. unfold outputs in E. invert_ok. destruct x as [tx1 amt1]. invert_ok.
  simplify_eq. destruct (outputs_loop_spec ps empty_tx 0 tx1 amt) as (-> & Hin & outs & Hout & Hval);
    [done|lia|lia|done|].
  split_and!; [lia|by simpl; rewrite Hin|]. simpl. rewrite Hout. simpl. by rewrite fmap_app, Hval.
Qed.

(** An unsigned input that spends a UTXO. *)
Definition spends (u : Utxo) (i : TxIn) : Prop :=
  NewHashFromStr (u_TxID u) = Ok (in_hash i) /\ in_index i = u_Vout u /\ in_witness i = [].

(** The inputs are a prefix of the UTXOs, stopping at the first one that takes the
    sum above the amount asked for. *)
Lemma inputs_loop_spec us need tx acc used tx' amt used' :
  Forall (fun u => 0 <= u_Value u) us -> 0 <= acc -> acc + total_in us < 2 ^ 63 ->
  inputs_loop us need tx acc used = Ok (tx', amt, used') ->
  exists k, used' = used ++ take k us /\ amt = acc + total_in (take k us) /\
    tx_out tx' = tx_out tx /\ (exists ins, tx_in tx' = tx_in tx ++ ins /\ Forall2 spends (take k us) ins) /\
    (need < amt \/ take k us = us) /\
    (forall j, (0 < j < k)%nat -> (j < length us)%nat -> acc + total_in (take j us) <= need).
Proof.
  unfold total_in. intros Hus. revert tx acc used.
  induction Hus as [|u us Hu Hus IH]; intros tx acc used H0 Hmax E; simpl in E.
  { simplify_eq. exists O. simpl. rewrite app_nil_r, sumZ_nil.
    split_and!; [done|lia|done| |by right|lia]. exists []. by rewrite app_nil_r. }
  invert_ok. rewrite sumZ_cons in *. pose proof (sumZ_nonneg _ _ Hus) as Hs.
  rewrite u64_wrap_small in E by (unfold is_u64; lia).
  destruct (Z.ltb_spec need (acc + u_Value u)) as [Hlt|Hge].
  - simplify_eq. exists 1%nat. rewrite firstn_cons, take_0, sumZ_cons, sumZ_nil. simpl.
    split_and!; [done|lia|done| |by left|lia]. eexists. split; [done|]. by repeat constructor.
  - apply IH in E as (k & -> & -> & Hout & (ins & Hins & Hf) & Hstop & Hmin); [|lia..].
    exists (S k). rewrite firstn_cons, sumZ_cons, <- app_assoc. simpl in *.
    split_and!; [done|lia|done| |destruct Hstop as [|Ht]; [left; lia|right; by rewrite Ht]|].
    { rewrite Hins, <- app_assoc. eexists. split; [reflexivity|]. by constructor. }
    intros [|[|j]] Hj Hl; [lia|rewrite firstn_cons, take_0, sumZ_cons, sumZ_nil; lia|].
    rewrite firstn_cons, sumZ_cons. specialize (Hmin (S j)). lia.
Qed.

(** Amounts and values are not negative, their totals and the number of proposals are
    below [2 ^ 61], and so is the fee of a transaction with these inputs and outputs (the
    supply of satoshi is below [2 ^ 51]). *)
Definition realistic (ps : list BtcTransferProposal) (us : list Utxo) : Prop :=
  Forall (fun p => 0 <= bpd_Amount (btp_Data p)) ps /\ total_out ps < 2 ^ 61 /\
  Forall (fun u => 0 <= u_Value u) us /\ total_in us < 2 ^ 61 /\
  Z.of_nat (length ps) < 2 ^ 61 /\
  (forall i o f, fee (RecommendedFee 1) i o = Ok f ->
     0 <= i <= Z.of_nat (length us) + Z.of_nat (length ps) ->
     0 <= o <= Z.of_nat (length ps) + 1 -> 0 <= f < 2 ^ 61).

(** What an assembled transaction pays: the proposals, the [OP_RETURN] output and
    what is left after the fee, when that is not zero. *)
Lemma rawTx_outputs ps resource all tx us :
  MempoolUtxos (r_Address resource) = Ok all -> realistic ps all ->
  rawTx RecommendedFee MempoolUtxos ps resource = Ok (tx, us) ->
  exists f k, fee (RecommendedFee 1) (Z.of_nat (length us)) (Z.of_nat (length ps) + 1) = Ok f /\
    0 <= f < 2 ^ 61 /\ us = take k all /\ Forall2 spends us (tx_in tx) /\
    0 <= total_in us < 2 ^ 61 /\ total_out ps <= total_in us /\
    out_value <$> tx_out tx
    = ((fun p => bpd_Amount (btp_Data p)) <$> ps) ++ [0]
        ++ (if decide (total_in us - f - total_out ps = 0) then []
            else [total_in us - f - total_out ps]).
Proof.
  intros Hall (Hps & Hpmax & Hus & Humax & Hn & Hfee) E. unfold rawTx, inputs in E.
  rewrite Hall in E. invert_ok.
  destruct x as [tx1 out]. invert_ok. destruct x0 as [[tx2 inp] us2]. invert_ok.
  simplify_eq. rename select (inputs_loop _ _ _ _ _ = _) into Ei.
  rename select (outputs _ _ = _) into Eo. rename x1 into all.
  apply outputs_spec in Eo as (-> & Hin1 & Hval1); [|done|lia].
  apply inputs_loop_spec in Ei as (k & Eus & -> & Hout2 & (ins & Hin2 & Hsp) & _); [|done|lia|lia].
  simpl in Eus. subst us2. rewrite Hin1 in Hin2. simpl in Hin2. subst ins.
  assert (0 <= total_in (take k all) < 2 ^ 61) as Htk.
  { pose proof (take_drop k all) as Ed. unfold total_in in *. rewrite <- Ed in Hus, Humax.
    apply Forall_app in Hus as [Hu1 Hu2]. rewrite sumZ_app in Humax.
    pose proof (sumZ_nonneg _ _ Hu1). pose proof (sumZ_nonneg _ _ Hu2). lia. }
  pose proof (sumZ_nonneg _ _ Hps) as Hp0. fold (total_out ps) in Hp0.
  destruct (Z.ltb_spec (0 + total_in (take k all)) (total_out ps)) as [|Hge]; [done|].
  invert_ok. rename select (fee (RecommendedFee 1) _ _ = _) into Ef.
  assert (us = take k all) as -> by (case_match; invert_ok; by simplify_eq).
  rewrite (u64_wrap_small (_ + 1)) in Ef by (unfold is_u64; lia).
  assert (0 <= x0 < 2 ^ 61) as Hx0.
  { eapply Hfee; [exact Ef| |lia]. rewrite length_take. lia. }
  exists x0, k. split_and!; try done; try lia.
  - case_match; invert_ok; by simplify_eq.
  - rewrite u64_wrap_sub_l, Z.add_0_l in E. rewrite <- Hout2 in Hval1.
    set (d := total_in (take k all) - x0 - total_out ps) in *.
    case_match; invert_ok; simplify_eq/=.
    + rewrite fmap_app, Hval1, <- app_assoc. simpl. rewrite i64_of_u64 by lia.
      case_decide as Hd; [|done]. rewrite Hd in *. done.
    + pose proof (u64_wrap_range d). unfold is_u64 in *.
      rewrite decide_True by (apply u64_wrap_zero; lia). exact Hval1.
Qed.

(** C7. An assembled transaction conserves value, for amounts below the bounds of
    [realistic] (non-negative, totals and fee below [2 ^ 61] satoshi): its outputs sum to
    its inputs less the fee for its size at the second of the two rates it asks for, its
    first outputs pay each proposal its amount in order, and its inputs spend, in order
    and with their transaction and output index, the UTXOs of a prefix of those of the
    resource, the ones it returns. *)
Theorem rawTx_conserves ps resource all tx us :
  MempoolUtxos (r_Address resource) = Ok all -> realistic ps all ->
  rawTx RecommendedFee MempoolUtxos ps resource = Ok (tx, us) ->
  exists f k, fee (RecommendedFee 1) (Z.of_nat (length us)) (Z.of_nat (length ps) + 1) = Ok f /\
    sumZ out_value (tx_out tx) = total_in us - f /\
    out_value <$> take (length ps) (tx_out tx) = (fun p => bpd_Amount (btp_Data p)) <$> ps /\
    us = take k all /\ Forall2 spends us (tx_in tx).
Proof.
  intros Hall Hr E.
  destruct (rawTx_outputs _ _ _ _ _ Hall Hr E) as (f & k & Ef & _ & Ek & Hl & _ & _ & Hv).
  exists f, k. split_and!; try done.
  - rewrite sumZ_fmap_id, Hv, !sumZ_app, sumZ_fmap, sumZ_cons, sumZ_nil.
    unfold total_out, id in *. case_decide; rewrite ?sumZ_cons, ?sumZ_nil; lia.
  - rewrite fmap_take, Hv, take_app_le, take_ge; [done|by rewrite length_fmap..].
Qed.

(** The outputs are all non-negative exactly when the UTXOs used pay for the
    proposals and the fee.  The assembly itself only requires them to pay for the
    proposals. *)
Theorem rawTx_outputs_nonneg ps resource all tx us :
  MempoolUtxos (r_Address resource) = Ok all -> realistic ps all ->
  rawTx RecommendedFee MempoolUtxos ps resource = Ok (tx, us) ->
  exists f, fee (RecommendedFee 1) (Z.of_nat (length us)) (Z.of_nat (length ps) + 1) = Ok f /\
    total_out ps <= total_in us /\
    (Forall (fun o => 0 <= out_value o) (tx_out tx) <-> total_out ps + f <= total_in us).
Proof.
  intros Hall Hr E.
  destruct (rawTx_outputs _ _ _ _ _ Hall Hr E) as (f & k & Ef & _ & _ & _ & _ & Hge & Hv).
  exists f. split_and!; [done..|].
  transitivity (Forall (fun v => 0 <= v) (out_value <$> tx_out tx)); [by rewrite Forall_fmap|].
  rewrite Hv, !Forall_app, Forall_fmap.
  destruct Hr as (Hps & _). split.
  - intros (_ & _ & Hlast). case_decide; [lia|]. apply Forall_cons_1 in Hlast as [? _]. lia.
  - intros Hle. split_and!; [done|by repeat constructor|].
    case_decide; [constructor|]. constructor; [lia|constructor].
Qed.
End conservation.

(** ** Agreement on the inputs *)

Definition utxo_key (u : Utxo) : Z * string := (u_BlockTime u, u_TxID u).

Lemma utxo_less_total a b :
  utxo_less a b = false -> utxo_less b a = false -> utxo_key a = utxo_key b.
Proof.
  unfold utxo_less, utxo_key. rewrite (Z.eqb_sym (u_BlockTime b)).
  destruct (Z.eqb_spec (u_BlockTime a) (u_BlockTime b)) as [->|]; [|lia].
  unfold String.ltb. rewrite (String.compare_antisym (u_TxID a) (u_TxID b)).
  destruct (String.compare (u_TxID b) (u_TxID a)) eqn:E; simpl; try done.
  apply String.compare_eq_iff in E. by rewrite E.
Qed.

(** Sorting leaves one order when no two elements have the same key. *)
Lemma sort_Slice_unique us us' l l' :
  us ≡ₚ us' -> NoDup (utxo_key <$> us) ->
  sort_Slice utxo_less us l -> sort_Slice utxo_less us' l' -> l = l'.
Proof.
  intros Hp Hnd [Hpl Hsl] [Hpl' Hsl'].
  apply (StronglySorted_unique_strong (fun a b => utxo_less b a = false) l l');
    [|done..|by rewrite Hpl, Hpl'].
  intros a b Ha Hb Hab Hba.
  apply (NoDup_fmap_key utxo_key us); [done|by rewrite <- Hpl|by rewrite Hp, <- Hpl'|].
  by apply utxo_less_total.
Qed.

(** Relayers whose mempool services tell them of the same UTXOs, in whatever order
    and whatever order the sort leaves ties in, spend the same ones in the same
    order, when no two of them are outputs of one transaction. *)
Theorem Utxos_agree (M M' : MempoolLib) url url' address us us' r r' :
  utxo_response (H := M) url address = Ok us -> utxo_response (H := M') url' address = Ok us' ->
  us ≡ₚ us' -> NoDup (utxo_key <$> us) ->
  Utxos (H := M) url address r -> Utxos (H := M') url' address r' ->
  r = r' /\ exists l, r = Ok l /\ l ≡ₚ us.
Proof.
  intros E E' Hp Hnd. unfold Utxos. rewrite E, E'. intros (l & -> & Hl) (l' & -> & Hl').
  rewrite <- (sort_Slice_unique us us' l l') by done.
  split; [done|]. exists l. split; [done|]. apply Hl.
Qed.

(** ** Concrete transactions *)

Module BtcTxExample.

#[export] Instance lib : BtcLib string := {|
  DecodeAddress s := Ok s;
  PayToAddrScript a := Ok (bytes_of_string a);
  NullDataScript b := Ok b;
  NewHashFromStr s := Ok (bytes_of_string s);
  Upload _ := Ok "cid";
|}.

Definition resource : Resource string :=
  {| r_Address := "vault"; r_ResourceID := be_fixed 32 1; r_Tweak := "aa"; r_Script := [] |}.

Definition transfer (amount nonce : Z) : BtcTransferProposal :=
  {| btp_Source := 1; btp_Destination := 3;
     btp_Data := {| bpd_Amount := amount; bpd_Recipient := "alice"; bpd_DepositNonce := nonce;
                    bpd_ResourceId := be_fixed 32 1 |} |}.

Definition utxo (id : string) (value time : Z) : Utxo :=
  {| u_TxID := id; u_Vout := 0; u_Value := value;
     u_Status := {| s_Confirmed := true; s_BlockHeight := 0; s_BlockHash := ""; s_BlockTime := time |} |}.

Definition economy : res (option Fee) :=
  Ok (Some {| f_FastestFee := 9; f_HalfHourFee := 8; f_MinimumFee := 1; f_EconomyFee := 5; f_HourFee := 7 |}).

(** The first UTXO covers the estimated fee of 2140 but not the final 2480. *)
Definition short : list Utxo := [utxo "a" 102200 1; utxo "b" 500000 2].
Definition enough : list Utxo := [utxo "a" 102000 1; utxo "b" 500000 2].

Definition tx_of (us : list Utxo) : res (MsgTx * list Utxo) :=
  rawTx (fun _ => economy) (fun _ => Ok us) [transfer 100000 7] resource.

Lemma realistic_example us :
  length us = 2%nat -> Forall (fun u => 0 <= u_Value u) us -> total_in us < 2 ^ 61 ->
  realistic (fun _ => economy) [transfer 100000 7] us.
Proof.
  intros Hl Hu Ht. split_and!; [repeat constructor; simpl; lia|vm_compute; done|done..|].
  intros i o f E. rewrite Hl. simpl. intros Hi Ho. unfold fee, economy in E.
  cbn [mbind outcome_bind] in E. simplify_eq.
  unfold INPUT_SIZE, OUTPUT_SIZE, FEE_ROUNDING_FACTOR.
  rewrite (u64_wrap_small (i * 180)), (u64_wrap_small (o * 34)) by (unfold is_u64; lia).
  rewrite (u64_wrap_small (i * 180 + o * 34)) by (unfold is_u64; lia).
  cbn [f_EconomyFee]. change (u64_wrap (u64_wrap (5 / 5 * 5) + 5)) with 10.
  rewrite u64_wrap_small by (unfold is_u64; lia). lia.
Qed.
End BtcTxExample.

Import BtcTxExample.

Lemma rawTx_conserves_witness :
  exists tx us f k,
    tx_of enough = Ok (tx, us) /\
    fee economy (Z.of_nat (length us)) (Z.of_nat (length [transfer 100000 7]) + 1) = Ok f /\
    sumZ out_value (tx_out tx) = total_in us - f /\ us = take k enough /\ Forall2 spends us (tx_in tx).
Proof.
  destruct (tx_of enough) as [[tx us]| |] eqn:E; [|vm_compute in E; discriminate..].
  destruct (rawTx_conserves (fun _ => economy) (fun _ => Ok enough) [transfer 100000 7] resource enough tx us)
    as (f & k & Ef & Hs & _ & Hk).
  - reflexivity.
  - apply realistic_example; [reflexivity|repeat constructor; simpl; lia|vm_compute; done].
  - exact E.
  - exists tx, us, f, k. exact (conj eq_refl (conj Ef (conj Hs Hk))).
Defined.

(** A wallet with ample funds gets a transaction with an output of -280 satoshi. *)
Lemma rawTx_outputs_nonneg_witness :
  exists tx us f,
    tx_of short = Ok (tx, us) /\
    (Forall (fun o => 0 <= out_value o) (tx_out tx)
       <-> total_out [transfer 100000 7] + f <= total_in us) /\
    out_value <$> tx_out tx = [100000; 0; -280].
Proof.
  destruct (tx_of short) as [[tx us]| |] eqn:E; [|vm_compute in E; discriminate..].
  destruct (rawTx_outputs_nonneg (fun _ => economy) (fun _ => Ok short) [transfer 100000 7] resource short tx us)
    as (f & _ & _ & Hiff).
  - reflexivity.
  - apply realistic_example; [reflexivity|repeat constructor; simpl; lia|vm_compute; done].
  - exact E.
  - exists tx, us, f. split; [reflexivity|]. split; [exact Hiff|].
    vm_compute in E. injection E as <- _. vm_compute. reflexivity.
Defined.

(** A service that knows of some UTXOs, and one whose answer is that of mempool.space:
    field names in another case, fields that are not in the type. *)
Definition utxo_doc (u : Utxo) : json :=
  JObject [("txid", JString (u_TxID u)); ("vout", JNumber (fmt_d (u_Vout u)));
           ("status", JObject [("confirmed", JBool (s_Confirmed (u_Status u)));
                               ("block_height", JNumber (fmt_d (s_BlockHeight (u_Status u))));
                               ("block_hash", JString (s_BlockHash (u_Status u)));
                               ("block_time", JNumber (fmt_d (s_BlockTime (u_Status u))))]);
           ("value", JNumber (fmt_d (u_Value u)))].
Definition mempool_of (us : list Utxo) : MempoolLib := {| http_Get _ := Ok (marshal_json (JArray (map utxo_doc us))) |}.

Example mempool_answers :
  mempool_RecommendedFee (H := {| http_Get _ := Ok (marshal_json (JObject
     [("fastestFee", JNumber "12"); ("halfHourFee", JNumber "9"); ("hourFee", JNumber "7");
      ("economyFee", JNumber "4"); ("minimumFee", JNumber "2"); ("priority", JArray [])])) |}) "u"
  = Ok (Some {| f_FastestFee := 12; f_HalfHourFee := 9; f_MinimumFee := 2; f_EconomyFee := 4; f_HourFee := 7 |}) /\
  mempool_RecommendedFee (H := {| http_Get _ := Ok (bytes_of_string "null") |}) "u" = Ok None /\
  is_ok (mempool_RecommendedFee (H := {| http_Get _ := Ok (bytes_of_string "Service Unavailable") |}) "u") = false /\
  is_ok (mempool_RecommendedFee (H := {| http_Get _ := Ok (marshal_json (JObject [("economyFee", JNumber "4.5")])) |}) "u")
  = false.
Proof. split_and!; vm_compute; reflexivity. Qed.

Lemma Utxos_agree_witness :
  sort_utxos [utxo "b" 5 2; utxo "a" 7 2; utxo "c" 9 1] = [utxo "c" 9 1; utxo "a" 7 2; utxo "b" 5 2]
  /\ forall r, Utxos (H := mempool_of [utxo "c" 9 1; utxo "b" 5 2; utxo "a" 7 2]) "u2" "vault" r ->
       Ok [utxo "c" 9 1; utxo "a" 7 2; utxo "b" 5 2] = r.
Proof.
  split; [reflexivity|]. intros r Hr.
  refine (proj1 (Utxos_agree (mempool_of [utxo "b" 5 2; utxo "a" 7 2; utxo "c" 9 1])
    (mempool_of [utxo "c" 9 1; utxo "b" 5 2; utxo "a" 7 2]) "u1" "u2" "vault"
    [utxo "b" 5 2; utxo "a" 7 2; utxo "c" 9 1] [utxo "c" 9 1; utxo "b" 5 2; utxo "a" 7 2]
    _ r eq_refl eq_refl _ _ _ Hr)).
  - symmetry. apply (Permutation_cons_append [utxo "b" 5 2; utxo "a" 7 2]).
  - apply (bool_decide_unpack _). vm_compute. done.
  - unfold Utxos. assert (utxo_response (H := mempool_of [utxo "b" 5 2; utxo "a" 7 2; utxo "c" 9 1]) "u1" "vault"
                          = Ok [utxo "b" 5 2; utxo "a" 7 2; utxo "c" 9 1]) as -> by (vm_compute; reflexivity).
    exists [utxo "c" 9 1; utxo "a" 7 2; utxo "b" 5 2]. split; [reflexivity|]. split; [|repeat constructor].
    apply NoDup_Permutation; [apply (bool_decide_unpack _); vm_compute; done..|].
    intros u. rewrite !elem_of_cons. tauto.
Defined.
