(* ===== verification/BtcExecutor.v ===== *)
(** * Bitcoin executor ([chains/btc/executor/executor.go])

    Selection of the proposals to execute under the executor's mutex, their
    grouping by resource, the signing sessions of a transaction and the watcher
    that sends it.  Transaction assembly is in [BtcTx]. *)

From S2P Require Import Prelude GoBytes GoStrings Transfer PropStore BtcTx.

#[local] Open Scope string_scope.
#[local] Open Scope list_scope.
#[local] Open Scope Z_scope.

(** The executor's shared state: the status store and [propMutex]. *)
Record exec_state (S : Type) := { es_store : S; es_locked : bool }.
Arguments es_store {S} _.
Arguments es_locked {S} _.

(** ** The mutex

    Code that takes the mutex: [None] when it waits for a mutex that is never given
    back.  An error returns at once, without what follows it. *)
Definition locking (S A : Type) : Type := exec_state S -> option (res A * exec_state S).

#[export] Instance locking_ret S : MRet (locking S) := fun A a st => Some (Ok a, st).
#[export] Instance locking_bind S : MBind (locking S) := fun A B f m st =>
  match m st with
  | Some (Ok a, st') => f a st'
  | Some (Err e, st') => Some (Err e, st')
  | Some (Panic, st') => Some (Panic, st')
  | None => None
  end.

(** [propMutex.Lock()] and [propMutex.Unlock()]; unlocking a free mutex is fatal. *)
Definition Lock {S} : locking S unit := fun st =>
  if es_locked st then None else Some (Ok tt, {| es_store := es_store st; es_locked := true |}).
Definition Unlock {S} : locking S unit := fun st =>
  if es_locked st then Some (Ok tt, {| es_store := es_store st; es_locked := false |}) else Some (Panic, st).

(** Code that works on the store. *)
Definition with_store {S A} (m : gom S A) : locking S A := fun st =>
  let (r, s') := m (es_store st) in Some (r, {| es_store := s'; es_locked := es_locked st |}).

Section selection.
Context {S : Type} `{PropStorer S}.

Definition put_status (source destination nonce : Z) (status : PropStatusT) : gom S unit := fun s =>
  match StorePropStatus source destination nonce status s with
  | (None, s') => (Ok tt, s')
  | (Some err, s') => (Err err, s')
  end.

(** [Executor.isExecuted]; the data is asserted to be a bitcoin proposal. *)
Definition btc_isExecuted (prop : Proposal) : gom S bool := fun s =>
  match as_btc_prop (p_Data prop) with
  | None => (Panic, s)
  | Some data =>
      match PropStatus (p_Source prop) (p_Destination prop) (bpd_DepositNonce data) s with
      | (_, Some err) => (Err err, s)
      | (status, None) =>
          if bool_decide (status = MissingProp) || bool_decide (status = FailedProp)
          then (Ok false, s) else (Ok true, s)
      end
  end.

(** The loop of [proposalsForExecution]. *)
Fixpoint select_loop (proposals : list Proposal) (props : list BtcTransferProposal)
    : gom S (list BtcTransferProposal) :=
  match proposals with
  | [] => mret props
  | prop :: rest =>
      executed ← btc_isExecuted prop;
      if executed : bool then select_loop rest props
      else
        data ← gom_lift (or_panic (as_btc_prop (p_Data prop)));
        _ ← put_status (p_Source prop) (p_Destination prop) (bpd_DepositNonce data) PendingProp;
        select_loop rest
          (props ++ [{| btp_Source := p_Source prop; btp_Destination := p_Destination prop;
                        btp_Data := data |}])
  end.

(** [Executor.proposalsForExecution] *)
Definition proposalsForExecution (proposals : list Proposal) : locking S (list BtcTransferProposal) :=
  _ ← Lock;
  props ← with_store (select_loop proposals []);
  _ ← Unlock;
  mret props.

(** [Executor.storeProposalsStatus]: a failed write is only logged. *)
Definition store_statuses (props : list BtcTransferProposal) (status : PropStatusT) (s : S) : S :=
  fold_left (fun s prop =>
    snd (StorePropStatus (btp_Source prop) (btp_Destination prop)
           (bpd_DepositNonce (btp_Data prop)) status s)) props s.

Definition storeProposalsStatus (props : list BtcTransferProposal) (status : PropStatusT) : locking S unit :=
  _ ← Lock;
  _ ← with_store (fun s => (Ok tt, store_statuses props status s));
  Unlock.

(** What the two amount to. *)
Lemma proposalsForExecution_eq proposals st :
  proposalsForExecution proposals st
  = if es_locked st then None
    else match select_loop proposals [] (es_store st) with
         | (Ok props, s') => Some (Ok props, {| es_store := s'; es_locked := false |})
         | (r, s') => Some (r, {| es_store := s'; es_locked := true |})
         end.
Proof.
  unfold proposalsForExecution, mbind, locking_bind, Lock, with_store. destruct (es_locked st); [done|]. cbn.
  by destruct (select_loop proposals [] (es_store st)) as [[| |] s'].
Qed.

Lemma storeProposalsStatus_eq props status st :
  storeProposalsStatus props status st
  = if es_locked st then None
    else Some (Ok tt, {| es_store := store_statuses props status (es_store st); es_locked := false |}).
Proof.
  unfold storeProposalsStatus, mbind, locking_bind, Lock, with_store. by destruct (es_locked st).
Qed.
End selection.

(** ** Sending a signed transaction *)

(** [signing.Signature]: the index of the input it signs and the signature. *)
Record Signature := { sg_Id : Z; sg_Signature : bytes }.

Definition signaturesFilled (signatures : list bytes) : bool :=
  forallb (fun signature => negb (bool_decide (length signature = O))) signatures.

(** [tx.TxIn[i].Witness = wire.TxWitness{sig}] for every signature. *)
Definition with_witnesses (tx : MsgTx) (signatures : list bytes) : MsgTx :=
  {| tx_in := zip_with (fun i sig => {| in_hash := in_hash i; in_index := in_index i;
                                        in_witness := sig |}) (tx_in tx) signatures;
     tx_out := tx_out tx |}.

(** What the node answers to a transaction. *)
Inductive node_answer :=
| Accepted (hash : bytes)
| Refused (err : error).

(** Serializing to a buffer does not fail. *)
Definition sendTx (SendRawTransaction : MsgTx -> node_answer) (tx : MsgTx) (signatures : list bytes)
    : node_answer :=
  SendRawTransaction (with_witnesses tx signatures).

Inductive btc_event :=
| BtcSigResult (sigResult : option Signature) (SendRawTransaction : MsgTx -> node_answer)
| BtcTimeout
| BtcCtxDone.

Inductive btc_action :=
| BtcCancelExecution
| BtcSend (tx : MsgTx) (answer : node_answer)
| BtcBroadcastTssFail (sessionID : string).

(** The watcher: the signatures received so far, the executor's state, what it
    did, and whether it returned or is blocked on the mutex. *)
Inductive btc_status := BtcRunning | BtcBlocked | BtcReturned (r : res unit).

Record btc_watcher (S : Type) := {
  bw_signatures : list bytes;
  bw_exec : exec_state S;
  bw_actions : list btc_action;
  bw_status : btc_status;
}.
Arguments bw_signatures {S} _.
Arguments bw_exec {S} _.
Arguments bw_actions {S} _.
Arguments bw_status {S} _.

Section watching.
Context {S : Type} `{PropStorer S}.
Context (tx : MsgTx) (proposals : list BtcTransferProposal) (sessionID : string).

Definition btc_watch_start (st : exec_state S) : btc_watcher S :=
  {| bw_signatures := replicate (length (tx_in tx)) []; bw_exec := st; bw_actions := [];
     bw_status := BtcRunning |}.

(** [return r] after the actions [acts]: the deferred [cancelExecution] runs. *)
Definition btc_return (w : btc_watcher S) (acts : list btc_action) (st : exec_state S)
    (r : res unit) : btc_watcher S :=
  {| bw_signatures := bw_signatures w; bw_exec := st;
     bw_actions := bw_actions w ++ acts ++ [BtcCancelExecution]; bw_status := BtcReturned r |}.

(** Record the statuses, then return; blocked when the mutex is held. *)
Definition store_and_return (w : btc_watcher S) (acts : list btc_action) (status : PropStatusT)
    (r : res unit) : btc_watcher S :=
  match storeProposalsStatus proposals status (bw_exec w) with
  | None => {| bw_signatures := bw_signatures w; bw_exec := bw_exec w;
               bw_actions := bw_actions w ++ acts; bw_status := BtcBlocked |}
  | Some (_, st) => btc_return w acts st r
  end.

(** All signatures are there: send the transaction and record the outcome. *)
Definition send_signed (w : btc_watcher S) (SendRawTransaction : MsgTx -> node_answer)
    : btc_watcher S :=
  let answer := sendTx SendRawTransaction tx (bw_signatures w) in
  let acts := [BtcCancelExecution; BtcSend (with_witnesses tx (bw_signatures w)) answer] in
  match answer with
  | Accepted hash => store_and_return w acts ExecutedProp (Ok tt)
  | Refused err => store_and_return w (acts ++ [BtcBroadcastTssFail sessionID]) FailedProp (Err err)
  end.

Definition btc_watchExecution (w : btc_watcher S) (ev : btc_event) : btc_watcher S :=
  match bw_status w with
  | BtcRunning =>
      match ev with
      | BtcSigResult None _ => w
      | BtcSigResult (Some signatureData) send =>
          let i := sg_Id signatureData in
          if (0 <=? i) && (i <? Z.of_nat (length (bw_signatures w))) then
            let w' := {| bw_signatures :=
                           <[Z.to_nat i := sg_Signature signatureData]> (bw_signatures w);
                         bw_exec := bw_exec w; bw_actions := bw_actions w;
                         bw_status := BtcRunning |} in
            if signaturesFilled (bw_signatures w') then send_signed w' send else w'
          else btc_return w [] (bw_exec w) Panic
      | BtcTimeout => btc_return w [] (bw_exec w) (Err "execution timed out in 30m0s")
      | BtcCtxDone => btc_return w [] (bw_exec w) (Ok tt)
      end
  | _ => w
  end.
End watching.

(** ** Sessions of a transaction and grouping by resource *)

(** A signing process of one input; its session is named after its hash. *)
Record SigningProcess := {
  sp_id : nat;
  sp_msg : bytes;
  sp_tweak : string;
  sp_messageID : string;
  sp_sessionID : string;
}.

Section execute.
Context {Address : Type} `{BtcLib Address}.
(** btcd's [CalcTaprootSignatureHash] over the previous outputs. *)
Context (CalcTaprootSignatureHash : MsgTx -> list ((bytes * Z) * TxOut) -> nat -> res bytes).

(** The answers the goroutine of a resource gets: of the mempool service, and of
    [NewSigning] for each input, which reads the key share and derives the key. *)
Record resource_env := {
  env_fee : nat -> res (option Fee);
  env_utxos : Address -> res (list Utxo);
  env_NewSigning : nat -> res unit;
}.

(** The entries written to the [prevOuts] map. *)
Fixpoint prev_outs (utxos : list Utxo) (script : bytes) : res (list ((bytes * Z) * TxOut)) :=
  match utxos with
  | [] => Ok []
  | utxo :: rest =>
      hash ← NewHashFromStr (u_TxID utxo);
      outs ← prev_outs rest script;
      Ok (((hash, u_Vout utxo), {| out_value := i64_wrap (u_Value utxo); out_script := script |})
            :: outs)
  end.

(** One signing process for each of the inputs [i], [i + 1], ... *)
Fixpoint signing_processes (NewSigning : nat -> res unit) (tx : MsgTx) (prevOuts : list ((bytes * Z) * TxOut))
    (tweak messageID : string) (i : nat) (ins : list TxIn) : res (list SigningProcess) :=
  match ins with
  | [] => Ok []
  | _ :: rest =>
      signingHash ← CalcTaprootSignatureHash tx prevOuts i;
      _ ← NewSigning i;
      procs ← signing_processes NewSigning tx prevOuts tweak messageID (S i) rest;
      Ok ({| sp_id := i; sp_msg := signingHash; sp_tweak := tweak; sp_messageID := messageID;
             sp_sessionID := hex_encode signingHash |} :: procs)
  end.

Record ResourceExecution := {
  re_tx : MsgTx;
  re_proposals : list BtcTransferProposal;
  re_sessionID : string;
  re_processes : list SigningProcess;
}.

(** The watcher runs from the moment the transaction is assembled.  An error after that
    ends its context by the deferred [cancelWatch]; it has no signature by then
    ([watcher_without_signatures]). *)
Definition executeResourceProps (env : resource_env) (props : list BtcTransferProposal) (resource : Resource Address)
    (messageID : string) : res ResourceExecution :=
  '(tx, utxos) ← rawTx (env_fee env) (env_utxos env) props resource;
  let sessionID := messageID +:+ "-" +:+ hex_encode (r_ResourceID resource) in
  prevOuts ← prev_outs utxos (r_Script resource);
  procs ← signing_processes (env_NewSigning env) tx prevOuts (r_Tweak resource) messageID 0 (tx_in tx);
  Ok {| re_tx := tx; re_proposals := props; re_sessionID := sessionID; re_processes := procs |}.

(** [propsPerResource[id] = append(propsPerResource[id], prop)] *)
Definition propsPerResource (props : list BtcTransferProposal)
    : gmap bytes (list BtcTransferProposal) :=
  fold_left (fun groups prop =>
    let id := bpd_ResourceId (btp_Data prop) in
    <[id := default [] (groups !! id) ++ [prop]]> groups) props ∅.

(** The goroutines [Execute] starts, in the map's order, each with the answers it gets;
    their errors are joined. *)
Definition btc_Execute {S} `{PropStorer S} (envs : bytes -> resource_env) (resources : gmap bytes (Resource Address))
    (proposals : list Proposal) (st : exec_state S)
    : option (res (list (res ResourceExecution)) * exec_state S) :=
  match proposals with
  | [] => Some (Panic, st)
  | first :: _ =>
      match proposalsForExecution proposals st with
      | None => None
      | Some (Ok props, st') =>
          Some (Ok ((fun '(resourceID, ps) =>
                       match resources !! resourceID with
                       | None => Err ("no resource for ID " +:+ hex_encode resourceID)
                       | Some resource => executeResourceProps (envs resourceID) ps resource (p_MessageID first)
                       end) <$> map_to_list (propsPerResource props)), st')
      | Some (Err e, st') => Some (Err e, st')
      | Some (Panic, st') => Some (Panic, st')
      end
  end.
End execute.
Arguments resource_env _ : clear implicits.
Arguments env_fee {Address} _.
Arguments env_utxos {Address} _.
Arguments env_NewSigning {Address} _.

(** ** Selection *)

Abbreviation deposit_key := (Z * Z * Z)%type.

Definition btp_key (p : BtcTransferProposal) : deposit_key :=
  (btp_Source p, btp_Destination p, bpd_DepositNonce (btp_Data p)).

Definition valid_deposit (k : deposit_key) : Prop := valid_key k.1.1 k.1.2 k.2.

Section selection_spec.
Context {S : Type} `{PS : PropStorer S, PSS : !PropStorerSpec S}.

Definition status_of (s : S) (k : deposit_key) : PropStatusT * option error :=
  PropStatus k.1.1 k.1.2 k.2 s.

Definition selectable (s : S) (k : deposit_key) : Prop :=
  status_of s k = (MissingProp, None) \/ status_of s k = (FailedProp, None).

(** A bitcoin proposal with the field widths of the code. *)
Definition wf_prop (prop : Proposal) : Prop :=
  exists d, p_Data prop = BtcPropData d /\
            valid_deposit (p_Source prop, p_Destination prop, bpd_DepositNonce d).

Definition prop_key (prop : Proposal) : deposit_key :=
  (p_Source prop, p_Destination prop,
   match p_Data prop with BtcPropData d => bpd_DepositNonce d | _ => 0 end).

Lemma pending_not_selectable s k : status_of s k = (PendingProp, None) -> ~ selectable s k.
Proof. unfold selectable. intros -> [|]; done. Qed.

Lemma btc_isExecuted_spec prop s b s' :
  wf_prop prop -> btc_isExecuted prop s = (Ok b, s') ->
  s' = s /\ (b = false <-> selectable s (prop_key prop)).
Proof.
  intros (d & Hd & _). unfold btc_isExecuted, selectable, prop_key, status_of. rewrite Hd. simpl.
  destruct (PropStatus _ _ _ s) as [status [err|]]; [done|].
  destruct (bool_decide_reflect (status = MissingProp)) as [->|H1]; simpl;
    [intros; simplify_eq; naive_solver|].
  destruct (bool_decide_reflect (status = FailedProp)) as [->|H2]; intros; simplify_eq;
    naive_solver.
Qed.

(** Marking one deposit pending. *)
Lemma put_status_spec k s s' :
  valid_deposit k -> put_status k.1.1 k.1.2 k.2 PendingProp s = (Ok tt, s') ->
  status_of s' k = (PendingProp, None) /\
  (forall k', valid_deposit k' -> k' <> k -> status_of s' k' = status_of s k').
Proof.
  intros Hk. unfold put_status, status_of.
  destruct (StorePropStatus _ _ _ _ s) as [[err|] s1] eqn:E; intros [= <-]. split.
  - by eapply PropStatus_store_eq.
  - intros k' Hk' Hne. eapply PropStatus_store_ne; [exact Hk|exact Hk'| |exact E].
    destruct k as [[??]?], k' as [[??]?]. naive_solver.
Qed.

(** What a run of the loop selects and what it does to the store. *)
Definition selection (s s' : S) (chosen : list BtcTransferProposal) : Prop :=
  NoDup (btp_key <$> chosen) /\
  (forall k, k ∈ btp_key <$> chosen ->
     valid_deposit k /\ selectable s k /\ status_of s' k = (PendingProp, None)) /\
  (forall k, valid_deposit k -> k ∉ btp_key <$> chosen -> status_of s' k = status_of s k).

Lemma selection_nil s : selection s s [].
Proof. split_and!; [constructor|by intros k ?%not_elem_of_nil|done]. Qed.

Lemma selection_cons s s1 s' p chosen :
  valid_deposit (btp_key p) -> selectable s (btp_key p) ->
  status_of s1 (btp_key p) = (PendingProp, None) ->
  (forall k, valid_deposit k -> k <> btp_key p -> status_of s1 k = status_of s k) ->
  selection s1 s' chosen -> selection s s' (p :: chosen).
Proof.
  intros Hv Hs Hp Hf (Hnd & Hin & Hout).
  assert (btp_key p ∉ btp_key <$> chosen) as Hnp.
  { intros (_ & Hsel & _)%Hin. by apply (pending_not_selectable s1 (btp_key p)). }
  split_and!.
  - rewrite fmap_cons. by apply list.NoDup_cons.
  - rewrite fmap_cons. intros k [->|Hk]%elem_of_cons.
    + split_and!; [done|done|]. by rewrite Hout.
    + destruct (Hin k Hk) as (Hvk & Hsk & Hpk). split_and!; [done| |done].
      unfold selectable in *. rewrite Hf in Hsk; [done|done|]. by intros ->.
  - rewrite fmap_cons. intros k Hvk [Hne Hnk]%not_elem_of_cons.
    rewrite Hout by done. by apply Hf.
Qed.

Lemma select_loop_spec ps acc s l s' :
  Forall wf_prop ps -> select_loop ps acc s = (Ok l, s') ->
  exists chosen, l = acc ++ chosen /\ selection s s' chosen /\
    (forall prop, prop ∈ ps -> selectable s (prop_key prop) ->
                  prop_key prop ∈ btp_key <$> chosen).
Proof.
  intros Hps. revert acc s. induction Hps as [|prop ps Hp Hps IH]; intros acc s E; simpl in E.
  { injection E as <- <-. exists []. split_and!; [by rewrite app_nil_r|apply selection_nil|].
    by intros ? ?%not_elem_of_nil. }
  apply gom_bind_Ok in E as (b & s0 & Ee & E).
  destruct (btc_isExecuted_spec _ _ _ _ Hp Ee) as [-> Hb]. destruct b.
  - destruct (IH _ _ E) as (chosen & -> & Hsel & Hall). exists chosen. split_and!; [done..|].
    intros q [->|Hq]%elem_of_cons Hs; [by apply Hb in Hs|by apply Hall].
  - apply proj1 in Hb. specialize (Hb eq_refl). destruct Hp as (d & Hd & Hv).
    unfold prop_key in Hb. rewrite Hd in E, Hb. simpl in E.
    apply gom_bind_Ok in E as (x & s1 & Ex & E). injection Ex as <- <-.
    apply gom_bind_Ok in E as ([] & s1 & Eput & E).
    apply (put_status_spec (p_Source prop, p_Destination prop, bpd_DepositNonce d)) in Eput
      as [Hpend Hframe]; [|done].
    destruct (IH _ _ E) as (chosen & -> & Hsel & Hall).
    eexists (_ :: chosen). split_and!; [by rewrite <- app_assoc|by eapply selection_cons|].
    intros q Hq Hs. rewrite fmap_cons.
    destruct (decide (prop_key q = (p_Source prop, p_Destination prop, bpd_DepositNonce d)))
      as [->|Hne]; [by left|].
    apply elem_of_cons in Hq as [->|Hq]; [unfold prop_key in Hne; by rewrite Hd in Hne|].
    right. apply Hall; [done|]. unfold selectable in *. rewrite Hframe; [done| |done].
    rewrite list.Forall_forall in Hps. destruct (Hps q Hq) as (d' & Hd' & Hv').
    unfold prop_key. by rewrite Hd'.
Qed.

(** C2. Selection never hands out a deposit twice: the deposits a call selects
    were missing or failed, are pairwise different, and are pending afterwards, so
    that no deposit selected by one call is selected by a call that follows it;
    every deposit of the list that was missing or failed is selected; the statuses
    of other deposits do not change. *)
Theorem proposalsForExecution_once ps st l st' :
  Forall wf_prop ps ->
  proposalsForExecution ps st = Some (Ok l, st') ->
  selection (es_store st) (es_store st') l /\
  (forall prop, prop ∈ ps -> selectable (es_store st) (prop_key prop) ->
                prop_key prop ∈ btp_key <$> l) /\
  (forall ps' l' st'', Forall wf_prop ps' ->
     proposalsForExecution ps' st' = Some (Ok l', st'') ->
     forall p p', p ∈ l -> p' ∈ l' -> btp_key p <> btp_key p').
Proof.
  rewrite proposalsForExecution_eq. intros Hps E. destruct (es_locked st); [done|].
  destruct (select_loop ps [] (es_store st)) as [[l1| |] s1] eqn:El; simplify_eq/=.
  apply select_loop_spec in El as (chosen & -> & Hsel & Hall); [|done]. simpl.
  split_and!; [done..|].
  intros ps' l' st'' Hps' E'. rewrite proposalsForExecution_eq in E'. simpl in E'.
  destruct (select_loop ps' [] s1) as [[l2| |] s2] eqn:El2; simplify_eq/=.
  apply select_loop_spec in El2 as (chosen' & -> & (_ & Hin' & _) & _); [|done]. simpl.
  intros p p' Hp Hp' Heq. destruct Hsel as (_ & Hin & _).
  destruct (Hin (btp_key p)) as (_ & _ & Hpend); [by apply list_elem_of_fmap_2|].
  destruct (Hin' (btp_key p')) as (_ & Hs & _); [by apply list_elem_of_fmap_2|].
  rewrite <- Heq in Hs. by eapply pending_not_selectable.
Qed.
End selection_spec.

(** ** Calls that share the mutex *)

Section mutex.
Context {S : Type} `{PS : PropStorer S}.

(** A call of [proposalsForExecution] or of [storeProposalsStatus], and how it ends: it
    waits for ever, or returns with success or without. *)
Inductive mutex_call :=
| SelectProps (proposals : list Proposal)
| StoreStatus (props : list BtcTransferProposal) (status : PropStatusT).

Inductive call_end := Waits | Returns (ok : bool).

Definition end_of {A} (r : option (res A * exec_state S)) (st : exec_state S) : call_end * exec_state S :=
  match r with
  | None => (Waits, st)
  | Some (r, st') => (Returns (is_ok r), st')
  end.

Definition call (c : mutex_call) (st : exec_state S) : call_end * exec_state S :=
  match c with
  | SelectProps proposals => end_of (proposalsForExecution proposals st) st
  | StoreStatus props status => end_of (storeProposalsStatus props status st) st
  end.

Fixpoint mutex_calls (cs : list mutex_call) (st : exec_state S) : list call_end * exec_state S :=
  match cs with
  | [] => ([], st)
  | c :: rest => let (e, st1) := call c st in let (es, st2) := mutex_calls rest st1 in (e :: es, st2)
  end.

Lemma call_locked c st : es_locked st = true -> call c st = (Waits, st).
Proof.
  intros Hl. destruct c; cbn; rewrite ?proposalsForExecution_eq, ?storeProposalsStatus_eq, Hl; done.
Qed.

Lemma calls_locked cs st : es_locked st = true -> mutex_calls cs st = (replicate (length cs) Waits, st).
Proof. intros Hl. induction cs as [|c cs IH]; cbn; [done|]. by rewrite call_locked, IH. Qed.

Lemma call_free c st : es_locked st = false ->
  exists ok st', call c st = (Returns ok, st') /\ es_locked st' = negb ok.
Proof.
  intros Hf. destruct c; cbn; rewrite ?proposalsForExecution_eq, ?storeProposalsStatus_eq, Hf.
  - destruct (select_loop _ _ _) as [[| |] s']; cbn; by eexists _, _.
  - by eexists true, _.
Qed.

(** C11. The mutex of the executor over any sequence of selections and recordings of
    statuses, from a free mutex: the calls return with success one after the other until
    a selection fails; from then on every call of either kind waits for ever and the
    statuses do not change any more; and as long as none fails the mutex is free. *)
Theorem proposalsForExecution_mutex cs (st : exec_state S) :
  es_locked st = false ->
  (mutex_calls cs st).1 = replicate (length cs) (Returns true) /\ es_locked (mutex_calls cs st).2 = false \/
  exists before ps later st1, cs = before ++ SelectProps ps :: later /\
    mutex_calls (before ++ [SelectProps ps]) st = (replicate (length before) (Returns true) ++ [Returns false], st1) /\
    (mutex_calls cs st).1 = replicate (length before) (Returns true) ++ [Returns false] ++ replicate (length later) Waits /\
    (mutex_calls cs st).2 = st1 /\ es_locked st1 = true.
Proof.
  revert st. induction cs as [|c cs IH]; intros st Hf; [by left|]. cbn.
  destruct (call_free c st Hf) as (ok & st1 & E & Hl). rewrite E. destruct ok.
  - destruct (IH st1 Hl) as [[Hr Hfree]|(l & ps & later & st2 & -> & E2 & Hr & Hs & Hlk)].
    + left. destruct (mutex_calls cs st1) as [es st2]. cbn in *. by rewrite Hr.
    + right. exists (c :: l), ps, later, st2. split; [done|]. cbn. rewrite E, E2. cbn.
      destruct (mutex_calls (l ++ SelectProps ps :: later) st1) as [es st3]. cbn in *. by rewrite Hr, Hs.
  - right. destruct c as [ps|props status].
    + exists [], ps, cs, st1. rewrite (calls_locked cs st1 Hl). cbn in E |- *. rewrite E. split_and!; done.
    + cbn in E. rewrite storeProposalsStatus_eq, Hf in E. done.
Qed.
End mutex.

(** ** The watcher *)

Section watcher_spec.
Context {S : Type} `{PS : PropStorer S}.
Context (tx : MsgTx) (proposals : list BtcTransferProposal) (sessionID : string).
Context (st : exec_state S).

Abbreviation run := (run_events (btc_watchExecution tx proposals sessionID) (btc_watch_start tx st)).

(** The transactions sent, with the answers of the node. *)
Definition sends (acts : list btc_action) : list (MsgTx * node_answer) :=
  omap (fun a => match a with BtcSend t answer => Some (t, answer) | _ => None end) acts.

(** The signatures held are those received, each for its own input. *)
Definition received (evs : list btc_event) (sigs : list bytes) : Prop :=
  length sigs = length (tx_in tx) /\
  forall i sig, sigs !! i = Some sig -> sig <> [] ->
    exists send, BtcSigResult (Some {| sg_Id := Z.of_nat i; sg_Signature := sig |}) send ∈ evs.

(** The state the executor is left in. *)
Definition recorded (status : PropStatusT) : exec_state S :=
  {| es_store := store_statuses proposals status (es_store st); es_locked := false |}.

(** The one transaction that was sent is the signed one, and [answer] is what the node
    said to it when the last signature came. *)
Definition sent (evs : list btc_event) (w : btc_watcher S) (answer : node_answer) : Prop :=
  sends (bw_actions w) = [(with_witnesses tx (bw_signatures w), answer)] /\
  signaturesFilled (bw_signatures w) = true /\
  exists sd send, BtcSigResult (Some sd) send ∈ evs /\ send (with_witnesses tx (bw_signatures w)) = answer.

Definition settled (evs : list btc_event) (w : btc_watcher S) : Prop :=
  match bw_status w with
  | BtcRunning => bw_actions w = [] /\ bw_exec w = st
  | BtcBlocked => es_locked st = true /\ bw_exec w = st /\ exists answer, sent evs w answer
  | BtcReturned Panic =>
      sends (bw_actions w) = [] /\ bw_exec w = st /\
      exists sd send, BtcSigResult (Some sd) send ∈ evs /\ ~ 0 <= sg_Id sd < Z.of_nat (length (tx_in tx))
  | BtcReturned (Ok _) =>
      (sends (bw_actions w) = [] /\ BtcCtxDone ∈ evs /\ bw_exec w = st) \/
      (es_locked st = false /\ (exists hash, sent evs w (Accepted hash)) /\ bw_exec w = recorded ExecutedProp)
  | BtcReturned (Err err) =>
      (sends (bw_actions w) = [] /\ BtcTimeout ∈ evs /\ bw_exec w = st) \/
      (es_locked st = false /\ sent evs w (Refused err) /\
       BtcBroadcastTssFail sessionID ∈ bw_actions w /\ bw_exec w = recorded FailedProp)
  end.

Lemma received_snoc evs ev sigs : received evs sigs -> received (evs ++ [ev]) sigs.
Proof.
  intros [Hl Hr]. split; [done|]. intros i sig Hi Hne. destruct (Hr i sig Hi Hne) as [send Hs].
  exists send. set_solver.
Qed.

Lemma received_insert evs sigs sd send :
  received evs sigs -> 0 <= sg_Id sd ->
  received (evs ++ [BtcSigResult (Some sd) send])
    (<[Z.to_nat (sg_Id sd) := sg_Signature sd]> sigs).
Proof.
  intros [Hl Hr] Hi. split; [by rewrite length_insert|]. intros i sig.
  destruct (decide (i = Z.to_nat (sg_Id sd))) as [->|Hne].
  - intros Hs%list_lookup_insert_Some Hne. exists send. destruct Hs as [(_ & <- & _)|[? _]]; [|done].
    rewrite Z2Nat.id by done. destruct sd. set_solver.
  - rewrite list_lookup_insert_ne by done. intros Hs Hn. destruct (Hr i sig Hs Hn) as [send' ?].
    exists send'. set_solver.
Qed.

Lemma sent_snoc evs ev w answer : sent evs w answer -> sent (evs ++ [ev]) w answer.
Proof.
  intros (Hs & Hf & sd & send & Hev & Ha). split_and!; [done..|]. exists sd, send. split; [|done].
  apply elem_of_app. by left.
Qed.

Lemma settled_snoc evs ev w :
  bw_status w <> BtcRunning -> settled evs w -> settled (evs ++ [ev]) w.
Proof.
  pose proof (fun answer => sent_snoc evs ev w answer) as Hs.
  assert (forall x, x ∈ evs -> x ∈ evs ++ [ev]) as Hin by (intros; apply elem_of_app; by left).
  unfold settled. destruct (bw_status w) as [| |[]]; try done; intros _; naive_solver.
Qed.

Lemma send_signed_settled evs w sd send :
  bw_actions w = [] -> bw_exec w = st -> signaturesFilled (bw_signatures w) = true ->
  BtcSigResult (Some sd) send ∈ evs ->
  settled evs (send_signed tx proposals sessionID w send) /\
  bw_signatures (send_signed tx proposals sessionID w send) = bw_signatures w.
Proof.
  intros Ha He Hf Hev. unfold send_signed, store_and_return. rewrite !storeProposalsStatus_eq, He.
  assert (forall w' answer, bw_signatures w' = bw_signatures w ->
    sends (bw_actions w') = [(with_witnesses tx (bw_signatures w), answer)] ->
    sendTx send tx (bw_signatures w) = answer -> sent evs w' answer) as Hsent.
  { intros w' answer Es Hs Hans. unfold sent. rewrite Es. split_and!; [done..|]. by exists sd, send. }
  destruct (sendTx send tx (bw_signatures w)) as [hash|err] eqn:Es; destruct (es_locked st) eqn:El;
    (split; [|done]); unfold settled; cbn.
  - split_and!; [done..|]. eexists. eapply Hsent; cbn; by rewrite ?Ha.
  - right. split_and!; [done| |done]. exists hash. eapply Hsent; cbn; by rewrite ?Ha.
  - split_and!; [done..|]. eexists. eapply Hsent; cbn; by rewrite ?Ha.
  - right. split_and!; [done| | |done].
    + eapply Hsent; cbn; by rewrite ?Ha.
    + rewrite Ha. set_solver.
Qed.

Lemma run_settled evs : settled evs (run evs) /\ received evs (bw_signatures (run evs)).
Proof.
  induction evs as [|ev evs [IHs IHr]] using rev_ind.
  { split; [done|]. split; [apply length_replicate|].
    intros i sig Hi. simpl in Hi. by apply lookup_replicate in Hi as [-> _]. }
  rewrite run_events_app. simpl. generalize dependent (run evs). intros w IHs IHr.
  unfold btc_watchExecution. destruct (bw_status w) eqn:Est.
  2,3: split; [apply settled_snoc; [by rewrite Est|done]|by apply received_snoc].
  unfold settled in IHs. rewrite Est in IHs. destruct IHs as [Ha He].
  assert (ev ∈ evs ++ [ev]) as Hev by set_solver.
  destruct ev as [[sd|] send| |].
  - destruct ((0 <=? sg_Id sd) && (sg_Id sd <? Z.of_nat (length (bw_signatures w)))) eqn:Hi.
    2: { split; [|by apply received_snoc]. unfold settled. cbn. rewrite Ha. split_and!; [done..|].
         exists sd, send. split; [done|]. destruct IHr as [<- _]. lia. }
    assert (received (evs ++ [BtcSigResult (Some sd) send])
              (<[Z.to_nat (sg_Id sd) := sg_Signature sd]> (bw_signatures w))) as Hr'
      by (apply received_insert; [done|lia]).
    simpl. case_match; [|by split].
    edestruct (send_signed_settled (evs ++ [BtcSigResult (Some sd) send])) as [Hs' Hsig];
      [..|split; [exact Hs'|by rewrite Hsig]]; done.
  - split; [unfold settled; by rewrite Est|by apply received_snoc].
  - split; [|by apply received_snoc]. unfold settled. simpl. rewrite Ha. by left.
  - split; [|by apply received_snoc]. unfold settled. simpl. rewrite Ha. by left.
Qed.

(** Without a signature nothing is sent and the executor stays as it is. *)
Lemma watcher_without_signatures evs :
  (forall sd send, BtcSigResult (Some sd) send ∉ evs) ->
  sends (bw_actions (run evs)) = [] /\ bw_exec (run evs) = st.
Proof.
  intros Hno. destruct (run_settled evs) as [Hs _]. unfold settled, sent in Hs.
  destruct (bw_status (run evs)) as [| |[]]; [destruct Hs as [-> ?]|..]; naive_solver.
Qed.

Lemma filled_each sigs i sig : signaturesFilled sigs = true -> sigs !! i = Some sig -> sig <> [].
Proof.
  unfold signaturesFilled. rewrite forallb_forall. intros Hf Hi ->.
  specialize (Hf [] (proj1 (list_elem_of_In _ _) (list_elem_of_lookup_2 _ _ _ Hi))).
  by rewrite bool_decide_true in Hf.
Qed.

(** C9. Whatever the watcher of a transaction receives: it sends at most one
    transaction, and only one that has for every input the non-empty signature received
    for that input and the unsigned outputs.  If the node accepted the transaction, its
    proposals are recorded executed and the watcher returns without error; if the node
    refused it, they are recorded failed, the other relayers are told and the node's error
    is returned; if nothing was sent, the executor is left as it was, and the watcher has
    not returned, or its context or its time ended, or it panicked on a signature for an
    input that does not exist.  Where a failed selection has kept the mutex, the watcher
    waits for ever after the transaction is sent and records nothing. *)
Theorem btc_watchExecution_sound evs :
  settled evs (run evs) /\
  forall t answer, (t, answer) ∈ sends (bw_actions (run evs)) ->
    tx_out t = tx_out tx /\ length (tx_in t) = length (tx_in tx) /\
    forall i inp, tx_in t !! i = Some inp ->
      in_witness inp <> [] /\
      exists send, BtcSigResult (Some {| sg_Id := Z.of_nat i; sg_Signature := in_witness inp |}) send
                   ∈ evs.
Proof.
  destruct (run_settled evs) as [Hs [Hl Hr]]. split; [done|]. intros t answer Ht.
  assert (exists answer, sent evs (run evs) answer) as (answer' & Hsent & Hf & _).
  { unfold settled in Hs. destruct (bw_status (run evs)) as [| |[]].
    - destruct Hs as [Ha _]. rewrite Ha in Ht. by apply not_elem_of_nil in Ht.
    - naive_solver.
    - destruct Hs as [[Ha _]|(_ & (hash & ?) & _)]; [|by eauto]. rewrite Ha in Ht. by apply not_elem_of_nil in Ht.
    - destruct Hs as [[Ha _]|(_ & ? & _)]; [|by eauto]. rewrite Ha in Ht. by apply not_elem_of_nil in Ht.
    - destruct Hs as [Ha _]. rewrite Ha in Ht. by apply not_elem_of_nil in Ht. }
  rewrite Hsent in Ht. apply list_elem_of_singleton in Ht. injection Ht as -> _.
  split; [done|]. split; [simpl; rewrite length_zip_with; lia|].
  intros i inp. simpl. rewrite lookup_zip_with_Some. intros (x & sig & -> & _ & Hsig). simpl.
  assert (sig <> []) by (by eapply filled_each). eauto.
Qed.
End watcher_spec.

(** ** Grouping and sessions *)

Section grouping.

Definition of_resource (id : bytes) (p : BtcTransferProposal) : Prop :=
  bpd_ResourceId (btp_Data p) = id.
#[export] Instance of_resource_dec id p : Decision (of_resource id p).
Proof. unfold of_resource. apply _. Defined.

Lemma propsPerResource_snoc ps p :
  propsPerResource (ps ++ [p])
  = <[bpd_ResourceId (btp_Data p) :=
        default [] (propsPerResource ps !! bpd_ResourceId (btp_Data p)) ++ [p]]>
      (propsPerResource ps).
Proof. unfold propsPerResource. by rewrite fold_left_app. Qed.

(** A group holds the proposals of its resource in their order. *)
Lemma propsPerResource_lookup ps id :
  propsPerResource ps !! id
  = match filter (of_resource id) ps with [] => None | l => Some l end.
Proof.
  induction ps as [|p ps IH] using rev_ind; [done|].
  rewrite propsPerResource_snoc, list.filter_app.
  destruct (decide (bpd_ResourceId (btp_Data p) = id)) as [<-|Hne].
  - rewrite lookup_insert_eq, IH, filter_cons_True by done.
    by destruct (filter (of_resource (bpd_ResourceId (btp_Data p))) ps).
  - rewrite lookup_insert_ne, IH, filter_cons_False, filter_nil, app_nil_r by done. done.
Qed.
End grouping.

Section sessions.
Context {Address : Type} `{BL : BtcLib Address}.
Context (CalcTaprootSignatureHash : MsgTx -> list ((bytes * Z) * TxOut) -> nat -> res bytes).

Lemma signing_processes_spec NewSigning tx prevOuts tweak messageID i ins procs :
  signing_processes CalcTaprootSignatureHash NewSigning tx prevOuts tweak messageID i ins = Ok procs ->
  sp_id <$> procs = seq i (length ins) /\
  Forall (fun p => CalcTaprootSignatureHash tx prevOuts (sp_id p) = Ok (sp_msg p) /\
                   sp_sessionID p = hex_encode (sp_msg p)) procs.
Proof.
  revert i procs. induction ins as [|inp ins IH]; intros i procs E; simpl in E.
  { simplify_eq. by split. }
  invert_ok. simplify_eq. rename select (signing_processes _ _ _ _ _ _ _ _ = _) into Hrest.
  destruct (IH _ _ Hrest) as [Hi Hf]. split.
  - rewrite fmap_cons, Hi. done.
  - by constructor.
Qed.

(** The session named in the failure message of a watcher is none of the sessions
    the inputs are signed in: one holds a dash, the others are hexadecimal. *)
Lemma fail_session_unknown env props resource messageID e :
  executeResourceProps CalcTaprootSignatureHash env props resource messageID = Ok e ->
  Forall (fun p => sp_sessionID p <> re_sessionID e) (re_processes e).
Proof.
  unfold executeResourceProps. intros E. invert_ok. destruct x as [tx us]. invert_ok. simplify_eq.
  rename select (signing_processes _ _ _ _ _ _ _ _ = _) into Hp. apply signing_processes_spec in Hp as [_ Hf]. eapply list.Forall_impl; [exact Hf|].
  intros p [_ ->] Heq. pose proof (hex_encode_lacks_dash (sp_msg p)) as Hl. simpl in Heq.
  rewrite Heq, !lacks_app in Hl. apply andb_prop in Hl as [_ Hl]. by apply andb_prop in Hl as [Hl _].
Qed.

(** Execution of a batch of proposals: the goroutines that are started
    partition the selected proposals by resource, each resource getting its
    proposals in their order; a resource's transaction has one signing process for
    each input, over that input's signature hash. *)
Theorem btc_Execute_groups {S} `{PropStorer S} envs resources ps (st st' : exec_state S) tasks :
  btc_Execute CalcTaprootSignatureHash envs resources ps st
    = Some (Ok tasks, st') ->
  exists props, proposalsForExecution ps st = Some (Ok props, st') /\
    length tasks = length (map_to_list (propsPerResource props)) /\
    (forall p, p ∈ props -> exists l, propsPerResource props !! bpd_ResourceId (btp_Data p) = Some l
                                      /\ p ∈ l) /\
    (forall id l, propsPerResource props !! id = Some l -> l = filter (of_resource id) props) /\
    (forall e, Ok e ∈ tasks ->
       exists id, propsPerResource props !! id = Some (re_proposals e) /\
                  sp_id <$> re_processes e = seq 0 (length (tx_in (re_tx e)))).
Proof.
  unfold btc_Execute. destruct ps as [|first ps]; [done|]. intros E.
  destruct (proposalsForExecution _ st) as [[[props| |] st1]|]; simplify_eq.
  exists props. split_and!; [done|by rewrite length_fmap|..].
  - intros p Hp. rewrite propsPerResource_lookup.
    assert (p ∈ filter (of_resource (bpd_ResourceId (btp_Data p))) props) as Hin
      by (by apply list_elem_of_filter).
    destruct (filter _ props); [by apply not_elem_of_nil in Hin|by eexists].
  - intros id l. rewrite propsPerResource_lookup. by destruct (filter _ props); intros [= <-].
  - intros e ([id l] & He & Hin)%list_elem_of_fmap. apply elem_of_map_to_list in Hin.
    destruct (resources !! id) as [resource|]; [|done]. unfold executeResourceProps in He.
    symmetry in He. invert_ok. destruct x as [tx us]. invert_ok. simplify_eq/=.
    exists id. split; [done|].
    rename select (signing_processes _ _ _ _ _ _ _ _ = _) into Hp. by apply signing_processes_spec in Hp as [Hi _].
Qed.
End sessions.

(** ** A concrete run *)

Module BtcExecutorExample.
Import MapDB BtcTxExample.

Definition prop (nonce : Z) : Proposal :=
  NewProposal 1 3 (BtcPropData (btp_Data (transfer 100000 nonce))) "1-3-8-9" TransferProposalType.

(** Nonce 1 is executed, nonce 2 failed before, nonce 4 is new and listed twice. *)
Definition db : gmap bytes bytes :=
  snd (StorePropStatus 1 3 2 FailedProp (snd (StorePropStatus 1 3 1 ExecutedProp ∅))).
Definition st0 : exec_state (gmap bytes bytes) := {| es_store := db; es_locked := false |}.
Definition batch : list Proposal := [prop 1; prop 2; prop 4; prop 4].

Definition selected : list BtcTransferProposal := [transfer 100000 2; transfer 100000 4].
Definition st1 : exec_state (gmap bytes bytes) :=
  match proposalsForExecution batch st0 with Some (_, st) => st | None => st0 end.

Lemma batch_wf : Forall wf_prop batch.
Proof. repeat constructor; (eexists; split; [reflexivity|]); repeat split; simpl; lia. Qed.

(** A database whose reads fail. *)
Definition broken : KeyValueStore unit :=
  {| GetByKey _ _ := GetError "closed"; SetByKey _ _ _ := (Some "closed", tt) |}.

Definition unsigned : MsgTx :=
  {| tx_in := [{| in_hash := []; in_index := 0; in_witness := [] |};
               {| in_hash := []; in_index := 1; in_witness := [] |}];
     tx_out := [{| out_value := 5; out_script := [] |}] |}.

Definition accept : MsgTx -> node_answer := fun _ => Accepted [].
Definition sigs : list btc_event :=
  [BtcSigResult (Some {| sg_Id := 1; sg_Signature := be_fixed 1 7 |}) accept;
   BtcSigResult None accept;
   BtcSigResult (Some {| sg_Id := 0; sg_Signature := be_fixed 1 9 |}) accept].

Definition hash_input : MsgTx -> list ((bytes * Z) * TxOut) -> nat -> res bytes :=
  fun _ _ i => Ok (be_fixed 32 (Z.of_nat i)).

Definition env (us : list Utxo) (_ : bytes) : resource_env string :=
  {| env_fee _ := economy; env_utxos _ := Ok us; env_NewSigning _ := Ok tt |}.
End BtcExecutorExample.

Import MapDB BtcTxExample BtcExecutorExample.

Lemma proposalsForExecution_once_witness :
  proposalsForExecution batch st0 = Some (Ok selected, st1) /\
  selection (es_store st0) (es_store st1) selected.
Proof.
  assert (fst <$> proposalsForExecution batch st0 = Some (Ok selected)) as Ef
    by (vm_compute; reflexivity).
  assert (proposalsForExecution batch st0 = Some (Ok selected, st1)) as E.
  { unfold st1. destruct (proposalsForExecution batch st0) as [[r st]|]; [|discriminate].
    injection Ef as ->. reflexivity. }
  split; [exact E|].
  exact (proj1 (proposalsForExecution_once batch st0 selected st1 batch_wf E)).
Defined.

(** A selection fails on a broken database; the selection and the recording after it
    wait. *)
Lemma proposalsForExecution_mutex_witness :
  let st := {| es_store := tt; es_locked := false |} in
  let cs := [StoreStatus selected FailedProp; SelectProps batch; SelectProps []; StoreStatus selected ExecutedProp] in
  (mutex_calls (PS := @PropStore_PropStorer _ broken) cs st).1 = [Returns true; Returns false; Waits; Waits] /\
  ((mutex_calls (PS := @PropStore_PropStorer _ broken) cs st).1 = replicate 4 (Returns true) /\
   es_locked (mutex_calls (PS := @PropStore_PropStorer _ broken) cs st).2 = false \/
   es_locked (mutex_calls (PS := @PropStore_PropStorer _ broken) cs st).2 = true).
Proof.
  intros st cs. split; [reflexivity|].
  destruct (proposalsForExecution_mutex (PS := @PropStore_PropStorer _ broken) cs st eq_refl)
    as [Hl|(l & ps & later & st1 & _ & _ & _ & E & Hlk)].
  - left. exact Hl.
  - right. rewrite E. exact Hlk.
Defined.

Lemma btc_watchExecution_sound_witness :
  let w := run_events (btc_watchExecution unsigned selected "1-3-8-9-00")
             (btc_watch_start unsigned st1) sigs in
  bw_status w = BtcReturned (Ok tt) /\
  in_witness <$> ((fst <$> sends (bw_actions w)) ≫= tx_in) = [be_fixed 1 9; be_fixed 1 7] /\
  settled unsigned selected "1-3-8-9-00" st1 sigs w.
Proof.
  intros w. split; [vm_compute; reflexivity|]. split; [vm_compute; reflexivity|].
  apply (btc_watchExecution_sound unsigned selected "1-3-8-9-00" st1 sigs).
Defined.

Lemma btc_Execute_groups_witness :
  exists tasks, btc_Execute hash_input (env enough) {[be_fixed 32 1 := resource]}
                  batch st0 = Some (Ok tasks, st1) /\
    exists props, proposalsForExecution batch st0 = Some (Ok props, st1) /\
      length tasks = length (map_to_list (propsPerResource props)).
Proof.
  assert (match btc_Execute hash_input (env enough) {[be_fixed 32 1 := resource]}
                  batch st0 with Some (Ok [Ok _], _) => true | _ => false end = true) as Hok
    by (vm_compute; reflexivity).
  destruct (btc_Execute hash_input (env enough) {[be_fixed 32 1 := resource]} batch st0)
    as [[[tasks| |] st]|] eqn:E; [|discriminate..].
  destruct (btc_Execute_groups hash_input (env enough) {[be_fixed 32 1 := resource]}
              batch st0 st tasks E) as (props & Ep & Hl & _).
  exists tasks. assert (st1 = st) as -> by (unfold st1; rewrite Ep; reflexivity).
  split; [reflexivity|]. exists props. exact (conj Ep Hl).
Defined.
