(* ===== verification/BtcListener.v ===== *)
(** * Bitcoin listener ([chains/btc/listener], [chains/btc/chain.go])

    Blocks are visited one by one once they have enough confirmations; their
    transactions are decoded to deposits and turned into transfer messages. *)

From Stdlib Require Import Floats.SpecFloat Ascii.
From S2P Require Import Prelude GoBytes GoStrings GoFloat Transfer Routing EvmMessage BtcTx.

#[local] Open Scope string_scope.
#[local] Open Scope list_scope.
#[local] Open Scope Z_scope.

(** ** Amounts *)

(** The literal [1e8]. *)
Definition f64_1e8 : float64 := f64_of_Z (10 ^ 8).

(** [int64(vout.Value*1e8)] *)
Definition satoshis (value : float64) : Z := f64_to_i64 (f64_mul value f64_1e8).

(** The [float64] nearest to [n / 10^8], which decoding the decimal value of [n]
    satoshi gives. *)
Definition btc_value (n : Z) : float64 := f64_div (f64_of_Z n) f64_1e8.

(** ** Decoding deposits *)

Definition WitnessV1Taproot : string := "witness_v1_taproot".
Definition OP_RETURN : string := "nulldata".

(** The fields of btcd's [Vout] and [TxRawResult] that are read. *)
Record Vout := {
  vo_Type : string;
  vo_Hex : string;
  vo_Address : string;
  vo_Value : float64;
}.

Record TxRawResult := {
  tr_Vout : list Vout;
  tr_Hash : string;
  tr_Blocktime : Z;
}.

(** The resource as the listener reads it. *)
Record ListenerResource := {
  lr_Address : string;
  lr_FeeAmount : Z;
  lr_ResourceID : bytes;
}.

Record Deposit := {
  d_ResourceID : bytes;
  d_SenderAddress : string;
  d_Amount : Z;
  d_Data : string;
}.

(** The variables of [DecodeDepositEvent] the loop writes. *)
Record decode_state := {
  ds_amount : Z;
  ds_feeAmount : Z;
  ds_isBridgeDeposit : bool;
  ds_data : string;
  ds_resourceID : bytes;
}.

Definition zero_id : bytes := replicate 32 Byte.x00.

Definition decode_init : decode_state :=
  {| ds_amount := 0; ds_feeAmount := 0; ds_isBridgeDeposit := false; ds_data := "";
     ds_resourceID := zero_id |}.

(** The [OP_RETURN] branch: [opReturnData[2:]] panics on fewer than two bytes. *)
Definition read_op_return (vout : Vout) (data : string) : res string :=
  if bool_decide (vo_Type vout = OP_RETURN) then
    opReturnData ← from_opt "encoding/hex: invalid" (hex_decode (vo_Hex vout));
    if (2 <=? length opReturnData)%nat then Ok (string_of_bytes (drop 2 opReturnData)) else Panic
  else Ok data.

Definition decode_vout (resource : ListenerResource) (feeAddress : string) (st : decode_state)
    (vout : Vout) : res decode_state :=
  data ← read_op_return vout (ds_data st);
  let isResource := bool_decide (lr_Address resource = vo_Address vout) in
  let isTaproot := bool_decide (vo_Type vout = WitnessV1Taproot) in
  let isFee := bool_decide (feeAddress = vo_Address vout) in
  Ok {| ds_amount := if isResource && isTaproot then ds_amount st + satoshis (vo_Value vout)
                     else ds_amount st;
        ds_feeAmount := if isFee then ds_feeAmount st + satoshis (vo_Value vout)
                        else ds_feeAmount st;
        ds_isBridgeDeposit := isResource || ds_isBridgeDeposit st;
        ds_data := data;
        ds_resourceID := if isResource then lr_ResourceID resource else ds_resourceID st |}.

Fixpoint decode_vouts (resource : ListenerResource) (feeAddress : string) (st : decode_state)
    (vouts : list Vout) : res decode_state :=
  match vouts with
  | [] => Ok st
  | vout :: rest => st' ← decode_vout resource feeAddress st vout;
                    decode_vouts resource feeAddress st' rest
  end.

(** [None] for a transaction that is not a deposit. *)
Definition DecodeDepositEvent (evt : TxRawResult) (resource : ListenerResource)
    (feeAddress : string) : res (option Deposit) :=
  st ← decode_vouts resource feeAddress decode_init (tr_Vout evt);
  if negb (ds_isBridgeDeposit st) || (ds_feeAmount st <? lr_FeeAmount resource) then Ok None
  else Ok (Some {| d_ResourceID := ds_resourceID st; d_SenderAddress := "";
                   d_Amount := ds_amount st; d_Data := ds_data st |}).

Definition SliceTo32Bytes (l : bytes) : bytes := take 32 (l ++ zero_id).

Section deposits.
(** go-ethereum's [HexToAddress(s).Bytes()] and [sha256.Sum]. *)
Context (HexToAddress : string -> bytes) (sha256 : bytes -> bytes).

(** [BtcDepositHandler.HandleDeposit]: [parsedData[1]] panics without a
    separator; the amount gets 10 more decimals. *)
Definition btc_HandleDeposit (sourceID depositNonce : Z) (resourceID : bytes) (amount : Z)
    (data : string) (blockNumber timestamp : Z) : res Message :=
  let parsedData := str_split "_"%char data in
  addr ← or_panic (parsedData !! 0%nat);
  let evmAdd := HexToAddress addr in
  dest ← or_panic (parsedData !! 1%nat);
  destDomainID ← ParseUint dest 8;
  let payload := [IBytes (big_bytes (amount * 10 ^ 10)); IBytes evmAdd] in
  Ok (NewMessage sourceID (u8_wrap destDomainID)
        (TransferData {| tmd_DepositNonce := depositNonce; tmd_ResourceId := resourceID;
                         tmd_Metadata := ∅; tmd_Payload := payload;
                         tmd_Type := FungibleTransfer |})
        (fmt_u sourceID +:+ "-" +:+ fmt_u destDomainID +:+ "-" +:+ fmt_d blockNumber)
        TransferMessageType timestamp).

(** [result ^= part] over the four 8-byte parts of the hash. *)
Definition CalculateNonce (blockNumber : Z) (transactionHash : string) : res Z :=
  let hashBytes := sha256 (bytes_of_string (fmt_d blockNumber +:+ "-" +:+ transactionHash)) in
  p0 ← or_panic (be_uint64 (sub_list hashBytes 0 8));
  p1 ← or_panic (be_uint64 (sub_list hashBytes 8 16));
  p2 ← or_panic (be_uint64 (sub_list hashBytes 16 24));
  p3 ← or_panic (be_uint64 (sub_list hashBytes 24 32));
  Ok (Z.lxor (Z.lxor (Z.lxor (Z.lxor 0 p0) p1) p2) p3).

Context (domainID : Z) (feeAddress : string).

(** The function literal run on each transaction: the resources are a map, given
    here in iteration order; a recovered panic leaves no message. *)
Fixpoint process_tx (blockNumber : Z) (evt : TxRawResult) (resources : list ListenerResource)
    : res (option Message) :=
  match resources with
  | [] => Ok None
  | resource :: rest =>
      d ← DecodeDepositEvent evt resource feeAddress;
      match d with
      | None => process_tx blockNumber evt rest
      | Some d =>
          nonce ← CalculateNonce blockNumber (tr_Hash evt);
          m ← btc_HandleDeposit domainID nonce (d_ResourceID d) (d_Amount d) (d_Data d)
                blockNumber (tr_Blocktime evt);
          Ok (Some m)
      end
  end.

(** [order] is the iteration order of the resources for a transaction. *)
Definition process_txs (blockNumber : Z) (order : TxRawResult -> list ListenerResource)
    (evts : list TxRawResult) : gmap Z (list Message) :=
  collect (fun evt =>
    match process_tx blockNumber evt (order evt) with
    | Ok (Some m) => Some m
    | _ => None
    end) evts ∅.

(** [FetchEvents] over the node's answers; [Int64] cuts the number. *)
Definition FetchEvents {Hash} (GetBlockHash : Z -> res Hash)
    (GetBlockVerboseTx : Hash -> res (list TxRawResult)) (startBlock : Z) : res (list TxRawResult) :=
  blockHash ← GetBlockHash (i64_wrap startBlock);
  GetBlockVerboseTx blockHash.

Definition btc_ProcessDeposits (fetch : Z -> res (list TxRawResult))
    (order : TxRawResult -> list ListenerResource) (blockNumber : Z)
    : res (gmap Z (list Message)) :=
  evts ← fetch blockNumber;
  Ok (process_txs blockNumber order evts).

(** What [HandleEvents] sends on the channel, one send for each destination. *)
Definition btc_HandleEvents (fetch : Z -> res (list TxRawResult))
    (order : TxRawResult -> list ListenerResource) (blockNumber : Z)
    : res (list (list Message)) :=
  domainDeposits ← btc_ProcessDeposits fetch order blockNumber;
  Ok (snd <$> map_to_list domainDeposits).
End deposits.

(** ** The polling loop *)

(** What one iteration meets: the answers of the node, the outcome of each event
    handler on a block and of the write to the block store. *)
Record iteration := {
  it_bestBlock : res Z;                  (* [GetBestBlockHash] then [GetBlockVerboseTx] *)
  it_handlers : list (Z -> res unit);
  it_store : Z -> option error;
}.

Record listener_state := {
  ls_startBlock : option Z;
  ls_attempts : list (Z * Z * bool);     (* block, head, whether every handler succeeded *)
  ls_stored : list Z;
}.

Definition handlers_ok (handlers : list (Z -> res unit)) (block : Z) : bool :=
  forallb (fun h => is_ok (h block)) handlers.

(** One turn of [ListenToEvents]. *)
Definition listen_iteration (blockConfirmations : Z) (st : listener_state) (it : iteration)
    : listener_state :=
  match it_bestBlock it with
  | Ok head =>
      let startBlock := default head (ls_startBlock st) in
      if head - startBlock <? blockConfirmations
      then {| ls_startBlock := Some startBlock; ls_attempts := ls_attempts st;
              ls_stored := ls_stored st |}
      else
        let ok := handlers_ok (it_handlers it) startBlock in
        let attempts := ls_attempts st ++ [(startBlock, head, ok)] in
        if ok then
          {| ls_startBlock := Some (startBlock + 1); ls_attempts := attempts;
             ls_stored := ls_stored st ++ match it_store it startBlock with
                                       | Some _ => []
                                       | None => [startBlock]
                                       end |}
        else {| ls_startBlock := Some startBlock; ls_attempts := attempts;
                ls_stored := ls_stored st |}
  | _ => st
  end.

Definition ListenToEvents (blockConfirmations : Z) (startBlock : option Z) (its : list iteration)
    : listener_state :=
  run_events (listen_iteration blockConfirmations)
    {| ls_startBlock := startBlock; ls_attempts := []; ls_stored := [] |} its.

(** [BtcChain]: the constructor has no argument for [startBlock]. *)
Record BtcChain := { bc_id : Z; bc_startBlock : option Z }.
Definition NewBtcChain (id : Z) : BtcChain := {| bc_id := id; bc_startBlock := None |}.
Definition PollEvents (blockConfirmations : Z) (c : BtcChain) (its : list iteration) : listener_state :=
  ListenToEvents blockConfirmations (bc_startBlock c) its.

(** [Write], with [Execute] of the executor: an error is logged with the id of the
    first proposal. *)
Definition BtcChain_Write (Execute : list Proposal -> res unit) (c : BtcChain) (props : list Proposal)
    : res unit :=
  match Execute props with
  | Err err => match props with [] => Panic | _ :: _ => Err err end
  | r => r
  end.

(** [ReceiveMessage], with the handler registered for the type of the message. *)
Definition BtcChain_ReceiveMessage (HandleMessage : Message -> res Proposal) (c : BtcChain) (m : Message)
    : res Proposal :=
  HandleMessage m.

Definition BtcChain_DomainID (c : BtcChain) : Z := bc_id c.

(** ** Decoding *)

Definition pays (address : string) (v : Vout) : bool := bool_decide (address = vo_Address v).
Definition is_taproot (v : Vout) : bool := bool_decide (vo_Type v = WitnessV1Taproot).

(** The satoshi of the outputs that satisfy [P]. *)
Definition paid (P : Vout -> bool) (vouts : list Vout) : Z :=
  sumZ (fun v => if P v then satoshis (vo_Value v) else 0) vouts.

(** The text of the last [OP_RETURN] output. *)
Definition op_return_text (data : string) (vouts : list Vout) : string :=
  fold_left (fun d v => match read_op_return v d with Ok d' => d' | _ => d end) vouts data.

Definition readable (v : Vout) : Prop := forall d, is_ok (read_op_return v d) = true.

Lemma decode_vouts_spec resource feeAddress vouts st :
  Forall readable vouts ->
  decode_vouts resource feeAddress st vouts
  = Ok {| ds_amount := ds_amount st
                         + paid (fun v => pays (lr_Address resource) v && is_taproot v) vouts;
          ds_feeAmount := ds_feeAmount st + paid (pays feeAddress) vouts;
          ds_isBridgeDeposit := existsb (pays (lr_Address resource)) vouts || ds_isBridgeDeposit st;
          ds_data := op_return_text (ds_data st) vouts;
          ds_resourceID := if existsb (pays (lr_Address resource)) vouts
                           then lr_ResourceID resource else ds_resourceID st |}.
Proof.
  unfold paid. intros Hr. revert st. induction Hr as [|v vouts Hv _ IH]; intros st; simpl.
  { destruct st; simpl. by rewrite !sumZ_nil, !Z.add_0_r. }
  unfold decode_vout. specialize (Hv (ds_data st)).
  destruct (read_op_return v (ds_data st)) as [d| |] eqn:Ed; [|done..]. simpl.
  rewrite IH. simpl. rewrite !sumZ_cons. unfold pays, is_taproot.
  destruct (bool_decide (lr_Address resource = vo_Address v)),
    (bool_decide (vo_Type v = WitnessV1Taproot)), (bool_decide (feeAddress = vo_Address v)),
    (existsb _ vouts); simpl; (f_equal; f_equal; lia).
Qed.

(** C33. A transaction whose [OP_RETURN] outputs can be read is a deposit for a
    resource exactly when it pays the resource's address and pays the fee address
    at least the resource's fee; the deposit then has the sum of the taproot
    outputs to the address, the resource's identifier and the text of the last
    [OP_RETURN]. *)
Theorem DecodeDepositEvent_correct evt resource feeAddress :
  Forall readable (tr_Vout evt) ->
  DecodeDepositEvent evt resource feeAddress
  = Ok (if existsb (pays (lr_Address resource)) (tr_Vout evt) &&
           (lr_FeeAmount resource <=? paid (pays feeAddress) (tr_Vout evt))
        then Some {| d_ResourceID := lr_ResourceID resource; d_SenderAddress := "";
                     d_Amount := paid (fun v => pays (lr_Address resource) v && is_taproot v)
                                   (tr_Vout evt);
                     d_Data := op_return_text "" (tr_Vout evt) |}
        else None).
Proof.
  intros Hr. unfold DecodeDepositEvent. rewrite decode_vouts_spec by done. simpl.
  rewrite orb_false_r, Z.add_0_l.
  destruct (existsb (pays (lr_Address resource)) (tr_Vout evt)); simpl; [|done].
  destruct (Z.ltb_spec (paid (pays feeAddress) (tr_Vout evt)) (lr_FeeAmount resource)),
    (Z.leb_spec (lr_FeeAmount resource) (paid (pays feeAddress) (tr_Vout evt))); done || lia.
Qed.

(** A deposit of 0.29 BTC is credited with one satoshi less. *)
Lemma satoshis_loses_one : satoshis (btc_value 29000000) = 28999999.
Proof. vm_compute. reflexivity. Qed.

(** ** Messages *)

Section messages.
Context (HexToAddress : string -> bytes) (sha256 : bytes -> bytes).
Context (domainID : Z) (feeAddress : string).

Lemma btc_HandleDeposit_Ok sourceID nonce rid amount data block time m :
  btc_HandleDeposit HexToAddress sourceID nonce rid amount data block time = Ok m ->
  m_Source m = sourceID /\ is_u8 (m_Destination m) /\
  exists to, m_Data m = TransferData {| tmd_DepositNonce := nonce; tmd_ResourceId := rid;
                          tmd_Metadata := ∅;
                          tmd_Payload := [IBytes (big_bytes (amount * 10 ^ 10));
                                          IBytes (HexToAddress to)];
                          tmd_Type := FungibleTransfer |}.
Proof.
  unfold btc_HandleDeposit. intros E. invert_ok. subst m. split_and!; [done|apply u8_wrap_range|].
  by eexists.
Qed.

(** The amount of a bitcoin deposit survives the change of decimals: a
    message made from a deposit of [amount] satoshi gives, on a bitcoin
    destination, a proposal over the same number of satoshi, and on an EVM
    destination a proposal whose amount word is [amount * 10^10] followed by the
    20-byte recipient. *)
Theorem btc_deposit_amount `{LPS : LeftPadSpec} Pack sourceID nonce rid amount data block time m :
  0 <= amount -> amount < 2 ^ 63 -> (forall s, length (HexToAddress s) = 20%nat) ->
  btc_HandleDeposit HexToAddress sourceID nonce rid amount data block time = Ok m ->
  (exists p d, FungibleMessageHandler_HandleMessage m = Ok p /\ p_Data p = BtcPropData d /\
               bpd_Amount d = amount /\ bpd_DepositNonce d = nonce /\ bpd_ResourceId d = rid) /\
  (exists to, proposal_bytes (TransferMessageHandler_HandleMessage Pack m)
              = Some (be_fixed 32 (amount * 10 ^ 10) ++ be_fixed 32 20 ++ HexToAddress to)).
Proof.
  intros H0 Hmax Haddr E. destruct (btc_HandleDeposit_Ok _ _ _ _ _ _ _ _ E) as (_ & _ & to & Hd).
  split.
  - unfold FungibleMessageHandler_HandleMessage, transfer_message_of. rewrite Hd. simpl.
    eexists _, _. split_and!; try reflexivity. simpl.
    rewrite be_val_big_bytes, Z.div_mul by lia. apply u64_wrap_small. unfold is_u64. lia.
  - exists to. rewrite (dispatch_fungible_data Pack m _ Hd) by done.
    erewrite ERC20_data_plain by reflexivity.
    rewrite LeftPadBytes_big_bytes, len_bytes_padded, Haddr by (rewrite ?Haddr; simpl; lia). done.
Qed.

Lemma lxor_u64 a b : is_u64 a -> is_u64 b -> is_u64 (Z.lxor a b).
Proof.
  intros [Ha Ha'] [Hb Hb']. assert (0 <= Z.lxor a b) as H0 by (apply Z.lxor_nonneg; lia).
  split; [done|]. destruct (Z.eq_dec (Z.lxor a b) 0) as [->|]; [done|].
  apply Z.log2_lt_pow2; [lia|]. pose proof (Z.log2_lxor a b Ha Hb).
  destruct (Z.eq_dec a 0) as [->|]; [destruct (Z.eq_dec b 0) as [->|]; [done|]|].
  - apply Z.log2_lt_pow2 in Hb'; [|lia]. simpl in *. pose proof (Z.log2_nonneg b). lia.
  - apply Z.log2_lt_pow2 in Ha'; [|lia]. destruct (Z.eq_dec b 0) as [->|].
    + simpl in *. pose proof (Z.log2_nonneg a). lia.
    + apply Z.log2_lt_pow2 in Hb'; lia.
Qed.

Lemma be_uint64_range l z : be_uint64 l = Some z -> is_u64 z.
Proof.
  unfold be_uint64. destruct (Nat.leb_spec 8 (length l)) as [Hl|]; [|done]. intros [= <-].
  pose proof (be_val_range (take 8 l)) as Hr. by rewrite length_take_le in Hr.
Qed.

Lemma CalculateNonce_range block hash n : CalculateNonce sha256 block hash = Ok n -> is_u64 n.
Proof.
  unfold CalculateNonce. intros E. invert_ok. subst n.
  repeat apply lxor_u64; try (by eapply be_uint64_range). done.
Qed.

Lemma CalculateNonce_total block hash :
  (forall l, length (sha256 l) = 32%nat) -> is_ok (CalculateNonce sha256 block hash) = true.
Proof.
  intros Hs. unfold CalculateNonce.
  set (h := sha256 _). assert (Z.of_nat (length h) = 32) as Hl by (unfold h; rewrite Hs; done).
  unfold be_uint64.
  assert (forall lo hi, 0 <= lo -> hi = lo + 8 -> hi <= 32 ->
            (8 <=? length (sub_list h lo hi))%nat = true) as Hp.
  { intros lo hi ? ? ?. apply Nat.leb_le. pose proof (length_sub_list h lo hi). lia. }
  rewrite (Hp 0 8), (Hp 8 16), (Hp 16 24), (Hp 24 32) by lia. done.
Qed.

Lemma process_tx_Ok block evt resources m :
  process_tx HexToAddress sha256 domainID feeAddress block evt resources = Ok (Some m) ->
  m_Source m = domainID /\ is_u8 (m_Destination m) /\
  exists d, m_Data m = TransferData d /\ is_u64 (tmd_DepositNonce d).
Proof.
  induction resources as [|r rest IH]; simpl; [done|]. intros E. invert_ok.
  destruct x as [d|]; [|by apply IH]. invert_ok. simplify_eq.
  destruct (btc_HandleDeposit_Ok _ _ _ _ _ _ _ _ H1) as (? & ? & to & Hd).
  split_and!; [done..|]. eexists. split; [exact Hd|]. by eapply CalculateNonce_range.
Qed.

Definition tx_message (block : Z) (order : TxRawResult -> list ListenerResource)
    (evt : TxRawResult) : option Message :=
  match process_tx HexToAddress sha256 domainID feeAddress block evt (order evt) with
  | Ok (Some m) => Some m
  | _ => None
  end.

(** The deposits of a block, for every order in which the resources are
    tried: the messages for a domain are those of the block's transactions, in
    block order, each transaction handled on its own so that one that fails or
    panics loses no other; a domain with no deposit has no entry; every message
    has this domain as source, its entry's key as destination and a 64-bit
    nonce. *)
Theorem btc_ProcessDeposits_isolated fetch order block evts dd :
  fetch block = Ok evts ->
  btc_ProcessDeposits HexToAddress sha256 domainID feeAddress fetch order block = Ok dd ->
  forall d,
    dd !! d = nonempty (omap (fun evt => to_domain d (tx_message block order evt)) evts) /\
    Forall (fun m => m_Source m = domainID /\ m_Destination m = d /\ is_u8 d /\
                     exists t, m_Data m = TransferData t /\ is_u64 (tmd_DepositNonce t))
      (default [] (dd !! d)).
Proof.
  unfold btc_ProcessDeposits. intros Hf E d. rewrite Hf in E. simpl in E. injection E as <-.
  unfold process_txs. fold (tx_message block order).
  split; [apply collect_empty_lookup|].
  apply list.Forall_forall. intros m (Hd & evt & _ & Hm)%collect_elem. unfold tx_message in Hm.
  destruct (process_tx _ _ _ _ _ evt _) as [[m'|]| |] eqn:Ep; simplify_eq.
  by apply process_tx_Ok in Ep as (? & ? & ?).
Qed.
End messages.

(** ** The polling loop *)

Section polling.
Context (conf : Z).

(** Blocks every handler succeeded on, in the order they were handled. *)
Definition handled (attempts : list (Z * Z * bool)) : list Z :=
  omap (fun '(block, _, ok) => if ok : bool then Some block else None) attempts.

(** Progress from block [b0]: the handled blocks are consecutive, the next block
    is the one after them, an attempt is always on the first block not handled
    before it and only with enough confirmations, and only handled blocks are
    written to the block store. *)
Definition progress (b0 : Z) (st : listener_state) : Prop :=
  ls_startBlock st = Some (b0 + Z.of_nat (length (handled (ls_attempts st)))) /\
  handled (ls_attempts st) = seqZ b0 (Z.of_nat (length (handled (ls_attempts st)))) /\
  (forall pre block head ok post, ls_attempts st = pre ++ (block, head, ok) :: post ->
     block = b0 + Z.of_nat (length (handled pre)) /\ conf <= head - block) /\
  ls_stored st `sublist_of` handled (ls_attempts st).

Lemma handled_app l k : handled (l ++ k) = handled l ++ handled k.
Proof. apply omap_app. Qed.

Lemma handled_snoc l b h ok : handled (l ++ [(b, h, ok)]) = handled l ++ (if ok then [b] else []).
Proof. rewrite handled_app. by destruct ok. Qed.

(** The attempts of the invariant, one more at the end. *)
Lemma attempts_snoc b0 l b h o :
  (forall pre block head ok post, l = pre ++ (block, head, ok) :: post ->
     block = b0 + Z.of_nat (length (handled pre)) /\ conf <= head - block) ->
  b = b0 + Z.of_nat (length (handled l)) -> conf <= h - b ->
  forall pre block head ok post, l ++ [(b, h, o)] = pre ++ (block, head, ok) :: post ->
    block = b0 + Z.of_nat (length (handled pre)) /\ conf <= head - block.
Proof.
  intros Hl Hb Hc pre block head ok post E.
  destruct post as [|q post _] using rev_ind.
  - apply app_inj_tail in E as [<- [= <- <- <-]]. done.
  - rewrite app_comm_cons, app_assoc in E. apply app_inj_tail in E as [E _]. by eapply Hl.
Qed.

Lemma listen_iteration_progress b0 st it :
  progress b0 st -> progress b0 (listen_iteration conf st it).
Proof.
  intros (Hs & Hh & Ha & Hst). unfold listen_iteration. rewrite Hs. simpl.
  destruct (it_bestBlock it) as [head| |]; [|done..].
  set (b := b0 + Z.of_nat (length (handled (ls_attempts st)))) in *.
  destruct (Z.ltb_spec (head - b) conf) as [|Hc]; [by split_and!|].
  destruct (handlers_ok (it_handlers it) b); unfold progress; simpl;
    rewrite handled_snoc, ?app_nil_r.
  - rewrite length_app. simpl. split_and!.
    + f_equal. lia.
    + rewrite Nat2Z.inj_add, seqZ_app, <- Hh by lia. done.
    + by apply attempts_snoc.
    + apply sublist_app; [done|]. case_match; [apply sublist_nil_l|done].
  - split_and!; [done..| |done]. by apply attempts_snoc.
Qed.

Definition first_head (its : list iteration) : option Z :=
  head (omap (fun it => match it_bestBlock it with Ok h => Some h | _ => None end) its).

Lemma run_progress b0 st its :
  progress b0 st -> progress b0 (run_events (listen_iteration conf) st its).
Proof. apply run_events_invariant. intros; by apply listen_iteration_progress. Qed.

Lemma progress_start b : progress b {| ls_startBlock := Some b; ls_attempts := []; ls_stored := [] |}.
Proof.
  split_and!; [by rewrite Z.add_0_r|done| |apply sublist_nil_l].
  intros pre block head ok post E. by destruct pre.
Qed.

(** Starting without a block is starting from the first head that is seen. *)
Lemma listen_from_head its :
  ListenToEvents conf None its
  = match first_head its with
    | Some h => ListenToEvents conf (Some h) its
    | None => {| ls_startBlock := None; ls_attempts := []; ls_stored := [] |}
    end.
Proof.
  unfold ListenToEvents, first_head. induction its as [|it its IH]; [done|]. simpl.
  unfold listen_iteration at 2 4. destruct (it_bestBlock it) as [h| |]; simpl; [done|apply IH..].
Qed.

(** C32. Whatever the node, the handlers and the block store answer, the listener
    handles consecutive blocks from its start block, never one with too few
    confirmations, never one before the previous one was handled by every
    handler, and writes to the block store only blocks that were handled.  Without
    a start block it starts from the head of the chain it sees first. *)
Theorem ListenToEvents_consecutive startBlock its :
  match (match startBlock with Some b => Some b | None => first_head its end) with
  | Some b0 => progress b0 (ListenToEvents conf startBlock its)
  | None => ls_attempts (ListenToEvents conf startBlock its) = []
  end.
Proof.
  destruct startBlock as [b|]; [apply run_progress, progress_start|].
  rewrite listen_from_head. destruct (first_head its) as [h|]; [|done].
  apply run_progress, progress_start.
Qed.

(** A bitcoin chain never resumes: the block it polls from is the head of the
    chain at that time, whatever was written to the block store before. *)
Lemma PollEvents_starts_at_head id its h b :
  first_head its = Some h ->
  b ∈ (fun a => a.1.1) <$> ls_attempts (PollEvents conf (NewBtcChain id) its) -> h <= b.
Proof.
  intros Hh. unfold PollEvents, NewBtcChain. simpl. rewrite listen_from_head, Hh.
  destruct (run_progress h _ its (progress_start h)) as (_ & _ & Ha & _).
  intros ([[b' h'] ok] & -> & Hin)%list_elem_of_fmap. simpl.
  apply list_elem_of_split in Hin as (pre & post & E).
  destruct (Ha _ _ _ _ _ E) as [-> _]. lia.
Qed.
End polling.

(** ** Concrete deposits *)

Module BtcListenerExample.
Import LeftPadRef.

Definition to_address (s : string) : bytes := be_fixed 20 (Z.of_nat (String.length s)).
Definition hash (l : bytes) : bytes := be_fixed 32 (Z.of_nat (length l)).

Definition vault : ListenerResource :=
  {| lr_Address := "vault"; lr_FeeAmount := 1000; lr_ResourceID := be_fixed 32 1 |}.

Definition out (type hex address : string) (sat : Z) : Vout :=
  {| vo_Type := type; vo_Hex := hex; vo_Address := address; vo_Value := btc_value sat |}.

(** An [OP_RETURN] that is not hexadecimal, and one that names a recipient on
    domain 2 behind the two prefix bytes. *)
Definition memo : Vout := out OP_RETURN "6a0530786162_5f32" "" 0.
Definition text_memo : Vout := out OP_RETURN (hex_encode (bytes_of_string "j60xab_2")) "" 0.

Definition deposit_tx : TxRawResult :=
  {| tr_Vout := [text_memo; out WitnessV1Taproot "" "vault" 50000000; out "pubkeyhash" "" "fee" 1000];
     tr_Hash := "ff"; tr_Blocktime := 9 |}.

Lemma deposit_readable : Forall readable (tr_Vout deposit_tx).
Proof. repeat constructor; intros d; reflexivity. Qed.

Definition fetch (_ : Z) : res (list TxRawResult) :=
  Ok [{| tr_Vout := [memo]; tr_Hash := "00"; tr_Blocktime := 9 |}; deposit_tx].

Definition noPack : list iface -> res bytes := fun _ => Err "abi".

Definition polls : list iteration :=
  [ {| it_bestBlock := Err "eof"; it_handlers := []; it_store := fun _ => None |};
    {| it_bestBlock := Ok 12; it_handlers := [fun _ => Ok tt]; it_store := fun _ => None |};
    {| it_bestBlock := Ok 12; it_handlers := [fun _ => Err "node"]; it_store := fun _ => None |};
    {| it_bestBlock := Ok 12; it_handlers := [fun _ => Ok tt]; it_store := fun _ => Some "disk" |};
    {| it_bestBlock := Ok 12; it_handlers := [fun _ => Ok tt]; it_store := fun _ => None |} ].
End BtcListenerExample.

Import LeftPadRef BtcListenerExample.

Lemma DecodeDepositEvent_correct_witness :
  DecodeDepositEvent deposit_tx vault "fee"
  = Ok (Some {| d_ResourceID := be_fixed 32 1; d_SenderAddress := ""; d_Amount := 50000000;
                d_Data := "0xab_2" |}).
Proof.
  rewrite (DecodeDepositEvent_correct deposit_tx vault "fee" deposit_readable).
  vm_compute. reflexivity.
Defined.

Lemma btc_deposit_amount_witness :
  exists m, btc_HandleDeposit to_address 3 5 (be_fixed 32 1) 28999999 "0xab_2" 100 9 = Ok m /\
  exists p d, FungibleMessageHandler_HandleMessage m = Ok p /\ p_Data p = BtcPropData d /\
              bpd_Amount d = 28999999 /\ bpd_DepositNonce d = 5 /\ bpd_ResourceId d = be_fixed 32 1.
Proof.
  eexists. split; [vm_compute; reflexivity|].
  refine (proj1 (btc_deposit_amount to_address noPack 3 5 (be_fixed 32 1) 28999999 "0xab_2" 100 9
    _ ltac:(lia) ltac:(lia) ltac:(intros; apply length_be_fixed) _)).
  vm_compute. reflexivity.
Defined.

Lemma btc_ProcessDeposits_isolated_witness :
  exists dd, btc_ProcessDeposits to_address hash 3 "fee" fetch (fun _ => [vault]) 100 = Ok dd /\
    (length <$> dd !! 2) = Some 1%nat /\
    dd !! 2 = nonempty (omap (fun evt => to_domain 2
                 (tx_message to_address hash 3 "fee" 100 (fun _ => [vault]) evt))
                 (match fetch 100 with Ok l => l | _ => [] end)).
Proof.
  eexists. split; [reflexivity|]. split; [vm_compute; reflexivity|].
  apply (btc_ProcessDeposits_isolated to_address hash 3 "fee" fetch (fun _ => [vault]) 100
    (match fetch 100 with Ok l => l | _ => [] end)); reflexivity.
Defined.

Lemma ListenToEvents_consecutive_witness :
  handled (ls_attempts (ListenToEvents 2 (Some 9) polls)) = [9; 10] /\
  progress 2 9 (ListenToEvents 2 (Some 9) polls).
Proof.
  split; [vm_compute; reflexivity|]. exact (ListenToEvents_consecutive 2 (Some 9) polls).
Defined.
