(* ===== verification/Substrate.v ===== *)
(** * Substrate chain

    [chains/substrate/listener] (events to messages),
    [chains/substrate/executor] (messages to proposals and their execution) and
    [chains/substrate/pallet] (the calls on the bridge pallet). *)

From S2P Require Import Prelude GoBytes GoStrings Transfer Routing EvmDeposit EvmMessage EvmExecutor EvmBridge.

#[local] Open Scope string_scope.
#[local] Open Scope list_scope.
#[local] Open Scope Z_scope.

Definition ParachainUpdatedEvent : string := "ParachainSystem.ValidationFunctionApplied".
Definition sub_RetryEvent : string := "SygmaBridge.Retry".
Definition sub_DepositEvent : string := "SygmaBridge.Deposit".

(** [events.Deposit] and [events.Retry] *)
Record SubDeposit := {
  sd_DestDomainID : Z;
  sd_ResourceID : bytes;
  sd_DepositNonce : Z;
  sd_TransferType : Z;
  sd_CallData : bytes;
  sd_Handler : bytes;
  sd_Timestamp : Z;
}.

Record SubRetry := { sr_DepositOnBlockHeight : Z; sr_DestDomainID : Z }.

Definition zero_deposit : SubDeposit :=
  {| sd_DestDomainID := 0; sd_ResourceID := replicate 32 Byte.x00; sd_DepositNonce := 0;
     sd_TransferType := 0; sd_CallData := []; sd_Handler := [Byte.x00]; sd_Timestamp := 0 |}.
Definition zero_retry : SubRetry := {| sr_DepositOnBlockHeight := 0; sr_DestDomainID := 0 |}.

(** The decoded value of an event field, and mapstructure's decoder at the types
    of the fields. *)
Class FieldDecoder (V : Type) := {
  decode_uint : V -> res Z;
  decode_bytes : V -> res bytes;
  decode_time : V -> res Z;
}.

Record SubEvent (V : Type) := { ev_Name : string; ev_Fields : list (string * V) }.
Arguments ev_Name {V} _.
Arguments ev_Fields {V} _.

Section decoding.
Context {V : Type} `{FieldDecoder V}.

(** One turn of the loop of [DecodeDepositEvent]: a field of another name is
    ignored. *)
Definition decode_deposit_field (d : SubDeposit) (field : string * V) : res SubDeposit :=
  let (name, value) := field in
  if bool_decide (name = "dest_domain_id") then
    z ← decode_uint value;
    Ok {| sd_DestDomainID := z; sd_ResourceID := sd_ResourceID d; sd_DepositNonce := sd_DepositNonce d;
          sd_TransferType := sd_TransferType d; sd_CallData := sd_CallData d;
          sd_Handler := sd_Handler d; sd_Timestamp := sd_Timestamp d |}
  else if bool_decide (name = "resource_id") then
    l ← decode_bytes value;
    Ok {| sd_DestDomainID := sd_DestDomainID d; sd_ResourceID := l; sd_DepositNonce := sd_DepositNonce d;
          sd_TransferType := sd_TransferType d; sd_CallData := sd_CallData d;
          sd_Handler := sd_Handler d; sd_Timestamp := sd_Timestamp d |}
  else if bool_decide (name = "deposit_nonce") then
    z ← decode_uint value;
    Ok {| sd_DestDomainID := sd_DestDomainID d; sd_ResourceID := sd_ResourceID d; sd_DepositNonce := z;
          sd_TransferType := sd_TransferType d; sd_CallData := sd_CallData d;
          sd_Handler := sd_Handler d; sd_Timestamp := sd_Timestamp d |}
  else if bool_decide (name = "sygma_traits_TransferType") then
    z ← decode_uint value;
    Ok {| sd_DestDomainID := sd_DestDomainID d; sd_ResourceID := sd_ResourceID d;
          sd_DepositNonce := sd_DepositNonce d; sd_TransferType := z; sd_CallData := sd_CallData d;
          sd_Handler := sd_Handler d; sd_Timestamp := sd_Timestamp d |}
  else if bool_decide (name = "deposit_data") then
    l ← decode_bytes value;
    Ok {| sd_DestDomainID := sd_DestDomainID d; sd_ResourceID := sd_ResourceID d;
          sd_DepositNonce := sd_DepositNonce d; sd_TransferType := sd_TransferType d;
          sd_CallData := l; sd_Handler := sd_Handler d; sd_Timestamp := sd_Timestamp d |}
  else if bool_decide (name = "handler_response") then
    l ← decode_bytes value;
    Ok {| sd_DestDomainID := sd_DestDomainID d; sd_ResourceID := sd_ResourceID d;
          sd_DepositNonce := sd_DepositNonce d; sd_TransferType := sd_TransferType d;
          sd_CallData := sd_CallData d; sd_Handler := l; sd_Timestamp := sd_Timestamp d |}
  else if bool_decide (name = "block_timestamp") then
    z ← decode_time value;
    Ok {| sd_DestDomainID := sd_DestDomainID d; sd_ResourceID := sd_ResourceID d;
          sd_DepositNonce := sd_DepositNonce d; sd_TransferType := sd_TransferType d;
          sd_CallData := sd_CallData d; sd_Handler := sd_Handler d; sd_Timestamp := z |}
  else Ok d.

(** [for _, f := range fields] with the first error returned. *)
Fixpoint decode_fields {D} (step : D -> string * V -> res D) (d : D) (fields : list (string * V))
    : res D :=
  match fields with
  | [] => Ok d
  | f :: rest => d' ← step d f; decode_fields step d' rest
  end.

Definition sub_DecodeDepositEvent (fields : list (string * V)) : res SubDeposit :=
  decode_fields decode_deposit_field zero_deposit fields.

Definition decode_retry_field (d : SubRetry) (field : string * V) : res SubRetry :=
  let (name, value) := field in
  if bool_decide (name = "deposit_on_block_height") then
    z ← decode_uint value;
    Ok {| sr_DepositOnBlockHeight := z; sr_DestDomainID := sr_DestDomainID d |}
  else if bool_decide (name = "dest_domain_id") then
    z ← decode_uint value;
    Ok {| sr_DepositOnBlockHeight := sr_DepositOnBlockHeight d; sr_DestDomainID := z |}
  else Ok d.

Definition DecodeRetryEvent (fields : list (string * V)) : res SubRetry :=
  decode_fields decode_retry_field zero_retry fields.
End decoding.

(** ** Deposits *)

Section deposits.
(** go-substrate-rpc-client's two's complement decoder. *)
Context (IntBytesToBigInt : bytes -> Z).

(** [FungibleTransferHandler] *)
Definition FungibleTransferHandler (a : DepositArgs) (calldata : gslice) : res Message :=
  if gs_len calldata <? 84 then Err "invalid calldata length: less than 84 bytes"
  else
    amount ← gs_slice calldata 0 32;
    lengthField ← gs_slice calldata 32 64;
    let recipientAddressLength := IntBytesToBigInt lengthField in
    recipientAddress ← gs_slice calldata 64 (i64_wrap (64 + i64_wrap recipientAddressLength));
    Ok (deposit_message a ∅ [IBytes amount; IBytes recipientAddress] FungibleTransfer).

(** The handlers are registered by transfer type. *)
Abbreviation DepositHandlerFunc := (DepositArgs -> gslice -> res Message).

Definition sub_RegisterDepositHandler (transferType : TransferType) (handler : DepositHandlerFunc)
    (e : gmap string DepositHandlerFunc) : gmap string DepositHandlerFunc :=
  if bool_decide (transferType = "") then e else <[transferType := handler]> e.

Definition no_handler : error := "no corresponding deposit handler for this transfer type exists".

Definition matchTransferTypeHandlerFunc (e : gmap string DepositHandlerFunc)
    (transferType : TransferType) : res DepositHandlerFunc :=
  from_opt no_handler (e !! transferType).

(** Transfer type 0 is fungible, the only one known. *)
Definition sub_HandleDeposit (e : gmap string DepositHandlerFunc) (transferType : Z)
    (a : DepositArgs) (calldata : gslice) : res Message :=
  if transferType =? 0 then
    depositHandler ← matchTransferTypeHandlerFunc e FungibleTransfer;
    depositHandler a calldata
  else Err no_handler.
End deposits.

Section events.
Context {V : Type} `{FieldDecoder V}.
Context (HandleDeposit : Z -> DepositArgs -> gslice -> res Message) (domainID : Z).

Definition sub_args (messageID : string) (d : SubDeposit) : DepositArgs :=
  {| da_sourceID := domainID; da_destID := sd_DestDomainID d; da_nonce := sd_DepositNonce d;
     da_resourceID := sd_ResourceID d; da_handlerResponse := gs_of []; da_messageID := messageID;
     da_timestamp := sd_Timestamp d |}.

Definition sub_range_id (dest startBlock endBlock : Z) : string :=
  fmt_u domainID +:+ "-" +:+ fmt_u dest +:+ "-" +:+ fmt_d startBlock +:+ "-" +:+ fmt_d endBlock.

(** The message of a deposit event, with the given prefix of its identifier. *)
Definition event_message (prefix : string) (startBlock endBlock : Z) (evt : SubEvent V)
    : res Message :=
  d ← sub_DecodeDepositEvent (ev_Fields evt);
  HandleDeposit (sd_TransferType d)
    (sub_args (prefix +:+ sub_range_id (sd_DestDomainID d) startBlock endBlock) d)
    (gs_of (sd_CallData d)).

Definition sub_resolve (startBlock endBlock : Z) (evt : SubEvent V) : option Message :=
  if bool_decide (ev_Name evt = sub_DepositEvent) then
    match event_message "" startBlock endBlock evt with
    | Ok m => Some m
    | _ => None
    end
  else None.

Definition sub_ProcessDeposits (FetchEvents : Z -> Z -> res (list (SubEvent V)))
    (startBlock endBlock : Z) : res (gmap Z (list Message)) :=
  evts ← FetchEvents startBlock endBlock;
  Ok (collect (sub_resolve startBlock endBlock) evts ∅).

Definition sub_HandleEvents (FetchEvents : Z -> Z -> res (list (SubEvent V)))
    (startBlock endBlock : Z) : res (list (list Message)) :=
  domainDeposits ← sub_ProcessDeposits FetchEvents startBlock endBlock;
  Ok (snd <$> map_to_list domainDeposits).

(** [SystemUpdateEventHandler]: one metadata update per event, until one fails;
    the result counts the updates made. *)
Fixpoint update_metadata (updates : list (option error)) (evts : list (SubEvent V)) (done_ : nat)
    : res nat * nat :=
  match evts with
  | [] => (Ok done_, done_)
  | e :: rest =>
      if bool_decide (ev_Name e = ParachainUpdatedEvent) then
        match updates with
        | Some err :: _ => (Err err, done_)
        | None :: us => update_metadata us rest (S done_)
        | [] => update_metadata [] rest (S done_)
        end
      else update_metadata updates rest done_
  end.

Definition SystemUpdate_HandleEvents (FetchEvents : Z -> Z -> res (list (SubEvent V)))
    (updates : list (option error)) (startBlock endBlock : Z) : res nat :=
  evts ← FetchEvents startBlock endBlock;
  fst (update_metadata updates evts 0).

(** ** Retry events *)

(** The inner loop: the first error ends it; the messages of the deposits before it
    have been added to the map. *)
Fixpoint retry_block_events (startBlock endBlock : Z) (bEvts : list (SubEvent V))
    (dd : gmap Z (list Message)) : res unit * gmap Z (list Message) :=
  match bEvts with
  | [] => (Ok tt, dd)
  | event :: rest =>
      if bool_decide (ev_Name event = sub_DepositEvent) then
        match event_message "retry-" startBlock endBlock event with
        | Ok m => retry_block_events startBlock endBlock rest (add_deposit m dd)
        | Err e => (Err e, dd)
        | Panic => (Panic, dd)
        end
      else retry_block_events startBlock endBlock rest dd
  end.

(** The function literal run on a retry event. *)
Definition sub_retry_event (finalized : Z) (GetBlockEvents : Z -> res (list (SubEvent V)))
    (startBlock endBlock : Z) (evt : SubEvent V) (dd : gmap Z (list Message))
    : res unit * gmap Z (list Message) :=
  match DecodeRetryEvent (ev_Fields evt) with
  | Err e => (Err e, dd)
  | Panic => (Panic, dd)
  | Ok er =>
      if finalized <? sr_DepositOnBlockHeight er then (Ok tt, dd)
      else match GetBlockEvents (u64_wrap (sr_DepositOnBlockHeight er)) with
           | Err e => (Err e, dd)
           | Panic => (Panic, dd)
           | Ok bEvts => retry_block_events startBlock endBlock bEvts dd
           end
  end.

(** The loop over the events: an error ends the handler before anything is sent, a
    recovered panic only ends its event. *)
Fixpoint sub_retry_loop (finalized : Z) (GetBlockEvents : Z -> res (list (SubEvent V)))
    (startBlock endBlock : Z) (evts : list (SubEvent V)) (dd : gmap Z (list Message))
    : res (gmap Z (list Message)) :=
  match evts with
  | [] => Ok dd
  | evt :: rest =>
      if bool_decide (ev_Name evt = sub_RetryEvent) then
        match sub_retry_event finalized GetBlockEvents startBlock endBlock evt dd with
        | (Err e, _) => Err e
        | (_, dd') => sub_retry_loop finalized GetBlockEvents startBlock endBlock rest dd'
        end
      else sub_retry_loop finalized GetBlockEvents startBlock endBlock rest dd
  end.

(** [finalized] is the number of the finalized head, read through two calls. *)
Definition sub_Retry_HandleEvents (FetchEvents : Z -> Z -> res (list (SubEvent V)))
    (finalizedHead : res Z) (GetBlockEvents : Z -> res (list (SubEvent V)))
    (startBlock endBlock : Z) : res (list (list Message)) :=
  evts ← FetchEvents startBlock endBlock;
  finalized ← finalizedHead;
  domainDeposits ← sub_retry_loop finalized GetBlockEvents startBlock endBlock evts ∅;
  Ok (snd <$> map_to_list domainDeposits).
End events.

(** ** Messages to proposals *)

Section handlers.
Context `{LeftPad}.

Definition fungibleTransferMessageHandler (m : TransferMessage) : res Proposal :=
  if bool_decide (length (tmd_Payload (tm_Data m)) <> 2%nat)
  then Err "malformed payload. Len  of payload should be 2"
  else
    amount ← payload_bytes m 0 "wrong payload amount format";
    recipient ← payload_bytes m 1 "wrong payload recipient format";
    Ok (transfer_proposal_of m
          (LeftPadBytes amount 32 ++ LeftPadBytes (len_bytes recipient) 32 ++ recipient)).

Definition SubstrateMessageHandler_HandleMessage (m : Message) : res Proposal :=
  transferMessage ← transfer_message_of m;
  if bool_decide (tmd_Type (tm_Data transferMessage) = FungibleTransfer)
  then fungibleTransferMessageHandler transferMessage
  else Err "wrong message type passed while handling message".
End handlers.

(** ** The pallet *)

Definition pallet_verifyingContract : string := "6CdE2Cd82a4F8B74693Ff5e194c19CA08c2d1c68".

Section pallet.
Context `{Eip712}.
(** sygma-core's client: a signed extrinsic, a remote call and the chain id. *)
Context (Transact : string -> list BridgeProposal -> bytes -> res bytes)
        (Call : string -> Z -> Z -> res bool) (chainID : Z).

Definition pallet_ExecuteProposals (proposals : list TransferProposal) (signature : bytes)
    : res bytes :=
  Transact "SygmaBridge.execute_proposal" (bridge_proposal <$> proposals) signature.

Definition pallet_ProposalsHash (proposals : list TransferProposal) : res bytes :=
  chains_ProposalsHash proposals (i64_wrap chainID) pallet_verifyingContract bridgeVersion.

Definition pallet_IsProposalExecuted (prop : TransferProposal) : res bool :=
  Call "sygma_isProposalExecuted" (tpd_DepositNonce (tp_Data prop)) (tp_Source prop).
End pallet.

(** ** Execution *)

Section execution.
Context (IsProposalExecuted : TransferProposal -> res bool)
        (ProposalsHash : list TransferProposal -> res bytes).
(** The outcome of [NewSigning], which reads the key share. *)
Context (NewSigning : res unit).

(** The loop of [Execute]: it builds [transferProposals] and appends to
    [proposals] the ones not executed. *)
Fixpoint sub_collect (range : list Proposal) (transferProposals : list TransferProposal)
    (proposals : list Proposal) : res (list TransferProposal * list Proposal) :=
  match range with
  | [] => Ok (transferProposals, proposals)
  | prop :: rest =>
      transferProposal ← to_transfer_proposal prop;
      let transferProposals' := transferProposals ++ [transferProposal] in
      isExecuted ← IsProposalExecuted transferProposal;
      if isExecuted : bool then sub_collect rest transferProposals' proposals
      else sub_collect rest transferProposals' (proposals ++ [prop])
  end.

(** The session started, if any. *)
Definition sub_Execute (proposals : list Proposal) : res (option Session) :=
  '(transferProposals, proposals') ← sub_collect proposals [] proposals;
  if bool_decide (length proposals' = O) then Ok None
  else
    propHash ← ProposalsHash transferProposals;
    first ← or_panic (transferProposals !! 0%nat);
    let messageID := tp_MessageID first in
    _ ← NewSigning;
    Ok (Some {| s_sessionID := messageID; s_messageID := messageID; s_msg := be_val propHash;
                s_batch := {| b_proposals := transferProposals; b_gasLimit := 0 |} |}).
End execution.

Section watching.
Context `{LeftPad}.

Inductive sub_event :=
| SubSigResult (sigResult : option SignatureData)
    (ExecuteProposals : list TransferProposal -> bytes -> res bytes)
    (TrackExtrinsic : bytes -> res unit)
| SubTick (query : TransferProposal -> res bool)
| SubTimeout
| SubCtxDone.

Definition sub_executeProposal (ExecuteProposals : list TransferProposal -> bytes -> res bytes)
    (proposals : list TransferProposal) (sd : SignatureData) : res bytes :=
  ExecuteProposals proposals (batch_signature sd).

Definition sub_watchExecution (proposals : list TransferProposal) (sessionID : string) (w : watcher)
    (ev : sub_event) : watcher :=
  match w_result w with
  | Some _ => w
  | None =>
      match ev with
      | SubSigResult None _ _ => act w [ActCancelExecution]
      | SubSigResult (Some signatureData) execute track =>
          let w' := act w [ActCancelExecution] in
          match sub_executeProposal execute proposals signatureData with
          | Ok hash => return_with (act w' [ActExecuted hash]) (track hash)
          | Err e => return_with (act w' [ActBroadcastTssFail sessionID]) (Err e)
          | Panic => return_with w' Panic
          end
      | SubTick query =>
          if areProposalsExecuted query proposals then return_with w (Ok tt) else w
      | SubTimeout => return_with w (Err signingTimeout_error)
      | SubCtxDone => return_with w (Ok tt)
      end
  end.
End watching.

(** ** Deposits to proposals *)

Section roundtrip.
Context `{LP : LeftPad, LPS : !LeftPadSpec}.
Context (Pack : list iface -> res bytes) (IntBytesToBigInt : bytes -> Z).
(** A 32-byte word below [2 ^ 255] is not negative in two's complement. *)
Context (IntBytes_small : forall l, length l = 32%nat -> be_val l < 2 ^ 255 ->
           IntBytesToBigInt l = be_val l).

(** The registry as the application sets it up. *)
Definition sub_handlers : gmap string (DepositArgs -> gslice -> res Message) :=
  sub_RegisterDepositHandler FungibleTransfer (FungibleTransferHandler IntBytesToBigInt) ∅.

Definition sub_wf (cd : bytes) : Prop :=
  (84 <= length cd)%nat /\ Z.of_nat (length cd) < 2 ^ 62 /\
  64 + recipient_len cd <= Z.of_nat (length cd).

Lemma sub_HandleDeposit_accepts a cd :
  sub_wf cd ->
  sub_HandleDeposit sub_handlers 0 a (gs_of cd)
  = Ok (deposit_message a ∅ [IBytes (take 32 cd); IBytes (sub_list cd 64 (64 + recipient_len cd))]
          FungibleTransfer).
Proof.
  intros (Hlen & Hmax & Hrec). unfold sub_HandleDeposit, matchTransferTypeHandlerFunc, sub_handlers,
    sub_RegisterDepositHandler. simpl. rewrite lookup_insert_eq. simpl.
  assert (0 <= recipient_len cd) as H0 by apply be_val_range.
  assert (length (sub_list cd 32 64) = 32%nat) as H64
    by (pose proof (length_sub_list cd 32 64); lia).
  unfold FungibleTransferHandler.
  replace (gs_len (gs_of cd) <? 84) with false by (unfold gs_len; simpl; lia).
  rewrite gs_of_0_32, gs_of_slice by lia. simpl.
  rewrite IntBytes_small by (done || fold (recipient_len cd); lia). fold (recipient_len cd).
  rewrite (i64_wrap_small (recipient_len cd)), i64_wrap_small by (unfold is_i64; lia).
  by rewrite gs_of_slice by lia.
Qed.

Lemma fungible_data m amount recipient :
  tmd_Payload (tm_Data m) = [IBytes amount; IBytes recipient] ->
  proposal_bytes (fungibleTransferMessageHandler m)
  = Some (LeftPadBytes amount 32 ++ LeftPadBytes (len_bytes recipient) 32 ++ recipient).
Proof.
  intros Hp. unfold fungibleTransferMessageHandler, payload_bytes, payload_at. by rewrite Hp.
Qed.

Lemma sub_dispatch a md pl :
  SubstrateMessageHandler_HandleMessage (deposit_message a md pl FungibleTransfer)
  = fungibleTransferMessageHandler (envelope a md pl FungibleTransfer).
Proof. done. Qed.

(** Amount, length and recipient re-encoded are the start of the calldata. *)
Lemma reencode cd :
  sub_wf cd ->
  LeftPadBytes (take 32 cd) 32
    ++ LeftPadBytes (len_bytes (sub_list cd 64 (64 + recipient_len cd))) 32
    ++ sub_list cd 64 (64 + recipient_len cd)
  = take (Z.to_nat (64 + recipient_len cd)) cd.
Proof.
  intros (Hlen & Hmax & Hrec). assert (0 <= recipient_len cd) by apply be_val_range.
  assert (length (sub_list cd 32 64) = 32%nat) as H64
    by (pose proof (length_sub_list cd 32 64); lia).
  assert (LeftPadBytes (len_bytes (sub_list cd 64 (64 + recipient_len cd))) 32
          = sub_list cd 32 64) as ->.
  { rewrite <- H64 at 1. apply len_field_reencode.
    rewrite length_sub_list by lia. fold (recipient_len cd). lia. }
  rewrite LeftPadBytes_long by (rewrite length_take; lia).
  rewrite (sub_list_split cd 32 64 (64 + recipient_len cd)) by lia.
  replace (take 32 cd) with (sub_list cd 0 32) by (unfold sub_list; by rewrite drop_0).
  rewrite (sub_list_split cd 0 32 (64 + recipient_len cd)) by lia. unfold sub_list. rewrite drop_0. f_equal. lia.
Qed.

(** A fungible deposit on a substrate chain whose calldata holds the recipient
    it announces is accepted, and its proposal, on a substrate and on an EVM
    destination alike, is the calldata up to the end of the recipient. *)
Theorem sub_deposit_to_proposal a cd :
  sub_wf cd ->
  exists m, sub_HandleDeposit sub_handlers 0 a (gs_of cd) = Ok m /\
    proposal_bytes (SubstrateMessageHandler_HandleMessage m)
    = Some (take (Z.to_nat (64 + recipient_len cd)) cd) /\
    proposal_bytes (TransferMessageHandler_HandleMessage Pack m)
    = Some (take (Z.to_nat (64 + recipient_len cd)) cd).
Proof.
  intros Hwf. eexists. split; [by apply sub_HandleDeposit_accepts|].
  rewrite dispatch_fungible. erewrite ERC20_data_plain, reencode by done. split; [|done].
  rewrite sub_dispatch. by erewrite fungible_data, reencode.
Qed.
End roundtrip.

(** ** What is executed *)

Section executed.
Context (IsExecuted : TransferProposal -> res bool) (Hash : list TransferProposal -> res bytes).
Context (NewSigning : res unit).

Lemma sub_collect_all ps tps acc extra :
  Forall2 (fun p tp => to_transfer_proposal p = Ok tp /\ is_ok (IsExecuted tp) = true) ps tps ->
  exists new, sub_collect IsExecuted ps acc extra = Ok (acc ++ tps, extra ++ new).
Proof.
  intros Hf. revert acc extra. induction Hf as [|p tp ps tps [Ht Hq] _ IH]; intros acc extra; simpl.
  { exists []. by rewrite !app_nil_r. }
  rewrite Ht. simpl. destruct (IsExecuted tp) as [b| |]; [|done..]. simpl.
  destruct b.
  - destruct (IH (acc ++ [tp]) extra) as [new E]. exists new. by rewrite E, <- app_assoc.
  - destruct (IH (acc ++ [tp]) (extra ++ [p])) as [new E]. exists (p :: new).
    by rewrite E, <- !app_assoc.
Qed.

(** When the queries and the key share are answered, execution on a substrate
    chain signs every proposal it is given, in order, in a session named after the first one: proposals the pallet reports as
    executed are signed and submitted again, also when all of them are. *)
Theorem sub_Execute_signs_all ps tps :
  ps <> [] ->
  Forall2 (fun p tp => to_transfer_proposal p = Ok tp /\ is_ok (IsExecuted tp) = true) ps tps ->
  is_ok (Hash tps) = true -> is_ok NewSigning = true ->
  exists s first h, sub_Execute IsExecuted Hash NewSigning ps = Ok (Some s) /\
    b_proposals (s_batch s) = tps /\ head tps = Some first /\ s_sessionID s = tp_MessageID first /\
    Hash tps = Ok h /\ s_msg s = be_val h.
Proof.
  intros Hne Hf Hh Hn. destruct (sub_collect_all ps tps [] ps Hf) as [new E].
  unfold sub_Execute. rewrite E. simpl.
  destruct Hf as [|p tp ps tps Hp Hf]; [done|]. simpl.
  destruct (Hash (tp :: tps)) as [h| |] eqn:Eh; [|done..]. simpl. destruct NewSigning; [|done..]. simpl.
  by eexists _, tp, h.
Qed.
End executed.

(** ** The watcher *)

Section watcher.
Context `{LP : LeftPad}.
Context (proposals : list TransferProposal) (sessionID : string).

Abbreviation run := (run_events (sub_watchExecution proposals sessionID) watch_start).

Definition executions (acts : list watch_action) : list bytes :=
  omap (fun a => match a with ActExecuted h => Some h | _ => None end) acts.

Definition once (w : watcher) : Prop :=
  executions (w_actions w) = [] \/
  (exists h, executions (w_actions w) = [h] /\ is_Some (w_result w)).

Lemma executions_app a b : executions (a ++ b) = executions a ++ executions b.
Proof. apply omap_app. Qed.

Lemma once_step w ev : once w -> once (sub_watchExecution proposals sessionID w ev).
Proof.
  intros Ho. unfold sub_watchExecution. destruct (w_result w) as [r|] eqn:Er; [done|].
  assert (executions (w_actions w) = []) as He.
  { destruct Ho as [He|(h & _ & Hs)]; [done|]. rewrite Er in Hs. by destruct Hs. }
  unfold once. destruct ev as [[sd|] execute track|query| |].
  - destruct (sub_executeProposal execute proposals sd); simpl; rewrite !executions_app, He; simpl;
      eauto.
  - simpl. rewrite executions_app, He. by left.
  - case_match; simpl; rewrite ?executions_app, ?He; by left.
  - simpl. rewrite executions_app, He. by left.
  - simpl. rewrite executions_app, He. by left.
Qed.

(** The watcher of a substrate execution submits at most one extrinsic,
    whatever it receives, and once it has submitted one it stops with the outcome
    of tracking it. *)
Theorem sub_watchExecution_once evs :
  (executions (w_actions (run evs)) = [] \/
   exists h, executions (w_actions (run evs)) = [h] /\ is_Some (w_result (run evs))) /\
  (forall sd execute track hash rest,
     w_result (run evs) = None ->
     execute proposals (batch_signature sd) = Ok hash ->
     w_result (run (evs ++ SubSigResult (Some sd) execute track :: rest)) = Some (track hash)).
Proof.
  split.
  - apply (run_events_invariant _ once); [intros; by apply once_step|by left].
  - intros sd execute track hash rest Hr He. rewrite run_events_app. simpl.
    unfold sub_watchExecution at 2. rewrite Hr. unfold sub_executeProposal. rewrite He.
    generalize (return_with (act (act (run evs) [ActCancelExecution]) [ActExecuted hash]) (track hash))
      as w, (eq_refl : w_result (return_with (act (act (run evs) [ActCancelExecution])
                                               [ActExecuted hash]) (track hash)) = Some (track hash)).
    intros w Hw. apply (run_events_invariant _ (fun w => w_result w = Some (track hash))); [|done].
    intros w' e Hw'. unfold sub_watchExecution. by rewrite Hw'.
Qed.
End watcher.

(** ** Concrete runs *)

Module SubstrateExample.
Import LeftPadRef EvmMessageExample EvmExecutorExample.

Definition cd : bytes := be_fixed 32 5 ++ be_fixed 32 20 ++ be_fixed 20 77 ++ be_fixed 3 1.

Definition twos_complement (l : bytes) : Z :=
  if be_val l <? 2 ^ (8 * Z.of_nat (length l) - 1) then be_val l
  else be_val l - 2 ^ (8 * Z.of_nat (length l)).

Lemma twos_complement_small l :
  length l = 32%nat -> be_val l < 2 ^ 255 -> twos_complement l = be_val l.
Proof.
  intros Hl Hb. unfold twos_complement. rewrite Hl.
  change (8 * Z.of_nat 32 - 1) with 255.
  destruct (Z.ltb_spec (be_val l) (2 ^ 255)); [done|lia].
Qed.

Lemma cd_wf : sub_wf cd.
Proof. split_and!; [vm_compute; lia|reflexivity|vm_compute; discriminate]. Qed.

(** Every proposal is executed already. *)
Definition executed (_ : TransferProposal) : res bool := Ok true.
Definition hash (ps : list TransferProposal) : res bytes := Ok (be_fixed 32 (Z.of_nat (length ps))).

Definition transfer_of (p : Proposal) : TransferProposal :=
  match to_transfer_proposal p with
  | Ok tp => tp
  | _ => {| tp_Source := 0; tp_Destination := 0;
            tp_Data := {| tpd_DepositNonce := 0; tpd_ResourceId := []; tpd_Metadata := ∅;
                          tpd_Data := [] |}; tp_Type := ""; tp_MessageID := "" |}
  end.

Definition sig : SignatureData :=
  {| sd_R := be_fixed 32 9; sd_S := be_fixed 32 8; sd_SignatureRecovery := [byte_of 0] |}.
End SubstrateExample.

Import LeftPadRef EvmMessageExample EvmExecutorExample SubstrateExample.

Lemma sub_deposit_to_proposal_witness :
  exists m, sub_HandleDeposit (sub_handlers twos_complement) 0 args (gs_of cd) = Ok m /\
    proposal_bytes (SubstrateMessageHandler_HandleMessage m) = Some (take 84 cd).
Proof.
  destruct (sub_deposit_to_proposal noPack twos_complement twos_complement_small args cd cd_wf)
    as (m & Em & Hs & _).
  exists m. split; [exact Em|]. rewrite Hs. reflexivity.
Defined.

Lemma sub_Execute_signs_all_witness :
  exists s first, sub_Execute executed hash (Ok tt) [prop 1; prop 3] = Ok (Some s) /\
    b_proposals (s_batch s) = [transfer_of (prop 1); transfer_of (prop 3)] /\
    s_sessionID s = tp_MessageID first.
Proof.
  destruct (sub_Execute_signs_all executed hash (Ok tt) [prop 1; prop 3]
              [transfer_of (prop 1); transfer_of (prop 3)])
    as (s & first & h & E & Hb & _ & Hi & _).
  - discriminate.
  - repeat constructor.
  - reflexivity.
  - reflexivity.
  - exists s, first. exact (conj E (conj Hb Hi)).
Defined.

Lemma sub_watchExecution_once_witness :
  w_result (run_events (sub_watchExecution [transfer_of (prop 1)] "1-2-5-9") watch_start
    ([SubTick (fun _ => Ok false)]
       ++ SubSigResult (Some sig) (fun _ _ => Ok []) (fun _ => Err "invalid") :: [SubTimeout]))
  = Some (Err "invalid").
Proof.
  apply (proj2 (sub_watchExecution_once [transfer_of (prop 1)] "1-2-5-9"
    [SubTick (fun _ => Ok false)]) sig (fun _ _ => Ok []) (fun _ => Err "invalid") []); reflexivity.
Defined.
