(* ===== verification/Comm.v ===== *)
(** * Communication ([comm], [comm/p2p])

    Message types, subscription identifiers, the subscription and stream
    managers, the framing of messages on a stream, broadcasting and the health
    check.  libp2p is not part of the repository; peers and channels are
    abstract. *)

From Stdlib Require Import Ascii.
From S2P Require Import Prelude GoBytes GoStrings GoParse GoBase64 GoJson.

#[local] Open Scope string_scope.
#[local] Open Scope list_scope.
#[local] Open Scope Z_scope.

(** ** Message types: a [uint8] with named constants *)

Abbreviation MessageType := Z.
Definition TssKeyGenMsg : MessageType := 0.
Definition TssKeySignMsg : MessageType := 1.
Definition TssInitiateMsg : MessageType := 2.
Definition TssStartMsg : MessageType := 3.
Definition TssFailMsg : MessageType := 4.
Definition TssReadyMsg : MessageType := 5.
Definition TssReshareMsg : MessageType := 6.
Definition CoordinatorElectionMsg : MessageType := 7.
Definition CoordinatorAliveMsg : MessageType := 8.
Definition CoordinatorLeaveMsg : MessageType := 9.
Definition CoordinatorSelectMsg : MessageType := 10.
Definition CoordinatorPingMsg : MessageType := 11.
Definition CoordinatorPingResponseMsg : MessageType := 12.
Definition Unknown : MessageType := 13.

Definition MessageType_String (t : MessageType) : string :=
  default "UnknownMsg"
    (["TssKeyGenMsg"; "TssKeySignMsg"; "TssInitiateMsg"; "TssStartMsg"; "TssFailMsg"; "TssReadyMsg";
      "TssReshareMsg"; "CoordinatorElectionMsg"; "CoordinatorAliveMsg"; "CoordinatorLeaveMsg";
      "CoordinatorSelectMsg"; "CoordinatorPingMsg"; "CoordinatorPingResponseMsg"]
       !! Z.to_nat t).

(** ** Subscription identifiers *)

(** [fmt.Sprintf("%s-%d-%d", sessionID, msgType, uint32(time.Now().UnixNano()))] *)
Definition NewSubscriptionID (sessionID : string) (msgType : MessageType) (now : Z) : string :=
  sessionID +:+ "-" +:+ fmt_u msgType +:+ "-" +:+ fmt_u (u32_wrap now).

(** [SubscriptionID.Unwrap] *)
Definition Unwrap (sID : string) : res (string * MessageType * string) :=
  match str_split "-"%char sID with
  | [session; type; sub] =>
      msgType ← ParseInt type 8;
      if Unknown <? msgType then Err "invalid message type"
      else Ok (session, u8_wrap msgType, sub)
  | _ => Err "invalid subscriptionID"
  end.

Definition SubscriptionID_SessionID (sID : string) : string :=
  match Unwrap sID with Ok (s, _, _) => s | _ => "" end.
Definition SubscriptionID_MessageType (sID : string) : MessageType :=
  match Unwrap sID with Ok (_, t, _) => t | _ => Unknown end.
Definition SubscriptionIdentifier (sID : string) : string :=
  match Unwrap sID with Ok (_, _, i) => i | _ => "" end.

(** ** Subscriptions *)

Section subscriptions.
Context {Chan : Type}.

(** [sessionID -> messageType -> subscriptionID -> channel] *)
Abbreviation subscribers := (gmap string (gmap Z (gmap string Chan))).

Definition lookup_subs (m : subscribers) (sessionID : string) (msgType : MessageType)
    : option (gmap string Chan) :=
  types ← m !! sessionID; types !! msgType.

Definition GetSubscribers (m : subscribers) (sessionID : string) (msgType : MessageType) : list Chan :=
  match lookup_subs m sessionID msgType with
  | None => []
  | Some subs => snd <$> map_to_list subs
  end.

Definition SubscribeTo (m : subscribers) (sessionID : string) (msgType : MessageType) (channel : Chan)
    (now : Z) : string * subscribers :=
  let types := default ∅ (m !! sessionID) in
  let subs := default ∅ (types !! msgType) in
  let subID := NewSubscriptionID sessionID msgType now in
  (subID,
   <[sessionID := <[msgType := <[SubscriptionIdentifier subID := channel]> subs]> types]> m).

Definition UnSubscribeFrom (m : subscribers) (subscriptionID : string) : subscribers :=
  match Unwrap subscriptionID with
  | Ok (sessionID, msgType, subID) =>
      match m !! sessionID with
      | None => m
      | Some types =>
          match types !! msgType with
          | None => m
          | Some subs =>
              if subs !! subID is Some _
              then <[sessionID := <[msgType := delete subID subs]> types]> m else m
          end
      end
  | _ => m
  end.
End subscriptions.

(** ** Streams *)

Section streams.
Context {Peer Stream : Type} `{Countable Peer}.

Abbreviation streams := (gmap string (gmap Peer Stream)).

(** The streams that are closed, and the manager without the session. *)
Definition ReleaseStreams (m : streams) (sessionID : string) : list Stream * streams :=
  match m !! sessionID with
  | None => ([], m)
  | Some ss => (snd <$> map_to_list ss, delete sessionID m)
  end.

Definition AddStream (m : streams) (sessionID : string) (peerID : Peer) (stream : Stream) : streams :=
  let ss := default ∅ (m !! sessionID) in
  match ss !! peerID with
  | Some _ => <[sessionID := ss]> m
  | None => <[sessionID := <[peerID := stream]> ss]> m
  end.

Definition Stream_ (m : streams) (sessionID : string) (peerID : Peer) : option Stream :=
  ss ← m !! sessionID; ss !! peerID.

(** [sendMessage] up to the write: the stream of the session is reused, or a new
    one is opened and kept. *)
Definition stream_for (NewStream : Peer -> res Stream) (m : streams) (sessionID : string) (to : Peer)
    : res Stream * streams :=
  match Stream_ m sessionID to with
  | Some s => (Ok s, m)
  | None =>
      match NewStream to with
      | Ok s => (Ok s, AddStream m sessionID to s)
      | Err e => (Err e, m)
      | Panic => (Panic, m)
      end
  end.
End streams.

(** ** Framing *)

Definition newline : ascii := "010"%char.

(** [WriteStream]: the message and a newline. *)
Definition WriteStream (msg : string) (w : string) : string := w +:+ msg +:+ String newline "".

(** [strings.Trim(s, "\n")] *)
Fixpoint trim_left (s : string) : string :=
  match s with
  | String a s' => if Ascii.eqb a newline then trim_left s' else s
  | EmptyString => ""
  end.

Fixpoint trim_right (s : string) : string :=
  match s with
  | EmptyString => ""
  | String a s' =>
      match trim_right s' with
      | EmptyString => if Ascii.eqb a newline then "" else String a ""
      | t => String a t
      end
  end.

(** [ReadStream] on a buffered stream: up to the first newline; an error when the
    stream ends before one. *)
Fixpoint read_until (s : string) : option (string * string) :=
  match s with
  | EmptyString => None
  | String a s' =>
      if Ascii.eqb a newline then Some (String a "", s')
      else match read_until s' with
           | None => None
           | Some (l, rest) => Some (String a l, rest)
           end
  end.

Definition ReadStream (s : string) : res (string * string) :=
  match read_until s with
  | None => Err "EOF"
  | Some (msg, rest) =>
      if bool_decide (msg = "") then Err "end of stream reached"
      else Ok (trim_right (trim_left msg), rest)
  end.

(** ** Sending *)

(** [resolveDNS]: the answers of the resolver and of [host.Connect]. *)
Definition resolveDNS {Peer} (NewResolver : option error) (Addrs : Peer -> list string)
    (Resolve : string -> res (list string)) (Connect : Peer -> list string -> option error) (peerID : Peer)
    : option error :=
  match NewResolver with
  | Some e => Some e
  | None =>
      match Addrs peerID with
      | [] => Some "peer has no defined addresses"
      | a :: _ => match Resolve a with
                  | Ok addr => Connect peerID addr
                  | Err e => Some e
                  | Panic => None
                  end
      end
  end.

Section sending.
Context {Peer Stream : Type} `{Countable Peer} `{EqDecision Stream}.

(** The stream manager and what was written on every stream. *)
Record transport := {
  tr_streams : gmap string (gmap Peer Stream);
  tr_bytes : Stream -> string;
}.

(** [resolve] is [resolveDNS]; [write] the answer of the network to a write, with the
    part of the text that went out before an error. *)
Definition sendMessage (resolve : Peer -> option error) (NewStream : Peer -> res Stream)
    (write : Stream -> option (error * string)) (to : Peer) (msg : string) (sessionID : string) (st : transport)
    : res unit * transport :=
  match resolve to with
  | Some e => (Err e, st)
  | None =>
      match stream_for NewStream (tr_streams st) sessionID to with
      | (Ok s, m) =>
          let after text := {| tr_streams := m;
                               tr_bytes := fun x => if decide (x = s) then text else tr_bytes st x |} in
          match write s with
          | None => (Ok tt, after (WriteStream msg (tr_bytes st s)))
          | Some (e, part) => (Err e, after (tr_bytes st s +:+ part))
          end
      | (Err e, m) => (Err e, {| tr_streams := m; tr_bytes := tr_bytes st |})
      | (Panic, m) => (Panic, {| tr_streams := m; tr_bytes := tr_bytes st |})
      end
  end.
End sending.

(** ** Messages *)

Record WrappedMessage (Peer : Type) := {
  wm_MessageType : MessageType;
  wm_SessionID : string;
  wm_Payload : bytes;
  wm_From : option Peer;
}.
Arguments wm_MessageType {Peer} _.
Arguments wm_SessionID {Peer} _.
Arguments wm_Payload {Peer} _.
Arguments wm_From {Peer} _.

(** The message without its sender, which is not encoded. *)
Definition anonymous {Peer} (m : WrappedMessage Peer) : WrappedMessage Peer :=
  {| wm_MessageType := wm_MessageType m; wm_SessionID := wm_SessionID m; wm_Payload := wm_Payload m;
     wm_From := None |}.

(** The fields of the JSON document, and [json.Marshal] and [json.Unmarshal]. *)
Definition wrapped_fields : list string := ["message_type"; "message_id"; "payload"].

Definition wrapped_json {Peer} (m : WrappedMessage Peer) : json :=
  JObject [("message_type", JNumber (fmt_d (wm_MessageType m))); ("message_id", JString (wm_SessionID m));
           ("payload", JString (base64_encode (wm_Payload m)))].

Definition store_wrapped {Peer} (m : WrappedMessage Peer) (name : string) (v : json) : res (WrappedMessage Peer) :=
  if bool_decide (name = "message_type") then
    t ← into_uint 8 (wm_MessageType m) v;
    Ok {| wm_MessageType := t; wm_SessionID := wm_SessionID m; wm_Payload := wm_Payload m; wm_From := None |}
  else if bool_decide (name = "message_id") then
    s ← into_string (wm_SessionID m) v;
    Ok {| wm_MessageType := wm_MessageType m; wm_SessionID := s; wm_Payload := wm_Payload m; wm_From := None |}
  else
    b ← into_bytes v;
    Ok {| wm_MessageType := wm_MessageType m; wm_SessionID := wm_SessionID m; wm_Payload := b; wm_From := None |}.

Definition Marshal {Peer} (m : WrappedMessage Peer) : res string := Ok (json_print (wrapped_json m)).

Definition Unmarshal {Peer} (s : string) : res (WrappedMessage Peer) :=
  j ← json_parse s;
  into_struct wrapped_fields store_wrapped
    {| wm_MessageType := 0; wm_SessionID := ""; wm_Payload := []; wm_From := None |} j.

Section libp2p.
Context {Peer Chan : Type} `{EqDecision Peer}.

(** An iteration of [ProcessMessagesFromStream]: the goroutines it starts, each of
    which hands the message to one subscriber, and the text it has not read; [None] when
    it returns, because a read or a decoding fails. *)
Definition process_message (subs : gmap string (gmap Z (gmap string Chan))) (remotePeerID : Peer) (s : string)
    : option (list (Chan * WrappedMessage Peer) * string) :=
  match ReadStream s with
  | Ok (msgBytes, rest) =>
      match Unmarshal (Peer := Peer) msgBytes with
      | Ok m =>
          let m' := {| wm_MessageType := wm_MessageType m; wm_SessionID := wm_SessionID m;
                       wm_Payload := wm_Payload m; wm_From := Some remotePeerID |} in
          Some ((fun sub => (sub, m')) <$> GetSubscribers subs (wm_SessionID m) (wm_MessageType m), rest)
      | _ => None
      end
  | _ => None
  end.

(** The goroutines [ProcessMessagesFromStream] starts on a text, in the order it starts
    them; they run concurrently ([net_step]).  [fuel] bounds the number of messages read. *)
Fixpoint ProcessMessagesFromStream (fuel : nat) (subs : gmap string (gmap Z (gmap string Chan)))
    (remotePeerID : Peer) (s : string) : list (Chan * WrappedMessage Peer) :=
  match fuel with
  | O => []
  | S fuel' =>
      match process_message subs remotePeerID s with
      | Some (started, rest) => started ++ ProcessMessagesFromStream fuel' subs remotePeerID rest
      | None => []
      end
  end.

(** The peers a broadcast sends to: all but the host. *)
Definition broadcast_targets (hostID : Peer) (peers : list Peer) : list Peer :=
  filter (fun p => p <> hostID) peers.

(** [Broadcast]: the sends run concurrently and finish in the order
    [completions]; the first error is returned, with its peer. *)
Definition first_failure (send : Peer -> string -> res unit) (marshaledMsg : string)
    (completions : list Peer) : option (Peer * error) :=
  head (omap (fun p => match send p marshaledMsg with Err e => Some (p, e) | _ => None end)
          completions).

Inductive comm_error := MarshalError (e : error) | CommunicationError (p : Peer) (e : error).

Definition Broadcast (hostID : Peer) (send : Peer -> string -> res unit) (completions : list Peer)
    (payload : bytes) (msgType : MessageType) (sessionID : string) : option comm_error :=
  match Marshal {| wm_MessageType := msgType; wm_SessionID := sessionID; wm_Payload := payload;
                   wm_From := Some hostID |} with
  | Ok marshaledMsg =>
      (fun '(p, e) => CommunicationError p e) <$> first_failure send marshaledMsg completions
  | Err e => Some (MarshalError e)
  | Panic => None
  end.

(** [ExecuteCommHealthCheck]: one broadcast for each peer; the failures.  An error
    that is not a [CommunicationError] fails the type assertion. *)
Fixpoint ExecuteCommHealthCheck (hostID : Peer) (send : Peer -> string -> res unit)
    (peers : list Peer) : res (list (Peer * error)) :=
  match peers with
  | [] => Ok []
  | p :: rest =>
      match Broadcast hostID send (broadcast_targets hostID [p]) [] Unknown "health-session" with
      | None => ExecuteCommHealthCheck hostID send rest
      | Some (CommunicationError q e) => cons (q, e) <$> ExecuteCommHealthCheck hostID send rest
      | Some (MarshalError _) => Panic
      end
  end.
End libp2p.

(** ** Identifiers *)

Lemma digits_not_dash z : lacks "-"%char (fmt_u z) = true.
Proof. by apply fmt_u_lacks. Qed.

Lemma dash_app s t : s +:+ "-" +:+ t = s +:+ String "-"%char t.
Proof. done. Qed.

Lemma split_subscription s t now :
  lacks "-"%char s = true ->
  str_split "-"%char (NewSubscriptionID s t now) = [s; fmt_u t; fmt_u (u32_wrap now)].
Proof.
  intros Hs. unfold NewSubscriptionID. rewrite dash_app, str_split_cons by done.
  rewrite dash_app, str_split_cons by apply digits_not_dash.
  by rewrite str_split_lacks by apply digits_not_dash.
Qed.

Lemma split_subscription_dashed s t now :
  lacks "-"%char s = false ->
  length (str_split "-"%char (NewSubscriptionID s t now)) <> 3%nat.
Proof.
  intros Hs. rewrite length_str_split. unfold NewSubscriptionID. rewrite !count_char_app.
  rewrite (proj1 (count_char_lacks _ (fmt_u t)) (digits_not_dash t)),
    (proj1 (count_char_lacks _ (fmt_u (u32_wrap now))) (digits_not_dash _)). simpl.
  destruct (count_char "-"%char s) eqn:E; [|lia].
  apply count_char_lacks in E. congruence.
Qed.

Lemma Unwrap_plain s t now :
  0 <= t <= Unknown -> lacks "-"%char s = true ->
  Unwrap (NewSubscriptionID s t now) = Ok (s, t, fmt_u (u32_wrap now)).
Proof.
  intros Ht Hs. unfold Unwrap. rewrite split_subscription by done. unfold Unknown in *.
  rewrite ParseInt_fmt_u by (simpl; lia). simpl.
  replace (13 <? t) with false by lia. by rewrite u8_wrap_small by (unfold is_u8; lia).
Qed.

Lemma Unwrap_dashed s t now :
  lacks "-"%char s = false ->
  Unwrap (NewSubscriptionID s t now) = Err "invalid subscriptionID".
Proof.
  intros Hs. unfold Unwrap. pose proof (split_subscription_dashed s t now Hs) as Hl.
  destruct (str_split _ _) as [|a [|b [|c [|d l]]]]; done.
Qed.

(** A subscription identifier gives back the session, the message type and
    the identifier it was made from exactly when the session has no dash; for any
    other session it cannot be read back at all. *)
Theorem SubscriptionID_roundtrip s t now :
  0 <= t <= Unknown ->
  Unwrap (NewSubscriptionID s t now)
  = (if lacks "-"%char s then Ok (s, t, fmt_u (u32_wrap now)) else Err "invalid subscriptionID").
Proof.
  intros Ht. destruct (lacks "-"%char s) eqn:Hs; [by apply Unwrap_plain|by apply Unwrap_dashed].
Qed.

(** ** Subscriptions *)

Section subscription_spec.
Context {Chan : Type}.
Implicit Types m : gmap string (gmap Z (gmap string Chan)).

(** The channel under an identifier, however deep the maps are. *)
Definition channel_at m (s : string) (t : MessageType) (i : string) : option Chan :=
  subs ← lookup_subs m s t; subs !! i.

Lemma channel_at_Subscribe m s t ch now s' t' i' :
  channel_at (snd (SubscribeTo m s t ch now)) s' t' i'
  = if decide ((s, t, SubscriptionIdentifier (NewSubscriptionID s t now)) = (s', t', i'))
    then Some ch else channel_at m s' t' i'.
Proof.
  unfold channel_at, lookup_subs, SubscribeTo. cbn [snd].
  set (i := SubscriptionIdentifier _). destruct (decide (s = s')) as [<-|Hs].
  2: { rewrite lookup_insert_ne by done. rewrite decide_False by congruence. done. }
  rewrite lookup_insert_eq. cbn. destruct (decide (t = t')) as [<-|Ht].
  2: { rewrite lookup_insert_ne, decide_False by congruence. by destruct (m !! s). }
  rewrite lookup_insert_eq. cbn. destruct (decide (i = i')) as [<-|Hi].
  - by rewrite lookup_insert_eq, decide_True.
  - rewrite lookup_insert_ne, decide_False by congruence.
    destruct (m !! s) as [types|]; cbn; [|done]. by destruct (types !! t).
Qed.

Lemma channel_at_UnSubscribe m id s t i s' t' i' :
  Unwrap id = Ok (s, t, i) ->
  channel_at (UnSubscribeFrom m id) s' t' i'
  = if decide ((s, t, i) = (s', t', i')) then None else channel_at m s' t' i'.
Proof.
  intros Hu. unfold UnSubscribeFrom. rewrite Hu. unfold channel_at, lookup_subs.
  destruct (m !! s) as [types|] eqn:Em.
  2: { case_decide as Hd; [|done]. injection Hd as <- <- <-. by rewrite Em. }
  destruct (types !! t) as [subs|] eqn:Et.
  2: { case_decide as Hd; [|done]. injection Hd as <- <- <-. rewrite Em. cbn. by rewrite Et. }
  destruct (subs !! i) as [ch|] eqn:Ei.
  2: { case_decide as Hd; [|done]. injection Hd as <- <- <-. rewrite Em. cbn. rewrite Et. cbn. done. }
  destruct (decide (s = s')) as [<-|Hs].
  2: { rewrite lookup_insert_ne, decide_False by congruence. done. }
  rewrite lookup_insert_eq, Em. cbn. destruct (decide (t = t')) as [<-|Ht].
  2: { rewrite lookup_insert_ne, decide_False by congruence. done. }
  rewrite lookup_insert_eq, Et. cbn. destruct (decide (i = i')) as [<-|Hi].
  - by rewrite lookup_delete_eq, decide_True.
  - by rewrite lookup_delete_ne, decide_False by congruence.
Qed.

(** C40. Subscriptions of a session without a dash are independent: a new one
    receives under an identifier of its own, and unsubscribing removes it and
    nothing else.  For a session with a dash all subscriptions of a message type
    share one place: a second one takes the first one's place, and unsubscribing
    does nothing. *)
Theorem subscriptions_by_session m s t ch now :
  0 <= t <= Unknown ->
  (lacks "-"%char s = true ->
   channel_at (snd (SubscribeTo m s t ch now)) s t (fmt_u (u32_wrap now)) = Some ch /\
   (channel_at m s t (fmt_u (u32_wrap now)) = None ->
    forall s' t' i',
      channel_at (UnSubscribeFrom (snd (SubscribeTo m s t ch now)) (fst (SubscribeTo m s t ch now)))
        s' t' i' = channel_at m s' t' i')) /\
  (lacks "-"%char s = false ->
   (forall m', UnSubscribeFrom m' (fst (SubscribeTo m s t ch now)) = m') /\
   (forall ch2 now2 i,
      channel_at (snd (SubscribeTo (snd (SubscribeTo m s t ch now)) s t ch2 now2)) s t i
      = channel_at (snd (SubscribeTo m s t ch2 now2)) s t i)).
Proof.
  intros Ht. split; intros Hs.
  - assert (Unwrap (NewSubscriptionID s t now) = Ok (s, t, fmt_u (u32_wrap now))) as Hu
      by (by apply Unwrap_plain).
    assert (SubscriptionIdentifier (NewSubscriptionID s t now) = fmt_u (u32_wrap now)) as Hi
      by (unfold SubscriptionIdentifier; by rewrite Hu).
    split; [by rewrite channel_at_Subscribe, Hi, decide_True|].
    intros Hfree s' t' i'.
    change (fst (SubscribeTo m s t ch now)) with (NewSubscriptionID s t now).
    rewrite (channel_at_UnSubscribe _ _ _ _ _ _ _ _ Hu), channel_at_Subscribe, Hi.
    case_decide as Hd; [|done]. injection Hd as <- <- <-. done.
  - assert (forall now', Unwrap (NewSubscriptionID s t now') = Err "invalid subscriptionID") as Hu
      by (intros; by apply Unwrap_dashed).
    split.
    + intros m'. unfold UnSubscribeFrom.
      change (fst (SubscribeTo m s t ch now)) with (NewSubscriptionID s t now). by rewrite Hu.
    + intros ch2 now2 i. rewrite !channel_at_Subscribe. unfold SubscriptionIdentifier.
      rewrite !Hu. by case_decide.
Qed.
End subscription_spec.

(** ** Streams *)

Section stream_spec.
Context {Peer Stream : Type} `{Countable Peer}.
Implicit Types m : gmap string (gmap Peer Stream).

Lemma Stream_AddStream m s p x s' p' :
  Stream_ (AddStream m s p x) s' p'
  = if decide ((s, p) = (s', p')) then Some (default x (Stream_ m s p)) else Stream_ m s' p'.
Proof.
  unfold Stream_, AddStream. destruct (m !! s) as [ss|] eqn:Em; cbn.
  - destruct (ss !! p) as [y|] eqn:Ep; cbn; destruct (decide (s = s')) as [<-|Hs];
      rewrite ?lookup_insert_eq, ?lookup_insert_ne by done; cbn;
      rewrite ?(decide_False (P := (s, p) = (s', p'))) by congruence; try done;
      destruct (decide (p = p')) as [<-|Hp];
      rewrite ?lookup_insert_eq, ?lookup_insert_ne by done;
      rewrite ?(decide_False (P := (s, p) = (s, p'))) by congruence;
      rewrite ?decide_True by done; rewrite ?Em; cbn; done.
  - rewrite lookup_empty. cbn. destruct (decide (s = s')) as [<-|Hs];
      rewrite ?lookup_insert_eq, ?lookup_insert_ne by done; cbn;
      rewrite ?(decide_False (P := (s, p) = (s', p'))) by congruence; try done;
      destruct (decide (p = p')) as [<-|Hp];
      rewrite ?lookup_insert_eq, ?lookup_insert_ne by done;
      rewrite ?(decide_False (P := (s, p) = (s, p'))) by congruence;
      rewrite ?decide_True by done; rewrite ?Em; cbn; rewrite ?lookup_empty; done.
Qed.

Lemma Stream_Release m s s' p :
  Stream_ (snd (ReleaseStreams m s)) s' p = if decide (s = s') then None else Stream_ m s' p.
Proof.
  unfold ReleaseStreams, Stream_. destruct (m !! s) as [ss|] eqn:Em; cbn.
  - destruct (decide (s = s')) as [<-|Hs]; [by rewrite lookup_delete_eq|by rewrite lookup_delete_ne].
  - case_decide as Hd; [|done]. subst s'. by rewrite Em.
Qed.
End stream_spec.

(** ** Framing and delivery *)

Lemma read_until_line s rest :
  lacks newline s = true ->
  read_until (s +:+ String newline rest) = Some (s +:+ String newline "", rest).
Proof.
  unfold lacks. induction s as [|a s IH]; [done|]. intros Hs. cbn [str_forall] in Hs.
  apply andb_prop in Hs as [Ha Hs]. apply negb_true_iff in Ha.
  rewrite !str_app_String. cbn [read_until]. by rewrite Ha, IH.
Qed.

Lemma trim_right_line s : lacks newline s = true -> trim_right (s +:+ String newline "") = s.
Proof.
  unfold lacks. induction s as [|a s IH]; [done|]. intros Hs. cbn [str_forall] in Hs.
  apply andb_prop in Hs as [Ha Hs]. apply negb_true_iff in Ha.
  rewrite str_app_String. cbn [trim_right]. rewrite IH by done. by destruct s; rewrite ?Ha.
Qed.

Lemma trim_line s :
  lacks newline s = true -> trim_right (trim_left (s +:+ String newline "")) = s.
Proof.
  intros Hs. destruct s as [|a s]; [done|].
  assert (Ascii.eqb a newline = false) as Ha.
  { unfold lacks in Hs. cbn [str_forall] in Hs. apply andb_prop in Hs as [Ha _].
    by apply negb_true_iff. }
  rewrite str_app_String. cbn [trim_left]. rewrite Ha.
  rewrite <- str_app_String. by apply trim_right_line.
Qed.

(** What was written with [WriteStream] is read back one message at a time. *)
Lemma ReadStream_line s rest :
  lacks newline s = true -> ReadStream (s +:+ String newline rest) = Ok (s, rest).
Proof.
  intros Hs. unfold ReadStream. rewrite read_until_line by done.
  rewrite bool_decide_eq_false_2 by (by destruct s). by rewrite trim_line.
Qed.

Section delivery.
Context {Peer Chan : Type} `{EqDecision Peer}.

(** Messages as the relayers send them: the type is a byte and the session plain text. *)
Definition encodable (m : WrappedMessage Peer) : Prop :=
  0 <= wm_MessageType m < 2 ^ 8 /\ ascii_text (wm_SessionID m) = true.

Lemma wrapped_printable m : encodable m -> printable 2 (wrapped_json m).
Proof.
  intros [Ht Hs]. cbn. repeat constructor; cbn; try done; [by eexists|]. apply base64_plain.
Qed.

(** A message is read back, and is on one line. *)
Lemma Unmarshal_Marshal m s : encodable m -> Marshal m = Ok s -> Unmarshal s = Ok (anonymous m).
Proof.
  intros Hm Es. assert (s = json_print (wrapped_json m)) as -> by (unfold Marshal in Es; congruence).
  unfold Unmarshal. rewrite (json_parse_print 2) by (lia || by apply wrapped_printable).
  cbn [mbind outcome_bind]. unfold wrapped_json. rewrite into_struct_fields.
  2: { unfold wrapped_fields. repeat constructor; set_solver. }
  destruct Hm as [Ht _]. cbn. unfold store_wrapped. cbn.
  rewrite into_uint_fmt by done. cbn. by rewrite into_bytes_encode.
Qed.

Lemma Marshal_one_line (m : WrappedMessage Peer) s : encodable m -> Marshal m = Ok s -> lacks newline s = true.
Proof.
  intros Hm Es. assert (s = json_print (wrapped_json m)) as -> by (unfold Marshal in Es; congruence).
  eapply visible_lacks; [by eapply print_visible, wrapped_printable|done].
Qed.

(** The stream after a list of messages was sent on it. *)
Fixpoint stream_of (msgs : list string) : string :=
  match msgs with
  | [] => ""
  | s :: rest => s +:+ String newline (stream_of rest)
  end.

Definition from_peer (remote : Peer) (m : WrappedMessage Peer) : WrappedMessage Peer :=
  {| wm_MessageType := wm_MessageType m; wm_SessionID := wm_SessionID m; wm_Payload := wm_Payload m;
     wm_From := Some remote |}.

Lemma stream_of_snoc lines s : WriteStream s (stream_of lines) = stream_of (lines ++ [s]).
Proof.
  unfold WriteStream. induction lines as [|l lines IH]; simpl; [done|].
  rewrite <- IH. by rewrite str_app_assoc.
Qed.

(** The hand overs of a message to the subscribers of its session and type. *)
Definition handovers (subs : gmap string (gmap Z (gmap string Chan))) (remote : Peer) (m : WrappedMessage Peer)
    : list (Chan * WrappedMessage Peer) :=
  (fun sub => (sub, from_peer remote m)) <$> GetSubscribers subs (wm_SessionID m) (wm_MessageType m).

Lemma process_message_line subs remote m rest : encodable m ->
  process_message subs remote (json_print (wrapped_json m) +:+ String newline rest) = Some (handovers subs remote m, rest).
Proof.
  intros Hm. unfold process_message.
  rewrite ReadStream_line by (by eapply Marshal_one_line). by rewrite (Unmarshal_Marshal m _ Hm eq_refl).
Qed.

Lemma messages_processed (subs : gmap string (gmap Z (gmap string Chan))) remote msgs lines fuel :
  Forall encodable msgs -> Forall2 (fun m s => Marshal m = Ok s) msgs lines -> (length msgs < fuel)%nat ->
  ProcessMessagesFromStream fuel subs remote (stream_of lines)
  = concat ((fun m => (fun sub => (sub, from_peer remote m))
                        <$> GetSubscribers subs (wm_SessionID m) (wm_MessageType m)) <$> msgs).
Proof.
  intros He Hf. revert fuel. induction Hf as [|m s msgs lines Hm Hf IH]; intros fuel Hfuel;
    (destruct fuel as [|fuel]; [simpl in Hfuel; lia|]); [done|]. apply list.Forall_cons in He as [Hem He].
  cbn [stream_of ProcessMessagesFromStream].
  assert (s = json_print (wrapped_json m)) as -> by (unfold Marshal in Hm; congruence).
  rewrite process_message_line, IH by (done || simpl in Hfuel; lia). done.
Qed.

Section sends.
Context `{Countable Peer} {Stream : Type} `{EqDecision Stream}.
Context (resolve : Peer -> option error) (NewStream : Peer -> res Stream).

(** A stream on which a write failed is kept: as long as it is broken, every later
    message of the session to the peer fails too, and no new stream is opened. *)
Lemma broken_stream_kept write to msg sessionID st s e part :
  resolve to = None -> Stream_ (tr_streams st) sessionID to = Some s -> write s = Some (e, part) ->
  exists st', sendMessage resolve NewStream write to msg sessionID st = (Err e, st') /\
    Stream_ (tr_streams st') sessionID to = Some s.
Proof.
  intros Hr Hs Hw. unfold sendMessage, stream_for. rewrite Hr, Hs, Hw. by eexists.
Qed.
End sends.

(** A broadcast succeeds exactly when the send to every target does, and an error
    names a target that could not be reached. *)
Lemma Broadcast_error hostID send completions payload msgType sessionID err :
  Broadcast hostID send completions payload msgType sessionID = Some (CommunicationError (Peer := Peer) err.1 err.2) ->
  exists s, err.1 ∈ completions /\ send err.1 s = Err err.2.
Proof.
  unfold Broadcast, first_failure, Marshal. set (s := json_print _).
  destruct (omap _ completions) as [|[p e] l] eqn:E; [done|]. intros [= <- <-]. exists s.
  assert ((p, e) ∈ omap (fun p => match send p s with Err e => Some (p, e) | _ => None end)
            completions) as Hin by (rewrite E; by left).
  apply list_elem_of_omap in Hin as (q & Hq & Hs).
  destruct (send q s) eqn:Es; simplify_eq. done.
Qed.
End delivery.

(** ** The network between two peers

    Sends run concurrently: each looks for the stream of its session, opens one if there
    is none and keeps it unless another send was faster, and writes its message on the
    stream it found or opened.  At the other end one goroutine reads each stream and
    starts a goroutine for every hand over, on channels without buffer.  A write is one
    step: a message fits the buffer of the writer. *)

Section network.
Context {Peer Chan : Type} `{Countable Peer} (subs : gmap string (gmap Z (gmap string Chan))) (from to : Peer).

Inductive send_status := Looking | Opening | Writing (stream : nat) | Written.

(** Streams are numbered as they are opened; [nw_wire] is what was written on each and
    not yet read. *)
Record network := {
  nw_streams : gmap string (gmap Peer nat);
  nw_wire : list string;
  nw_sends : list (WrappedMessage Peer * send_status);
  nw_started : list (Chan * WrappedMessage Peer);
  nw_received : list (Chan * WrappedMessage Peer);
}.

Definition with_send (i : nat) (m : WrappedMessage Peer) (x : send_status) (st : network) : network :=
  {| nw_streams := nw_streams st; nw_wire := nw_wire st; nw_sends := <[i := (m, x)]> (nw_sends st);
     nw_started := nw_started st; nw_received := nw_received st |}.
Definition with_wire (stream : nat) (text : string) (started : list (Chan * WrappedMessage Peer)) (st : network) : network :=
  {| nw_streams := nw_streams st; nw_wire := <[stream := text]> (nw_wire st); nw_sends := nw_sends st;
     nw_started := nw_started st ++ started; nw_received := nw_received st |}.

Inductive net_step : network -> network -> Prop :=
| net_found i m stream st :
    nw_sends st !! i = Some (m, Looking) -> Stream_ (nw_streams st) (wm_SessionID m) to = Some stream ->
    net_step st (with_send i m (Writing stream) st)
| net_missing i m st :
    nw_sends st !! i = Some (m, Looking) -> Stream_ (nw_streams st) (wm_SessionID m) to = None ->
    net_step st (with_send i m Opening st)
| net_opened i m st :
    nw_sends st !! i = Some (m, Opening) ->
    net_step st (with_send i m (Writing (length (nw_wire st)))
      {| nw_streams := AddStream (nw_streams st) (wm_SessionID m) to (length (nw_wire st));
         nw_wire := nw_wire st ++ [""]; nw_sends := nw_sends st;
         nw_started := nw_started st; nw_received := nw_received st |})
| net_written i m stream line text st :
    nw_sends st !! i = Some (m, Writing stream) -> Marshal m = Ok line -> nw_wire st !! stream = Some text ->
    net_step st (with_send i m Written (with_wire stream (WriteStream line text) [] st))
| net_read stream text started rest st :
    nw_wire st !! stream = Some text -> process_message subs from text = Some (started, rest) ->
    net_step st (with_wire stream rest started st)
| net_handed d l k st :
    nw_started st = l ++ d :: k ->
    net_step st {| nw_streams := nw_streams st; nw_wire := nw_wire st; nw_sends := nw_sends st;
                   nw_started := l ++ k; nw_received := nw_received st ++ [d] |}.

Abbreviation hand := (handovers subs from).

(** The messages a peer is about to send, with any streams it has opened before. *)
Definition about_to_send (streams : gmap string (gmap Peer nat)) (opened : nat) (msgs : list (WrappedMessage Peer)) : network :=
  {| nw_streams := streams; nw_wire := replicate opened ""; nw_sends := (., Looking) <$> msgs;
     nw_started := []; nw_received := [] |}.

Definition unsent (sends : list (WrappedMessage Peer * send_status)) : list (WrappedMessage Peer) :=
  omap (fun x => match x.2 with Written => None | _ => Some x.1 end) sends.

Definition line (m : WrappedMessage Peer) : string := json_print (wrapped_json m).

(** [q] are the messages on each stream. *)
Record net_inv (msgs : list (WrappedMessage Peer)) (q : list (list (WrappedMessage Peer))) (st : network) : Prop := {
  ni_wire : nw_wire st = (fun l => stream_of (line <$> l)) <$> q;
  ni_encodable : Forall (Forall encodable) q /\ Forall encodable (nw_sends st).*1;
  ni_streams : forall s i, Stream_ (nw_streams st) s to = Some i -> (i < length q)%nat;
  ni_writing : forall i m k, nw_sends st !! i = Some (m, Writing k) -> (k < length q)%nat;
  ni_all : nw_received st ++ nw_started st ++ (concat q ≫= hand) ++ (unsent (nw_sends st) ≫= hand) ≡ₚ (msgs ≫= hand);
}.

Lemma unsent_insert sends i m x y : sends !! i = Some (m, x) -> x <> Written -> y <> Written ->
  unsent (<[i := (m, y)]> sends) = unsent sends.
Proof.
  intros (l & k & -> & ->)%list_elem_of_split_length Hx Hy.
  rewrite insert_app_r_alt, Nat.sub_diag by done. unfold unsent. rewrite !omap_app. simpl. by destruct x, y.
Qed.

Lemma unsent_written sends i m x : sends !! i = Some (m, x) -> x <> Written ->
  unsent sends ≡ₚ m :: unsent (<[i := (m, Written)]> sends).
Proof.
  intros (l & k & -> & ->)%list_elem_of_split_length Hx.
  rewrite insert_app_r_alt, Nat.sub_diag by done. unfold unsent. rewrite !omap_app. simpl.
  destruct x; [..|done]; by rewrite Permutation_middle.
Qed.

Lemma fst_insert (sends : list (WrappedMessage Peer * send_status)) i m x y :
  sends !! i = Some (m, x) -> (<[i := (m, y)]> sends).*1 = sends.*1.
Proof. intros E. rewrite list_fmap_insert. simpl. apply list_insert_id. by rewrite list_lookup_fmap, E. Qed.

Lemma concat_insert {A} (q : list (list A)) k l l' : q !! k = Some l ->
  exists rest, concat q ≡ₚ l ++ rest /\ concat (<[k := l']> q) ≡ₚ l' ++ rest.
Proof.
  intros (a & b & -> & ->)%list_elem_of_split_length. exists (concat a ++ concat b).
  rewrite insert_app_r_alt, Nat.sub_diag by done. rewrite !concat_app. simpl. split; solve_Permutation.
Qed.

(** A step that changes a send to [y], none of the messages moving. *)
Lemma net_inv_send msgs q st i m x y : net_inv msgs q st -> nw_sends st !! i = Some (m, x) ->
  x <> Written -> y <> Written -> (forall k, y = Writing k -> (k < length q)%nat) -> net_inv msgs q (with_send i m y st).
Proof.
  intros [Hw [Hq He] Hs Hwr Hall] E Hx Hy Hk. constructor; simpl; [done| |done| |].
  - by erewrite fst_insert.
  - intros j m' k Hj. apply list_lookup_insert_Some in Hj as [(_ & [= _ ->] & _)|[_ Hj]]; [by apply Hk|by eapply Hwr].
  - by erewrite unsent_insert.
Qed.


Lemma net_inv_opened msgs q st i m : net_inv msgs q st -> nw_sends st !! i = Some (m, Opening) ->
  net_inv msgs (q ++ [[]])
    (with_send i m (Writing (length (nw_wire st)))
      {| nw_streams := AddStream (nw_streams st) (wm_SessionID m) to (length (nw_wire st));
         nw_wire := nw_wire st ++ [""]; nw_sends := nw_sends st;
         nw_started := nw_started st; nw_received := nw_received st |}).
Proof.
  intros Hinv E. pose proof Hinv as [Hw [Hq He] Hs Hwr Hall].
  assert (length (nw_wire st) = length q) as Hlen by (by rewrite Hw, length_fmap).
  constructor; simpl.
  - by rewrite Hw, fmap_app.
  - split; [apply list.Forall_app; by repeat constructor|]. by erewrite fst_insert.
  - intros s' k. rewrite Stream_AddStream, length_app. simpl.
    case_decide as Hd; [|intros Hk%Hs; lia]. injection Hd as <-. intros [= <-].
    destruct (Stream_ _ _ _) as [k'|] eqn:Ek; simpl; [apply Hs in Ek|]; lia.
  - intros j m' k Hj. rewrite length_app. simpl.
    apply list_lookup_insert_Some in Hj as [(_ & [= _ <-] & _)|[_ Hj]]; [|apply Hwr in Hj]; lia.
  - rewrite concat_app. simpl. rewrite app_nil_r. by erewrite unsent_insert.
Qed.

Lemma net_inv_written msgs q st i m k l : net_inv msgs q st -> nw_sends st !! i = Some (m, Writing k) ->
  q !! k = Some l ->
  net_inv msgs (<[k := l ++ [m]]> q)
    (with_send i m Written (with_wire k (WriteStream (line m) (stream_of (line <$> l))) [] st)).
Proof.
  intros [Hw [Hq He] Hs Hwr Hall] E Ek.
  assert (encodable m) as Hm by (eapply (list.Forall_lookup_1 _ _ i); [exact He|by rewrite list_lookup_fmap, E]).
  constructor; simpl.
  - rewrite Hw, stream_of_snoc, list_fmap_insert, fmap_app. done.
  - split; [|by erewrite fst_insert]. apply list.Forall_insert; [done|]. apply list.Forall_app.
    split; [by eapply list.Forall_lookup_1|by constructor].
  - by rewrite length_insert.
  - intros j m' k' Hj. rewrite length_insert.
    apply list_lookup_insert_Some in Hj as [(_ & [=] & _)|[_ Hj]]. by eapply Hwr.
  - rewrite <- Hall, (unsent_written (nw_sends st) i m _ E) by done. rewrite app_nil_r.
    destruct (concat_insert q k l (l ++ [m]) Ek) as (rest & -> & ->).
    rewrite bind_cons, !bind_app, bind_cons. simpl. rewrite app_nil_r. solve_Permutation.
Qed.

Lemma net_inv_read msgs q st k m l : net_inv msgs q st -> q !! k = Some (m :: l) ->
  net_inv msgs (<[k := l]> q) (with_wire k (stream_of (line <$> l)) (hand m) st).
Proof.
  intros [Hw [Hq He] Hs Hwr Hall] Ek. constructor; simpl.
  - by rewrite Hw, list_fmap_insert.
  - split; [|done]. apply list.Forall_insert; [done|].
    apply (list.Forall_lookup_1 _ _ _ _ Hq), list.Forall_cons in Ek. by destruct Ek.
  - by rewrite length_insert.
  - rewrite length_insert. exact Hwr.
  - rewrite <- Hall. destruct (concat_insert q k (m :: l) l Ek) as (rest & -> & ->).
    rewrite <- app_comm_cons, bind_cons, !bind_app. solve_Permutation.
Qed.

Lemma net_inv_step msgs q st st' : net_inv msgs q st -> net_step st st' -> exists q', net_inv msgs q' st'.
Proof.
  intros Hinv Hstep. pose proof Hinv as [Hw [Hq He] Hs Hwr Hall].
  destruct Hstep as [i m k st E Ek|i m st E Ek|i m st E|i m k l text st E El Ek|k text started rest st Ek Ep|d l k st E].
  - exists q. eapply net_inv_send; [done..|]. intros ? [= <-]. by eapply Hs.
  - exists q. by eapply net_inv_send.
  - exists (q ++ [[]]). by apply net_inv_opened.
  - assert (l = line m) as -> by (unfold Marshal in El; unfold line; congruence).
    rewrite Hw, list_lookup_fmap in Ek. apply fmap_Some in Ek as (l & Ek & ->).
    exists (<[k := l ++ [m]]> q). by apply net_inv_written.
  - rewrite Hw, list_lookup_fmap in Ek. apply fmap_Some in Ek as ([|m l] & Ek & ->); [done|].
    assert (encodable m) as Hm
      by (apply (list.Forall_lookup_1 _ _ _ _ Hq), list.Forall_cons in Ek; by destruct Ek).
    cbn [fmap list_fmap stream_of] in Ep. unfold line in Ep at 1. rewrite process_message_line in Ep by done.
    injection Ep as <- <-. exists (<[k := l]> q). by apply net_inv_read.
  - exists q. constructor; simpl; [done..|]. rewrite <- Hall, E. solve_Permutation.
Qed.

Lemma net_inv_steps msgs q st st' : net_inv msgs q st -> rtc net_step st st' -> exists q', net_inv msgs q' st'.
Proof.
  intros Hinv Hsteps. revert q Hinv. induction Hsteps as [|st st1 st' Hstep _ IH]; intros q Hinv; [by exists q|].
  destruct (net_inv_step msgs q st st1 Hinv Hstep) as [q' Hinv']. by apply (IH q').
Qed.

(** What is left to do before every message has been read. *)
Definition send_weight (x : send_status) : nat :=
  match x with Looking => 4 | Opening => 3 | Writing _ => 2 | Written => 0 end.
Definition to_do (q : list (list (WrappedMessage Peer))) (st : network) : nat :=
  (sum_list_with (send_weight ∘ snd) (nw_sends st) + length (concat q))%nat.

Lemma weight_insert sends i m x y : sends !! i = Some (m, x) ->
  (sum_list_with (send_weight ∘ snd) (<[i := (m, y)]> sends) + send_weight x =
   sum_list_with (send_weight ∘ @snd (WrappedMessage Peer) _) sends + send_weight y)%nat.
Proof.
  intros (l & k & -> & ->)%list_elem_of_split_length.
  rewrite insert_app_r_alt, Nat.sub_diag by done. rewrite !sum_list_with_app. simpl. lia.
Qed.

Lemma unsent_nil sends : unsent sends = [] \/ exists i m x, sends !! i = Some (m, x) /\ x <> Written.
Proof.
  induction sends as [|[m x] sends IH]; [by left|].
  destruct x; [right; exists 0%nat, m; eexists; split; [reflexivity|done]..|].
  destruct IH as [IH|(i & m' & x & E & Hx)]; [by left|right]. by exists (S i), m', x.
Qed.

(** As long as a message is unsent or unread something can be done about it, nothing
    being handed over. *)
Lemma net_progress msgs q st : net_inv msgs q st ->
  (unsent (nw_sends st) = [] /\ concat q = []) \/
  exists q' st', net_step st st' /\ net_inv msgs q' st' /\ (to_do q' st' < to_do q st)%nat /\
    nw_received st' = nw_received st.
Proof.
  intros Hinv. pose proof Hinv as [Hw [Hq He] Hs Hwr Hall].
  destruct (unsent_nil (nw_sends st)) as [Hu|(i & m & x & E & Hx)].
  - destruct (concat q) as [|m l] eqn:Eq; [by left|right].
    assert (exists k m l, q !! k = Some (m :: l)) as (k & m' & l' & Ek).
    { clear -Eq. induction q as [|[|m' l'] q IH]; [done| |by exists 0%nat, m', l'].
      destruct (IH Eq) as (k & m' & l' & Ek). by exists (S k), m', l'. }
    assert (encodable m') as Hm
      by (apply (list.Forall_lookup_1 _ _ _ _ Hq), list.Forall_cons in Ek; by destruct Ek).
    exists (<[k := l']> q). eexists. split; [|split; [by apply net_inv_read|split; [|done]]].
    + eapply net_read; [by rewrite Hw, list_lookup_fmap, Ek|]. by apply process_message_line.
    + destruct (concat_insert q k (m' :: l') l' Ek) as (rest & Hc & Hc').
      unfold to_do. simpl. rewrite Hc, Hc', !length_app. simpl. lia.
  - right. destruct x as [| |k|]; [| | |done].
    + destruct (Stream_ (nw_streams st) (wm_SessionID m) to) as [k|] eqn:Ek.
      * exists q. eexists. split; [by eapply net_found|]. split; [|split; [|done]].
        { eapply net_inv_send; [done..|]. intros ? [= <-]. by eapply Hs. }
        pose proof (weight_insert _ i m _ (Writing k) E). unfold to_do. simpl in *. lia.
      * exists q. eexists. split; [by eapply net_missing|]. split; [by eapply net_inv_send|split; [|done]].
        pose proof (weight_insert _ i m _ Opening E). unfold to_do. simpl in *. lia.
    + exists (q ++ [[]]). eexists. split; [by eapply net_opened|]. split; [by apply net_inv_opened|split; [|done]].
      pose proof (weight_insert _ i m _ (Writing (length (nw_wire st))) E). unfold to_do. simpl in *.
      rewrite concat_app, length_app. simpl. lia.
    + destruct (lookup_lt_is_Some_2 q k (Hwr _ _ _ E)) as [l Ek].
      exists (<[k := l ++ [m]]> q). eexists. split; [|split; [by apply net_inv_written|split; [|done]]].
      * eapply net_written; [done|done|]. by rewrite Hw, list_lookup_fmap, Ek.
      * pose proof (weight_insert _ i m _ Written E) as Hwt.
        destruct (concat_insert q k l (l ++ [m]) Ek) as (rest & Hc & Hc').
        unfold to_do. simpl in *. rewrite Hc, Hc', !length_app. simpl. lia.
Qed.

Lemma net_reads_all msgs q st : net_inv msgs q st -> exists st', rtc net_step st st' /\
  nw_received st' = nw_received st /\ nw_received st' ++ nw_started st' ≡ₚ (msgs ≫= hand).
Proof.
  remember (to_do q st) as n eqn:En. revert q st En.
  induction n as [n IH] using lt_wf_ind; intros q st -> Hinv.
  destruct (net_progress msgs q st Hinv) as [[Hu Hq]|(q' & st' & Hstep & Hinv' & Hlt & Hr)].
  - exists st. split; [done|]. split; [done|]. pose proof (ni_all _ _ _ Hinv) as Hall.
    rewrite Hu, Hq in Hall. simpl in Hall. by rewrite app_nil_r in Hall.
  - destruct (IH _ Hlt q' st' eq_refl Hinv') as (st2 & Hsteps & Hr2 & Hall).
    exists st2. split; [by eapply rtc_l|]. by rewrite Hr2 in Hall |- *; rewrite Hr in *.
Qed.

Lemma net_hands_all l st : nw_started st ≡ₚ l -> exists st', rtc net_step st st' /\
  nw_received st' = nw_received st ++ l.
Proof.
  revert st. induction l as [|d l IH]; intros st Hl.
  { exists st. split; [done|]. by rewrite app_nil_r. }
  assert (d ∈ nw_started st) as (a & b & E)%list_elem_of_split by (rewrite Hl; by left).
  destruct (IH {| nw_streams := nw_streams st; nw_wire := nw_wire st; nw_sends := nw_sends st;
                  nw_started := a ++ b; nw_received := nw_received st ++ [d] |}) as (st' & Hsteps & Hr).
  { simpl. apply (Permutation_cons_inv (a := d)). rewrite <- Hl, E. solve_Permutation. }
  exists st'. split; [eapply rtc_l; [by eapply net_handed|done]|]. rewrite Hr. simpl. by rewrite <- app_assoc.
Qed.

Lemma unsent_all (msgs : list (WrappedMessage Peer)) : unsent ((., Looking) <$> msgs) = msgs.
Proof. induction msgs as [|m msgs IH]; [done|]. rewrite fmap_cons. change (m :: unsent ((., Looking) <$> msgs) = m :: msgs). by rewrite IH. Qed.

Lemma about_to_send_inv streams opened msgs : Forall encodable msgs ->
  (forall s i, Stream_ streams s to = Some i -> (i < opened)%nat) ->
  net_inv msgs (replicate opened []) (about_to_send streams opened msgs).
Proof.
  intros He Hs. constructor; simpl.
  - by rewrite fmap_replicate.
  - split; [by apply list.Forall_replicate|]. rewrite <- list_fmap_compose. simpl. by rewrite list_fmap_id.
  - intros s i Hi. rewrite length_replicate. by eapply Hs.
  - intros i m k. rewrite list_lookup_fmap. by destruct (msgs !! i).
  - assert (concat (replicate opened []) = @nil (WrappedMessage Peer)) as ->
      by (clear; induction opened; simpl; done).
    by rewrite unsent_all.
Qed.

(** What was handed over at any time, and when nothing is left to do. *)
Lemma net_delivers streams opened msgs st :
  Forall encodable msgs -> (forall s i, Stream_ streams s to = Some i -> (i < opened)%nat) ->
  rtc net_step (about_to_send streams opened msgs) st ->
  (exists missing, nw_received st ++ missing ≡ₚ (msgs ≫= hand)) /\
  ((forall st', ~ net_step st st') -> nw_received st ≡ₚ (msgs ≫= hand)).
Proof.
  intros He Hs Hsteps. pose proof (about_to_send_inv streams opened msgs He Hs) as Hinv.
  destruct (net_inv_steps _ _ _ _ Hinv Hsteps) as [q Hq].
  split; [eexists; exact (ni_all _ _ _ Hq)|]. intros Hstuck.
  destruct (net_progress msgs q st Hq) as [[Hu Hc]|(q' & st' & Hstep & _)]; [|by destruct (Hstuck st')].
  pose proof (ni_all _ _ _ Hq) as Hall. rewrite Hu, Hc in Hall. simpl in Hall.
  destruct (nw_started st) as [|d started] eqn:E; [by rewrite !app_nil_r in Hall|].
  destruct (Hstuck _ (net_handed d [] started st E)).
Qed.

(** C37. Messages a peer sends another one, concurrently and for any sessions, while
    sending works and each fits the buffer of its writer.  Whatever the interleaving of the sends, which may open several
    streams for a session, of the reads and of the hand overs: every hand over made is one
    of a sent message to a subscriber of its session and type, marked as coming from the
    sending peer whatever sender it claims, and none is made twice; when nothing is left
    to do each message was handed to each of its subscribers exactly once; and the hand
    overs can come in every order, that of sending is not kept. *)
Theorem messages_delivered streams opened msgs :
  Forall encodable msgs -> (forall s i, Stream_ streams s to = Some i -> (i < opened)%nat) ->
  (forall st, rtc net_step (about_to_send streams opened msgs) st ->
     (exists missing, nw_received st ++ missing ≡ₚ (msgs ≫= hand)) /\
     ((forall st', ~ net_step st st') -> nw_received st ≡ₚ (msgs ≫= hand))) /\
  (forall l, l ≡ₚ (msgs ≫= hand) ->
     exists st, rtc net_step (about_to_send streams opened msgs) st /\ nw_received st = l).
Proof.
  intros He Hs. pose proof (about_to_send_inv streams opened msgs He Hs) as Hinv. split.
  - intros st Hsteps. by apply (net_delivers streams opened).
  - intros l Hl. destruct (net_reads_all _ _ _ Hinv) as (st & Hsteps & Hr & Hall). rewrite Hr in Hall. simpl in Hall.
    destruct (net_hands_all l st) as (st' & Hsteps' & Hr'); [by rewrite Hall, Hl|].
    exists st'. split; [by eapply rtc_trans|]. by rewrite Hr', Hr.
Qed.

(** A send nothing interferes with is [sendMessage]. *)
Lemma send_alone st i m msgs q : net_inv msgs q st -> nw_sends st !! i = Some (m, Looking) ->
  let bytes_of st k := default "" (nw_wire st !! k) in
  exists st' tr, rtc net_step st st' /\ nw_sends st' = <[i := (m, Written)]> (nw_sends st) /\
    sendMessage (fun _ => None) (fun _ => Ok (length (nw_wire st))) (fun _ => None) to (line m) (wm_SessionID m)
      {| tr_streams := nw_streams st; tr_bytes := bytes_of st |} = (Ok tt, tr) /\
    tr_streams tr = nw_streams st' /\ forall k, tr_bytes tr k = bytes_of st' k.
Proof.
  intros Hinv E bytes_of. pose proof Hinv as [Hw _ Hs _ _].
  assert (i < length (nw_sends st))%nat as Hi by (by eapply lookup_lt_Some).
  unfold sendMessage, stream_for. simpl. destruct (Stream_ (nw_streams st) (wm_SessionID m) to) as [k|] eqn:Ek.
  - assert (is_Some (nw_wire st !! k)) as [text Et]
      by (apply lookup_lt_is_Some; rewrite Hw, length_fmap; by eapply Hs).
    eexists _, _. split; [|split; [|split; [reflexivity|split; [|]]]].
    + eapply rtc_l; [by eapply net_found|]. eapply rtc_once, (net_written i m k); simpl.
      * by rewrite list_lookup_insert_eq.
      * reflexivity.
      * exact Et.
    + simpl. by rewrite list_insert_insert_eq.
    + done.
    + intros k'. simpl. unfold bytes_of. simpl. rewrite Et. case_decide as Hk.
      * subst k'. rewrite list_lookup_insert_eq; [done|]. by eapply lookup_lt_Some.
      * by rewrite list_lookup_insert_ne.
  - eexists _, _. split; [|split; [|split; [reflexivity|split; [|]]]].
    + eapply rtc_l; [by eapply net_missing|]. eapply rtc_l; [eapply (net_opened i m); simpl|].
      { by rewrite list_lookup_insert_eq. }
      eapply rtc_once, (net_written i m (length (nw_wire st))); simpl.
      * by rewrite list_lookup_insert_eq; [|rewrite length_insert].
      * reflexivity.
      * by rewrite lookup_app_r, Nat.sub_diag.
    + simpl. by rewrite !list_insert_insert_eq.
    + done.
    + intros k'. simpl. unfold bytes_of. simpl. rewrite lookup_ge_None_2 by done. case_decide as Hk.
      * subst k'. rewrite list_lookup_insert_eq; [done|]. rewrite length_app. simpl. lia.
      * rewrite list_lookup_insert_ne by done. destruct (decide (k' < length (nw_wire st))%nat).
        { by rewrite lookup_app_l. }
        rewrite (lookup_ge_None_2 (nw_wire st)), lookup_ge_None_2; [done|rewrite length_app; simpl; lia|lia].
Qed.
End network.

(** ** Concrete sessions *)

Module CommExample.

(** A session without a dash, and the session of a signing batch. *)
Definition plain : string := "6ac1".
Definition dashed : string := "1-2-5-9-0".

Definition msg (t : MessageType) : WrappedMessage nat :=
  {| wm_MessageType := t; wm_SessionID := plain; wm_Payload := []; wm_From := Some 66%nat |}.

Definition subs : gmap string (gmap Z (gmap string nat)) :=
  snd (SubscribeTo (snd (SubscribeTo ∅ plain TssReadyMsg 10%nat 1)) plain TssStartMsg 20%nat 2).
End CommExample.

Import CommExample.

Lemma SubscriptionID_roundtrip_witness :
  Unwrap (NewSubscriptionID plain TssFailMsg 5) = Ok (plain, TssFailMsg, "5") /\
  Unwrap (NewSubscriptionID dashed TssFailMsg 5) = Err "invalid subscriptionID".
Proof.
  split.
  - rewrite (SubscriptionID_roundtrip plain TssFailMsg 5) by (unfold TssFailMsg, Unknown; lia).
    reflexivity.
  - rewrite (SubscriptionID_roundtrip dashed TssFailMsg 5) by (unfold TssFailMsg, Unknown; lia).
    reflexivity.
Defined.

(** The coordinator's and the watcher's channels of one signing session. *)
Lemma subscriptions_by_session_witness :
  GetSubscribers (snd (SubscribeTo (snd (SubscribeTo ∅ dashed TssFailMsg 1%nat 7))
                         dashed TssFailMsg 2%nat 8)) dashed TssFailMsg = [2%nat] /\
  forall m' : gmap string (gmap Z (gmap string nat)),
    UnSubscribeFrom m' (fst (SubscribeTo ∅ dashed TssFailMsg 1%nat 7)) = m'.
Proof.
  split; [vm_compute; reflexivity|].
  apply (proj2 (subscriptions_by_session (∅ : gmap string (gmap Z (gmap string nat)))
    dashed TssFailMsg 1%nat 7 ltac:(unfold TssFailMsg, Unknown; lia)) eq_refl).
Defined.

Lemma messages_delivered_witness :
  exists st, rtc (net_step subs 7%nat 8%nat) (about_to_send ∅ 0 [msg TssReadyMsg; msg TssFailMsg; msg TssStartMsg]) st /\
    (fun d => (fst d, wm_MessageType (snd d), wm_From (snd d))) <$> nw_received st
    = [(20%nat, TssStartMsg, Some 7%nat); (10%nat, TssReadyMsg, Some 7%nat)].
Proof.
  destruct (messages_delivered subs 7%nat 8%nat ∅ 0 [msg TssReadyMsg; msg TssFailMsg; msg TssStartMsg]) as [_ Hany].
  - by repeat constructor.
  - intros s i. unfold Stream_. rewrite lookup_empty. discriminate.
  - destruct (Hany [(20%nat, from_peer 7%nat (msg TssStartMsg)); (10%nat, from_peer 7%nat (msg TssReadyMsg))])
      as (st & Hsteps & Hr).
    + apply Permutation_swap.
    + exists st. split; [exact Hsteps|]. rewrite Hr. reflexivity.
Defined.
