(* ===== verification/Elector.v ===== *)
(** * Coordinator election ([comm/elector], [tss/util])

    Peers are ranked by a hash of their identifier and the session.  The static
    elector takes the first peer of the ranking; the bully elector, used after a
    failure, exchanges messages. *)

From S2P Require Import Prelude GoBytes GoStrings Comm.

#[local] Open Scope string_scope.
#[local] Open Scope list_scope.
#[local] Open Scope Z_scope.

Section ranking.
Context {Peer : Type} `{EqDecision Peer}.
(** libp2p's text form of a peer and Keccak-256. *)
Context (Pretty : Peer -> string) (Keccak256 : bytes -> bytes).

(** The number [Less] compares: the first eight bytes of the hash. *)
Definition peer_rank (sessionID : string) (p : Peer) : Z :=
  default 0 (be_uint64 (Keccak256 (bytes_of_string (Pretty p) ++ bytes_of_string sessionID))).

(** [SortablePeerSlice.Less] *)
Definition Less (sessionID : string) (p q : Peer) : bool := peer_rank sessionID q <? peer_rank sessionID p.

(** [SortPeersForSession] up to the order of ties, which [sort.Sort] leaves open:
    a permutation of the peers in which none is less than one before it. *)
Definition SortPeersForSession (peers : list Peer) (sessionID : string) (sorted : list Peer) : Prop :=
  sorted ≡ₚ peers /\ StronglySorted (fun p q => Less sessionID q p = false) sorted.

(** An insertion sort, one of its possible results. *)
Fixpoint insert_peer (sessionID : string) (p : Peer) (l : list Peer) : list Peer :=
  match l with
  | [] => [p]
  | q :: l' => if Less sessionID q p then q :: insert_peer sessionID p l' else p :: l
  end.

Definition sort_peers (peers : list Peer) (sessionID : string) : list Peer :=
  foldr (insert_peer sessionID) [] peers.

(** [util.IsParticipant] *)
Definition IsParticipant (p : Peer) (peers : list Peer) : bool :=
  existsb (fun q => bool_decide (Pretty q = Pretty p)) peers.

(** [staticCoordinatorElector.Coordinator]: the empty peer when there is none. *)
Definition static_Coordinator (sorted : list Peer) : option Peer := head sorted.

(** ** Bully election *)

Section bully.
Context (hostID : Peer) (sortedPeers : list Peer).

(** The last position of [p] in the ranking, 0 when it is not in it. *)
Definition position (p : Peer) : nat :=
  foldl (fun i '(j, q) => if bool_decide (p = q) then j else i) 0%nat
    (zip (seq 0 (length sortedPeers)) sortedPeers).

Definition isPeerIDHigher (p1 p2 : Peer) : bool := (position p1 <? position p2)%nat.

Definition setCoordinator (ID coordinator : Peer) : Peer :=
  if isPeerIDHigher ID coordinator || bool_decide (ID = hostID) then ID else coordinator.

(** Messages the elector sends. *)
Inductive bully_send :=
| SendElection (to : Peer)
| SendAlive (to : Peer)
| SendSelect (to : list Peer)
| SendPingResponse (to : Peer).

(** How [elect] ends: an answer of a higher peer, or the timeout. *)
Inductive elect_outcome := ElectAlive | ElectTimeout.

Definition elect (o : elect_outcome) (coordinator : Peer) : Peer * list bully_send :=
  let calls := SendElection <$> filter (fun p => isPeerIDHigher p hostID = true) sortedPeers in
  match o with
  | ElectAlive => (coordinator, calls)
  | ElectTimeout => (setCoordinator hostID coordinator, calls ++ [SendSelect sortedPeers])
  end.

(** A turn of the loop of [startBullyCoordination]; an election message carries
    the outcome of the election it may start. *)
Inductive bully_event :=
| RecvElection (from : Peer) (o : elect_outcome)
| RecvSelect (from : Peer).

Definition bully_step (st : Peer * list bully_send) (ev : bully_event) : Peer * list bully_send :=
  let (coordinator, sent) := st in
  match ev with
  | RecvElection from o =>
      if isPeerIDHigher from hostID then (coordinator, sent)
      else let (c, s) := elect o coordinator in (c, sent ++ SendAlive from :: s)
  | RecvSelect from => (setCoordinator from coordinator, sent)
  end.

Definition startBullyCoordination (o : elect_outcome) (evs : list bully_event)
    : Peer * list bully_send :=
  run_events bully_step (elect o hostID) evs.

(** [listen]: where a received message goes. *)
Inductive bully_route :=
| ToElection
| ToReceive
| ToPing
| Reply (m : bully_send)
| Ignored.

Definition listen (from : Peer) (msgType : MessageType) : bully_route :=
  if bool_decide (msgType = CoordinatorAliveMsg) then
    if isPeerIDHigher hostID from then ToElection else Ignored
  else if bool_decide (msgType = CoordinatorSelectMsg) then ToReceive
  else if bool_decide (msgType = CoordinatorElectionMsg) then ToReceive
  else if bool_decide (msgType = CoordinatorPingResponseMsg) then ToPing
  else if bool_decide (msgType = CoordinatorPingMsg) then Reply (SendPingResponse from)
  else Ignored.

(** *** The goroutines of an election

    [listen] and [startBullyCoordination] run beside each other and meet on channels:
    [receiveChan] and [pingChan] have no buffer, [electionChan] holds one message. *)

(** Where [listen] is: waiting for a message or for the end of the context, sending a
    message to [receiveChan], sending to [pingChan], which nobody reads, or returned. *)
Inductive listener :=
| LFree
| LHolds (from : Peer) (msgType : MessageType)
| LBlocked
| LReturned.

(** Where [startBullyCoordination] is: in the select of [elect] or in its own loop. *)
Inductive worker := Electing | Serving.

Record bully_node := {
  bn_coordinator : Peer;
  bn_sent : list bully_send;
  bn_electionChan : bool;
  bn_listener : listener;
  bn_worker : worker;
}.

(** The messages [elect] sends before it waits. *)
Definition calls : list bully_send :=
  SendElection <$> filter (fun p => isPeerIDHigher p hostID = true) sortedPeers.

(** [NewBullyCoordinatorElector] and the start of [Coordinator]. *)
Definition NewBullyCoordinatorElector : bully_node :=
  {| bn_coordinator := hostID; bn_sent := calls; bn_electionChan := false;
     bn_listener := LFree; bn_worker := Electing |}.

(** [listen] takes a message from [msgChan].  When [electionChan] is full an alive message
    is dropped after half a second; when the place gets free in that time, this is the run
    in which the message is taken after that. *)
Definition take_message (from : Peer) (msgType : MessageType) (st : bully_node) : bully_node :=
  let at_ l := {| bn_coordinator := bn_coordinator st; bn_sent := bn_sent st;
                  bn_electionChan := bn_electionChan st; bn_listener := l; bn_worker := bn_worker st |} in
  match listen from msgType with
  | ToElection => {| bn_coordinator := bn_coordinator st; bn_sent := bn_sent st; bn_electionChan := true;
                     bn_listener := LFree; bn_worker := bn_worker st |}
  | ToReceive => at_ (LHolds from msgType)
  | ToPing => at_ LBlocked
  | Reply m => {| bn_coordinator := bn_coordinator st; bn_sent := bn_sent st ++ [m];
                  bn_electionChan := bn_electionChan st; bn_listener := LFree; bn_worker := bn_worker st |}
  | Ignored => at_ LFree
  end.

(** The loop of [startBullyCoordination] takes the message [listen] holds. *)
Definition serve (from : Peer) (msgType : MessageType) (st : bully_node) : bully_node :=
  let next c sent w := {| bn_coordinator := c; bn_sent := sent; bn_electionChan := bn_electionChan st;
                          bn_listener := LFree; bn_worker := w |} in
  if bool_decide (msgType = CoordinatorElectionMsg) && negb (isPeerIDHigher from hostID)
  then next (bn_coordinator st) (bn_sent st ++ SendAlive from :: calls) Electing
  else if bool_decide (msgType = CoordinatorSelectMsg)
  then next (setCoordinator from (bn_coordinator st)) (bn_sent st) Serving
  else next (bn_coordinator st) (bn_sent st) Serving.

(** The end of the select of [elect]: a message of [electionChan], or the timeout. *)
Definition end_election (o : elect_outcome) (st : bully_node) : bully_node :=
  match o with
  | ElectAlive =>
      {| bn_coordinator := bn_coordinator st; bn_sent := bn_sent st; bn_electionChan := false;
         bn_listener := bn_listener st; bn_worker := Serving |}
  | ElectTimeout =>
      {| bn_coordinator := setCoordinator hostID (bn_coordinator st);
         bn_sent := bn_sent st ++ [SendSelect sortedPeers]; bn_electionChan := bn_electionChan st;
         bn_listener := bn_listener st; bn_worker := Serving |}
  end.

Inductive bully_label :=
| Received (from : Peer) (msgType : MessageType)
| Internal.

Inductive node_step : bully_node -> bully_label -> bully_node -> Prop :=
| step_take st from msgType : bn_listener st = LFree ->
    node_step st (Received from msgType) (take_message from msgType st)
| step_return st : bn_listener st = LFree ->
    node_step st Internal {| bn_coordinator := bn_coordinator st; bn_sent := bn_sent st;
      bn_electionChan := bn_electionChan st; bn_listener := LReturned; bn_worker := bn_worker st |}
| step_serve st from msgType : bn_listener st = LHolds from msgType -> bn_worker st = Serving ->
    node_step st Internal (serve from msgType st)
| step_alive st : bn_worker st = Electing -> bn_electionChan st = true ->
    node_step st Internal (end_election ElectAlive st)
| step_timeout st : bn_worker st = Electing -> node_step st Internal (end_election ElectTimeout st).

(** What a node can be in after the messages [recv], in the order it took them. *)
Inductive node_run : list (Peer * MessageType) -> bully_node -> Prop :=
| run_start : node_run [] NewBullyCoordinatorElector
| run_received recv st from msgType st' : node_run recv st -> node_step st (Received from msgType) st' ->
    node_run (recv ++ [(from, msgType)]) st'
| run_internal recv st st' : node_run recv st -> node_step st Internal st' -> node_run recv st'.

(** [Coordinator] returns what the node holds when [BullyWaitTime] is over: nothing is
    ever sent to [errChan]. *)
Definition bully_Coordinator (recv : list (Peer * MessageType)) (c : Peer) : Prop :=
  exists st, node_run recv st /\ bn_coordinator st = c.
End bully.

(** *** The factory *)

Inductive CoordinatorElectorType := Static | Bully.

Inductive elector :=
| StaticElector (sessionID : string)
| BullyElector (sessionID : string) (hostID : Peer).

(** [CoordinatorElectorFactory.CoordinatorElector] *)
Definition CoordinatorElector (h : Peer) (sessionID : string) (electorType : CoordinatorElectorType) : elector :=
  match electorType with
  | Static => StaticElector sessionID
  | Bully => BullyElector sessionID h
  end.

(** [Coordinator] of the electors: the coordinators it may return for the peers, given
    the messages received meanwhile. *)
Definition elector_Coordinator (e : elector) (peers : list Peer) (recv : list (Peer * MessageType))
    (c : option Peer) : Prop :=
  match e with
  | StaticElector sessionID =>
      exists sorted, SortPeersForSession peers sessionID sorted /\ c = static_Coordinator sorted
  | BullyElector sessionID hostID =>
      exists sorted leader, SortPeersForSession peers sessionID sorted /\
        bully_Coordinator hostID sorted recv leader /\ c = Some leader
  end.
End ranking.

(** ** Agreement of the static elector *)

Section agreement.
Context {Peer : Type} `{EqDecision Peer}.
Context (Pretty : Peer -> string) (Keccak256 : bytes -> bytes).

Abbreviation rank := (peer_rank Pretty Keccak256).

Lemma insert_peer_perm sessionID p l : insert_peer Pretty Keccak256 sessionID p l ≡ₚ p :: l.
Proof.
  induction l as [|q l IH]; [done|]. cbn. destruct (Less _ _ _ _ _); [|done].
  rewrite IH. apply Permutation_swap.
Qed.

Lemma insert_peer_sorted sessionID p l :
  StronglySorted (fun p q => Less Pretty Keccak256 sessionID q p = false) l ->
  StronglySorted (fun p q => Less Pretty Keccak256 sessionID q p = false)
    (insert_peer Pretty Keccak256 sessionID p l).
Proof.
  intros Hs. induction Hs as [|q l Hs IH Hall]; cbn; [by repeat constructor|].
  destruct (Less _ _ _ q p) eqn:E.
  - constructor; [done|]. rewrite insert_peer_perm. constructor; [|done].
    unfold Less in *. lia.
  - constructor; [by constructor|]. constructor; [done|].
    eapply list.Forall_impl; [exact Hall|]. intros x Hx. unfold Less in *. lia.
Qed.

(** The insertion sort is a possible result of [sort.Sort]. *)
Lemma sort_peers_sorts peers sessionID :
  SortPeersForSession Pretty Keccak256 peers sessionID (sort_peers Pretty Keccak256 peers sessionID).
Proof.
  unfold sort_peers. induction peers as [|p peers [Hp Hs]]; cbn; [split; [done|constructor]|].
  split; [by rewrite insert_peer_perm, Hp|by apply insert_peer_sorted].
Qed.

(** C30. Relayers that know the same peers, in whatever order, agree on the
    ranking of a session and so on its coordinator, when no two peers have the
    same hash prefix; the coordinator is the peer with the greatest one. *)
Theorem static_coordinator_agreement peers peers' sessionID l l' :
  peers ≡ₚ peers' -> NoDup (rank sessionID <$> peers) ->
  SortPeersForSession Pretty Keccak256 peers sessionID l ->
  SortPeersForSession Pretty Keccak256 peers' sessionID l' ->
  l = l' /\ static_Coordinator l = static_Coordinator l' /\
  (forall c, static_Coordinator l = Some c ->
     c ∈ peers /\ forall p, p ∈ peers -> rank sessionID p <= rank sessionID c).
Proof.
  intros Hp Hnd [Hpl Hsl] [Hpl' Hsl'].
  assert (l = l') as <-.
  { apply (StronglySorted_unique_strong (fun p q => Less Pretty Keccak256 sessionID q p = false) l l');
      [|done..|by rewrite Hpl, Hpl'].
    intros a b Ha Hb Hab Hba. unfold Less in *.
    apply (NoDup_fmap_key (rank sessionID) peers); [done|by rewrite <- Hpl|by rewrite Hp, <- Hpl'|lia]. }
  split_and!; [done..|]. intros c Hc. unfold static_Coordinator in Hc.
  destruct l as [|c' l]; [done|]. injection Hc as ->.
  split; [rewrite <- Hpl; by left|]. intros p Hin. rewrite <- Hpl in Hin.
  apply elem_of_cons in Hin as [->|Hin]; [done|].
  apply StronglySorted_inv in Hsl as [_ Hall]. rewrite Forall_forall in Hall.
  specialize (Hall p (proj1 (list_elem_of_In _ _) Hin)). unfold Less in Hall. lia.
Qed.
End agreement.

(** ** The bully election *)

Section bully_spec.
Context {Peer : Type} `{EqDecision Peer}.

Lemma position_absent (l : list Peer) p n acc :
  p ∉ l ->
  foldl (fun i '(j, q) => if bool_decide (p = q) then j else i) acc (zip (seq n (length l)) l) = acc.
Proof.
  revert n acc. induction l as [|q l IH]; intros n acc Hp; [done|]. cbn.
  apply not_elem_of_cons in Hp as [Hne Hp]. rewrite bool_decide_eq_false_2 by done. by apply IH.
Qed.

Lemma position_present (l : list Peer) p i n acc :
  NoDup l -> l !! i = Some p ->
  foldl (fun i '(j, q) => if bool_decide (p = q) then j else i) acc (zip (seq n (length l)) l)
  = (n + i)%nat.
Proof.
  revert n acc i. induction l as [|q l IH]; intros n acc i Hnd Hi; [done|].
  apply list.NoDup_cons in Hnd as [Hq Hnd]. cbn. destruct i as [|i]; cbn in Hi.
  - injection Hi as ->. rewrite bool_decide_eq_true_2 by done. rewrite position_absent by done. lia.
  - rewrite (IH _ _ i) by done. lia.
Qed.

Lemma position_first (top : Peer) rest : NoDup (top :: rest) -> position (top :: rest) top = 0%nat.
Proof. intros Hnd. unfold position. by rewrite (position_present _ _ 0). Qed.

Lemma position_later (top p : Peer) rest :
  NoDup (top :: rest) -> p ∈ rest -> (0 < position (top :: rest) p)%nat.
Proof.
  intros Hnd Hp. apply list_elem_of_lookup in Hp as [i Hi].
  unfold position. rewrite (position_present _ _ (S i)) by done. lia.
Qed.

Lemma position_outside (l : list Peer) p : p ∉ l -> position l p = 0%nat.
Proof. intros Hp. by apply position_absent. Qed.

#[local] Arguments isPeerIDHigher : simpl never.
#[local] Arguments setCoordinator : simpl never.

(** The coordinator of an election is the host or a peer that announced itself. *)
Section origin.
Context (hostID : Peer) (sortedPeers : list Peer).

Lemma setCoordinator_member ID c : setCoordinator hostID sortedPeers ID c = ID \/
                                   setCoordinator hostID sortedPeers ID c = c.
Proof. unfold setCoordinator. case_match; auto. Qed.

Lemma bully_coordinator_origin o evs :
  (startBullyCoordination hostID sortedPeers o evs).1 = hostID \/ RecvSelect (startBullyCoordination hostID sortedPeers o evs).1 ∈ evs.
Proof.
  unfold startBullyCoordination. induction evs as [|ev evs IH] using rev_ind.
  { left. destruct o; cbn; [done|]. unfold setCoordinator. by case_match. }
  rewrite run_events_app. cbn. destruct (run_events (bully_step hostID sortedPeers) _ evs) as [c s]. cbn in IH.
  assert (forall ev', c = hostID \/ RecvSelect c ∈ evs ++ [ev']) as IH'
    by (intros ev'; destruct IH as [?|IH]; [by left|right; apply elem_of_app; by left]).
  destruct ev as [from o'|from]; cbn.
  - destruct (isPeerIDHigher sortedPeers from hostID); cbn; [apply IH'|].
    destruct o'; cbn; [apply IH'|].
    destruct (setCoordinator_member hostID c) as [->| ->]; [by left|apply IH'].
  - destruct (setCoordinator_member from c) as [->| ->]; [|apply IH'].
    right. apply elem_of_app. right. by left.
Qed.

End origin.

Context (hostID top : Peer) (rest : list Peer).
Context (Hnd : NoDup (top :: rest)) (Hhost : hostID ∈ top :: rest).

Abbreviation peers := (top :: rest).
Abbreviation step := (bully_step hostID peers).
Abbreviation start := (startBullyCoordination hostID peers).

(** An event that cannot make the host announce itself. *)
Definition no_own_win (ev : bully_event (Peer := Peer)) : Prop :=
  match ev with RecvElection _ ElectTimeout => False | _ => True end.

(** The first peer of the ranking replaces any other ranked peer, and no peer
    replaces it. *)
Lemma select_top c : c ∈ peers -> setCoordinator hostID peers top c = top.
Proof.
  intros Hc. apply elem_of_cons in Hc as [->|Hc].
  - unfold setCoordinator. by case_match.
  - unfold setCoordinator, isPeerIDHigher. rewrite position_first by done.
    pose proof (position_later top c rest Hnd Hc). by destruct (Nat.ltb_spec 0 (position peers c)); [|lia].
Qed.

Lemma keep_top x : x <> hostID \/ x = top -> setCoordinator hostID peers x top = top.
Proof.
  intros Hx. unfold setCoordinator, isPeerIDHigher. rewrite (position_first top rest) by done.
  destruct (Nat.ltb_spec (position peers x) 0); [lia|]. cbn.
  destruct (bool_decide_reflect (x = hostID)) as [->|]; [|done]. by destruct Hx.
Qed.

(** Outcome of a bully election, for every exchange of messages: the
    coordinator is the host or a peer that announced itself; once the first peer
    of the ranking has announced itself it is the coordinator, if all peers that
    announced themselves are in the ranking and the host does not win an election
    of its own afterwards nor is told of its own announcement; but a peer outside
    the ranking counts as the first one, and its announcement replaces any
    coordinator but the first. *)
Theorem bully_election o pre post :
  (forall x, RecvSelect x ∈ pre ++ post -> x ∈ peers /\ (x <> hostID \/ x = top)) ->
  Forall no_own_win post ->
  ((start o (pre ++ RecvSelect top :: post)).1 = top) /\
  ((start o pre).1 = hostID \/ RecvSelect (start o pre).1 ∈ pre) /\
  (forall x c, x ∉ peers -> c ∈ rest -> setCoordinator hostID peers x c = x).
Proof.
  intros Hsel Hpost. split_and!.
  - assert ((start o pre).1 ∈ peers) as Hc.
    { destruct (bully_coordinator_origin hostID peers o pre) as [->|Hin]; [done|].
      apply (Hsel (start o pre).1). set_solver. }
    unfold startBullyCoordination in *. rewrite run_events_app. cbn.
    destruct (run_events step (elect hostID peers o hostID) pre) as [c s]. cbn in Hc |- *.
    rewrite (select_top c Hc). clear Hc c.
    assert (forall x, RecvSelect x ∈ post -> x <> hostID \/ x = top) as Hsel'
      by (intros x Hx; apply (Hsel x); set_solver).
    clear Hsel. revert s. induction Hpost as [|ev post Hev Hpost IH]; intros s; [done|]. cbn.
    assert (forall x, RecvSelect x ∈ post -> x <> hostID \/ x = top) as Hs'
      by (intros x Hx; apply Hsel'; by right).
    destruct ev as [from [|]|from]; cbn in Hev; [|done|].
    + cbn. destruct (isPeerIDHigher peers from hostID); by apply IH.
    + cbn. rewrite keep_top; [by apply IH|]. apply Hsel'. by left.
  - apply bully_coordinator_origin.
  - intros x c Hx Hc. unfold setCoordinator, isPeerIDHigher. rewrite (position_outside peers x Hx).
    pose proof (position_later top c rest Hnd Hc). by destruct (Nat.ltb_spec 0 (position peers c)); [|lia].
Qed.
End bully_spec.

(** ** The goroutines of an election *)

Section node_facts.
Context {Peer : Type} `{EqDecision Peer} (hostID : Peer) (sortedPeers : list Peer).
Abbreviation higher := (isPeerIDHigher sortedPeers).
Abbreviation run := (node_run hostID sortedPeers).
Abbreviation start := (startBullyCoordination hostID sortedPeers).

Definition no_ping (m : bully_send (Peer := Peer)) : Prop :=
  match m with SendPingResponse _ => False | _ => True end.
#[local] Instance no_ping_dec m : Decision (no_ping m).
Proof. destruct m; apply _. Defined.

(** The messages the worker is handed. *)
Definition served (m : Peer * MessageType) : Prop :=
  m.2 = CoordinatorElectionMsg \/ m.2 = CoordinatorSelectMsg.
Definition held (l : listener (Peer := Peer)) : list (Peer * MessageType) :=
  match l with LHolds from msgType => [(from, msgType)] | _ => [] end.
Definition ev_message (ev : bully_event (Peer := Peer)) : Peer * MessageType :=
  match ev with
  | RecvElection from _ => (from, CoordinatorElectionMsg)
  | RecvSelect from => (from, CoordinatorSelectMsg)
  end.
Definition ends (P : elect_outcome -> Prop) (ev : bully_event (Peer := Peer)) : Prop :=
  match ev with RecvElection _ o => P o | RecvSelect _ => True end.

(** An alive message that [listen] handed to the election. *)
Definition heard (recv : list (Peer * MessageType)) : Prop :=
  exists from, (from, CoordinatorAliveMsg) ∈ recv /\ higher hostID from = true.
Definition may_end (recv : list (Peer * MessageType)) (o : elect_outcome) : Prop :=
  o = ElectTimeout \/ heard recv.

Definition finish (o : elect_outcome) (st : bully_node) : bully_node :=
  match bn_worker st with Electing => end_election hostID sortedPeers o st | Serving => st end.
Definition observed (st : bully_node (Peer := Peer)) : Peer * list bully_send :=
  (bn_coordinator st, filter no_ping (bn_sent st)).

(** The state is the one the events lead to, the election that is still going on ending
    with [o']. *)
Definition explained (recv : list (Peer * MessageType)) (st : bully_node) (o' : elect_outcome) : Prop :=
  exists o evs, let P o := may_end recv o \/ o = o' in
    P o /\ Forall (ends P) evs /\
    (ev_message <$> evs) ++ held (bn_listener st) = filter served recv /\
    observed (finish o' st) = start o evs.

Record node_inv (recv : list (Peer * MessageType)) (st : bully_node) : Prop := {
  ni_chan : bn_electionChan st = true -> heard recv;
  ni_held : forall from msgType, bn_listener st = LHolds from msgType -> served (from, msgType);
  ni_explained : forall o', explained recv st o';
}.

Lemma heard_app recv m : heard recv -> heard (recv ++ [m]).
Proof. intros (from & Hin & Hh). exists from. set_solver. Qed.

Lemma ends_impl (P Q : elect_outcome -> Prop) evs :
  (forall o, P o -> Q o) -> Forall (ends P) evs -> Forall (ends Q) evs.
Proof. intros HPQ Hf. eapply list.Forall_impl; [exact Hf|]. intros [? ?|?]; simpl; auto. Qed.

(** The messages sent before [elect] waits are kept by the filter. *)
Lemma no_ping_calls : filter no_ping (calls hostID sortedPeers) = calls hostID sortedPeers.
Proof.
  unfold calls. induction (filter _ sortedPeers) as [|p l IH]; [done|].
  rewrite fmap_cons, filter_cons_True by done. by f_equal.
Qed.

Lemma inv_start : node_inv [] (NewBullyCoordinatorElector hostID sortedPeers).
Proof.
  split; [done|done|]. intros o'. exists o', []. split; [by right|]. split; [done|]. split; [done|].
  unfold observed, finish. simpl. unfold startBullyCoordination. simpl.
  destruct o'; simpl; [by rewrite no_ping_calls|]. by rewrite list.filter_app, no_ping_calls.
Qed.

(** [listen] hands the worker the election and the select messages. *)
Lemma listen_served from msgType :
  listen hostID sortedPeers from msgType = ToReceive <-> served (from, msgType).
Proof.
  unfold listen, served. simpl.
  repeat (case_bool_decide; [subst; repeat case_match; split; (done || (intros [?|?]; done) || tauto)|]).
  split; [done|tauto].
Qed.

Lemma listen_alive from msgType :
  listen hostID sortedPeers from msgType = ToElection -> msgType = CoordinatorAliveMsg /\ higher hostID from = true.
Proof. unfold listen. repeat case_bool_decide; subst; repeat case_match; done. Qed.

(** A message changes nothing of what is observed until the worker takes it. *)
Lemma take_observed from msgType st o' :
  observed (finish o' (take_message hostID sortedPeers from msgType st)) = observed (finish o' st).
Proof.
  unfold observed, finish, take_message.
  destruct (listen hostID sortedPeers from msgType) as [| | |m|] eqn:El; destruct (bn_worker st), o'; try done; simpl.
  all: assert (exists p, m = SendPingResponse p) as [p ->]
    by (unfold listen in El; repeat case_match; simplify_eq; by eexists).
  all: rewrite !list.filter_app; simpl; by rewrite ?app_nil_r.
Qed.

Lemma take_held from msgType st :
  held (bn_listener (take_message hostID sortedPeers from msgType st)) = filter served [(from, msgType)].
Proof.
  pose proof (listen_served from msgType) as Hs. unfold take_message. destruct (decide (served (from, msgType))) as [H|H].
  - rewrite filter_cons_True by done. by rewrite (proj2 Hs H).
  - rewrite filter_cons_False by done. destruct (listen hostID sortedPeers from msgType); try done. by destruct H; apply Hs.
Qed.

Lemma inv_take recv st from msgType : node_inv recv st -> bn_listener st = LFree ->
  node_inv (recv ++ [(from, msgType)]) (take_message hostID sortedPeers from msgType st).
Proof.
  intros Hinv Hl. split.
  - intros Hc. unfold take_message in Hc.
    destruct (listen hostID sortedPeers from msgType) eqn:El; try (by apply heard_app, (ni_chan _ _ Hinv)).
    apply listen_alive in El as [-> Hh]. exists from. set_solver.
  - intros from' t' Hf. assert ((from', t') ∈ filter served [(from, msgType)]) as Hin
      by (rewrite <- (take_held from msgType st), Hf; by left).
    by apply list_elem_of_filter in Hin as [? _].
  - intros o'. destruct (ni_explained _ _ Hinv o') as (o & evs & Ho & Hevs & Hm & Hobs). exists o, evs.
    assert (forall o, may_end recv o \/ o = o' -> may_end (recv ++ [(from, msgType)]) o \/ o = o') as Hi
      by (intros ? [[?|?%(heard_app _ (from, msgType))]|?]; unfold may_end; tauto).
    split; [by apply Hi|]. split; [exact (ends_impl _ _ _ Hi Hevs)|].
    rewrite Hl, app_nil_r in Hm. by rewrite list.filter_app, <- Hm, take_held, take_observed.
Qed.

(** A turn of the worker's loop is a step of the events. *)
Lemma inv_serve recv st from msgType : node_inv recv st -> bn_listener st = LHolds from msgType ->
  bn_worker st = Serving -> node_inv recv (serve hostID sortedPeers from msgType st).
Proof.
  intros Hinv Hl Hw. pose proof (ni_held _ _ Hinv _ _ Hl) as Hs. split.
  - intros Hc. apply (ni_chan _ _ Hinv). by unfold serve in Hc; repeat case_match.
  - unfold serve. by repeat case_match.
  - intros o'. destruct (ni_explained _ _ Hinv ElectTimeout) as (o & evs & Ho & Hevs & Hm & Hobs).
    assert (forall o, may_end recv o \/ o = ElectTimeout -> may_end recv o \/ o = o') as Hi
      by (unfold may_end; intros ?; tauto).
    rewrite Hl in Hm. unfold finish in Hobs. rewrite Hw in Hobs.
    exists o, (evs ++ [if bool_decide (msgType = CoordinatorElectionMsg) then RecvElection from o' else RecvSelect from]).
    split; [by apply Hi|]. split; [|split].
    + apply list.Forall_app. split; [exact (ends_impl _ _ _ Hi Hevs)|]. constructor; [|done].
      case_bool_decide; simpl; tauto.
    + rewrite fmap_app, <- Hm, <- app_assoc. f_equal.
      destruct Hs as [Hs|Hs]; simpl in Hs; subst; unfold serve; repeat case_match; done.
    + unfold startBullyCoordination in *. rewrite run_events_app, <- Hobs.
      unfold observed, finish, serve, run_events. simpl. destruct Hs as [Hs|Hs]; simpl in Hs; subst; simpl; [|done].
      destruct (higher from hostID); simpl; [done|].
      destruct o'; simpl; rewrite !list.filter_app, ?filter_cons_True, ?no_ping_calls by done; [done|].
      by rewrite <- app_assoc.
Qed.

(** The end of an election settles its outcome. *)
Lemma inv_end recv st o : node_inv recv st -> bn_worker st = Electing -> may_end recv o ->
  node_inv recv (end_election hostID sortedPeers o st).
Proof.
  intros Hinv Hw Ho. split.
  - intros Hc. apply (ni_chan _ _ Hinv). by destruct o.
  - intros from t Hl. apply (ni_held _ _ Hinv). by destruct o.
  - intros o'. destruct (ni_explained _ _ Hinv o) as (o0 & evs & Ho0 & Hevs & Hm & Hobs). exists o0, evs.
    assert (forall x, may_end recv x \/ x = o -> may_end recv x \/ x = o') as Hi
      by (intros ? [?| ->]; by left).
    split; [by apply Hi|]. split; [exact (ends_impl _ _ _ Hi Hevs)|]. unfold finish in *. rewrite Hw in Hobs.
    by destruct o.
Qed.

Lemma run_inv recv st : run recv st -> node_inv recv st.
Proof.
  induction 1 as [|recv st from msgType st' _ IH Hstep|recv st st' _ IH Hstep].
  - apply inv_start.
  - inversion Hstep; subst. by apply inv_take.
  - inversion Hstep as [|? Hl|? from msgType Hl Hw|? Hw Hc|? Hw]; subst.
    + destruct IH as [Hc Hh He]. split; [done|done|]. intros o'.
      destruct (He o') as (o & evs & Ho & Hevs & Hm & Hobs). exists o, evs. rewrite Hl in Hm.
      split_and!; [done..|]. rewrite <- Hobs. unfold observed, finish. simpl. by destruct (bn_worker st), o'.
    + by apply inv_serve.
    + apply inv_end; [done..|]. right. by apply (ni_chan _ _ IH).
    + apply inv_end; [done..|]. by left.
Qed.

(** A peer the host calls ranks above it, and [listen] drops its answer. *)
Lemma calls_unheard recv :
  (forall p, (p, CoordinatorAliveMsg) ∈ recv -> SendElection p ∈ calls hostID sortedPeers) -> ~ heard recv.
Proof.
  intros Hc (p & Hin & Hh). apply Hc in Hin. unfold calls in Hin.
  apply list_elem_of_fmap in Hin as (q & [= <-] & [Hq _]%list_elem_of_filter).
  unfold isPeerIDHigher in *. apply Nat.ltb_lt in Hh, Hq. lia.
Qed.

#[local] Arguments isPeerIDHigher : simpl never.

(** An election called by a lower peer, once it is over, leaves the host as coordinator. *)
Lemma last_call pre p evs st :
  ev_message <$> evs = pre ++ [(p, CoordinatorElectionMsg)] -> Forall (ends (eq ElectTimeout)) evs ->
  higher p hostID = false -> observed st = start ElectTimeout evs -> bn_coordinator st = hostID.
Proof.
  intros Hm Ht Hp Hobs. apply fmap_app_inv in Hm as (evs1 & evs2 & _ & Hlast & ->).
  destruct evs2 as [|[q o|q] [|]]; simplify_eq/=. apply list.Forall_app in Ht as [_ [Ho _]%list.Forall_cons].
  cbn in Ho. subst o. change (bn_coordinator st) with (observed st).1. rewrite Hobs.
  unfold startBullyCoordination. rewrite run_events_app. cbn.
  destruct (run_events _ _ evs1) as [c s]. cbn. rewrite Hp. cbn.
  unfold setCoordinator. by rewrite (bool_decide_eq_true_2 (hostID = hostID)), orb_true_r.
Qed.

(** C21. What a bully election returns, for every interleaving of its two goroutines and
    every sequence of messages.  The node goes through an election of
    [startBullyCoordination]: its coordinator and the messages it sent are those of the
    election and select messages it took, in their order.  The coordinator is the host or
    a peer whose announcement was taken.  The answers of the peers that the node calls
    are never heard, though: [listen] hands over the alive messages of lower peers only.
    So, when nobody else sends one, every election ends with the timeout, and a node
    whose last message was the call of a lower peer holds itself for the coordinator,
    whichever higher peers answered or announced themselves before. *)
Theorem bully_Coordinator_result recv st :
  run recv st ->
  (exists o evs, observed st = start o evs /\
     (ev_message <$> evs) ++ held (bn_listener st) = filter served recv) /\
  (bn_coordinator st = hostID \/ (bn_coordinator st, CoordinatorSelectMsg) ∈ recv) /\
  ((forall p, (p, CoordinatorAliveMsg) ∈ recv -> SendElection p ∈ calls hostID sortedPeers) ->
   bn_worker st = Serving ->
   (exists evs, observed st = start ElectTimeout evs /\ Forall (ends (eq ElectTimeout)) evs) /\
   (forall pre p, held (bn_listener st) = [] -> filter served recv = pre ++ [(p, CoordinatorElectionMsg)] ->
      higher p hostID = false -> bn_coordinator st = hostID)).
Proof.
  intros Hinv%run_inv. split_and!.
  - destruct (ni_explained _ _ Hinv ElectAlive) as (o & evs & _ & _ & Hm & Hobs). exists o, evs.
    split; [|done]. rewrite <- Hobs. unfold observed, finish. by destruct (bn_worker st).
  - destruct (ni_explained _ _ Hinv ElectAlive) as (o & evs & _ & _ & Hm & Hobs).
    assert (bn_coordinator st = (start o evs).1) as ->
      by (rewrite <- Hobs; unfold observed, finish; by destruct (bn_worker st)).
    destruct (bully_coordinator_origin hostID sortedPeers o evs) as [|Hin]; [by left|right].
    apply (list_elem_of_fmap_2 ev_message) in Hin. cbn in Hin.
    assert ((( start o evs).1, CoordinatorSelectMsg) ∈ filter served recv) as Hf
      by (rewrite <- Hm; apply elem_of_app; by left).
    by apply list_elem_of_filter in Hf as [_ ?].
  - intros Halive Hw. assert (~ heard recv) as Hdeaf by exact (calls_unheard recv Halive).
    destruct (ni_explained _ _ Hinv ElectTimeout) as (o & evs & Ho & Hevs & Hm & Hobs).
    unfold finish in Hobs. rewrite Hw in Hobs.
    assert (o = ElectTimeout) as -> by (destruct Ho as [[|]|]; tauto).
    assert (Forall (ends (eq ElectTimeout)) evs) as Ht
      by (eapply ends_impl; [|exact Hevs]; intros ? [[|]|]; first [done|tauto]).
    split; [by exists evs|]. intros pre p Hh Hpre Hp.
    rewrite Hh, app_nil_r, Hpre in Hm. exact (last_call pre p evs st Hm Ht Hp Hobs).
Qed.
End node_facts.

(** ** Concrete elections *)

Module ElectorExample.

Definition pretty (p : Z) : string := fmt_u p.
(** A hash whose first word is the length-weighted sum of the input. *)
Definition hash (l : bytes) : bytes := be_fixed 8 (be_val l mod 97) ++ be_fixed 24 0.

Definition peers : list Z := [1; 2; 3].
End ElectorExample.

Import ElectorExample.

Lemma static_coordinator_agreement_witness :
  sort_peers pretty hash [1; 2; 3] "5-6" = sort_peers pretty hash [3; 1; 2] "5-6" /\
  static_Coordinator (sort_peers pretty hash [1; 2; 3] "5-6")
  = static_Coordinator (sort_peers pretty hash [3; 1; 2] "5-6").
Proof.
  destruct (static_coordinator_agreement pretty hash [1; 2; 3] [3; 1; 2] "5-6"
    (sort_peers pretty hash [1; 2; 3] "5-6") (sort_peers pretty hash [3; 1; 2] "5-6"))
    as (E1 & E2 & _).
  - symmetry. apply (Permutation_cons_append [1; 2] 3).
  - apply (bool_decide_unpack _). vm_compute. done.
  - apply sort_peers_sorts.
  - apply sort_peers_sorts.
  - exact (conj E1 E2).
Defined.

(** Peer 9 was excluded from the election of 1, 2 and 3 and announces itself. *)
Lemma bully_election_witness :
  (startBullyCoordination 3 peers ElectAlive
     ([RecvSelect 2] ++ RecvSelect 1 :: [RecvSelect 2; RecvElection 3 ElectAlive])).1 = 1 /\
  setCoordinator 3 peers 9 2 = 9.
Proof.
  destruct (bully_election 3 1 [2; 3]
    ltac:(apply (bool_decide_unpack _); vm_compute; done) ltac:(set_solver) ElectAlive
    [RecvSelect 2] [RecvSelect 2; RecvElection 3 ElectAlive]) as (E & _ & Hout).
  - intros x Hx. assert (x = 2) as -> by set_solver. split; [set_solver|by left].
  - repeat constructor.
  - split; [exact E|]. apply (Hout 9 2); set_solver.
Defined.

(** Peer 1, the first of the ranking, answers peer 2 and announces itself; then peer 3
    calls, and peer 1 answers again. *)
Lemma bully_Coordinator_result_witness :
  let recv := [(1, CoordinatorAliveMsg); (1, CoordinatorSelectMsg); (3, CoordinatorElectionMsg);
               (1, CoordinatorAliveMsg)] in
  exists st, node_run 2 peers recv st /\ bn_worker st = Serving /\ bn_coordinator st = 2 /\
    bn_sent st = [SendElection 1; SendSelect peers; SendAlive 3; SendElection 1; SendSelect peers] /\
    bully_Coordinator 2 peers recv 2.
Proof.
  intros recv. set (s0 := NewBullyCoordinatorElector 2 peers).
  set (s1 := take_message 2 peers 1 CoordinatorAliveMsg s0).
  set (s2 := take_message 2 peers 1 CoordinatorSelectMsg s1). set (s3 := end_election 2 peers ElectTimeout s2).
  set (s4 := serve 2 peers 1 CoordinatorSelectMsg s3).
  set (s5 := take_message 2 peers 3 CoordinatorElectionMsg s4).
  set (s6 := serve 2 peers 3 CoordinatorElectionMsg s5).
  set (s7 := take_message 2 peers 1 CoordinatorAliveMsg s6). set (s8 := end_election 2 peers ElectTimeout s7).
  assert (node_run 2 peers recv s8) as Hrun.
  { apply (run_internal _ _ recv s7); [|by constructor].
    apply (run_received _ _ [(1, CoordinatorAliveMsg); (1, CoordinatorSelectMsg); (3, CoordinatorElectionMsg)] s6);
      [|by constructor].
    apply (run_internal _ _ _ s5); [|by constructor].
    apply (run_received _ _ [(1, CoordinatorAliveMsg); (1, CoordinatorSelectMsg)] s4); [|by constructor].
    apply (run_internal _ _ _ s3); [|by constructor]. apply (run_internal _ _ _ s2); [|by constructor].
    apply (run_received _ _ [(1, CoordinatorAliveMsg)] s1); [|by constructor].
    apply (run_received _ _ [] s0); [|by constructor]. constructor. }
  assert (bn_coordinator s8 = 2) as Hc.
  { destruct (bully_Coordinator_result 2 peers recv s8 Hrun) as (_ & _ & Htimeout).
    destruct Htimeout as [_ Hlast]; [|reflexivity|].
    - intros p Hp. assert (p = 1) as -> by set_solver. by left.
    - apply (Hlast [(1, CoordinatorSelectMsg)] 3); reflexivity. }
  exists s8. split; [exact Hrun|]. split; [reflexivity|]. split; [exact Hc|]. split; [reflexivity|]. by exists s8.
Defined.
