(* ===== verification/Coordinator.v ===== *)
(** * TSS coordination ([tss/coordinator.go])

    How relayers agree to start a threshold process: the coordinator collects
    ready peers and broadcasts the start parameters, the others answer and wait,
    a watcher ends the process, and a failed signing is tried once more under an
    elected coordinator.  The processes are known by their interface only.

    A goroutine is a function of the events its [select] receives, in order; a
    result of [None] means that it is still waiting after them.  Peers are
    libp2p identifiers, strings as in the source, and [""] is the absent peer. *)

From S2P Require Import Prelude GoBytes GoStrings Comm Elector.

#[local] Open Scope string_scope.
#[local] Open Scope list_scope.
#[local] Open Scope Z_scope.

(** [slices.Contains] *)
Definition contains (l : list PeerID) (p : PeerID) : bool := bool_decide (p ∈ l).

(** [common.ExcludePeers] *)
Definition ExcludePeers (peers excludedPeers : list PeerID) : list PeerID :=
  filter (fun p => contains excludedPeers p = false) peers.

(** [common.PeersFromParties] and [common.PeersFromIDS], on party names. *)
Definition PeersFromIDS (Decode : string -> res PeerID) (ids : list string) : res (list PeerID) :=
  foldr (fun id rest => p ← Decode id; ps ← rest; Ok (p :: ps)) (Ok []) ids.

(** ** The interface of a process ([TssProcess]) *)

Record TssProcess := {
  tp_SessionID : string;
  tp_Ready : list PeerID -> list PeerID -> error + bool;
  tp_StartParams : list PeerID -> bytes;
  tp_Retryable : bool;
  tp_ValidCoordinators : list PeerID;
}.

(** The errors [handleError] tells apart; the errors of several goroutines of a
    pool are joined into one of a type of its own, a single one is kept. *)
Inductive tss_error :=
| CoordinatorError (p : PeerID)
| CommError (e : error)
| TssError (culprits : list string)
| SubsetError (p : PeerID)
| OtherError (e : error)
| JoinedError (n : nat).

Definition pool_wait (errs : list tss_error) : option tss_error :=
  match errs with
  | [] => None
  | [e] => Some e
  | _ => Some (JoinedError (length errs))
  end.

(** What the coordinator does towards the network and the processes. *)
Inductive coord_action :=
| BroadcastInitiate
| SendReady (to : PeerID)
| BroadcastStart (payload : bytes)
| RunProcesses (coordinator : bool) (params : bytes).

Abbreviation coord_run := (option (option tss_error) * list coord_action)%type.

Section coordinator.
(** The text form of a peer, the JSON encoding of start messages, the host, the
    processes of the session (the first one speaks for all) and what their [Run]
    returns. *)
Context (Pretty : PeerID -> string) (Decode : string -> res PeerID).
Context (MarshalStart : bytes -> res bytes) (UnmarshalStart : bytes -> res bytes).
Context (hostID : PeerID) (tssProcess : TssProcess) (Run : bool -> bytes -> list tss_error).

(** ** The coordinator's side *)

Inductive init_event :=
| ReadyMsg (from : PeerID)
| InitTick
| InitDone.

(** The ready peers after a ready message. *)
Definition add_ready (excludedPeers readyPeers : list PeerID) (from : PeerID) : list PeerID :=
  if negb (contains excludedPeers from) && negb (contains readyPeers from)
  then readyPeers ++ [from] else readyPeers.

Fixpoint initiate_loop (excludedPeers readyPeers : list PeerID) (evs : list init_event) : coord_run :=
  match evs with
  | [] => (None, [])
  | ReadyMsg from :: evs' =>
      let readyPeers' := add_ready excludedPeers readyPeers from in
      match tp_Ready tssProcess readyPeers' excludedPeers with
      | inl e => (Some (Some (OtherError e)), [])
      | inr false => initiate_loop excludedPeers readyPeers' evs'
      | inr true =>
          let startParams := tp_StartParams tssProcess readyPeers' in
          match MarshalStart startParams with
          | Ok startMsgBytes =>
              (Some (pool_wait (Run true startParams)),
               [BroadcastStart startMsgBytes; RunProcesses true startParams])
          | Err e => (Some (Some (OtherError e)), [])
          | Panic => (None, [])
          end
      end
  | InitTick :: evs' =>
      let (r, acts) := initiate_loop excludedPeers readyPeers evs' in (r, BroadcastInitiate :: acts)
  | InitDone :: _ => (Some None, [])
  end.

Definition initiate (excludedPeers : list PeerID) (evs : list init_event) : coord_run :=
  let (r, acts) := initiate_loop excludedPeers [hostID] evs in (r, BroadcastInitiate :: acts).

(** ** The participant's side *)

Inductive wait_event :=
| InitiateMsg (from : PeerID)
| StartMsg (from : PeerID) (payload : bytes)
| WaitTimeout
| WaitDone.

(** A message is refused when a coordinator is known and did not send it. *)
Definition unwanted (coordinator from : PeerID) : bool :=
  negb (bool_decide (coordinator = "")) && negb (bool_decide (from = coordinator)).

Fixpoint waitForStart (coordinator : PeerID) (evs : list wait_event) : coord_run :=
  match evs with
  | [] => (None, [])
  | InitiateMsg from :: evs' =>
      if unwanted coordinator from then waitForStart coordinator evs'
      else let (r, acts) := waitForStart coordinator evs' in (r, SendReady from :: acts)
  | StartMsg from payload :: evs' =>
      if unwanted coordinator from then waitForStart coordinator evs'
      else
        match UnmarshalStart payload with
        | Ok params => (Some (pool_wait (Run false params)), [RunProcesses false params])
        | Err e => (Some (Some (OtherError e)), [])
        | Panic => (None, [])
        end
  | WaitTimeout :: _ => (Some (Some (CoordinatorError coordinator)), [])
  | WaitDone :: _ => (Some None, [])
  end.

(** ** The watcher *)

Inductive watch_event :=
| FailMsg (from : PeerID)
| WatchTimeout
| WatchDone.

Fixpoint tss_watchExecution (coordinator : PeerID) (evs : list watch_event) : option (option tss_error) :=
  match evs with
  | [] => None
  | WatchTimeout :: _ => Some (Some (OtherError "tss process timed out"))
  | WatchDone :: _ => Some None
  | FailMsg from :: evs' =>
      if negb (bool_decide (Pretty from = Pretty coordinator)) then tss_watchExecution coordinator evs'
      else Some (Some (OtherError "tss fail message received"))
  end.

(** ** An attempt, and the retry *)

(** The events of one attempt: those of each loop, and whether the watcher ends
    before the process. *)
Record attempt := {
  at_init : list init_event;
  at_wait : list wait_event;
  at_watch : list watch_event;
  at_watch_first : bool;
}.

Definition coord_start (coordinator : PeerID) (excludedPeers : list PeerID) (a : attempt) : coord_run :=
  if bool_decide (Pretty coordinator = Pretty hostID) then initiate excludedPeers (at_init a)
  else waitForStart coordinator (at_wait a).

(** [p.Wait] on a pool with the process [r] and a watcher [w]. *)
Definition pool_two (watch_first : bool) (r w : option (option tss_error)) : option (option tss_error) :=
  match r, w with
  | Some r, Some w =>
      let errs := if watch_first then [w; r] else [r; w] in Some (pool_wait (omap id errs))
  | _, _ => None
  end.

(** [retry]: [bully] is what the bully elector returns for the candidates. *)
Definition coord_retry (bully : list PeerID -> res PeerID) (excludedPeers : list PeerID) (a : attempt)
    : coord_run :=
  match bully (ExcludePeers (tp_ValidCoordinators tssProcess) excludedPeers) with
  | Ok coordinator => coord_start coordinator excludedPeers a
  | Err e => (Some (Some (OtherError e)), [])
  | Panic => (None, [])
  end.

Definition handleError (bully : list PeerID -> res PeerID) (err : tss_error) (a : attempt) : coord_run :=
  let watch := tss_watchExecution "" (at_watch a) in
  let with_watch (run : coord_run) := (pool_two (at_watch_first a) run.1 watch, run.2) in
  match err with
  | CoordinatorError p => with_watch (coord_retry bully [p] a)
  | CommError _ => with_watch (coord_retry bully [] a)
  | TssError culprits =>
      match PeersFromIDS Decode culprits with
      | Ok excludedPeers => with_watch (coord_retry bully excludedPeers a)
      | Err e => (Some (Some (OtherError e)), [])
      | Panic => (None, [])
      end
  | SubsetError _ => with_watch (waitForStart "" (at_wait a))
  | OtherError _ | JoinedError _ => (Some (Some err), [])
  end.

(** [Execute] after the session is marked as pending, until the deferred clean-up. *)
Definition coord_Execute (static : list PeerID -> option PeerID) (bully : list PeerID -> res PeerID)
    (a1 a2 : attempt) : coord_run :=
  let coordinator := default "" (static (tp_ValidCoordinators tssProcess)) in
  let (r, acts) := coord_start coordinator [] a1 in
  match pool_two (at_watch_first a1) r (tss_watchExecution coordinator (at_watch a1)) with
  | None => (None, acts)
  | Some None => (Some None, acts)
  | Some (Some err) =>
      if negb (tp_Retryable tssProcess) then (Some (Some err), acts)
      else let (r2, acts2) := handleError bully err a2 in (r2, acts ++ acts2)
  end.
End coordinator.

(** ** Pending sessions

    [Execute] reads [pendingProcesses] without the lock, then marks the session
    under it, and unmarks it when it returns.  Calls run concurrently: a state
    holds the map and how far each call is. *)

Inductive exec_phase := Checked | Running | Returned.
#[export] Instance exec_phase_eq_dec : EqDecision exec_phase.
Proof. solve_decision. Defined.

Record pending_state := {
  ex_pending : gmap string bool;
  ex_phase : gmap nat exec_phase;
}.
Definition exec_init : pending_state := {| ex_pending := ∅; ex_phase := ∅ |}.

Inductive exec_event :=
| EvCheck (i : nat)
| EvMark (i : nat)
| EvFinish (i : nat).

Section pending.
(** The session each call is for. *)
Context (sid : nat -> string).

Definition exec_step (st : pending_state) (ev : exec_event) : option pending_state :=
  match ev with
  | EvCheck i =>
      match ex_phase st !! i with
      | None =>
          let next := if default false (ex_pending st !! sid i) then Returned else Checked in
          Some {| ex_pending := ex_pending st; ex_phase := <[i := next]> (ex_phase st) |}
      | Some _ => None
      end
  | EvMark i =>
      if bool_decide (ex_phase st !! i = Some Checked)
      then Some {| ex_pending := <[sid i := true]> (ex_pending st);
                   ex_phase := <[i := Running]> (ex_phase st) |}
      else None
  | EvFinish i =>
      if bool_decide (ex_phase st !! i = Some Running)
      then Some {| ex_pending := <[sid i := false]> (ex_pending st);
                   ex_phase := <[i := Returned]> (ex_phase st) |}
      else None
  end.

(** States reached by the events that [allowed] admits. *)
Inductive reach (allowed : pending_state -> exec_event -> Prop) : pending_state -> Prop :=
| reach_init : reach allowed exec_init
| reach_step st ev st' :
    reach allowed st -> allowed st ev -> exec_step st ev = Some st' -> reach allowed st'.

Definition any_order (_ : pending_state) (_ : exec_event) : Prop := True.

(** No call reads the map between the check and the mark of another call for the
    same session. *)
Definition uncontended (st : pending_state) (ev : exec_event) : Prop :=
  match ev with
  | EvCheck i => forall j, ex_phase st !! j = Some Checked -> sid j <> sid i
  | _ => True
  end.

Definition running (st : pending_state) (i : nat) : Prop := ex_phase st !! i = Some Running.

Record exec_inv (st : pending_state) : Prop := {
  inv_marked : forall i, running st i -> ex_pending st !! sid i = Some true;
  inv_running : forall i j, running st i -> running st j -> sid i = sid j -> i = j;
  inv_checked : forall i j, ex_phase st !! i = Some Checked -> ex_phase st !! j = Some Checked ->
                            sid i = sid j -> i = j;
  inv_free : forall i, ex_phase st !! i = Some Checked -> ex_pending st !! sid i <> Some true;
}.

Lemma exec_inv_step st ev st' :
  exec_inv st -> uncontended st ev -> exec_step st ev = Some st' -> exec_inv st'.
Proof.
  intros [Hm Hr Hc Hf] Hu Hs. unfold running in *. destruct ev as [i|i|i]; cbn in Hs.
  - destruct (ex_phase st !! i) eqn:Ei; [done|].
    destruct (ex_pending st !! sid i) as [[]|] eqn:Ep; cbn in Hs; injection Hs as <-;
      split; unfold running; cbn; intros *; rewrite ?lookup_insert;
      repeat case_decide; subst; naive_solver.
  - case_bool_decide as Ei; [|done]. injection Hs as <-.
    assert (forall j, ex_phase st !! j = Some Running -> sid j <> sid i) as Hx
      by (intros j Hj E; apply (Hf i Ei); rewrite <- E; auto).
    split; unfold running; cbn; intros *; rewrite !lookup_insert;
      repeat case_decide; subst; naive_solver.
  - case_bool_decide as Ei; [|done]. injection Hs as <-.
    split; unfold running; cbn; intros *; rewrite !lookup_insert;
      repeat case_decide; subst; naive_solver.
Qed.

Lemma exec_inv_reach st : reach uncontended st -> exec_inv st.
Proof.
  induction 1 as [|st ev st' _ IH Hu Hs]; [|by eapply exec_inv_step].
  split; unfold running; cbn; intros; by simplify_map_eq.
Qed.

(** C27. One session, one process.  While no call of [Execute] checks the map
    between the check and the mark of another call for its session, at most one
    call runs for a session and the session is marked as pending while it runs.
    In general this fails: the check is made outside the lock, so two calls for a
    session can both run, and when one returns it unmarks the session of the
    other. *)
Theorem Execute_pending :
  (forall st i j, reach uncontended st -> running st i -> running st j -> sid i = sid j ->
     i = j /\ ex_pending st !! sid i = Some true) /\
  (forall i j, i <> j -> sid i = sid j ->
     exists st, reach any_order st /\ running st i /\ running st j) /\
  (forall i j, i <> j -> sid i = sid j ->
     exists st, reach any_order st /\ running st j /\ ex_pending st !! sid j = Some false).
Proof.
  assert (forall i j, i <> j -> sid i = sid j ->
     let st := {| ex_pending := <[sid j := true]> (<[sid i := true]> ∅);
                  ex_phase := <[j := Running]> (<[i := Running]> (<[j := Checked]> (<[i := Checked]> ∅))) |} in
     reach any_order st /\ running st i /\ running st j) as Hrace.
  { intros i j Hne Es st. unfold running. split_and!; [|by unfold st; simplify_map_eq..].
    apply (reach_step _ {| ex_pending := <[sid i := true]> ∅;
      ex_phase := <[i := Running]> (<[j := Checked]> (<[i := Checked]> ∅)) |} (EvMark j)); [|done|].
    2: { cbn. rewrite bool_decide_eq_true_2 by by simplify_map_eq. done. }
    apply (reach_step _ {| ex_pending := ∅; ex_phase := <[j := Checked]> (<[i := Checked]> ∅) |} (EvMark i));
      [|done|].
    2: { cbn. rewrite bool_decide_eq_true_2 by by simplify_map_eq. done. }
    apply (reach_step _ {| ex_pending := ∅; ex_phase := <[i := Checked]> ∅ |} (EvCheck j)); [|done|].
    2: { cbn. rewrite lookup_insert_ne by done. rewrite !lookup_empty. done. }
    by apply (reach_step _ exec_init (EvCheck i)); [apply reach_init|..]. }
  split_and!.
  - intros st i j Hreach%exec_inv_reach Hi Hj Es. split; [by eapply inv_running|by apply inv_marked].
  - intros i j Hne Es. eexists. by apply Hrace.
  - intros i j Hne Es. destruct (Hrace i j Hne Es) as (Hr & Hi & Hj).
    eexists. split; [eapply (reach_step _ _ (EvFinish i)); [exact Hr|done|]|].
    + unfold exec_step. rewrite bool_decide_eq_true_2 by exact Hi. done.
    + unfold running. cbn. split; [by simplify_map_eq|]. rewrite Es. by rewrite lookup_insert_eq.
Qed.
End pending.

(** ** What each side does *)

Lemma contains_spec l p : contains l p = true <-> p ∈ l.
Proof. apply bool_decide_eq_true. Qed.

Lemma add_ready_elem excl ready from p :
  p ∈ add_ready excl ready from <-> p ∈ ready \/ (p = from /\ from ∉ excl).
Proof.
  unfold add_ready, contains. repeat case_bool_decide; cbn; set_solver.
Qed.

Lemma add_ready_NoDup excl ready from : NoDup ready -> NoDup (add_ready excl ready from).
Proof.
  intros Hnd. unfold add_ready, contains. repeat case_bool_decide; cbn; [done..|].
  apply list.NoDup_app. split_and!; [done|set_solver|apply NoDup_singleton].
Qed.

(** An attempt runs the processes once at most. *)
Definition is_run (a : coord_action) : bool :=
  match a with RunProcesses _ _ => true | _ => false end.
Definition runs (acts : list coord_action) : nat := length (List.filter is_run acts).

Lemma runs_app k l : runs (k ++ l) = (runs k + runs l)%nat.
Proof. unfold runs. rewrite List.filter_app. apply length_app. Qed.

Lemma runs_unique acts b b' params params' :
  (runs acts <= 1)%nat -> RunProcesses b params ∈ acts -> RunProcesses b' params' ∈ acts -> params = params'.
Proof.
  intros Hr H1 H2. assert (forall a, a ∈ acts -> is_run a = true -> a ∈ List.filter is_run acts) as Hf
    by (intros a; rewrite !list_elem_of_In; intros; by apply List.filter_In).
  apply Hf in H1, H2; [|done..]. unfold runs in Hr.
  destruct (List.filter is_run acts) as [|x [|y l]]; cbn in Hr; [set_solver|set_solver|lia].
Qed.

Section initiate_spec.
Context (MarshalStart : bytes -> res bytes).
Context (hostID : PeerID) (tssProcess : TssProcess) (Run : bool -> bytes -> list tss_error).

Abbreviation loop := (initiate_loop MarshalStart tssProcess Run).

(** The ready peers of [initiate]: the host and the peers that said so. *)
Definition ready_peers_ok (excludedPeers : list PeerID) (evs : list init_event)
    (ready : list PeerID) : Prop :=
  NoDup ready /\ hostID ∈ ready /\
  forall p, p ∈ ready -> p = hostID \/ ((p ∉ excludedPeers) /\ ReadyMsg p ∈ evs).

Lemma add_ready_ok excl pre ready from :
  ready_peers_ok excl pre ready ->
  ready_peers_ok excl (pre ++ [ReadyMsg from]) (add_ready excl ready from).
Proof.
  intros (Hnd & Hh & Hall). split_and!; [by apply add_ready_NoDup| |].
  - apply add_ready_elem. by left.
  - intros p [Hp|[-> Hn]]%add_ready_elem; [|right; set_solver].
    destruct (Hall p Hp) as [->|[? ?]]; [by left|right; set_solver].
Qed.

Lemma ready_peers_tick excl pre ready ev :
  ready_peers_ok excl pre ready -> ready_peers_ok excl (pre ++ [ev]) ready.
Proof.
  intros (Hnd & Hh & Hall). split_and!; [done..|]. intros p Hp.
  destruct (Hall p Hp) as [->|[? ?]]; [by left|right; set_solver].
Qed.

Lemma initiate_loop_runs excl pre ready evs b params :
  ready_peers_ok excl pre ready -> RunProcesses b params ∈ (loop excl ready evs).2 ->
  b = true /\ exists ready', ready_peers_ok excl (pre ++ evs) ready' /\
    tp_Ready tssProcess ready' excl = inr true /\ params = tp_StartParams tssProcess ready'.
Proof.
  revert pre ready. induction evs as [|ev evs IH]; intros pre ready Hok Hin; [set_solver|].
  rewrite (cons_middle ev pre evs), (assoc_L (++)). destruct ev as [from| |]; cbn in Hin.
  - pose proof (add_ready_ok _ _ _ from Hok) as Hok'.
    destruct (tp_Ready tssProcess _ excl) as [e|[]] eqn:Er; [set_solver| |by eapply IH].
    destruct (MarshalStart _) eqn:Em; cbn in Hin; [|set_solver..].
    assert (b = true /\ params = tp_StartParams tssProcess (add_ready excl ready from)) as [-> ->]
      by set_solver. split; [done|]. exists (add_ready excl ready from). split_and!; [|done..].
    destruct Hok' as (Hnd & Hh & Hall). split_and!; [done..|]. intros p Hp.
    destruct (Hall p Hp) as [->|[? ?]]; [by left|right; set_solver].
  - destruct (loop excl ready evs) as [r acts] eqn:El. cbn in Hin.
    eapply IH; [by apply ready_peers_tick|]. rewrite El. set_solver.
  - set_solver.
Qed.

Lemma initiate_runs excl evs b params :
  RunProcesses b params ∈ (initiate MarshalStart hostID tssProcess Run excl evs).2 ->
  b = true /\ exists ready, ready_peers_ok excl evs ready /\
    tp_Ready tssProcess ready excl = inr true /\ params = tp_StartParams tssProcess ready.
Proof.
  unfold initiate. destruct (loop excl [hostID] evs) as [r acts] eqn:El. cbn. intros Hin.
  apply (initiate_loop_runs excl [] [hostID] evs).
  - split_and!; [apply NoDup_singleton|set_solver|]. intros p Hp. left. set_solver.
  - rewrite El. set_solver.
Qed.

Lemma initiate_once excl evs :
  (runs (initiate MarshalStart hostID tssProcess Run excl evs).2 <= 1)%nat.
Proof.
  unfold initiate. generalize [hostID]. induction evs as [|ev evs IH]; intros ready; cbn; [lia|].
  destruct ev as [from| |]; cbn.
  - destruct (tp_Ready tssProcess _ excl) as [e|[]]; cbn; [lia| |apply IH].
    destruct (MarshalStart _); cbn; lia.
  - specialize (IH ready). destruct (loop excl ready evs) as [r acts]. exact IH.
  - lia.
Qed.

(** The start message that is broadcast holds the parameters the leader runs with. *)
Lemma initiate_broadcasts excl evs payload :
  BroadcastStart payload ∈ (initiate MarshalStart hostID tssProcess Run excl evs).2 ->
  exists params, MarshalStart params = Ok payload /\
    RunProcesses true params ∈ (initiate MarshalStart hostID tssProcess Run excl evs).2.
Proof.
  unfold initiate. generalize [hostID]. induction evs as [|ev evs IH]; intros ready; cbn; [set_solver|].
  destruct ev as [from| |]; cbn; [| |set_solver].
  - destruct (tp_Ready tssProcess _ excl) as [e|[]]; [set_solver| |apply IH].
    destruct (MarshalStart _) as [b| |] eqn:Em; cbn; [|set_solver..].
    intros Hin. assert (payload = b) as -> by set_solver. eexists. split; [exact Em|]. set_solver.
  - specialize (IH ready). destruct (loop excl ready evs) as [r acts]. cbn in IH |- *.
    intros [|[|Hin]%elem_of_cons]%elem_of_cons; [done|done|].
    destruct IH as (params & Hm & Hr); [by right|]. exists params. split; [done|]. set_solver.
Qed.
End initiate_spec.

Lemma unwanted_spec coordinator from : unwanted coordinator from = false <-> coordinator = "" \/ from = coordinator.
Proof. unfold unwanted. repeat case_bool_decide; cbn; naive_solver. Qed.

Section wait_spec.
Context (UnmarshalStart : bytes -> res bytes) (Run : bool -> bytes -> list tss_error).

Abbreviation wait := (waitForStart UnmarshalStart Run).

Lemma waitForStart_once coordinator evs : (runs (wait coordinator evs).2 <= 1)%nat.
Proof.
  induction evs as [|ev evs IH]; cbn; [lia|]. destruct ev as [from|from payload| |]; cbn; [| |lia..].
  - destruct (unwanted coordinator from); [done|]. by destruct (wait coordinator evs).
  - destruct (unwanted coordinator from); [done|]. destruct (UnmarshalStart payload); cbn; lia.
Qed.

(** Messages a participant ignores, and those that do not end its wait. *)
Definition ev_unwanted (coordinator : PeerID) (ev : wait_event) : bool :=
  match ev with
  | InitiateMsg from | StartMsg from _ => unwanted coordinator from
  | WaitTimeout | WaitDone => false
  end.
Definition keeps_waiting (coordinator : PeerID) (ev : wait_event) : bool :=
  match ev with InitiateMsg _ => true | _ => ev_unwanted coordinator ev end.

Lemma wait_ignores coordinator evs :
  wait coordinator evs = wait coordinator (filter (fun ev => ev_unwanted coordinator ev = false) evs).
Proof.
  induction evs as [|ev evs IH]; [done|].
  destruct (ev_unwanted coordinator ev) eqn:E.
  - rewrite filter_cons_False by congruence. destruct ev; cbn in E |- *; rewrite ?E; done.
  - rewrite filter_cons_True by done. destruct ev; cbn in E |- *; rewrite ?E, <- ?IH; done.
Qed.

Lemma wait_actions coordinator evs act :
  act ∈ (wait coordinator evs).2 ->
  (exists from, act = SendReady from /\ InitiateMsg from ∈ evs /\ unwanted coordinator from = false) \/
  (exists from payload params, act = RunProcesses false params /\ StartMsg from payload ∈ evs /\
     unwanted coordinator from = false /\ UnmarshalStart payload = Ok params).
Proof.
  induction evs as [|ev evs IH]; cbn; [set_solver|].
  destruct ev as [from|from payload| |]; cbn; [| |set_solver..].
  - destruct (unwanted coordinator from) eqn:E; [intros Hin%IH; set_solver|].
    destruct (wait coordinator evs) as [r acts]. cbn in IH |- *. intros [->|Hin]%elem_of_cons.
    + left. exists from. set_solver.
    + apply IH in Hin. set_solver.
  - destruct (unwanted coordinator from) eqn:E; [intros Hin%IH; set_solver|].
    destruct (UnmarshalStart payload) as [params|e|] eqn:Eu; cbn; [|set_solver..].
    intros ->%list_elem_of_singleton. right. exists from, payload, params. set_solver.
Qed.

(** The first start message that is accepted starts the processes. *)
Lemma wait_starts coordinator pre from payload params post :
  Forall (fun ev => keeps_waiting coordinator ev = true) pre ->
  coordinator = "" \/ from = coordinator -> UnmarshalStart payload = Ok params ->
  (wait coordinator (pre ++ StartMsg from payload :: post)).1 = Some (pool_wait (Run false params)) /\
  RunProcesses false params ∈ (wait coordinator (pre ++ StartMsg from payload :: post)).2.
Proof.
  intros Hpre E%unwanted_spec Eu. induction Hpre as [|ev pre Hev Hpre IH]; cbn.
  { rewrite E, Eu. cbn. split; [done|set_solver]. }
  destruct ev as [f|f pl| |]; cbn in Hev; [| |done..].
  - destruct (unwanted coordinator f); [exact IH|].
    destruct (wait coordinator (pre ++ _)) as [r acts]. cbn in IH |- *. set_solver.
  - by rewrite Hev.
Qed.

(** C13. A participant that knows its coordinator is moved by the coordinator's
    messages only: those of any other peer have no effect; it answers ready to the
    sender of an initiate message and runs the processes with the parameters of a
    start message, both accepted from the coordinator alone, or from anyone when no
    coordinator is known; and the first start message it accepts starts them. *)
Theorem waitForStart_coordinator coordinator evs :
  wait coordinator evs = wait coordinator (filter (fun ev => ev_unwanted coordinator ev = false) evs) /\
  (forall act, act ∈ (wait coordinator evs).2 -> exists from,
     (coordinator = "" \/ from = coordinator) /\
     ((act = SendReady from /\ InitiateMsg from ∈ evs) \/
      (exists payload params, act = RunProcesses false params /\ StartMsg from payload ∈ evs /\
         UnmarshalStart payload = Ok params))) /\
  (forall pre from payload params post,
     evs = pre ++ StartMsg from payload :: post ->
     Forall (fun ev => keeps_waiting coordinator ev = true) pre ->
     coordinator = "" \/ from = coordinator -> UnmarshalStart payload = Ok params ->
     (wait coordinator evs).1 = Some (pool_wait (Run false params)) /\
     RunProcesses false params ∈ (wait coordinator evs).2).
Proof.
  split_and!; [apply wait_ignores| |].
  - intros act [(from & -> & Hin & E)|(from & payload & params & -> & Hin & E & Eu)]%wait_actions;
      exists from; split; [by apply unwanted_spec|by left|by apply unwanted_spec|right; by exists payload, params].
  - intros pre from payload params post ->. apply wait_starts.
Qed.

End wait_spec.

(** ** The retry *)

Section coordinator_spec.
Context (Pretty : PeerID -> string) (Decode : string -> res PeerID).
Context (MarshalStart : bytes -> res bytes) (UnmarshalStart : bytes -> res bytes).
Context (hostID : PeerID) (tssProcess : TssProcess) (Run : bool -> bytes -> list tss_error).

Abbreviation start := (coord_start Pretty MarshalStart UnmarshalStart hostID tssProcess Run).
Abbreviation execute := (coord_Execute Pretty Decode MarshalStart UnmarshalStart hostID tssProcess Run).

(** The peers a retry leaves out after an error; [None] when there is no new
    election. *)
Definition retry_excluded (err : tss_error) : option (list PeerID) :=
  match err with
  | CoordinatorError p => Some [p]
  | CommError _ => Some []
  | TssError culprits => match PeersFromIDS Decode culprits with Ok ps => Some ps | _ => None end
  | _ => None
  end.

Definition static_coordinator (static : list PeerID -> option PeerID) : PeerID :=
  default "" (static (tp_ValidCoordinators tssProcess)).

(** What the first attempt returns. *)
Definition first_result (static : list PeerID -> option PeerID) (a : attempt) : option (option tss_error) :=
  pool_two (at_watch_first a) (start (static_coordinator static) [] a).1
    (tss_watchExecution Pretty (static_coordinator static) (at_watch a)).

Lemma start_once coordinator excl a : (runs (start coordinator excl a).2 <= 1)%nat.
Proof.
  unfold coord_start. case_bool_decide; [apply initiate_once|apply waitForStart_once].
Qed.

Lemma start_runs coordinator excl a params :
  RunProcesses true params ∈ (start coordinator excl a).2 ->
  exists ready, ready_peers_ok hostID excl (at_init a) ready /\
    tp_Ready tssProcess ready excl = inr true /\ params = tp_StartParams tssProcess ready.
Proof.
  unfold coord_start. case_bool_decide; [intros Hin%initiate_runs; apply Hin|].
  intros Hin%wait_actions. naive_solver.
Qed.

Lemma retry_once bully excl a :
  (runs (coord_retry Pretty MarshalStart UnmarshalStart hostID tssProcess Run bully excl a).2 <= 1)%nat.
Proof. unfold coord_retry. destruct (bully _); [apply start_once|unfold runs; cbn; lia..]. Qed.

Lemma handleError_once bully err a :
  (runs (handleError Pretty Decode MarshalStart UnmarshalStart hostID tssProcess Run bully err a).2
   <= 1)%nat.
Proof.
  destruct err as [p|e|cs|p|e|n]; cbn; [apply retry_once|apply retry_once| |apply waitForStart_once|unfold runs; cbn; lia..].
  destruct (PeersFromIDS Decode cs); cbn; [apply retry_once|lia..].
Qed.

#[local] Arguments runs : simpl never.

(** C12. A failed attempt is repeated at most once, and only if the process can be
    retried and the error is one that concerns peers: then the new coordinator is
    elected among the valid ones that are not to blame, and when the host leads the
    new attempt, the peers to blame are not among those it starts with.  A relayer
    that is not in the signing subset never leads the new attempt.  Any other error
    is returned, among them the errors of two goroutines at once. *)
Theorem Execute_retry static bully a1 a2 err :
  first_result static a1 = Some (Some err) ->
  let acts1 := (start (static_coordinator static) [] a1).2 in
  let out := execute static bully a1 a2 in
  (runs out.2 <= 2)%nat /\
  (tp_Retryable tssProcess = false \/ (exists e, err = OtherError e) \/ (exists n, err = JoinedError n) ->
     out = (Some (Some err), acts1)) /\
  (forall excl params, retry_excluded err = Some excl ->
     RunProcesses true params ∈ drop (length acts1) out.2 ->
     (exists leader, bully (ExcludePeers (tp_ValidCoordinators tssProcess) excl) = Ok leader /\
        Pretty leader = Pretty hostID) /\
     exists ready, ready_peers_ok hostID excl (at_init a2) ready /\
       tp_Ready tssProcess ready excl = inr true /\ params = tp_StartParams tssProcess ready) /\
  (forall p params, err = SubsetError p -> RunProcesses true params ∉ drop (length acts1) out.2).
Proof.
  intros Hf acts1 out. unfold out, coord_Execute.
  fold (static_coordinator static). pose proof (start_once (static_coordinator static) [] a1) as Ho.
  unfold first_result in Hf. unfold acts1 in *.
  destruct (start (static_coordinator static) [] a1) as [r acts]. cbn in Hf, Ho |- *.
  rewrite Hf. pose proof (handleError_once bully err a2) as Hh.
  assert (forall params, tp_Retryable tssProcess = false ->
    RunProcesses true params ∉ drop (length acts) acts) as Hnone
    by (intros params _; rewrite drop_all; set_solver).
  destruct (tp_Retryable tssProcess) eqn:Et; cbn; split_and!.
  - destruct (handleError _ _ _ _ _ _ _ bully err a2) as [r2 acts2]. cbn in *. rewrite runs_app. lia.
  - intros [?|[[e ->]|[n ->]]]; [done|by cbn; rewrite app_nil_r..].
  - intros excl params He Hin.
    destruct (handleError _ _ _ _ _ _ _ bully err a2) as [r2 acts2] eqn:Eh.
    cbn in Hin. rewrite drop_app_length in Hin.
    assert (RunProcesses true params
      ∈ (coord_retry Pretty MarshalStart UnmarshalStart hostID tssProcess Run bully excl a2).2) as Hs.
    { destruct err as [p|e|cs| | |]; cbn in He; try done; cbn in Eh.
      - by simplify_eq.
      - by simplify_eq.
      - destruct (PeersFromIDS Decode cs); [|done..]. by simplify_eq. }
    unfold coord_retry in Hs. destruct (bully _) as [leader|e|]; [|by apply not_elem_of_nil in Hs..].
    split; [|by eapply start_runs]. exists leader. split; [done|].
    unfold coord_start in Hs. case_bool_decide; [done|]. apply wait_actions in Hs. naive_solver.
  - intros p params -> Hin. cbn in Hin. rewrite drop_app_length in Hin.
    apply wait_actions in Hin. naive_solver.
  - lia.
  - done.
  - intros excl params _ Hin. by apply Hnone in Hin.
  - intros p params _. by apply Hnone.
Qed.
End coordinator_spec.

(** ** A retried process *)

Module CoordinatorExample.

(** Two ready peers are enough; the parameters are their number. *)
Definition process : TssProcess :=
  {| tp_SessionID := "1-2-7-9";
     tp_Ready := fun ready _ => inr (2 <=? length ready)%nat;
     tp_StartParams := fun ready => be_fixed 1 (Z.of_nat (length ready));
     tp_Retryable := true;
     tp_ValidCoordinators := ["a"; "b"; "c"] |}.

(** The first coordinator does not start in time; then "a" and "c" are ready. *)
Definition first : attempt :=
  {| at_init := []; at_wait := [InitiateMsg "c"; WaitTimeout]; at_watch := [WatchDone];
     at_watch_first := false |}.
Definition second : attempt :=
  {| at_init := [ReadyMsg "a"; InitTick; ReadyMsg "c"]; at_wait := []; at_watch := [FailMsg "a"; WatchDone];
     at_watch_first := false |}.
Definition text (p : PeerID) : string := p.
Definition decode (s : string) : res PeerID := Ok s.
Definition json (b : bytes) : res bytes := Ok b.
Definition no_error (_ : bool) (_ : bytes) : list tss_error := [].
Definition elected (l : list PeerID) : res PeerID := Ok (default "" (head l)).
End CoordinatorExample.

Import CoordinatorExample.

Lemma Execute_retry_witness :
  let out := coord_Execute text decode json json "b" process no_error head elected first second in
  out = (Some None, [BroadcastInitiate; BroadcastInitiate; BroadcastStart (be_fixed 1 2); RunProcesses true (be_fixed 1 2)]) /\
  (runs out.2 <= 2)%nat /\
  exists ready, ready_peers_ok "b" ["a"] (at_init second) ready /\
    tp_Ready process ready ["a"] = inr true /\ be_fixed 1 2 = tp_StartParams process ready.
Proof.
  destruct (Execute_retry text decode json json "b" process no_error head elected first second
              (CoordinatorError "a") ltac:(vm_compute; reflexivity)) as (H1 & _ & H3 & _).
  split; [vm_compute; reflexivity|]. split; [exact H1|].
  apply (H3 ["a"] (be_fixed 1 2) eq_refl). vm_compute. apply elem_of_cons. right. apply elem_of_cons. right.
  apply elem_of_cons. right. by apply elem_of_cons; left.
Defined.
