(* ===== verification/Tss.v ===== *)
(** * Threshold processes ([tss/ecdsa], [tss/frost])

    The parts of the keygen, resharing and signing processes the coordinator
    relies on: when enough peers are ready, the parameters a process is started
    with and how a participant checks them, the parties made of the peers, the
    routing of the messages of a process, and the lock on the key share.  The
    cryptographic protocols are not part of the repository. *)

From S2P Require Import Prelude GoBytes GoStrings GoJson Comm Elector Coordinator.

#[local] Open Scope string_scope.
#[local] Open Scope list_scope.
#[local] Open Scope Z_scope.

(** ** Libraries the processes use *)

(** libp2p's text form of a peer: it tells peers apart, valid ones are read back, and
    it is a base58 text, which has ASCII characters and no zero bytes. *)
Class PeerText := {
  Pretty : PeerID -> string;
  Decode : string -> res PeerID;
  valid_peer : PeerID -> Prop;
  Pretty_inj : forall p q, Pretty p = Pretty q -> p = q;
  Decode_Pretty : forall p, valid_peer p -> Decode (Pretty p) = Ok p;
  Pretty_ascii : forall p, valid_peer p -> ascii_text (Pretty p) = true;
  Pretty_nonzero : forall p, valid_peer p -> Byte.x00 ∉ bytes_of_string (Pretty p);
}.

Record PartyID := { pid_Id : string; pid_Index : Z }.

(** The key [CreatePartyID] gives a party: [new(big.Int).SetBytes([]byte(peerID))]. *)
Definition party_key (id : string) : Z := be_val (bytes_of_string id).

(** [tss.SortPartyIDs]: orders the parties by their keys and numbers them from 0. *)
Class PartySort := {
  SortPartyIDs : list PartyID -> list PartyID;
  SortPartyIDs_ids : forall l, pid_Id <$> SortPartyIDs l ≡ₚ pid_Id <$> l;
  SortPartyIDs_sorted : forall l, Sorted Z.le (party_key ∘ pid_Id <$> SortPartyIDs l);
  SortPartyIDs_index : forall l i p, SortPartyIDs l !! i = Some p -> pid_Index p = Z.of_nat i;
}.

(** [startParams] of a resharing. *)
Record startParams := { sp_OldThreshold : Z; sp_OldSubset : list PeerID }.

(** JSON of the start parameters; a peer is encoded as its text. *)
Section params_json.
Context `{PeerText}.

Definition peers_doc (l : list PeerID) : json := JArray (map (fun p => JString (Pretty p)) l).
Definition into_peer (j : json) : res PeerID := s ← into_string "" j; Decode s.

Definition MarshalPeers (l : list PeerID) : bytes := marshal_json (peers_doc l).
Definition UnmarshalPeers (b : bytes) : res (list PeerID) := unmarshal_json (into_slice into_peer) b.

Definition params_fields : list string := ["oldThreshold"; "oldSubset"].
Definition params_doc (p : startParams) : json :=
  JObject [("oldThreshold", JNumber (fmt_d (sp_OldThreshold p))); ("oldSubset", peers_doc (sp_OldSubset p))].
Definition store_params (p : startParams) (name : string) (v : json) : res startParams :=
  if bool_decide (name = "oldThreshold") then
    t ← into_int 64 (sp_OldThreshold p) v; Ok {| sp_OldThreshold := t; sp_OldSubset := sp_OldSubset p |}
  else
    l ← into_slice into_peer v; Ok {| sp_OldThreshold := sp_OldThreshold p; sp_OldSubset := l |}.

Definition MarshalParams (p : startParams) : bytes := marshal_json (params_doc p).
Definition UnmarshalParams (b : bytes) : res startParams :=
  unmarshal_json (into_struct params_fields store_params {| sp_OldThreshold := 0; sp_OldSubset := [] |}) b.

Lemma peers_printable d l : Forall valid_peer l -> printable (S d) (peers_doc l).
Proof.
  intros Hl. cbn. apply Forall_fmap. eapply list.Forall_impl; [exact Hl|]. intros p Hp. destruct d; by apply Pretty_ascii.
Qed.

Lemma into_peers_doc l : Forall valid_peer l -> into_slice into_peer (peers_doc l) = Ok l.
Proof.
  intros Hl. rewrite <- (map_id l) at 2. apply into_slice_map. eapply list.Forall_impl; [exact Hl|].
  intros p Hp. by apply Decode_Pretty.
Qed.

(** What is encoded is decoded. *)
Lemma peers_json l : Forall valid_peer l -> UnmarshalPeers (MarshalPeers l) = Ok l.
Proof.
  intros Hl. unfold UnmarshalPeers, MarshalPeers. rewrite (unmarshal_marshal _ 1) by (lia || by apply peers_printable).
  by apply into_peers_doc.
Qed.

Lemma params_json p : Forall valid_peer (sp_OldSubset p) -> is_i64 (sp_OldThreshold p) ->
  UnmarshalParams (MarshalParams p) = Ok p.
Proof.
  intros Hl Ht. unfold UnmarshalParams, MarshalParams. rewrite (unmarshal_marshal _ 2).
  2: lia.
  2: { unfold params_doc. cbn [printable]. repeat constructor; [by eexists|]. by apply (peers_printable 0). }
  unfold params_doc. rewrite into_struct_fields by (unfold params_fields; repeat constructor; set_solver).
  cbn -[into_slice peers_doc]. unfold store_params. cbn -[into_slice peers_doc].
  rewrite into_int_fmt by (unfold is_i64 in Ht; lia). cbn -[into_slice peers_doc].
  rewrite into_peers_doc by done. by destruct p.
Qed.
End params_json.
#[global] Arguments MarshalPeers : simpl never.
#[global] Arguments UnmarshalPeers : simpl never.
#[global] Arguments MarshalParams : simpl never.
#[global] Arguments UnmarshalParams : simpl never.

(** The key share without its secret part. *)
Record Keyshare := { ks_Threshold : Z; ks_Peers : list PeerID }.

(** ** Parties and peers ([common/utils.go]) *)

Section common.
Context `{PeerText} `{PartySort}.

(** [CreatePartyID]: the index is set when the parties are sorted. *)
Definition CreatePartyID (peerID : string) : PartyID := {| pid_Id := peerID; pid_Index := -1 |}.

Definition PeersFromParties (parties : list PartyID) : res (list PeerID) :=
  PeersFromIDS Decode (pid_Id <$> parties).

Definition PartiesFromPeers (peers : list PeerID) : list PartyID :=
  SortPartyIDs ((fun p => CreatePartyID (Pretty p)) <$> peers).

Definition PeersIntersection (oldPeers newPeers : list PeerID) : list PeerID :=
  filter (fun p => contains newPeers p = true) oldPeers.

(** [PopulatePartyStore] *)
Definition PopulatePartyStore (store : gmap string PartyID) (parties : list PartyID)
    : gmap string PartyID :=
  foldl (fun m party => <[pid_Id party := party]> m) store parties.

(** [BaseTss.BroadcastPeers] on a message of the protocol. *)
Definition BroadcastPeers (Peers : list PeerID) (isBroadcast : bool) (to : list PartyID)
    : res (list PeerID) :=
  if isBroadcast then Ok Peers else PeersFromParties to.

(** [BaseFrostTss.BroadcastPeers] *)
Definition frost_BroadcastPeers (Peers : list PeerID) (isBroadcast : bool) (to : string)
    : res (list PeerID) :=
  if isBroadcast then Ok Peers
  else if bool_decide (to = "") then Ok Peers
  else p ← Decode to; Ok [p].

(** [PartyIDSFromPeers]: the peers as a set, in some order. *)
Definition PartyIDSFromPeers (peers : list PeerID) (ids : list string) : Prop :=
  NoDup ids /\ forall id, id ∈ ids <-> exists p, p ∈ peers /\ id = Pretty p.
End common.

(** ** Signing ([ecdsa/signing], [frost/signing]) *)

Section signing.
Context `{PeerText}.
(** A sort of the peers for a session, see [SortPeersForSession]. *)
Context (SortPeers : list PeerID -> string -> list PeerID).
Context (key : Keyshare) (SID : string).

Definition readyParticipants (readyPeers : list PeerID) : list PeerID :=
  filter (fun p => contains (ks_Peers key) p = true) readyPeers.

Definition signing_Ready (readyPeers excludedPeers : list PeerID) : error + bool :=
  inr (Z.of_nat (length (readyParticipants readyPeers)) =? ks_Threshold key + 1).

(** The loop that takes sorted peers until there are [n]; none is dropped when the
    count is never met. *)
Fixpoint take_subset (n : Z) (peerSubset sorted : list PeerID) : list PeerID :=
  match sorted with
  | [] => peerSubset
  | p :: sorted' =>
      let peerSubset' := peerSubset ++ [p] in
      if Z.of_nat (length peerSubset') =? n then peerSubset' else take_subset n peerSubset' sorted'
  end.

Definition signing_StartParams (readyPeers : list PeerID) : bytes :=
  MarshalPeers (take_subset (ks_Threshold key + 1) [] (SortPeers (readyParticipants readyPeers) SID)).

Definition signing_unmarshallStartParams (paramBytes : bytes) : res (list PeerID) :=
  UnmarshalPeers paramBytes.

(** [Run] up to the start of the protocol: the peers it runs with. *)
Definition signing_Run (hostID : PeerID) (params : bytes) : outcome tss_error (list PeerID) :=
  match signing_unmarshallStartParams params with
  | Ok peerSubset =>
      if negb (IsParticipant Pretty hostID peerSubset) then Err (SubsetError hostID) else Ok peerSubset
  | Err e => Err (OtherError e)
  | Panic => Panic
  end.

Definition signing_process : TssProcess :=
  {| tp_SessionID := SID; tp_Ready := signing_Ready; tp_StartParams := signing_StartParams;
     tp_Retryable := true; tp_ValidCoordinators := ks_Peers key |}.
End signing.

(** ** Key generation ([ecdsa/keygen], [frost/keygen]) *)

Section keygen.
Context (peerstore : list PeerID) (SID : string).

Definition keygen_Ready (readyPeers excludedPeers : list PeerID) : error + bool :=
  if (0 <? length excludedPeers)%nat then inl "error"
  else inr (length readyPeers =? length peerstore)%nat.

Definition keygen_process : TssProcess :=
  {| tp_SessionID := SID; tp_Ready := keygen_Ready; tp_StartParams := fun _ => [];
     tp_Retryable := false; tp_ValidCoordinators := peerstore |}.
End keygen.

(** ** Resharing ([ecdsa/resharing]) *)

Section resharing.
Context `{PeerText} `{PartySort}.
Context (key : Keyshare) (peerstore : list PeerID) (SID : string).

Definition resharing_Ready (readyPeers excludedPeers : list PeerID) : error + bool :=
  inr (length readyPeers =? length peerstore)%nat.

Definition resharing_ValidCoordinators : list PeerID :=
  filter (fun p => existsb (fun q => bool_decide (Pretty q = Pretty p)) (ks_Peers key) = true) peerstore.

Definition resharing_StartParams (readyPeers : list PeerID) : bytes :=
  MarshalParams {| sp_OldThreshold := ks_Threshold key;
                   sp_OldSubset := PeersIntersection (ks_Peers key) peerstore |}.

(** [slices.Sort] on peers: byte order. *)
Definition sort_ids (l : list PeerID) : list PeerID := merge_sort String.le l.

(** [validateStartParams]; it sorts the subset of the parameters in place, so the
    sorted parameters are those that are used. *)
Definition validateStartParams (params : startParams) : res startParams :=
  if sp_OldThreshold params <=? 0 then Err "threshold too small"
  else if Z.of_nat (length (sp_OldSubset params)) <? sp_OldThreshold params
  then Err "threshold bigger then subset"
  else
    let sorted := sort_ids (sp_OldSubset params) in
    let keyPeers := sort_ids (ks_Peers key) in
    if negb (length keyPeers =? 0)%nat
       && negb (bool_decide (sorted = PeersIntersection keyPeers peerstore))
    then Err "invalid peers subset in start params"
    else Ok {| sp_OldThreshold := sp_OldThreshold params; sp_OldSubset := sorted |}.

Definition resharing_unmarshallStartParams (paramBytes : bytes) : res startParams :=
  params ← UnmarshalParams paramBytes; validateStartParams params.

(** [sortParties]: the old parties keep their places; a write past the end of the
    slice panics, an unfilled place is nil. *)
Fixpoint place_parties (oldPeers : list PeerID) (parties : list PartyID)
    (newParties : list (option PartyID)) (index : nat) : res (list (option PartyID)) :=
  match parties with
  | [] => Ok newParties
  | party :: parties' =>
      let peerID := match Decode (pid_Id party) with Ok p => p | _ => "" end in
      if negb (IsParticipant Pretty peerID oldPeers) then
        if (index <? length newParties)%nat then
          place_parties oldPeers parties'
            (<[index := Some {| pid_Id := pid_Id party; pid_Index := Z.of_nat index |}]> newParties)
            (S index)
        else Panic
      else place_parties oldPeers parties' newParties index
  end.

Definition sortParties (parties oldParties : list PartyID) : res (list (option PartyID)) :=
  let copied := take (length parties) (Some <$> oldParties) in
  let newParties := copied ++ replicate (length parties - length copied) None in
  let oldPeers := match PeersFromParties oldParties with Ok ps => ps | _ => [] end in
  place_parties oldPeers parties newParties (length oldParties).

(** [Run] up to the start of the protocol: the old and the new parties. *)
Definition resharing_Run (params : bytes) : res (list PartyID * list (option PartyID)) :=
  startParams ← resharing_unmarshallStartParams params;
  let oldParties := PartiesFromPeers (sp_OldSubset startParams) in
  newParties ← sortParties (PartiesFromPeers peerstore) oldParties;
  Ok (oldParties, newParties).

Definition resharing_process : TssProcess :=
  {| tp_SessionID := SID; tp_Ready := resharing_Ready; tp_StartParams := resharing_StartParams;
     tp_Retryable := false; tp_ValidCoordinators := resharing_ValidCoordinators |}.
End resharing.

(** ** A signing starts with enough key holders *)

Section signing_spec.
Context `{PeerText}.
Context (SortPeers : list PeerID -> string -> list PeerID).
Context (MarshalStart : bytes -> res bytes) (Run : bool -> bytes -> list tss_error).
Context (key : Keyshare) (SID : string) (hostID : PeerID).

#[local] Arguments readyParticipants : simpl never.

Abbreviation P := (signing_process SortPeers key SID).
Abbreviation participants := (readyParticipants key).
Abbreviation loop := (initiate_loop MarshalStart P Run).

Lemma readyParticipants_elem ready p : p ∈ participants ready <-> p ∈ ks_Peers key /\ p ∈ ready.
Proof. unfold readyParticipants. rewrite list_elem_of_filter, contains_spec. done. Qed.

Lemma readyParticipants_NoDup ready : NoDup ready -> NoDup (participants ready).
Proof. apply list.NoDup_filter. Qed.

(** A ready message adds one participant at most. *)
Lemma add_ready_participants excl ready from :
  (length (participants (add_ready excl ready from)) <= length (participants ready) + 1)%nat.
Proof.
  unfold add_ready. destruct (_ && _); [|lia]. unfold readyParticipants.
  rewrite list.filter_app, length_app. rewrite filter_cons, filter_nil. case_decide; simpl; lia.
Qed.

Lemma take_subset_all n acc l :
  Z.of_nat (length acc + length l) = n -> l <> [] -> take_subset n acc l = acc ++ l.
Proof.
  revert acc. induction l as [|p l IH]; intros acc Hn Hne; [done|]. cbn.
  rewrite length_app. cbn [length]. destruct l as [|q l].
  - cbn. by destruct (_ =? n).
  - rewrite !length_cons in Hn. destruct (Z.eqb_spec (Z.of_nat (length acc + 1)) n); [lia|].
    rewrite IH; [by rewrite <- (assoc_L (++))|rewrite length_app; simpl in *; lia|done].
Qed.

(** The ready peers after some events. *)
Definition fold_ready (excl ready : list PeerID) (evs : list init_event) : list PeerID :=
  foldl (fun r ev => match ev with ReadyMsg from => add_ready excl r from | _ => r end) ready evs.

Lemma fold_ready_incl excl ready evs p : p ∈ ready -> p ∈ fold_ready excl ready evs.
Proof.
  revert ready. induction evs as [|ev evs IH]; intros ready Hp; [done|]. cbn.
  apply IH. destruct ev; [|done..]. apply add_ready_elem. by left.
Qed.

Lemma fold_ready_sender excl ready evs p :
  p ∉ excl -> ReadyMsg p ∈ evs -> p ∈ fold_ready excl ready evs.
Proof.
  intros Hx. revert ready. induction evs as [|ev evs IH]; intros ready Hin; [set_solver|].
  apply elem_of_cons in Hin as [<-|Hin]; cbn; [|by apply IH].
  apply fold_ready_incl, add_ready_elem. by right.
Qed.

Lemma signing_loop_starts excl ready evs :
  (forall b, is_ok (MarshalStart b) = true) -> InitDone ∉ evs ->
  Z.of_nat (length (participants ready)) <= ks_Threshold key ->
  ks_Threshold key < Z.of_nat (length (participants (fold_ready excl ready evs))) ->
  exists params, RunProcesses true params ∈ (loop excl ready evs).2.
Proof.
  intros Hm. revert ready. induction evs as [|ev evs IH]; intros ready Hd Hlo Hhi; [unfold fold_ready in Hhi; cbn in Hhi; lia|].
  apply not_elem_of_cons in Hd as [Hne Hd]. destruct ev as [from| |]; cbn in Hhi |- *; [| |done].
  - destruct (Z.eqb_spec (Z.of_nat (length (participants (add_ready excl ready from))))
                (ks_Threshold key + 1)).
    + pose proof (Hm (signing_StartParams SortPeers key SID (add_ready excl ready from))) as Hs.
      destruct (MarshalStart _); [|done..]. eexists. cbn. by right; left.
    + apply IH; [done| |done]. pose proof (add_ready_participants excl ready from). lia.
  - destruct (IH ready Hd Hlo Hhi) as [params Hp]. exists params.
    destruct (loop excl ready evs) as [r acts]. cbn in Hp |- *. by right.
Qed.

Lemma IsParticipant_spec (p : PeerID) l : IsParticipant Pretty p l = true <-> p ∈ l.
Proof.
  unfold IsParticipant. rewrite existsb_exists. split.
  - intros (q & Hq & E%bool_decide_eq_true%Pretty_inj). subst. by apply list_elem_of_In.
  - intros Hp. exists p. split; [by apply list_elem_of_In|by apply bool_decide_eq_true].
Qed.

(** The peers a signing is started with. *)
Lemma signing_run_subset excl evs b params :
  (forall l s, SortPeers l s ≡ₚ l) -> Forall valid_peer (ks_Peers key) -> 1 <= ks_Threshold key ->
  hostID ∈ ks_Peers key -> RunProcesses b params ∈ (initiate MarshalStart hostID P Run excl evs).2 ->
  exists subset, NoDup subset /\ Z.of_nat (length subset) = ks_Threshold key + 1 /\ hostID ∈ subset /\
    (forall p, p ∈ subset -> p ∈ ks_Peers key /\ (p = hostID \/ ((p ∉ excl) /\ ReadyMsg p ∈ evs))) /\
    forall relayer, signing_Run relayer params
                    = if bool_decide (relayer ∈ subset) then Ok subset else Err (SubsetError relayer).
Proof.
  intros Hsort Hvalid Ht Hhost Hin%initiate_runs. destruct Hin as (-> & ready & (Hnd & Hh & Hall) & Hr & ->).
  cbn in Hr. injection Hr as Hr%Z.eqb_eq. set (s := SortPeers (participants ready) SID).
  assert (s ≡ₚ participants ready) as Hperm by apply Hsort.
  assert (take_subset (ks_Threshold key + 1) [] s = s) as Htake.
  { apply (take_subset_all _ []); cbn; [by rewrite Hperm|].
    intros E. rewrite E in Hperm. apply Permutation_nil in Hperm. rewrite Hperm in Hr. cbn in Hr. lia. }
  assert (forall p, p ∈ s <-> p ∈ ks_Peers key /\ p ∈ ready) as Hs
    by (intros p; rewrite Hperm; apply readyParticipants_elem).
  exists s. split_and!.
  - rewrite Hperm. by apply readyParticipants_NoDup.
  - by rewrite Hperm.
  - by apply Hs.
  - intros p [Hk Hp]%Hs. split; [done|]. by apply Hall.
  - intros relayer. unfold signing_Run, signing_unmarshallStartParams. cbn.
    unfold signing_StartParams. fold s. rewrite Htake, peers_json.
    2: { rewrite list.Forall_forall in Hvalid |- *. intros p [Hk _]%Hs. by apply Hvalid. }
    destruct (IsParticipant Pretty relayer s) eqn:E; cbn.
    + rewrite bool_decide_eq_true_2; [done|by apply IsParticipant_spec].
    + rewrite bool_decide_eq_false_2; [done|]. intros Hx%IsParticipant_spec. congruence.
Qed.

(** C5. A signing led by a key holder.  Whenever it is started, it is with exactly
    one more peer than the threshold, all different, all key holders, the leader
    and peers that said they were ready and are not excluded; a relayer that gets
    the parameters takes part in the signing with these peers if it is one of
    them, and otherwise reports that it is not.  And once enough key holders that
    are not excluded have said they are ready, the signing has been started. *)
Theorem signing_initiate excl evs :
  (forall l s, SortPeers l s ≡ₚ l) -> (forall b, is_ok (MarshalStart b) = true) ->
  Forall valid_peer (ks_Peers key) -> 1 <= ks_Threshold key -> hostID ∈ ks_Peers key ->
  (forall b params, RunProcesses b params ∈ (initiate MarshalStart hostID P Run excl evs).2 ->
     exists subset, NoDup subset /\ Z.of_nat (length subset) = ks_Threshold key + 1 /\ hostID ∈ subset /\
       (forall p, p ∈ subset -> p ∈ ks_Peers key /\ (p = hostID \/ ((p ∉ excl) /\ ReadyMsg p ∈ evs))) /\
       forall relayer, signing_Run relayer params
                       = if bool_decide (relayer ∈ subset) then Ok subset else Err (SubsetError relayer)) /\
  (forall others, NoDup others -> Z.of_nat (length others) = ks_Threshold key ->
     (forall p, p ∈ others -> p ∈ ks_Peers key /\ p <> hostID /\ (p ∉ excl) /\ ReadyMsg p ∈ evs) ->
     InitDone ∉ evs ->
     exists params, RunProcesses true params ∈ (initiate MarshalStart hostID P Run excl evs).2).
Proof.
  intros Hsort Hm Hvalid Ht Hhost. split.
  - intros b params. by apply signing_run_subset.
  - intros others Hnd Hlen Hall Hd.
    destruct (signing_loop_starts excl [hostID] evs Hm Hd) as [params Hp].
    + unfold readyParticipants. rewrite filter_cons, filter_nil. case_decide; cbn; lia.
    + assert (hostID :: others ⊆+ participants (fold_ready excl [hostID] evs)) as Hsub%submseteq_length.
      { apply NoDup_submseteq.
        - apply list.NoDup_cons. split; [|done]. intros Hx%Hall. naive_solver.
        - intros p [->|Hp]%elem_of_cons; apply readyParticipants_elem.
          + split; [done|]. apply fold_ready_incl. by left.
          + split; [by apply Hall|]. apply fold_ready_sender; by apply Hall. }
      cbn in Hsub. lia.
    + exists params. unfold initiate. destruct (loop excl [hostID] evs) as [r acts]. cbn in Hp |- *. by right.
Qed.
End signing_spec.

(** ** A resharing starts with the old holders *)

Section parties_spec.
Context `{PeerText} `{PartySort}.

Lemma PartiesFromPeers_ids peers : pid_Id <$> PartiesFromPeers peers ≡ₚ Pretty <$> peers.
Proof. unfold PartiesFromPeers. rewrite SortPartyIDs_ids, <- list_fmap_compose. done. Qed.

Lemma PartiesFromPeers_length peers : length (PartiesFromPeers peers) = length peers.
Proof.
  pose proof (Permutation_length (PartiesFromPeers_ids peers)) as E. by rewrite !length_fmap in E.
Qed.

(** Parties of the same peers are the same, in whatever order the peers are listed. *)
Lemma party_key_inj p q : valid_peer p -> valid_peer q -> party_key (Pretty p) = party_key (Pretty q) -> p = q.
Proof.
  intros Hp Hq E. apply be_val_nonzero_inj in E; [|by apply Pretty_nonzero..].
  by apply Pretty_inj, bytes_of_string_inj.
Qed.

Lemma parties_eq (l k : list PartyID) :
  pid_Id <$> l = pid_Id <$> k -> (forall i p, l !! i = Some p -> pid_Index p = Z.of_nat i) ->
  (forall i p, k !! i = Some p -> pid_Index p = Z.of_nat i) -> l = k.
Proof.
  intros E Hl Hk. apply list_eq. intros i. apply (f_equal (.!! i)) in E. rewrite !list_lookup_fmap in E.
  destruct (l !! i) as [p|] eqn:El, (k !! i) as [q|] eqn:Ek; simplify_eq/=; [|done].
  apply Hl in El. apply Hk in Ek. destruct p, q. simplify_eq/=. congruence.
Qed.

Lemma fmap_eq_inj {A B} (f : A -> B) (l k : list A) :
  (forall x y, x ∈ l -> y ∈ k -> f x = f y -> x = y) -> f <$> l = f <$> k -> l = k.
Proof.
  revert k. induction l as [|x l IH]; intros [|y k] Hf E; [done..|]. injection E as E1 E2.
  f_equal; [apply Hf; [by left|by left|done]|]. apply IH; [|done].
  intros a b Ha Hb. apply Hf; by right.
Qed.

Lemma PartiesFromPeers_unique peers peers' : peers ≡ₚ peers' -> Forall valid_peer peers ->
  PartiesFromPeers peers = PartiesFromPeers peers'.
Proof.
  intros Hp Hv. apply parties_eq; [|apply SortPartyIDs_index..].
  assert (forall l x, l ≡ₚ peers -> x ∈ pid_Id <$> PartiesFromPeers l -> exists p, x = Pretty p /\ valid_peer p) as Hname.
  { intros l x Hl Hx. rewrite PartiesFromPeers_ids in Hx. apply list_elem_of_fmap in Hx as (p & -> & Hx).
    rewrite Hl in Hx. exists p. split; [done|]. rewrite list.Forall_forall in Hv. by apply Hv. }
  apply (fmap_eq_inj party_key).
  - intros x y (p & -> & Hvp)%Hname (q & -> & Hvq)%Hname E; [|done..]. f_equal. by apply party_key_inj.
  - apply (Sorted_unique Z.le).
    + rewrite <- list_fmap_compose. apply SortPartyIDs_sorted.
    + rewrite <- list_fmap_compose. apply SortPartyIDs_sorted.
    + by rewrite !PartiesFromPeers_ids, Hp.
Qed.

(** The names of the parties of valid peers are read back. *)
Lemma PeersFromIDS_Pretty ids peers :
  Forall valid_peer peers -> ids = Pretty <$> peers -> PeersFromIDS Decode ids = Ok peers.
Proof.
  intros Hv ->. induction Hv as [|p peers Hp Hv IH]; [done|]. cbn.
  rewrite Decode_Pretty by done. cbn. change (foldr _ _ _) with (PeersFromIDS Decode (Pretty <$> peers)).
  by rewrite IH.
Qed.

Lemma PeersFromParties_spec peers :
  Forall valid_peer peers ->
  exists ps, PeersFromParties (PartiesFromPeers peers) = Ok ps /\ ps ≡ₚ peers.
Proof.
  intros Hv. destruct (Permutation_map_inv _ _ (PartiesFromPeers_ids peers)) as (ps & E & Hp).
  exists ps. split; [|by symmetry].
  apply PeersFromIDS_Pretty; [by rewrite <- Hp|done].
Qed.

(** The party [place_parties] leaves in place [i]. *)
Definition renumber (i : nat) (party : PartyID) : PartyID :=
  {| pid_Id := pid_Id party; pid_Index := Z.of_nat i |}.

Definition is_new (oldPeers : list PeerID) (party : PartyID) : bool :=
  negb (IsParticipant Pretty (match Decode (pid_Id party) with Ok p => p | _ => "" end) oldPeers).

Lemma place_parties_spec oldPeers parties acc n :
  let new := filter (fun p => is_new oldPeers p = true) parties in
  (length new <= n)%nat ->
  place_parties oldPeers parties ((Some <$> acc) ++ replicate n None) (length acc)
  = Ok ((Some <$> (acc ++ imap (fun i p => renumber (length acc + i) p) new))
          ++ replicate (n - length new) None).
Proof.
  revert acc n. induction parties as [|party parties IH]; intros acc n new Hn.
  { cbn. by rewrite app_nil_r, Nat.sub_0_r. }
  unfold new in *. cbn [place_parties]. fold (is_new oldPeers party).
  destruct (is_new oldPeers party) eqn:E.
  - rewrite filter_cons_True in Hn |- * by done. cbn in Hn. destruct n as [|n]; [lia|].
    rewrite length_app, length_fmap, length_replicate.
    destruct (Nat.ltb_spec (length acc) (length acc + S n)); [|lia].
    replace (<[_ := _]> _)
      with ((Some <$> (acc ++ [renumber (length acc) party])) ++ replicate n (None (A := PartyID))).
    2: { rewrite fmap_app, <- (assoc_L (++)). rewrite insert_app_r_alt by (rewrite length_fmap; lia).
         rewrite length_fmap, Nat.sub_diag. done. }
    specialize (IH (acc ++ [renumber (length acc) party]) n ltac:(lia)).
    rewrite length_app in IH. cbn in IH. rewrite Nat.add_1_r in IH. rewrite IH.
    rewrite <- (assoc_L (++)). cbn. rewrite Nat.add_0_r. do 5 f_equal.
    apply imap_ext. intros i p _. cbn. f_equal. lia.
  - rewrite filter_cons_False in Hn |- * by congruence. by apply IH.
Qed.

(** The new parties are those of the peers that are not old. *)
Lemma new_parties old peers ps :
  ps ≡ₚ old -> Forall valid_peer peers ->
  pid_Id <$> filter (fun p => is_new ps p = true) (PartiesFromPeers peers)
  ≡ₚ Pretty <$> filter (fun p => p ∉ old) peers.
Proof.
  intros Hps Hv.
  pose (new_id := fun id => negb (IsParticipant Pretty (match Decode id with Ok p => p | _ => "" end) ps)).
  change (fun p : PartyID => is_new ps p = true) with (fun p : PartyID => new_id (pid_Id p) = true).
  rewrite (filter_fmap_test pid_Id new_id), PartiesFromPeers_ids, <- (filter_fmap_test Pretty new_id).
  apply fmap_Permutation. induction Hv as [|p peers Hp Hv IH]; [done|].
  assert (new_id (Pretty p) = true <-> p ∉ old) as E.
  { unfold new_id. rewrite Decode_Pretty, negb_true_iff by done.
    rewrite <- Hps, <- (IsParticipant_spec p ps). by destruct (IsParticipant Pretty p ps). }
  rewrite !filter_cons. repeat case_decide; try tauto; by rewrite IH.
Qed.

Lemma old_and_new (old peers : list PeerID) :
  NoDup old -> NoDup peers -> old ⊆ peers -> old ++ filter (fun p => p ∉ old) peers ≡ₚ peers.
Proof.
  intros Ho Hp Hsub. apply NoDup_Permutation; [|done|].
  - apply list.NoDup_app. split_and!; [done| |by apply list.NoDup_filter].
    intros p Hin [Hn _]%list_elem_of_filter. done.
  - intros p. rewrite elem_of_app, list_elem_of_filter.
    destruct (decide (p ∈ old)); naive_solver.
Qed.

(** Old parties keep their numbers, new ones get the following ones, and every
    peer has a party. *)
Lemma sortParties_spec old peers :
  NoDup old -> NoDup peers -> old ⊆ peers -> Forall valid_peer peers ->
  exists new, sortParties (PartiesFromPeers peers) (PartiesFromPeers old) = Ok (Some <$> new) /\
    take (length old) new = PartiesFromPeers old /\
    pid_Id <$> new ≡ₚ Pretty <$> peers /\
    forall i p, new !! i = Some p -> pid_Index p = Z.of_nat i.
Proof.
  intros Ho Hp Hsub Hv. pose proof (old_and_new old peers Ho Hp Hsub) as Hall.
  assert (Forall valid_peer old) as Hvo
    by (rewrite list.Forall_forall in Hv |- *; intros p Hin; apply Hv, Hsub, Hin).
  destruct (PeersFromParties_spec old Hvo) as (ps & Eps & Hps).
  pose proof (new_parties old peers ps Hps Hv) as Hnew.
  set (new := filter (fun p => is_new ps p = true) (PartiesFromPeers peers)) in Hnew.
  assert (length new + length old = length peers)%nat as Hlen.
  { apply Permutation_length in Hnew. rewrite !length_fmap in Hnew. rewrite Hnew.
    rewrite <- Hall at 2. rewrite length_app. lia. }
  unfold sortParties. rewrite Eps.
  rewrite take_ge by (rewrite length_fmap, !PartiesFromPeers_length; lia).
  pose proof (place_parties_spec ps (PartiesFromPeers peers) (PartiesFromPeers old) (length new)
                (le_n _)) as Hplace.
  rewrite length_fmap, !PartiesFromPeers_length in *.
  replace (length peers - length old)%nat with (length new) by lia.
  fold new in Hplace. rewrite Nat.sub_diag in Hplace. cbn [replicate] in Hplace.
  rewrite app_nil_r in Hplace. eexists. split; [exact Hplace|]. split_and!.
  - rewrite take_app_le by (by rewrite PartiesFromPeers_length).
    by rewrite take_ge by (by rewrite PartiesFromPeers_length).
  - rewrite fmap_app, PartiesFromPeers_ids. rewrite <- Hall, fmap_app.
    rewrite <- Hnew. apply Permutation_app_head. rewrite fmap_imap, <- (imap_const pid_Id new). by apply reflexive_eq, imap_ext.
  - intros i p [Hi|[Hge Hi]]%lookup_app_Some; [by apply (SortPartyIDs_index _ _ _ Hi)|].
    rewrite PartiesFromPeers_length in Hge. rewrite list_lookup_imap, PartiesFromPeers_length in Hi.
    apply fmap_Some in Hi as (q & _ & ->). cbn. lia.
Qed.
End parties_spec.

Section resharing_spec.
Context `{PeerText} `{PartySort}.

Lemma PeersIntersection_elem old new p : p ∈ PeersIntersection old new <-> p ∈ old /\ p ∈ new.
Proof. unfold PeersIntersection. rewrite list_elem_of_filter, contains_spec. tauto. Qed.

Lemma sort_ids_perm l : sort_ids l ≡ₚ l.
Proof. apply merge_sort_Permutation. Qed.

Lemma sort_ids_sorted l : Sorted String.le (sort_ids l).
Proof. apply Sorted_merge_sort. apply _. Qed.

Lemma sort_ids_unique l k : l ≡ₚ k -> sort_ids l = sort_ids k.
Proof.
  intros Hp. apply (Sorted_unique String.le); [apply sort_ids_sorted..|].
  by rewrite !sort_ids_perm.
Qed.

(** Peers common to two lists do not depend on the order of the second. *)
Lemma PeersIntersection_ext old new new' :
  (forall p, p ∈ new <-> p ∈ new') -> PeersIntersection old new = PeersIntersection old new'.
Proof. intros Hn. apply list_filter_iff. intros p. by rewrite !contains_spec. Qed.

Lemma PeersIntersection_perm old old' new :
  old ≡ₚ old' -> PeersIntersection old new ≡ₚ PeersIntersection old' new.
Proof. intros Hp. unfold PeersIntersection. by rewrite Hp. Qed.

Lemma PeersIntersection_sorted old new :
  Sorted String.le old -> Sorted String.le (PeersIntersection old new).
Proof.
  intros Hs%Sorted_StronglySorted; [|apply _]. apply StronglySorted_Sorted.
  unfold PeersIntersection. induction Hs as [|p l Hs IH Hall]; [constructor|].
  rewrite filter_cons. case_decide; [|done]. constructor; [done|].
  rewrite list.Forall_forall in Hall |- *. intros q [_ Hq]%list_elem_of_filter. by apply Hall.
Qed.

(** A key holder accepts its own view of the old holders and nothing else. *)
Lemma validate_holder key peerstore params :
  ks_Peers key <> [] ->
  validateStartParams key peerstore params
  = if sp_OldThreshold params <=? 0 then Err "threshold too small"
    else if Z.of_nat (length (sp_OldSubset params)) <? sp_OldThreshold params
    then Err "threshold bigger then subset"
    else if bool_decide (sp_OldSubset params ≡ₚ PeersIntersection (ks_Peers key) peerstore)
    then Ok {| sp_OldThreshold := sp_OldThreshold params; sp_OldSubset := sort_ids (sp_OldSubset params) |}
    else Err "invalid peers subset in start params".
Proof.
  intros Hne. unfold validateStartParams.
  assert ((length (sort_ids (ks_Peers key)) =? 0)%nat = false) as ->.
  { apply Nat.eqb_neq. rewrite sort_ids_perm. by destruct (ks_Peers key). }
  replace (bool_decide (sp_OldSubset params ≡ₚ PeersIntersection (ks_Peers key) peerstore))
    with (bool_decide (sort_ids (sp_OldSubset params)
                       = PeersIntersection (sort_ids (ks_Peers key)) peerstore)).
  { by case_bool_decide. }
  apply bool_decide_ext. rewrite <- (PeersIntersection_perm (sort_ids (ks_Peers key))
    (ks_Peers key) peerstore (sort_ids_perm _)). split.
  - intros E. by rewrite <- E, sort_ids_perm.
  - intros Hp. apply (Sorted_unique String.le); [apply sort_ids_sorted| |by rewrite sort_ids_perm].
    apply PeersIntersection_sorted, sort_ids_sorted.
Qed.

(** Every relayer that knows the leader's peers runs with the parties of the leader's old
    holders. *)
Lemma resharing_Run_leader leader leaderstore ready key peerstore :
  let old := PeersIntersection (ks_Peers leader) leaderstore in
  ks_Peers key = [] \/ ks_Peers key ≡ₚ ks_Peers leader -> (forall p, p ∈ leaderstore <-> p ∈ peerstore) ->
  Forall valid_peer peerstore -> 0 < ks_Threshold leader <= Z.of_nat (length old) -> is_i64 (ks_Threshold leader) ->
  resharing_Run key peerstore (resharing_StartParams leader leaderstore ready)
  = (newParties ← sortParties (PartiesFromPeers peerstore) (PartiesFromPeers old); Ok (PartiesFromPeers old, newParties)).
Proof.
  intros old Hkey Hstore Hv Ht Hti.
  assert (Forall valid_peer old) as Hvo.
  { rewrite list.Forall_forall in Hv |- *. intros p [_ Hp]%PeersIntersection_elem. by apply Hv, Hstore. }
  assert (resharing_unmarshallStartParams key peerstore (resharing_StartParams leader leaderstore ready)
          = Ok {| sp_OldThreshold := ks_Threshold leader; sp_OldSubset := sort_ids old |}) as E.
  { unfold resharing_unmarshallStartParams, resharing_StartParams. fold old. rewrite params_json by done.
    cbn [mbind outcome_bind]. destruct (decide (ks_Peers key = [])) as [Ek|Ek].
    - unfold validateStartParams. cbn [sp_OldThreshold sp_OldSubset]. rewrite Ek. cbn [length sort_ids].
      replace (ks_Threshold leader <=? 0) with false by lia.
      by replace (Z.of_nat (length old) <? ks_Threshold leader) with false by lia.
    - destruct Hkey as [?|Hkey]; [done|]. rewrite validate_holder by done. cbn [sp_OldThreshold sp_OldSubset].
      replace (ks_Threshold leader <=? 0) with false by lia.
      replace (Z.of_nat (length old) <? ks_Threshold leader) with false by lia.
      rewrite bool_decide_eq_true_2; [done|]. unfold old. rewrite (PeersIntersection_ext _ _ _ Hstore).
      by apply PeersIntersection_perm. }
  unfold resharing_Run. rewrite E. cbn [mbind outcome_bind sp_OldSubset].
  rewrite <- (PartiesFromPeers_unique old (sort_ids old)) by (done || by rewrite sort_ids_perm). done.
Qed.

(** C28. Start of a resharing.  All relayers that know the same peers as the leader and
    hold the same key share, or none, whatever the order they list peers in, accept the
    leader's parameters and run with one numbering of the parties: the old holders that
    are still known, in the order of their keys, and after them every other peer they
    know, numbered from 0 without gaps.  A holder accepts no other set of old holders,
    whoever leads.  A relayer without a key share has no valid coordinator and accepts
    any set of old holders that is not smaller than the threshold. *)
Theorem resharing_start leader key leaderstore peerstore ready :
  ks_Peers leader ≡ₚ ks_Peers key -> (forall p, p ∈ leaderstore <-> p ∈ peerstore) ->
  NoDup (ks_Peers leader) -> NoDup peerstore -> Forall valid_peer peerstore ->
  0 < ks_Threshold leader <= Z.of_nat (length (PeersIntersection (ks_Peers leader) leaderstore)) ->
  is_i64 (ks_Threshold leader) ->
  (exists old new,
     (forall relayer store, ks_Peers relayer = [] \/ ks_Peers relayer ≡ₚ ks_Peers leader -> store ≡ₚ peerstore ->
        resharing_Run relayer store (resharing_StartParams leader leaderstore ready) = Ok (old, Some <$> new)) /\
     pid_Id <$> old ≡ₚ Pretty <$> PeersIntersection (ks_Peers leader) leaderstore /\
     Sorted Z.le (party_key ∘ pid_Id <$> old) /\
     take (length old) new = old /\ pid_Id <$> new ≡ₚ Pretty <$> peerstore /\
     forall i p, new !! i = Some p -> pid_Index p = Z.of_nat i) /\
  (forall paramBytes params, resharing_unmarshallStartParams key peerstore paramBytes = Ok params ->
     sp_OldSubset params ≡ₚ PeersIntersection (ks_Peers key) peerstore) /\
  (forall t params, Forall valid_peer (sp_OldSubset params) ->
     0 < sp_OldThreshold params <= Z.of_nat (length (sp_OldSubset params)) -> is_i64 (sp_OldThreshold params) ->
     let newcomer := {| ks_Threshold := t; ks_Peers := [] |} in
     resharing_ValidCoordinators newcomer peerstore = [] /\
     exists params', resharing_unmarshallStartParams newcomer peerstore (MarshalParams params) = Ok params' /\
       sp_OldSubset params' ≡ₚ sp_OldSubset params).
Proof.
  intros Hkeys Hstore Hndk Hnds Hv Ht Hti.
  set (old := PeersIntersection (ks_Peers leader) leaderstore) in *.
  assert (ks_Peers key <> []) as Hne.
  { intros E. rewrite E in Hkeys. apply Permutation_nil_r in Hkeys. unfold old in Ht. rewrite Hkeys in Ht. cbn in Ht. lia. }
  assert (old ⊆ peerstore) as Hsub by (intros p [_ Hp]%PeersIntersection_elem; by apply Hstore).
  split_and!.
  - destruct (sortParties_spec old peerstore) as (new & E & Htake & Hids & Hidx); [by apply list.NoDup_filter|done..|].
    exists (PartiesFromPeers old), new. split_and!; [|apply PartiesFromPeers_ids|apply SortPartyIDs_sorted
      |by rewrite PartiesFromPeers_length|done..].
    intros relayer store Hr Hs. assert (Forall valid_peer store) as Hvs by (by rewrite Hs).
    rewrite resharing_Run_leader; [|done|intros p; by rewrite Hs|done..]. fold old.
    rewrite (PartiesFromPeers_unique store peerstore Hs Hvs), E. done.
  - intros paramBytes params Hp. unfold resharing_unmarshallStartParams in Hp.
    apply outcome_bind_Ok in Hp as (p & _ & Hp). rewrite validate_holder in Hp by done.
    repeat (case_match; try done). injection Hp as <-. cbn.
    rewrite sort_ids_perm. by eapply bool_decide_eq_true.
  - intros t params Hvp Htp Hi newcomer. split.
    + unfold resharing_ValidCoordinators. cbn. clear. induction peerstore as [|p l IH]; [done|].
      by rewrite filter_cons_False.
    + unfold resharing_unmarshallStartParams. rewrite params_json by done. cbn [mbind outcome_bind].
      unfold validateStartParams. replace (sp_OldThreshold params <=? 0) with false by lia.
      replace (Z.of_nat (length (sp_OldSubset params)) <? sp_OldThreshold params) with false by lia.
      cbn. eexists. split; [done|]. cbn. apply sort_ids_perm.
Qed.
End resharing_spec.

(** ** The key share lock *)

(** [LockKeyshare] and [UnlockKeyshare] are a mutex: locking a held one waits for
    ever if nothing else unlocks it, unlocking a free one stops the program. *)
Inductive lock_op := Lock | Unlock.
#[export] Instance lock_op_eq_dec : EqDecision lock_op.
Proof. solve_decision. Defined.
Inductive lock_result := LockIs (held : bool) | Blocked | Fatal.

Fixpoint lock_run (held : bool) (ops : list lock_op) : lock_result :=
  match ops with
  | [] => LockIs held
  | Lock :: ops' => if held then Blocked else lock_run true ops'
  | Unlock :: ops' => if held then lock_run false ops' else Fatal
  end.

Inductive process_kind :=
| EcdsaSigning | FrostSigning | EcdsaKeygen | FrostKeygen | EcdsaResharing | FrostResharing.

(** The lock operations of the constructors, of [Run] and of [Stop]. *)
Definition new_locks (k : process_kind) : list lock_op :=
  match k with
  | EcdsaSigning | FrostSigning => [Lock; Unlock]
  | EcdsaKeygen => []
  | FrostKeygen | EcdsaResharing | FrostResharing => [Lock]
  end.

Definition run_locks (k : process_kind) : list lock_op :=
  match k with EcdsaKeygen => [Lock] | _ => [] end.

Definition stop_locks (k : process_kind) : list lock_op :=
  match k with EcdsaSigning | FrostSigning => [] | _ => [Unlock] end.

Definition kind_Retryable (k : process_kind) : bool :=
  match k with EcdsaSigning | FrostSigning => true | _ => false end.

(** The operations on the lock from the constructor to the end of [Execute], which
    returns at once when the session is pending, and otherwise stops the process at
    the end, whatever it did. *)
Definition session_locks (k : process_kind) (rejected : bool) (acts : list coord_action) : list lock_op :=
  new_locks k ++
  (if rejected then []
   else concat ((fun a => if is_run a then run_locks k else []) <$> acts) ++ stop_locks k).

Lemma concat_run_locks k acts :
  concat ((fun a => if is_run a then run_locks k else []) <$> acts)
  = concat (replicate (runs acts) (run_locks k)).
Proof.
  induction acts as [|a acts IH]; [done|]. rewrite fmap_cons. cbn [concat].
  rewrite IH. unfold runs. cbn. by destruct (is_run a).
Qed.

Lemma concat_replicate_nil {A} n : concat (replicate n ([] : list A)) = [].
Proof. induction n; done. Qed.

Section lock_spec.
Context (Pretty : PeerID -> string) (Decode : string -> res PeerID).
Context (MarshalStart : bytes -> res bytes) (UnmarshalStart : bytes -> res bytes).
Context (hostID : PeerID) (P : TssProcess) (Run : bool -> bytes -> list tss_error).
Context (k : process_kind).

Abbreviation execute := (coord_Execute Pretty Decode MarshalStart UnmarshalStart hostID P Run).

Lemma run_once static bully a1 a2 :
  tp_Retryable P = false -> (runs (execute static bully a1 a2).2 <= 1)%nat.
Proof.
  intros Hr. unfold coord_Execute. pose proof (start_once Pretty MarshalStart UnmarshalStart hostID P Run
    (default "" (static (tp_ValidCoordinators P))) [] a1) as Ho.
  destruct (coord_start _ _ _ _ _ _ _ [] a1) as [r acts]. cbn in Ho.
  destruct (pool_two _ _ _) as [[err|]|]; cbn; [|done..]. by rewrite Hr.
Qed.

(** C38. The lock on the key share over a session.  However [Execute] goes, a
    process that is not rejected leaves the lock free, except an ECDSA key
    generation that ends before its protocol was started: its [Stop] unlocks a lock
    it never took, which stops the program.  While a resharing or a FROST key
    generation is under way no other process can be made; and when it is rejected
    because its session is pending, the lock is never given back. *)
Theorem keyshare_lock static bully a1 a2 :
  tp_Retryable P = kind_Retryable k ->
  let acts := (execute static bully a1 a2).2 in
  (k <> EcdsaKeygen \/ runs acts <> 0%nat -> lock_run false (session_locks k false acts) = LockIs false) /\
  (k = EcdsaKeygen -> runs acts = 0%nat -> lock_run false (session_locks k false acts) = Fatal) /\
  (lock_run false (session_locks k true acts) =
     LockIs (match k with FrostKeygen | EcdsaResharing | FrostResharing => true | _ => false end)) /\
  (forall other, new_locks other <> [] ->
     lock_run true (session_locks other false acts) = Blocked).
Proof.
  intros Hk acts. unfold session_locks. rewrite concat_run_locks. split_and!.
  - intros Hne. destruct (decide (run_locks k = [])) as [E|E].
    { rewrite E, concat_replicate_nil. by destruct k. }
    destruct k; try done.
    pose proof (run_once static bully a1 a2 Hk) as Ho. fold acts in Ho.
    destruct (runs acts) as [|[|n]]; [naive_solver|done|lia].
  - intros -> ->. done.
  - by destruct k.
  - intros other Ho. by destruct other.
Qed.
End lock_spec.

(** ** Concrete sessions *)

Module TssExample.
(** Peers that are their own text, and parties sorted by their keys. *)
Definition nonzero (s : string) : bool := forallb (fun b => negb (bool_decide (b = Byte.x00))) (bytes_of_string s).

#[export] Program Instance plain_text : PeerText :=
  {| Pretty := fun p => p; Decode := fun s => Ok s; valid_peer := fun p => ascii_text p && nonzero p = true |}.
Next Obligation. done. Qed.
Next Obligation. done. Qed.
Next Obligation. by intros p [? _]%andb_prop. Qed.
Next Obligation.
  intros p [_ Hp]%andb_prop Hin%list_elem_of_In. unfold nonzero in Hp. rewrite forallb_forall in Hp.
  by apply Hp in Hin.
Qed.

Definition key_le (s t : string) : Prop := party_key s <= party_key t.
#[export] Instance key_le_dec : RelDecision key_le := fun s t => Z_le_dec (party_key s) (party_key t).
#[export] Instance key_le_total : Total key_le.
Proof. intros s t. unfold key_le. lia. Qed.
#[export] Instance key_le_trans : Transitive key_le.
Proof. intros s t u. unfold key_le. lia. Qed.

Definition by_name (l : list PartyID) : list PartyID :=
  imap (fun i id => {| pid_Id := id; pid_Index := Z.of_nat i |}) (merge_sort key_le (pid_Id <$> l)).

Lemma by_name_names l : pid_Id <$> by_name l = merge_sort key_le (pid_Id <$> l).
Proof.
  unfold by_name. rewrite fmap_imap. rewrite <- (list_fmap_id (merge_sort _ _)) at 2.
  rewrite <- (imap_const (fun id => id)). by apply imap_ext.
Qed.

Lemma by_name_ids l : pid_Id <$> by_name l ≡ₚ pid_Id <$> l.
Proof. rewrite by_name_names. apply merge_sort_Permutation. Qed.

Lemma by_name_sorted l : Sorted Z.le (party_key ∘ pid_Id <$> by_name l).
Proof.
  rewrite list_fmap_compose, by_name_names.
  assert (Sorted key_le (merge_sort key_le (pid_Id <$> l))) as Hs by (apply Sorted_merge_sort; apply _).
  induction Hs as [|s t Hs IH Hd]; [constructor|]. cbn. constructor; [done|]. destruct Hd; by constructor.
Qed.

Lemma by_name_index l i p : by_name l !! i = Some p -> pid_Index p = Z.of_nat i.
Proof.
  unfold by_name. rewrite list_lookup_imap. intros (id & _ & ->)%fmap_Some. done.
Qed.

#[export] Instance name_sort : PartySort :=
  {| SortPartyIDs := by_name; SortPartyIDs_ids := by_name_ids; SortPartyIDs_sorted := by_name_sorted;
     SortPartyIDs_index := by_name_index |}.

Definition key : Keyshare := {| ks_Threshold := 2; ks_Peers := ["a"; "b"; "c"; "d"] |}.
Definition sorted (l : list PeerID) (_ : string) : list PeerID := l.
Definition json (b : bytes) : res bytes := Ok b.
Definition no_error (_ : bool) (_ : bytes) : list tss_error := [].

(** Peer "x" holds no key share and "d" is excluded. *)
Definition answers : list init_event :=
  [ReadyMsg "x"; ReadyMsg "c"; InitTick; ReadyMsg "c"; ReadyMsg "d"; ReadyMsg "b"].

(** The four holders and a new peer "e" reshare; "d" is gone. *)
Definition store : list PeerID := ["e"; "c"; "a"; "b"].

(** A key generation nobody answers to. *)
Definition lonely : attempt :=
  {| at_init := []; at_wait := [WaitTimeout]; at_watch := [WatchDone]; at_watch_first := false |}.
End TssExample.

Import TssExample.
#[local] Existing Instance plain_text.
#[local] Existing Instance name_sort.

Lemma signing_initiate_witness :
  exists params subset,
    RunProcesses true params
    ∈ (initiate json "a" (signing_process sorted key "1-2-3-4-0") no_error ["d"] answers).2 /\
    length subset = 3%nat /\ signing_Run "a" params = Ok subset.
Proof.
  destruct (signing_initiate sorted json no_error key "1-2-3-4-0" "a" ["d"] answers) as [Hs Hl].
  - done.
  - done.
  - by repeat constructor.
  - cbn. lia.
  - cbn. set_solver.
  - destruct (Hl ["b"; "c"]) as [params Hp].
    + apply (bool_decide_unpack _). vm_compute. done.
    + done.
    + intros p Hp. apply elem_of_cons in Hp as [->|Hp]; [|apply list_elem_of_singleton in Hp as ->];
        split_and!; cbn; set_solver.
    + unfold answers. set_solver.
    + destruct (Hs true params Hp) as (subset & _ & Hlen & Ha & _ & Hrun).
      exists params, subset. split; [exact Hp|]. split; [cbn in Hlen; lia|].
      rewrite Hrun. by rewrite bool_decide_eq_true_2.
Defined.

Lemma resharing_start_witness :
  exists old new,
    resharing_Run {| ks_Threshold := 2; ks_Peers := ["d"; "c"; "b"; "a"] |} store
      (resharing_StartParams key ["a"; "b"; "c"; "e"] []) = Ok (old, Some <$> new) /\
    resharing_Run {| ks_Threshold := 0; ks_Peers := [] |} ["c"; "e"; "a"; "b"]
      (resharing_StartParams key ["a"; "b"; "c"; "e"] []) = Ok (old, Some <$> new) /\
    take (length old) new = old /\
    resharing_unmarshallStartParams {| ks_Threshold := 0; ks_Peers := [] |} store
      (MarshalParams {| sp_OldThreshold := 1; sp_OldSubset := ["z"] |})
    = Ok {| sp_OldThreshold := 1; sp_OldSubset := ["z"] |}.
Proof.
  destruct (resharing_start key {| ks_Threshold := 2; ks_Peers := ["d"; "c"; "b"; "a"] |}
    ["a"; "b"; "c"; "e"] store []) as [(old & new & E & _ & _ & Ht & _) _].
  - cbn. symmetry. apply (reverse_Permutation ["a"; "b"; "c"; "d"]).
  - unfold store. set_solver.
  - apply (bool_decide_unpack _). vm_compute. done.
  - apply (bool_decide_unpack _). vm_compute. done.
  - by repeat constructor.
  - split; [cbn; lia|]. apply Z.leb_le. vm_compute. reflexivity.
  - unfold is_i64. cbn. lia.
  - exists old, new. split_and!.
    + apply E; [|done]. right. apply (reverse_Permutation ["a"; "b"; "c"; "d"]).
    + apply E; [by left|]. apply Permutation_swap.
    + exact Ht.
    + vm_compute. reflexivity.
Defined.

(** A newcomer that is told of an old holder it does not know has no place left
    for the last new party. *)
Lemma newcomer_panics :
  resharing_Run {| ks_Threshold := 0; ks_Peers := [] |} store
    (MarshalParams {| sp_OldThreshold := 1; sp_OldSubset := ["z"] |}) = Panic.
Proof. vm_compute. reflexivity. Qed.

Lemma keyshare_lock_witness :
  lock_run false (session_locks EcdsaKeygen false
    (coord_Execute (fun p => p) (fun s => Ok s) json json "b" (keygen_process store "keygen-7") no_error
       head (fun _ => Ok "") lonely lonely).2) = Fatal.
Proof.
  destruct (keyshare_lock (fun p => p) (fun s => Ok s) json json "b" (keygen_process store "keygen-7")
    no_error EcdsaKeygen head (fun _ => Ok "") lonely lonely eq_refl) as (_ & H2 & _).
  apply H2; reflexivity.
Defined.
