(* ===== verification/Config.v ===== *)
(** * Configuration of the relayer ([config], [config/relayer])

    The relayer is configured from a file or from environment variables, together
    with a configuration of the domains shared by all relayers.  [viper], JSON, HTTP,
    the log levels of zerolog and [mergo] are arguments. *)

From Stdlib Require Import Ascii Floats.SpecFloat.
From S2P Require Import Prelude GoBytes GoStrings GoFloat GoParse.

#[local] Open Scope string_scope.
#[local] Open Scope list_scope.
#[local] Open Scope Z_scope.

(** ** Relayer configuration *)

Record TopologyConfiguration := {
  toc_EncryptionKey : string;
  toc_Url : string;
  toc_Path : string;
}.

Record UploaderConfig := {
  uc_URL : string;
  uc_AuthToken : string;
  uc_MaxRetries : Z;
  uc_MaxElapsedTime : Z;
}.

Record RawMpcRelayerConfig := {
  rmc_KeysharePath : string;
  rmc_FrostKeysharePath : string;
  rmc_Key : string;
  rmc_Port : string;
  rmc_TopologyConfiguration : TopologyConfiguration;
  rmc_CommHealthCheckInterval : string;
}.

Record RawBullyConfig := {
  rbc_PingWaitTime : string;
  rbc_PingBackOff : string;
  rbc_PingInterval : string;
  rbc_ElectionWaitTime : string;
  rbc_BullyWaitTime : string;
}.

Record RawRelayerConfig := {
  rrc_OpenTelemetryCollectorURL : string;
  rrc_LogLevel : string;
  rrc_LogFile : string;
  rrc_HealthPort : string;
  rrc_Env : string;
  rrc_Id : string;
  rrc_MpcConfig : RawMpcRelayerConfig;
  rrc_BullyConfig : RawBullyConfig;
  rrc_UploaderConfig : UploaderConfig;
}.

Record MpcRelayerConfig := {
  mc_TopologyConfiguration : TopologyConfiguration;
  mc_Port : Z;
  mc_KeysharePath : string;
  mc_FrostKeysharePath : string;
  mc_Key : string;
  mc_CommHealthCheckInterval : Z;
}.

Record BullyConfig := {
  bcf_PingWaitTime : Z;
  bcf_PingBackOff : Z;
  bcf_PingInterval : Z;
  bcf_ElectionWaitTime : Z;
  bcf_BullyWaitTime : Z;
}.

Record RelayerConfig (Level : Type) := {
  rc_OpenTelemetryCollectorURL : string;
  rc_LogLevel : Level;
  rc_LogFile : string;
  rc_HealthPort : Z;
  rc_Env : string;
  rc_Id : string;
  rc_MpcConfig : MpcRelayerConfig;
  rc_BullyConfig : BullyConfig;
  rc_UploaderConfig : UploaderConfig;
}.
Arguments rc_OpenTelemetryCollectorURL {Level} _.
Arguments rc_LogLevel {Level} _.
Arguments rc_LogFile {Level} _.
Arguments rc_HealthPort {Level} _.
Arguments rc_Env {Level} _.
Arguments rc_Id {Level} _.
Arguments rc_MpcConfig {Level} _.
Arguments rc_BullyConfig {Level} _.
Arguments rc_UploaderConfig {Level} _.

(** [defaults.Set]: an empty field takes the value of its [default] tag. *)
Definition or_default (s d : string) : string := if bool_decide (s = "") then d else s.
Definition or_default_Z (n d : Z) : Z := if n =? 0 then d else n.

Definition default_Mpc (c : RawMpcRelayerConfig) : RawMpcRelayerConfig :=
  {| rmc_KeysharePath := rmc_KeysharePath c; rmc_FrostKeysharePath := rmc_FrostKeysharePath c;
     rmc_Key := rmc_Key c; rmc_Port := or_default (rmc_Port c) "9000";
     rmc_TopologyConfiguration := rmc_TopologyConfiguration c;
     rmc_CommHealthCheckInterval := or_default (rmc_CommHealthCheckInterval c) "5m" |}.

Definition default_Bully (c : RawBullyConfig) : RawBullyConfig :=
  {| rbc_PingWaitTime := or_default (rbc_PingWaitTime c) "1s";
     rbc_PingBackOff := or_default (rbc_PingBackOff c) "1s";
     rbc_PingInterval := or_default (rbc_PingInterval c) "1s";
     rbc_ElectionWaitTime := or_default (rbc_ElectionWaitTime c) "2s";
     rbc_BullyWaitTime := or_default (rbc_BullyWaitTime c) "3m" |}.

(** A duration's tag is read as a duration, or else as a number of nanoseconds. *)
Definition default_Uploader (c : UploaderConfig) : UploaderConfig :=
  {| uc_URL := uc_URL c; uc_AuthToken := uc_AuthToken c;
     uc_MaxRetries := or_default_Z (uc_MaxRetries c) 5;
     uc_MaxElapsedTime := or_default_Z (uc_MaxElapsedTime c) 300000 |}.

Definition default_Relayer (c : RawRelayerConfig) : RawRelayerConfig :=
  {| rrc_OpenTelemetryCollectorURL := rrc_OpenTelemetryCollectorURL c;
     rrc_LogLevel := or_default (rrc_LogLevel c) "info";
     rrc_LogFile := or_default (rrc_LogFile c) "out.log";
     rrc_HealthPort := or_default (rrc_HealthPort c) "9001";
     rrc_Env := rrc_Env c; rrc_Id := rrc_Id c;
     rrc_MpcConfig := default_Mpc (rrc_MpcConfig c);
     rrc_BullyConfig := default_Bully (rrc_BullyConfig c);
     rrc_UploaderConfig := default_Uploader (rrc_UploaderConfig c) |}.

Definition relayer_Validate (c : RawRelayerConfig) : option error :=
  let t := rmc_TopologyConfiguration (rrc_MpcConfig c) in
  if bool_decide (toc_EncryptionKey t = "") then Some "topology configuration encryption key not provided"
  else if bool_decide (toc_Url t = "") then Some "topology configuration url not provided"
  else if bool_decide (toc_Path t = "") then Some "topology configuration path not provided"
  else None.

(** The error of a step with a text in front. *)
Definition wrap_err {A} (text : string) (r : res A) : res A :=
  match r with Err e => Err (text +:+ e) | r => r end.

Definition parseMpcConfig (rawConfig : RawRelayerConfig) : res MpcRelayerConfig :=
  let c := rrc_MpcConfig rawConfig in
  port ← wrap_err "unable to parse mpc port from config " (ParseInt0 (rmc_Port c) 16);
  duration ← wrap_err "unable to parse communication health check interval time: "
               (ParseDuration (rmc_CommHealthCheckInterval c));
  Ok {| mc_TopologyConfiguration := rmc_TopologyConfiguration c; mc_Port := u16_wrap port;
        mc_KeysharePath := rmc_KeysharePath c; mc_FrostKeysharePath := rmc_FrostKeysharePath c;
        mc_Key := rmc_Key c; mc_CommHealthCheckInterval := duration |}.

Definition parseBullyConfig (rawConfig : RawRelayerConfig) : res BullyConfig :=
  let c := rrc_BullyConfig rawConfig in
  electionWaitTime ← wrap_err "unable to parse bully election wait time: " (ParseDuration (rbc_ElectionWaitTime c));
  pingWaitTime ← wrap_err "unable to parse bully ping wait time: " (ParseDuration (rbc_PingWaitTime c));
  pingInterval ← wrap_err "unable to parse bully ping interval time: " (ParseDuration (rbc_PingInterval c));
  pingBackOff ← wrap_err "unable to parse bully ping back off time: " (ParseDuration (rbc_PingBackOff c));
  bullyWaitTime ← wrap_err "unable to parse bully wait time: " (ParseDuration (rbc_BullyWaitTime c));
  Ok {| bcf_PingWaitTime := pingWaitTime; bcf_PingBackOff := pingBackOff; bcf_PingInterval := pingInterval;
        bcf_ElectionWaitTime := electionWaitTime; bcf_BullyWaitTime := bullyWaitTime |}.

Section relayer.
Context {Level : Type} (ParseLevel : string -> res Level).

Definition NewRelayerConfig (rawConfig : RawRelayerConfig) : res (RelayerConfig Level) :=
  match relayer_Validate rawConfig with
  | Some e => Err e
  | None =>
      logLevel ← match ParseLevel (rrc_LogLevel rawConfig) with
                 | Ok l => Ok l
                 | Err _ => Err ("unknown log level: " +:+ rrc_LogLevel rawConfig)
                 | Panic => Panic
                 end;
      healthPort ← wrap_err "unable to parse health port " (ParseInt0 (rrc_HealthPort rawConfig) 16);
      mpcConfig ← parseMpcConfig rawConfig;
      bullyConfig ← parseBullyConfig rawConfig;
      Ok {| rc_OpenTelemetryCollectorURL := rrc_OpenTelemetryCollectorURL rawConfig;
            rc_LogLevel := logLevel; rc_LogFile := rrc_LogFile rawConfig;
            rc_HealthPort := u16_wrap healthPort; rc_Env := rrc_Env rawConfig; rc_Id := rrc_Id rawConfig;
            rc_MpcConfig := mpcConfig; rc_BullyConfig := bullyConfig;
            rc_UploaderConfig := rrc_UploaderConfig rawConfig |}
  end.
End relayer.

(** ** Domain configurations *)

(** A value of [map[string]interface{}]; a missing key is nil. *)
Inductive jval :=
| JInt (z : Z)
| JFloat (x : float64)
| JString (s : string)
| JOther (n : nat).

Abbreviation chain_config := (gmap string jval).

(** [a == b] on numbers of either type. *)
Definition compareDomainID (a b : option jval) : bool :=
  match a, b with
  | Some (JInt a), Some (JInt b) => a =? b
  | Some (JInt a), Some (JFloat b) => f64_eqb (f64_of_Z a) b
  | Some (JFloat a), Some (JInt b) => f64_eqb a (f64_of_Z b)
  | Some (JFloat a), Some (JFloat b) => f64_eqb a b
  | _, _ => false
  end.

Definition findChainConfig (id : option jval) (configs : list chain_config) : res chain_config :=
  from_opt "missing chain" (List.find (fun config => compareDomainID id (config !! "id")) configs).

(** Comparison of a value of dynamic type with the untyped constants [0] and [""]:
    the types have to be equal too. *)
Definition is_int_zero (v : option jval) : bool :=
  match v with Some (JInt 0) => true | _ => false end.
Definition is_empty_string (v : option jval) : bool :=
  match v with Some (JString "") => true | _ => false end.
Definition is_nil (v : option jval) : bool := match v with None => true | _ => false end.

Record Config (Level : Type) := {
  cf_RelayerConfig : RelayerConfig Level;
  cf_ChainConfigs : list chain_config;
}.
Arguments cf_RelayerConfig {Level} _.
Arguments cf_ChainConfigs {Level} _.

Record RawConfig := {
  raw_RelayerConfig : RawRelayerConfig;
  raw_ChainConfigs : list chain_config;
}.

Section process.
Context {Level : Type} (ParseLevel : string -> res Level).
(** [mergo.Merge(&dst, src)] *)
Context (Merge : chain_config -> chain_config -> res chain_config).

Fixpoint merge_chains (shared : list chain_config) (i : nat) (chains : list chain_config)
    : res (list chain_config) :=
  match chains with
  | [] => Ok []
  | chain :: rest =>
      if is_int_zero (chain !! "id") || is_nil (chain !! "id")
      then Err ("chain 'id' not configured for chain " +:+ fmt_u (Z.of_nat i))
      else if is_empty_string (chain !! "type") || is_nil (chain !! "type")
      then Err "chain 'type' must be provided for every configured chain"
      else
        chainConfig ← findChainConfig (chain !! "id") shared;
        merged ← Merge chain chainConfig;
        others ← merge_chains shared (S i) rest;
        Ok (merged :: others)
  end.

(** [shared] is the configuration of the network, when there is one. *)
Definition processRawConfig (rawConfig : RawConfig) (shared : option (list chain_config))
    : res (Config Level) :=
  relayerConfig ← NewRelayerConfig ParseLevel (default_Relayer (raw_RelayerConfig rawConfig));
  match shared with
  | None => Ok {| cf_RelayerConfig := relayerConfig; cf_ChainConfigs := raw_ChainConfigs rawConfig |}
  | Some configs =>
      chainConfigs ← merge_chains configs 0 (raw_ChainConfigs rawConfig);
      Ok {| cf_RelayerConfig := relayerConfig; cf_ChainConfigs := chainConfigs |}
  end.

(** [GetConfigFromFile] with what [viper] reads. *)
Definition GetConfigFromFile (read : res RawConfig) (shared : option (list chain_config))
    : res (Config Level) :=
  rawConfig ← read; processRawConfig rawConfig shared.

(** [GetSharedConfigFromNetwork] *)
Definition GetSharedConfigFromNetwork (UnmarshalShared : bytes -> res (list chain_config))
    (body : res bytes) : res (list chain_config) :=
  body ← body; UnmarshalShared body.
End process.

(** ** Environment variables *)

(** A nested [map[string]interface{}] with strings at its leaves. *)
Inductive env_tree :=
| Leaf (v : string)
| Node (m : gmap string env_tree).

Definition EnvPrefix : string := "SYG".

Fixpoint mountMap (m : gmap string env_tree) (i : list string) (v : string) : gmap string env_tree :=
  match i with
  | [] => m
  | [k] => <[k := Leaf v]> m
  | k :: rest =>
      match default (Node ∅) (m !! k) with
      | Leaf _ => m
      | Node sub => <[k := Node (mountMap sub rest v)]> m
      end
  end.

(** [strings.Contains] and [strings.SplitN(e, "=", 2)] *)
Fixpoint contains_str (sub s : string) : bool :=
  String.prefix sub s || match s with EmptyString => false | String _ s' => contains_str sub s' end.

Fixpoint cut_at (c : ascii) (s : string) : option (string * string) :=
  match s with
  | EmptyString => None
  | String a s' =>
      if Ascii.eqb a c then Some ("", s')
      else match cut_at c s' with None => None | Some (l, r) => Some (String a l, r) end
  end.

(** An entry of [os.Environ] without an equals sign makes [pair[1]] panic. *)
Fixpoint mount_all (m : gmap string env_tree) (environ : list string) : res (gmap string env_tree) :=
  match environ with
  | [] => Ok m
  | e :: rest =>
      if contains_str EnvPrefix e then
        match cut_at "=" e with
        | None => Panic
        | Some (name, value) => mount_all (mountMap m (str_split "_" name) value) rest
        end
      else mount_all m rest
  end.

Definition loadENVToJsonStructure (MarshalTree : gmap string env_tree -> res bytes) (environ : list string)
    : res bytes :=
  structure ← mount_all ∅ environ; MarshalTree structure.

Section env.
Context {Level : Type} (ParseLevel : string -> res Level).
Context (Merge : chain_config -> chain_config -> res chain_config).
Context (MarshalTree : gmap string env_tree -> res bytes) (UnmarshalWrapper : bytes -> res RawConfig).
Context (UnmarshalChains : string -> res (list chain_config)).

(** [chains] is the value of [SYG_CHAINS]. *)
Definition loadFromEnv (environ : list string) (chains : string) : res RawConfig :=
  json ← loadENVToJsonStructure MarshalTree environ;
  rawConfig ← UnmarshalWrapper json;
  match relayer_Validate (raw_RelayerConfig rawConfig) with
  | Some e => Err e
  | None =>
      if bool_decide (chains = "") then Ok rawConfig
      else cc ← UnmarshalChains chains;
           Ok {| raw_RelayerConfig := raw_RelayerConfig rawConfig; raw_ChainConfigs := cc |}
  end.

Definition GetConfigFromENV (environ : list string) (chains : string) (shared : option (list chain_config))
    : res (Config Level) :=
  rawConfig ← loadFromEnv environ chains; processRawConfig ParseLevel Merge rawConfig shared.
End env.

(** ** What the environment holds *)

(** The value at a position. *)
Fixpoint env_get (m : gmap string env_tree) (path : list string) : option string :=
  match path with
  | [] => None
  | [k] => match m !! k with Some (Leaf v) => Some v | _ => None end
  | k :: rest => match m !! k with Some (Node sub) => env_get sub rest | _ => None end
  end.

(** The positions and values of the relayer's variables. *)
Definition setting (e : string) : option (list string * string) :=
  if contains_str EnvPrefix e then
    match cut_at "=" e with None => None | Some (name, value) => Some (str_split "_" name, value) end
  else None.
Definition settings (environ : list string) : list (list string * string) := omap setting environ.

(** No position is under another. *)
Definition independent (l : list (list string * string)) : Prop :=
  forall i j p q, l !! i = Some p -> l !! j = Some q -> i <> j -> ~ p.1 `prefix_of` q.1.

Lemma str_split_nonempty c s : str_split c s <> [].
Proof. intros E. pose proof (length_str_split c s) as L. by rewrite E in L. Qed.

Lemma env_get_cons m k k' rest :
  env_get m (k :: k' :: rest) = match m !! k with Some (Node sub) => env_get sub (k' :: rest) | _ => None end.
Proof. done. Qed.

Lemma mountMap_cons m k k' rest v :
  mountMap m (k :: k' :: rest) v =
  match default (Node ∅) (m !! k) with
  | Leaf _ => m
  | Node sub => <[k := Node (mountMap sub (k' :: rest) v)]> m
  end.
Proof. done. Qed.

#[local] Arguments env_get : simpl never.
#[local] Arguments mountMap : simpl never.

Lemma env_get_empty p : env_get ∅ p = None.
Proof. destruct p as [|k [|k' rest]]; unfold env_get; by rewrite ?lookup_empty. Qed.

(** A mounted value is found when no value stands on the way to it. *)
Lemma mountMap_get p : forall m v, p <> [] ->
  (forall q, q `prefix_of` p -> q <> p -> env_get m q = None) -> env_get (mountMap m p v) p = Some v.
Proof.
  induction p as [|k [|k' rest] IH]; intros m v Hne Hfree; [done| |].
  - unfold env_get, mountMap. by rewrite lookup_insert_eq.
  - rewrite mountMap_cons, env_get_cons.
    destruct (m !! k) as [[w|sub]|] eqn:E; simpl.
    + assert (env_get m [k] = None) as Hk by (apply Hfree; [by exists (k' :: rest)|done]).
      unfold env_get in Hk. by rewrite E in Hk.
    + rewrite lookup_insert_eq. apply IH; [done|]. intros q Hq Hqp.
      destruct q as [|a q]; [done|].
      assert (env_get m (k :: a :: q) = None) as Hk
        by (apply Hfree; [by apply prefix_cons|congruence]).
      by rewrite env_get_cons, E in Hk.
    + rewrite lookup_insert_eq. apply IH; [done|]. intros q _ _. apply env_get_empty.
Qed.

(** Every value after a mount was mounted or was there before. *)
Lemma mountMap_only p : forall m v q w,
  env_get (mountMap m p v) q = Some w -> (q = p /\ w = v) \/ env_get m q = Some w.
Proof.
  induction p as [|k [|k' rest] IH]; intros m v q w Hget; [by right| |].
  - unfold mountMap in Hget. destruct q as [|a [|b q]]; [by right| |].
    + unfold env_get in Hget |- *. destruct (decide (k = a)) as [->|].
      * rewrite lookup_insert_eq in Hget. by simplify_eq; left.
      * rewrite lookup_insert_ne in Hget by done. by right.
    + rewrite env_get_cons in Hget |- *. destruct (decide (k = a)) as [->|].
      * by rewrite lookup_insert_eq in Hget.
      * rewrite lookup_insert_ne in Hget by done. by right.
  - rewrite mountMap_cons in Hget.
    destruct (default (Node ∅) (m !! k)) as [x|sub] eqn:E; [by right|].
    destruct q as [|a [|b q]]; [by right| |].
    + unfold env_get in Hget |- *. destruct (decide (k = a)) as [->|].
      * by rewrite lookup_insert_eq in Hget.
      * rewrite lookup_insert_ne in Hget by done. by right.
    + rewrite env_get_cons in Hget |- *. destruct (decide (k = a)) as [->|].
      * rewrite lookup_insert_eq in Hget. apply IH in Hget as [[-> ->]|Hget]; [by left|]. right.
        destruct (m !! a) as [y|]; simpl in E; simplify_eq; [done|]. by rewrite env_get_empty in Hget.
      * rewrite lookup_insert_ne in Hget by done. by right.
Qed.

(** A mount elsewhere leaves a value alone. *)
Lemma mountMap_other p : forall m v q,
  ~ p `prefix_of` q -> ~ q `prefix_of` p -> env_get (mountMap m p v) q = env_get m q.
Proof.
  induction p as [|k [|k' rest] IH]; intros m v q Hpq Hqp; [by destruct Hpq; apply prefix_nil| |];
    (destruct q as [|a [|b q]]; [by destruct Hqp; apply prefix_nil|..]).
  - unfold mountMap, env_get. rewrite lookup_insert_ne; [done|]. intros ->. by destruct Hpq.
  - unfold mountMap. rewrite !env_get_cons, lookup_insert_ne; [done|]. intros ->.
    destruct Hpq. by exists (b :: q).
  - rewrite mountMap_cons. case_match; [done|]. unfold env_get. rewrite lookup_insert_ne; [done|].
    intros ->. destruct Hqp. by exists (k' :: rest).
  - rewrite mountMap_cons. destruct (default _ _) as [x|sub] eqn:E; [done|]. rewrite !env_get_cons.
    destruct (decide (k = a)) as [->|]; [|by rewrite lookup_insert_ne].
    rewrite lookup_insert_eq, IH.
    + destruct (m !! a) as [y|]; simpl in E; simplify_eq; [done|apply env_get_empty].
    + intros H. by apply Hpq, prefix_cons.
    + intros H. by apply Hqp, prefix_cons.
Qed.

Definition mount (m : gmap string env_tree) (s : list string * string) : gmap string env_tree :=
  mountMap m s.1 s.2.

(** The loop over the environment mounts the settings, unless a variable has no
    equals sign. *)
Lemma mount_all_spec environ : forall m,
  match mount_all m environ with
  | Ok m' => m' = foldl mount m (settings environ)
  | Err _ => False
  | Panic => exists e, e ∈ environ /\ contains_str EnvPrefix e = true /\ cut_at "=" e = None
  end.
Proof.
  induction environ as [|e rest IH]; intros m; [done|]. unfold settings. cbn [mount_all omap list_omap].
  unfold setting at 1. destruct (contains_str EnvPrefix e) eqn:Ec; [destruct (cut_at "=" e) as [[n v]|] eqn:Eq|].
  - specialize (IH (mountMap m (str_split "_" n) v)). case_match; [done|done|set_solver].
  - exists e. set_solver.
  - specialize (IH m). case_match; [done|done|set_solver].
Qed.

Lemma settings_path environ p w : (p, w) ∈ settings environ -> p <> [].
Proof.
  intros (e & _ & He)%list_elem_of_omap. unfold setting in He. repeat case_match; simplify_eq.
  apply str_split_nonempty.
Qed.

Lemma foldl_mount_only l : forall m q w,
  env_get (foldl mount m l) q = Some w -> (q, w) ∈ l \/ env_get m q = Some w.
Proof.
  induction l as [|[p v] l IH]; intros m q w; [by right|]. simpl. intros [H|H]%IH; [set_solver|].
  apply mountMap_only in H as [[-> ->]|H]; [set_solver|by right].
Qed.

Lemma independent_tail s l : independent (s :: l) -> independent l.
Proof. intros H i j p q Hi Hj Hij. apply (H (S i) (S j) p q); [done|done|lia]. Qed.

Lemma independent_head s l t : independent (s :: l) -> t ∈ l ->
  (~ s.1 `prefix_of` t.1) /\ (~ t.1 `prefix_of` s.1).
Proof.
  intros H (i & Hi)%list_elem_of_lookup.
  split; [by apply (H 0%nat (S i) s t)|by apply (H (S i) 0%nat t s)].
Qed.

Lemma foldl_mount_other l : forall m q,
  (forall t, t ∈ l -> (~ t.1 `prefix_of` q) /\ (~ q `prefix_of` t.1)) ->
  env_get (foldl mount m l) q = env_get m q.
Proof.
  induction l as [|s l IH]; intros m q H; [done|]. simpl. rewrite IH by set_solver.
  apply mountMap_other; apply H; set_solver.
Qed.

Lemma foldl_mount_get l : forall m, independent l -> (forall p w, (p, w) ∈ l -> p <> []) ->
  (forall p w q, (p, w) ∈ l -> q `prefix_of` p -> env_get m q = None) ->
  forall p w, (p, w) ∈ l -> env_get (foldl mount m l) p = Some w.
Proof.
  induction l as [|s l IH]; intros m Hind Hne Hfree p w Hin; [set_solver|]. simpl.
  apply elem_of_cons in Hin as [<-|Hin].
  - rewrite foldl_mount_other.
    + apply mountMap_get; [apply (Hne p w); set_solver|]. intros q Hq _. apply (Hfree p w); set_solver.
    + intros t Ht. destruct (independent_head _ _ _ Hind Ht). naive_solver.
  - apply (IH (mount m s)); [by eapply independent_tail|set_solver| |done].
    intros p' w' q Hp' Hq. destruct (independent_head _ _ _ Hind Hp') as [H1 H2].
    destruct (env_get (mount m s) q) as [x|] eqn:E; [|done].
    apply mountMap_only in E as [[-> _]|E]; [done|].
    rewrite (Hfree p' w' q) in E by set_solver. done.
Qed.

(** The variables of the environment that carry the prefix are put where their
    names say ([SYG_RELAYER_ENV] at SYG, RELAYER, ENV): every value of the structure
    comes from a variable, and when no name is the beginning of another every
    variable's value is found at its position.  The loop panics exactly for a
    variable without an equals sign, so never on what an operating system holds. *)
Theorem env_mounted environ :
  (forall e, e ∈ environ -> cut_at "=" e <> None) ->
  exists m, mount_all ∅ environ = Ok m /\
    (forall q w, env_get m q = Some w -> (q, w) ∈ settings environ) /\
    (independent (settings environ) -> forall q w, (q, w) ∈ settings environ -> env_get m q = Some w).
Proof.
  intros Heq. pose proof (mount_all_spec environ ∅) as H.
  destruct (mount_all ∅ environ) as [m|e|]; [|done|by destruct H as (e & He & _ & Hc); destruct (Heq e He)].
  exists m. split; [done|]. subst m. split.
  - intros q w [Hin|Hin]%foldl_mount_only; [done|]. by rewrite env_get_empty in Hin.
  - intros Hind q w. apply foldl_mount_get; [done|apply settings_path|].
    intros p v q' _ _. apply env_get_empty.
Qed.

(** ** Ports, durations and required fields *)

Definition is_u16 (z : Z) : Prop := 0 <= z < 2 ^ 16.

Lemma u16_wrap_range z : is_u16 (u16_wrap z).
Proof. apply Z.mod_pos_bound; lia. Qed.

(** What holds of every configuration the relayer starts with. *)
Record relayer_wf {Level} (c : RelayerConfig Level) : Prop := {
  wf_HealthPort : is_u16 (rc_HealthPort c);
  wf_Port : is_u16 (mc_Port (rc_MpcConfig c));
  wf_Interval : is_i64 (mc_CommHealthCheckInterval (rc_MpcConfig c));
  wf_Key : toc_EncryptionKey (mc_TopologyConfiguration (rc_MpcConfig c)) <> "";
  wf_Url : toc_Url (mc_TopologyConfiguration (rc_MpcConfig c)) <> "";
  wf_Path : toc_Path (mc_TopologyConfiguration (rc_MpcConfig c)) <> "";
  wf_Bully : Forall is_i64 [bcf_PingWaitTime (rc_BullyConfig c); bcf_PingBackOff (rc_BullyConfig c);
                            bcf_PingInterval (rc_BullyConfig c); bcf_ElectionWaitTime (rc_BullyConfig c);
                            bcf_BullyWaitTime (rc_BullyConfig c)];
}.

Lemma wrap_err_Ok {A} text (r : res A) a : wrap_err text r = Ok a <-> r = Ok a.
Proof. destruct r; simpl; naive_solver. Qed.

Lemma relayer_Validate_None c : relayer_Validate c = None <->
  let t := rmc_TopologyConfiguration (rrc_MpcConfig c) in
  toc_EncryptionKey t <> "" /\ toc_Url t <> "" /\ toc_Path t <> "".
Proof. unfold relayer_Validate. repeat case_bool_decide; naive_solver. Qed.

Lemma default_Relayer_Validate c : relayer_Validate (default_Relayer c) = relayer_Validate c.
Proof. done. Qed.

#[local] Hint Resolve u16_wrap_range ParseDuration_bounds : go.

Lemma parseMpcConfig_Ok raw c : parseMpcConfig raw = Ok c ->
  mc_TopologyConfiguration c = rmc_TopologyConfiguration (rrc_MpcConfig raw) /\
  is_i64 (mc_CommHealthCheckInterval c) /\
  exists n, ParseInt0 (rmc_Port (rrc_MpcConfig raw)) 16 = Ok n /\ - 2 ^ 15 <= n < 2 ^ 15 /\
            mc_Port c = u16_wrap n.
Proof.
  unfold parseMpcConfig. intros H. invert_ok. rewrite wrap_err_Ok in *. subst c. simpl.
  split; [done|]. split; [eauto with go|]. eexists. split; [done|]. split; [|done].
  eapply (ParseInt0_bounds _ 16); [lia|done].
Qed.

Lemma parseBullyConfig_Ok raw c : parseBullyConfig raw = Ok c ->
  Forall is_i64 [bcf_PingWaitTime c; bcf_PingBackOff c; bcf_PingInterval c;
                 bcf_ElectionWaitTime c; bcf_BullyWaitTime c].
Proof.
  unfold parseBullyConfig. intros H. invert_ok. rewrite wrap_err_Ok in *. subst c. simpl.
  repeat (constructor; [eauto with go|]). constructor.
Qed.

Section relayer_facts.
Context {Level : Type} (ParseLevel : string -> res Level).

Lemma NewRelayerConfig_Ok raw c : NewRelayerConfig ParseLevel raw = Ok c ->
  relayer_Validate raw = None /\ ParseLevel (rrc_LogLevel raw) = Ok (rc_LogLevel c) /\
  parseMpcConfig raw = Ok (rc_MpcConfig c) /\ parseBullyConfig raw = Ok (rc_BullyConfig c) /\
  exists n, ParseInt0 (rrc_HealthPort raw) 16 = Ok n /\ rc_HealthPort c = u16_wrap n.
Proof.
  unfold NewRelayerConfig. destruct (relayer_Validate raw); [done|]. intros H. invert_ok.
  rewrite wrap_err_Ok in *. subst c. simpl. split; [done|]. split; [by case_match; simplify_eq|].
  split; [done|]. split; [done|]. by eexists.
Qed.

Lemma NewRelayerConfig_wf raw c : NewRelayerConfig ParseLevel raw = Ok c -> relayer_wf c.
Proof.
  intros (Hv & _ & Hm & Hb & n & _ & Hp)%NewRelayerConfig_Ok.
  apply parseMpcConfig_Ok in Hm as (Ht & Hi & k & _ & _ & Hk). apply parseBullyConfig_Ok in Hb.
  apply relayer_Validate_None in Hv as (?&?&?).
  constructor; rewrite ?Hp, ?Hk, ?Ht; auto with go.
Qed.
End relayer_facts.

(** ** The configuration as a whole *)

(** [shared] is the first configuration of the network for the chain's domain and
    [merged] the two put together. *)
Definition merged_from (Merge : chain_config -> chain_config -> res chain_config)
    (configs : list chain_config) (chain merged : chain_config) : Prop :=
  (is_int_zero (chain !! "id") || is_nil (chain !! "id")) = false /\
  (is_empty_string (chain !! "type") || is_nil (chain !! "type")) = false /\
  exists pre shared post, configs = pre ++ shared :: post /\
    Forall (fun config => compareDomainID (chain !! "id") (config !! "id") = false) pre /\
    compareDomainID (chain !! "id") (shared !! "id") = true /\
    Merge chain shared = Ok merged.

Lemma find_first {A} (f : A -> bool) l a : List.find f l = Some a <->
  exists pre post, l = pre ++ a :: post /\ Forall (fun b => f b = false) pre /\ f a = true.
Proof.
  split.
  - induction l as [|b l IH]; [done|]. simpl. destruct (f b) eqn:E; intros H.
    + simplify_eq. by exists [], l.
    + destruct (IH H) as (pre & post & -> & Hp & Ha). exists (b :: pre), post.
      split; [done|]. split; [by constructor|done].
  - intros (pre & post & -> & Hp & Ha). induction Hp as [|b pre Hb _ IH]; simpl; [by rewrite Ha|].
    by rewrite Hb.
Qed.

Lemma findChainConfig_Ok id configs shared : findChainConfig id configs = Ok shared <->
  exists pre post, configs = pre ++ shared :: post /\
    Forall (fun config => compareDomainID id (config !! "id") = false) pre /\
    compareDomainID id (shared !! "id") = true.
Proof. unfold findChainConfig. by rewrite from_opt_Ok, find_first. Qed.

Section config_facts.
Context {Level : Type} (ParseLevel : string -> res Level).
Context (Merge : chain_config -> chain_config -> res chain_config).

Lemma merge_chains_Ok configs chains : forall i out,
  merge_chains Merge configs i chains = Ok out <-> Forall2 (merged_from Merge configs) chains out.
Proof.
  induction chains as [|chain rest IH]; intros i out; simpl.
  { split; [by intros [= <-]|by intros ->%Forall2_nil_inv_l]. }
  split.
  - destruct (is_int_zero _ || _) eqn:Eid; [done|]. destruct (is_empty_string _ || _) eqn:Et; [done|].
    intros H. invert_ok. subst out. constructor; [|by eapply IH].
    split; [done|]. split; [done|]. apply findChainConfig_Ok in H0 as (pre & post & ?). naive_solver.
  - intros (merged & out' & (-> & -> & pre & shared & post & H1 & H2 & H3 & H4) & Hrest & ->)%Forall2_cons_inv_l.
    assert (findChainConfig (chain !! "id") configs = Ok shared) as -> by (apply findChainConfig_Ok; naive_solver).
    simpl. rewrite H4. simpl. by rewrite (proj2 (IH (S i) out') Hrest).
Qed.

Lemma processRawConfig_relayer raw shared c : processRawConfig ParseLevel Merge raw shared = Ok c ->
  NewRelayerConfig ParseLevel (default_Relayer (raw_RelayerConfig raw)) = Ok (cf_RelayerConfig c).
Proof. unfold processRawConfig. intros H. invert_ok. case_match; invert_ok; by subst c. Qed.

Lemma or_default_fmt_u n d : or_default (fmt_u n) d = fmt_u n.
Proof.
  unfold or_default. destruct (fmt_u_head n) as (a & s & -> & _). by case_bool_decide.
Qed.

(** A decimal port is kept when the signed 16-bit parser takes it. *)
Lemma decimal_port n k : 0 <= n < 2 ^ 16 -> ParseInt0 (fmt_u n) 16 = Ok k -> n < 2 ^ 15 /\ u16_wrap k = n.
Proof.
  intros Hn Hk. destruct (Z.lt_ge_cases n (2 ^ 15)) as [Hlt|Hge].
  - rewrite ParseInt0_fmt_u in Hk by (change (16 - 1) with 15; lia). simplify_eq.
    split; [done|]. by apply Z.mod_small.
  - by rewrite ParseInt0_fmt_u_out in Hk by (change (16 - 1) with 15; lia).
Qed.

(** C39. Whatever the configuration file or the environment holds, a relayer starts
    only with ports of 16 bits, durations of 64 bits and an encryption key, address
    and path for the topology; a port given in decimal is the one used, and is below
    32768, since larger ones are refused. *)
Theorem processRawConfig_wf raw shared c :
  processRawConfig ParseLevel Merge raw shared = Ok c ->
  relayer_wf (cf_RelayerConfig c) /\
  (forall n, 0 <= n < 2 ^ 16 -> rrc_HealthPort (raw_RelayerConfig raw) = fmt_u n ->
     n < 2 ^ 15 /\ rc_HealthPort (cf_RelayerConfig c) = n) /\
  (forall n, 0 <= n < 2 ^ 16 -> rmc_Port (rrc_MpcConfig (raw_RelayerConfig raw)) = fmt_u n ->
     n < 2 ^ 15 /\ mc_Port (rc_MpcConfig (cf_RelayerConfig c)) = n).
Proof.
  intros H%processRawConfig_relayer. split; [by eapply NewRelayerConfig_wf|].
  apply NewRelayerConfig_Ok in H as (_ & _ & Hm & _ & k & Hk & ->).
  apply parseMpcConfig_Ok in Hm as (_ & _ & j & Hj & _ & ->). simpl in Hk, Hj.
  split; intros n Hn E; rewrite E, or_default_fmt_u in *; by apply decimal_port.
Qed.

(** With a configuration shared over the network, the domains of the result are
    the relayer's own, in order, each with its identifier and type, and each merged
    with the first shared one of the same identifier, an integer and a float of equal
    value being the same; nothing else makes the configuration succeed or fail. *)
Theorem domains_merged raw configs c rc :
  NewRelayerConfig ParseLevel (default_Relayer (raw_RelayerConfig raw)) = Ok rc ->
  (processRawConfig ParseLevel Merge raw (Some configs) = Ok c <->
   cf_RelayerConfig c = rc /\
   Forall2 (merged_from Merge configs) (raw_ChainConfigs raw) (cf_ChainConfigs c)).
Proof.
  intros Hrc. unfold processRawConfig. rewrite Hrc. simpl. split.
  - intros H. invert_ok. subst c. split; [done|]. by eapply merge_chains_Ok.
  - intros [Hr Hf]. rewrite (proj2 (merge_chains_Ok _ _ 0 _) Hf). destruct c; simpl in *. by subst.
Qed.
End config_facts.

(** ** Example *)

Module ConfigExample.
Definition environ : list string :=
  ["HOME=/root"; "SYG_RELAYER_MPCCONFIG_PORT=9100"; "SYG_RELAYER_ENV=TEST"; "SYG_CHAINS=[]"].

(** [mergo.Merge] keeps the fields the first configuration has. *)
Definition Merge (dst src : chain_config) : res chain_config := Ok (dst ∪ src).
Definition ParseLevel (s : string) : res nat := if bool_decide (s = "info") then Ok 1%nat else Err "level".

Definition raw_relayer : RawRelayerConfig :=
  {| rrc_OpenTelemetryCollectorURL := ""; rrc_LogLevel := ""; rrc_LogFile := ""; rrc_HealthPort := fmt_u 9101;
     rrc_Env := "TEST"; rrc_Id := "1";
     rrc_MpcConfig := {| rmc_KeysharePath := "/k"; rmc_FrostKeysharePath := "/f"; rmc_Key := "key"; rmc_Port := "";
                         rmc_TopologyConfiguration :=
                           {| toc_EncryptionKey := "enc"; toc_Url := "url"; toc_Path := "/t" |};
                         rmc_CommHealthCheckInterval := "1h30m" |};
     rrc_BullyConfig := {| rbc_PingWaitTime := ""; rbc_PingBackOff := "500ms"; rbc_PingInterval := "";
                           rbc_ElectionWaitTime := ""; rbc_BullyWaitTime := "" |};
     rrc_UploaderConfig := {| uc_URL := ""; uc_AuthToken := ""; uc_MaxRetries := 0; uc_MaxElapsedTime := 0 |} |}.

Definition own : chain_config := {[ "id" := JFloat (f64_of_Z 2); "type" := JString "evm"; "name" := JString "mine" ]}.
Definition shared : list chain_config :=
  [{[ "id" := JFloat (f64_of_Z 1); "bridge" := JString "a" ]};
   {[ "id" := JFloat (f64_of_Z 2); "bridge" := JString "b"; "name" := JString "theirs" ]}].
Definition raw : RawConfig := {| raw_RelayerConfig := raw_relayer; raw_ChainConfigs := [own] |}.

Definition relayer : RelayerConfig nat :=
  match NewRelayerConfig ParseLevel (default_Relayer raw_relayer) with
  | Ok c => c
  | _ => {| rc_OpenTelemetryCollectorURL := ""; rc_LogLevel := 0%nat; rc_LogFile := ""; rc_HealthPort := 0;
            rc_Env := ""; rc_Id := ""; rc_MpcConfig :=
              {| mc_TopologyConfiguration := {| toc_EncryptionKey := ""; toc_Url := ""; toc_Path := "" |};
                 mc_Port := 0; mc_KeysharePath := ""; mc_FrostKeysharePath := ""; mc_Key := "";
                 mc_CommHealthCheckInterval := 0 |};
            rc_BullyConfig := {| bcf_PingWaitTime := 0; bcf_PingBackOff := 0; bcf_PingInterval := 0;
                                 bcf_ElectionWaitTime := 0; bcf_BullyWaitTime := 0 |};
            rc_UploaderConfig := rrc_UploaderConfig raw_relayer |}
  end.
Definition config : Config nat :=
  {| cf_RelayerConfig := relayer;
     cf_ChainConfigs := [{[ "id" := JFloat (f64_of_Z 2); "type" := JString "evm"; "name" := JString "mine";
                            "bridge" := JString "b" ]}] |}.
End ConfigExample.
Import ConfigExample.

(** The defaults: 9000 and 9001 for the ports, a minute is 60 * 10^9 nanoseconds; the
    uploader's 300000 are nanoseconds too. *)
Example relayer_defaults :
  mc_Port (rc_MpcConfig relayer) = 9000 /\ rc_HealthPort relayer = 9101 /\
  mc_CommHealthCheckInterval (rc_MpcConfig relayer) = 90 * 60 * 10 ^ 9 /\
  bcf_BullyWaitTime (rc_BullyConfig relayer) = 180 * 10 ^ 9 /\
  bcf_PingBackOff (rc_BullyConfig relayer) = 500 * 10 ^ 6 /\
  ParseInt0 "-1" 16 = Ok (-1) /\ u16_wrap (-1) = 65535.
Proof. by vm_compute. Qed.

Example processRawConfig_wf_witness :
  relayer_wf (cf_RelayerConfig config) /\ rc_HealthPort (cf_RelayerConfig config) = 9101.
Proof.
  destruct (processRawConfig_wf ParseLevel Merge raw (Some shared) config) as (H & Hp & _);
    [by vm_compute|].
  split; [exact H|]. apply (Hp 9101); [lia|reflexivity].
Defined.

Example domains_merged_witness :
  processRawConfig ParseLevel Merge raw (Some shared) = Ok config /\
  Forall2 (merged_from Merge shared) [own] (cf_ChainConfigs config).
Proof.
  assert (processRawConfig ParseLevel Merge raw (Some shared) = Ok config) as H by (by vm_compute).
  split; [exact H|].
  apply (domains_merged ParseLevel Merge raw shared config relayer); [by vm_compute|exact H].
Defined.

Example env_mounted_witness :
  exists m, mount_all ∅ environ = Ok m /\ env_get m ["SYG"; "RELAYER"; "MPCCONFIG"; "PORT"] = Some "9100".
Proof.
  destruct (env_mounted environ) as (m & Hm & _ & Hget).
  { intros e He. repeat (apply elem_of_cons in He as [->|He]; [by vm_compute|]). by apply not_elem_of_nil in He. }
  exists m. split; [exact Hm|]. apply Hget; [|by vm_compute; constructor].
  assert (settings environ = [(["SYG"; "RELAYER"; "MPCCONFIG"; "PORT"], "9100"); (["SYG"; "RELAYER"; "ENV"], "TEST");
                              (["SYG"; "CHAINS"], "[]")]) as -> by (by vm_compute).
  intros [|[|[|i]]] [|[|[|j]]] p q Hp Hq Hij; simpl in Hp, Hq; try discriminate; try (by destruct Hij);
    injection Hp as <-; injection Hq as <-; intros [k Hk]; by simpl in Hk.
Defined.
