(* ===== verification/ChainConfig.v ===== *)
(** * Configuration of the chains ([config/chain], [chains/evm/config.go],
      [chains/btc/config], [chains/substrate/config.go])

    Each domain's map is decoded, given its defaults, validated and converted.
    [mapstructure], the flags of [viper] and the addresses of [btcutil] are
    arguments. *)

From Stdlib Require Import Ascii DecimalString DecimalN Floats.SpecFloat.
From S2P Require Import Prelude GoBytes GoStrings GoFloat GoParse Config.

#[local] Open Scope string_scope.
#[local] Open Scope list_scope.
#[local] Open Scope Z_scope.

(** ** All chains *)

Record GeneralChainConfig := {
  gc_Name : string;
  gc_Id : option Z;
  gc_Endpoint : string;
  gc_Type : string;
  gc_BlockstorePath : string;
  gc_FreshStart : bool;
  gc_LatestBlock : bool;
  gc_Key : string;
  gc_Insecure : bool;
}.

Definition general_Validate (c : GeneralChainConfig) : option error :=
  match gc_Id c with
  | None => Some "required field domain.Id empty for chain <nil>"
  | Some id =>
      if bool_decide (gc_Endpoint c = "") then Some ("required field chain.Endpoint empty for chain " +:+ fmt_u id)
      else if bool_decide (gc_Name c = "") then Some ("required field chain.Name empty for chain " +:+ fmt_u id)
      else None
  end.

(** The values of the flags [blockstore], [fresh] and [latest]. *)
Record Flags := {
  fl_blockstore : string;
  fl_fresh : bool;
  fl_latest : bool;
}.

Definition ParseFlags (f : Flags) (c : GeneralChainConfig) : GeneralChainConfig :=
  {| gc_Name := gc_Name c; gc_Id := gc_Id c; gc_Endpoint := gc_Endpoint c; gc_Type := gc_Type c;
     gc_BlockstorePath := if bool_decide (fl_blockstore f = "") then gc_BlockstorePath c else fl_blockstore f;
     gc_FreshStart := if fl_fresh f then fl_fresh f else gc_FreshStart c;
     gc_LatestBlock := if fl_latest f then fl_latest f else gc_LatestBlock c;
     gc_Key := gc_Key c; gc_Insecure := gc_Insecure c |}.

(** [time.Duration(n) * time.Second] for an unsigned [n]. *)
Definition seconds (n : Z) : Z := i64_wrap (i64_wrap n * 10 ^ 9).

(** A check that returns its error. *)
Definition validated {A} (v : option error) (k : res A) : res A :=
  match v with Some e => Err e | None => k end.

(** ** EVM *)

Record HandlerConfig := {
  hc_Address : string;
  hc_Type : string;
}.

Record RawEVMConfig := {
  rev_General : GeneralChainConfig;
  rev_Bridge : string;
  rev_Retry : string;
  rev_FrostKeygen : string;
  rev_Handlers : list HandlerConfig;
  rev_MaxGasPrice : Z;
  rev_GasMultiplier : float64;
  rev_GasIncreasePercentage : Z;
  rev_GasLimit : Z;
  rev_TransferGas : Z;
  rev_StartBlock : Z;
  rev_BlockConfirmations : Z;
  rev_BlockInterval : Z;
  rev_BlockRetryInterval : Z;
}.

(** A [big.Float] made of a [float64] holds it exactly. *)
Record EVMConfig := {
  ev_General : GeneralChainConfig;
  ev_Bridge : string;
  ev_Retry : string;
  ev_FrostKeygen : string;
  ev_Handlers : list HandlerConfig;
  ev_MaxGasPrice : Z;
  ev_GasMultiplier : float64;
  ev_GasLimit : Z;
  ev_TransferGas : Z;
  ev_GasIncreasePercentage : Z;
  ev_StartBlock : Z;
  ev_BlockConfirmations : Z;
  ev_BlockInterval : Z;
  ev_BlockRetryInterval : Z;
}.

Definition default_EVM (c : RawEVMConfig) : RawEVMConfig :=
  {| rev_General := rev_General c; rev_Bridge := rev_Bridge c; rev_Retry := rev_Retry c;
     rev_FrostKeygen := rev_FrostKeygen c; rev_Handlers := rev_Handlers c;
     rev_MaxGasPrice := or_default_Z (rev_MaxGasPrice c) 500000000000;
     rev_GasMultiplier := if f64_eqb (rev_GasMultiplier c) (f64_of_Z 0) then f64_of_Z 1 else rev_GasMultiplier c;
     rev_GasIncreasePercentage := or_default_Z (rev_GasIncreasePercentage c) 15;
     rev_GasLimit := or_default_Z (rev_GasLimit c) 15000000;
     rev_TransferGas := or_default_Z (rev_TransferGas c) 250000;
     rev_StartBlock := rev_StartBlock c;
     rev_BlockConfirmations := or_default_Z (rev_BlockConfirmations c) 10;
     rev_BlockInterval := or_default_Z (rev_BlockInterval c) 5;
     rev_BlockRetryInterval := or_default_Z (rev_BlockRetryInterval c) 5 |}.

Definition evm_Validate (c : RawEVMConfig) : option error :=
  match general_Validate (rev_General c) with
  | Some e => Some e
  | None =>
      if bool_decide (rev_Bridge c = "")
      then Some ("required field chain.Bridge empty for chain " +:+ fmt_u (default 0 (gc_Id (rev_General c))))
      else if rev_BlockConfirmations c <? 1 then Some "blockConfirmations has to be >=1"
      else None
  end.

(** [big.NewFloat] panics on a NaN. *)
Definition NewFloat (x : float64) : res float64 :=
  match x with S754_nan => Panic | x => Ok x end.

Definition NewEVMConfig (Decode : chain_config -> res RawEVMConfig) (flags : Flags) (chainConfig : chain_config)
    : res EVMConfig :=
  raw ← Decode chainConfig;
  let c := default_EVM raw in
  validated (evm_Validate c) (
    gasMultiplier ← NewFloat (rev_GasMultiplier c);
    Ok {| ev_General := ParseFlags flags (rev_General c); ev_Handlers := rev_Handlers c;
          ev_Bridge := rev_Bridge c; ev_Retry := rev_Retry c; ev_FrostKeygen := rev_FrostKeygen c;
          ev_BlockRetryInterval := seconds (rev_BlockRetryInterval c);
          ev_GasLimit := rev_GasLimit c; ev_TransferGas := rev_TransferGas c;
          ev_MaxGasPrice := rev_MaxGasPrice c; ev_GasIncreasePercentage := rev_GasIncreasePercentage c;
          ev_GasMultiplier := gasMultiplier; ev_StartBlock := rev_StartBlock c;
          ev_BlockConfirmations := rev_BlockConfirmations c; ev_BlockInterval := rev_BlockInterval c |}).

(** ** Substrate *)

Record RawSubstrateConfig := {
  rsc_General : GeneralChainConfig;
  rsc_ChainID : Z;
  rsc_StartBlock : Z;
  rsc_BlockInterval : Z;
  rsc_BlockRetryInterval : Z;
  rsc_SubstrateNetwork : Z;
  rsc_Tip : Z;
}.

Record SubstrateConfig := {
  suc_General : GeneralChainConfig;
  suc_ChainID : Z;
  suc_StartBlock : Z;
  suc_BlockInterval : Z;
  suc_BlockRetryInterval : Z;
  suc_SubstrateNetwork : Z;
  suc_Tip : Z;
}.

Definition default_Substrate (c : RawSubstrateConfig) : RawSubstrateConfig :=
  {| rsc_General := rsc_General c; rsc_ChainID := rsc_ChainID c; rsc_StartBlock := rsc_StartBlock c;
     rsc_BlockInterval := or_default_Z (rsc_BlockInterval c) 5;
     rsc_BlockRetryInterval := or_default_Z (rsc_BlockRetryInterval c) 5;
     rsc_SubstrateNetwork := rsc_SubstrateNetwork c; rsc_Tip := rsc_Tip c |}.

Definition substrate_Validate (c : RawSubstrateConfig) : option error := general_Validate (rsc_General c).

Definition NewSubstrateConfig (Decode : chain_config -> res RawSubstrateConfig) (flags : Flags)
    (chainConfig : chain_config) : res SubstrateConfig :=
  raw ← Decode chainConfig;
  let c := default_Substrate raw in
  validated (substrate_Validate c) (
    Ok {| suc_General := ParseFlags flags (rsc_General c); suc_ChainID := rsc_ChainID c;
          suc_BlockRetryInterval := seconds (rsc_BlockRetryInterval c); suc_StartBlock := rsc_StartBlock c;
          suc_BlockInterval := rsc_BlockInterval c; suc_SubstrateNetwork := u16_wrap (rsc_SubstrateNetwork c);
          suc_Tip := rsc_Tip c |}).

(** ** Bitcoin *)

Record RawResource := {
  rr_Address : string;
  rr_ResourceID : string;
  rr_FeeAmount : string;
  rr_Tweak : string;
  rr_Script : string;
}.

Record ConfigResource (Address : Type) := {
  cr_Address : Address;
  cr_FeeAmount : Z;
  cr_ResourceID : bytes;
  cr_Tweak : string;
  cr_Script : bytes;
}.
Arguments cr_Address {Address} _.
Arguments cr_FeeAmount {Address} _.
Arguments cr_ResourceID {Address} _.
Arguments cr_Tweak {Address} _.
Arguments cr_Script {Address} _.

Record RawBtcConfig := {
  rbt_General : GeneralChainConfig;
  rbt_Resources : list RawResource;
  rbt_StartBlock : Z;
  rbt_FeeAddress : string;
  rbt_Username : string;
  rbt_Password : string;
  rbt_BlockInterval : Z;
  rbt_BlockRetryInterval : Z;
  rbt_BlockConfirmations : Z;
  rbt_Network : string;
  rbt_MempoolUrl : string;
}.

(** The parameters of the networks, from [chaincfg]. *)
Inductive Params :=
| MainNetParams
| TestNet3Params
| RegressionNetParams
| SigNetParams.

Record BtcConfig (Address : Type) := {
  bt_General : GeneralChainConfig;
  bt_Resources : list (ConfigResource Address);
  bt_FeeAddress : Address;
  bt_Username : string;
  bt_Password : string;
  bt_StartBlock : Z;
  bt_BlockInterval : Z;
  bt_BlockRetryInterval : Z;
  bt_BlockConfirmations : Z;
  bt_MempoolUrl : string;
  bt_Network : Params;
}.
Arguments bt_General {Address} _.
Arguments bt_Resources {Address} _.
Arguments bt_FeeAddress {Address} _.
Arguments bt_Username {Address} _.
Arguments bt_Password {Address} _.
Arguments bt_StartBlock {Address} _.
Arguments bt_BlockInterval {Address} _.
Arguments bt_BlockRetryInterval {Address} _.
Arguments bt_BlockConfirmations {Address} _.
Arguments bt_MempoolUrl {Address} _.
Arguments bt_Network {Address} _.

Definition default_Btc (c : RawBtcConfig) : RawBtcConfig :=
  {| rbt_General := rbt_General c; rbt_Resources := rbt_Resources c; rbt_StartBlock := rbt_StartBlock c;
     rbt_FeeAddress := rbt_FeeAddress c; rbt_Username := rbt_Username c; rbt_Password := rbt_Password c;
     rbt_BlockInterval := or_default_Z (rbt_BlockInterval c) 5;
     rbt_BlockRetryInterval := or_default_Z (rbt_BlockRetryInterval c) 5;
     rbt_BlockConfirmations := or_default_Z (rbt_BlockConfirmations c) 10;
     rbt_Network := or_default (rbt_Network c) "mainnet"; rbt_MempoolUrl := rbt_MempoolUrl c |}.

Definition btc_Validate (c : RawBtcConfig) : option error :=
  let id := fmt_u (default 0 (gc_Id (rbt_General c))) in
  match general_Validate (rbt_General c) with
  | Some e => Some e
  | None =>
      if rbt_BlockConfirmations c <? 1 then Some "blockConfirmations has to be >=1"
      else if bool_decide (rbt_Username c = "") then Some ("required field chain.Username empty for chain " +:+ id)
      else if bool_decide (rbt_Password c = "") then Some ("required field chain.Password empty for chain " +:+ id)
      else None
  end.

Definition networkParams (network : string) : res Params :=
  if bool_decide (network = "mainnet") then Ok MainNetParams
  else if bool_decide (network = "testnet") then Ok TestNet3Params
  else if bool_decide (network = "regtest") then Ok RegressionNetParams
  else if bool_decide (network = "signet") then Ok SigNetParams
  else Err ("unknown network " +:+ network).

(** [new(big.Int).SetString(s, 10)] *)
Fixpoint dec_digits (acc : Z) (s : string) : option Z :=
  match s with
  | EmptyString => Some acc
  | String c s' => if is_num c then dec_digits (acc * 10 + (code c - 48)) s' else None
  end.

Definition unsigned10 (s : string) : option Z :=
  match s with EmptyString => None | _ => dec_digits 0 s end.

Definition SetString10 (s : string) : option Z :=
  match s with
  | String "-" s' => Z.opp <$> unsigned10 s'
  | String "+" s' => unsigned10 s'
  | _ => unsigned10 s
  end.

(** [copy(dst[:], src)] into 32 zero bytes. *)
Definition to_32 (src : bytes) : bytes := take 32 src ++ replicate (32 - length src) Byte.x00.

#[local] Arguments to_32 : simpl never.

(** [s[2:]] *)
Definition drop2 (s : string) : res string :=
  match s with String _ (String _ s') => Ok s' | _ => Panic end.

Section btc.
Context {Address : Type} (DecodeAddress : string -> Params -> res Address).

Definition btc_resource (params : Params) (r : RawResource) : res (ConfigResource Address) :=
  scriptBytes ← from_opt "encoding/hex" (hex_decode (rr_Script r));
  feeAmount ← from_opt "error: could not convert string to *big.Int" (SetString10 (rr_FeeAmount r));
  address ← DecodeAddress (rr_Address r) params;
  digits ← drop2 (rr_ResourceID r);
  resourceBytes ← or_panic (hex_decode digits);
  Ok {| cr_Address := address; cr_ResourceID := to_32 resourceBytes; cr_Script := scriptBytes;
        cr_Tweak := rr_Tweak r; cr_FeeAmount := feeAmount |}.

Fixpoint btc_resources (params : Params) (rs : list RawResource) : res (list (ConfigResource Address)) :=
  match rs with
  | [] => Ok []
  | r :: rest => x ← btc_resource params r; xs ← btc_resources params rest; Ok (x :: xs)
  end.

Definition NewBtcConfig (Decode : chain_config -> res RawBtcConfig) (flags : Flags) (chainConfig : chain_config)
    : res (BtcConfig Address) :=
  raw ← Decode chainConfig;
  let c := default_Btc raw in
  validated (btc_Validate c) (
    params ← networkParams (rbt_Network c);
    feeAddress ← DecodeAddress (rbt_FeeAddress c) params;
    resources ← btc_resources params (rbt_Resources c);
    Ok {| bt_General := ParseFlags flags (rbt_General c); bt_StartBlock := rbt_StartBlock c;
          bt_BlockConfirmations := rbt_BlockConfirmations c; bt_BlockInterval := rbt_BlockInterval c;
          bt_BlockRetryInterval := seconds (rbt_BlockRetryInterval c); bt_Username := rbt_Username c;
          bt_Password := rbt_Password c; bt_Network := params; bt_MempoolUrl := rbt_MempoolUrl c;
          bt_FeeAddress := feeAddress; bt_Resources := resources |}).
End btc.

(** ** Well-formed configurations

    What the decoders give has the types of the fields. *)

Definition general_typed (c : GeneralChainConfig) : Prop :=
  match gc_Id c with Some id => is_u8 id | None => True end.

Definition evm_typed (c : RawEVMConfig) : Prop :=
  general_typed (rev_General c) /\
  Forall is_i64 [rev_MaxGasPrice c; rev_GasIncreasePercentage c; rev_GasLimit c; rev_StartBlock c;
                 rev_BlockConfirmations c; rev_BlockInterval c] /\
  Forall is_u64 [rev_TransferGas c; rev_BlockRetryInterval c].

Definition substrate_typed (c : RawSubstrateConfig) : Prop :=
  general_typed (rsc_General c) /\
  Forall is_i64 [rsc_ChainID c; rsc_StartBlock c; rsc_BlockInterval c; rsc_SubstrateNetwork c] /\
  Forall is_u64 [rsc_Tip c; rsc_BlockRetryInterval c].

Definition btc_typed (c : RawBtcConfig) : Prop :=
  general_typed (rbt_General c) /\
  Forall is_i64 [rbt_StartBlock c; rbt_BlockConfirmations c; rbt_BlockInterval c] /\
  is_u64 (rbt_BlockRetryInterval c).

Definition general_wf (flags : Flags) (c : GeneralChainConfig) : Prop :=
  (exists id, gc_Id c = Some id /\ is_u8 id) /\ gc_Endpoint c <> "" /\ gc_Name c <> "" /\
  (fl_blockstore flags <> "" -> gc_BlockstorePath c = fl_blockstore flags) /\
  (fl_fresh flags = true -> gc_FreshStart c = true) /\
  (fl_latest flags = true -> gc_LatestBlock c = true).

(** An interval that can be divided by, and a retry time of 64 bits. *)
Definition polling_wf (start interval retry : Z) : Prop :=
  is_i64 start /\ is_i64 interval /\ interval <> 0 /\ is_i64 retry.

Record evm_wf (flags : Flags) (c : EVMConfig) : Prop := {
  evm_wf_general : general_wf flags (ev_General c);
  evm_wf_bridge : ev_Bridge c <> "";
  evm_wf_polling : polling_wf (ev_StartBlock c) (ev_BlockInterval c) (ev_BlockRetryInterval c);
  evm_wf_confirmations : 1 <= ev_BlockConfirmations c < 2 ^ 63;
  evm_wf_gas : Forall (fun z => is_i64 z /\ z <> 0) [ev_MaxGasPrice c; ev_GasLimit c; ev_GasIncreasePercentage c];
  evm_wf_transfer : 0 < ev_TransferGas c < 2 ^ 64;
  evm_wf_multiplier : ev_GasMultiplier c <> S754_nan /\ f64_eqb (ev_GasMultiplier c) (f64_of_Z 0) = false;
}.

Record substrate_wf (flags : Flags) (c : SubstrateConfig) : Prop := {
  sub_wf_general : general_wf flags (suc_General c);
  sub_wf_polling : polling_wf (suc_StartBlock c) (suc_BlockInterval c) (suc_BlockRetryInterval c);
  sub_wf_network : is_u16 (suc_SubstrateNetwork c);
  sub_wf_tip : is_u64 (suc_Tip c);
}.

Record btc_wf {Address} (flags : Flags) (c : BtcConfig Address) : Prop := {
  btc_wf_general : general_wf flags (bt_General c);
  btc_wf_polling : polling_wf (bt_StartBlock c) (bt_BlockInterval c) (bt_BlockRetryInterval c);
  btc_wf_confirmations : 1 <= bt_BlockConfirmations c < 2 ^ 63;
  btc_wf_login : bt_Username c <> "" /\ bt_Password c <> "";
  btc_wf_resources : Forall (fun r => length (cr_ResourceID r) = 32%nat) (bt_Resources c);
}.

Lemma validated_Ok {A} v (k : res A) a : validated v k = Ok a <-> v = None /\ k = Ok a.
Proof. destruct v; simpl; naive_solver. Qed.

Lemma or_default_Z_nonzero n d : d <> 0 -> or_default_Z n d <> 0.
Proof. unfold or_default_Z. case_match; lia. Qed.

Lemma or_default_Z_bounds (P : Z -> Prop) n d : P n -> P d -> P (or_default_Z n d).
Proof. unfold or_default_Z. by case_match. Qed.

Lemma general_Validate_wf flags c :
  general_typed c -> general_Validate c = None -> general_wf flags (ParseFlags flags c).
Proof.
  unfold general_typed, general_Validate, general_wf. intros Ht Hv. simpl.
  destruct (gc_Id c) as [id|]; [|done]. repeat case_bool_decide; try done;
    (split; [eauto|]; split; [done|]; split; [done|]; split; [done|]; split; by intros ->).
Qed.

Lemma seconds_range n : is_i64 (seconds n).
Proof. apply i64_wrap_range. Qed.

(** Up to 292 years the retry time is exact. *)
Lemma seconds_exact n : 0 <= n <= 9223372036 -> seconds n = n * 10 ^ 9.
Proof. intros Hn. unfold seconds. rewrite (i64_wrap_small n), i64_wrap_small; unfold is_i64; lia. Qed.

#[local] Ltac defaulted := apply or_default_Z_bounds; [done|unfold is_i64, is_u64; lia].

Lemma polling_ok start interval retry :
  is_i64 start -> is_i64 interval -> polling_wf start (or_default_Z interval 5) (seconds retry).
Proof.
  intros Hs Hi. split; [done|]. split; [defaulted|]. split; [by apply or_default_Z_nonzero|apply seconds_range].
Qed.

Lemma to_32_length l : length (to_32 l) = 32%nat.
Proof. unfold to_32. rewrite length_app, length_take, length_replicate. lia. Qed.

Lemma to_32_id l : length l = 32%nat -> to_32 l = l.
Proof.
  intros H. unfold to_32. rewrite H, Nat.sub_diag. simpl. rewrite app_nil_r, firstn_all2; [done|lia].
Qed.

Lemma evm_Validate_None c : evm_Validate c = None ->
  general_Validate (rev_General c) = None /\ rev_Bridge c <> "" /\ 1 <= rev_BlockConfirmations c.
Proof.
  unfold evm_Validate. destruct (general_Validate _); [done|]. case_bool_decide; [done|].
  destruct (Z.ltb_spec (rev_BlockConfirmations c) 1); [done|]. naive_solver.
Qed.

Lemma btc_Validate_None c : btc_Validate c = None ->
  general_Validate (rbt_General c) = None /\ 1 <= rbt_BlockConfirmations c /\
  rbt_Username c <> "" /\ rbt_Password c <> "".
Proof.
  unfold btc_Validate. destruct (general_Validate _); [done|].
  destruct (Z.ltb_spec (rbt_BlockConfirmations c) 1); [done|]. repeat case_bool_decide; naive_solver.
Qed.

Lemma multiplier_ok y x : NewFloat (if f64_eqb y (f64_of_Z 0) then f64_of_Z 1 else y) = Ok x ->
  x <> S754_nan /\ f64_eqb x (f64_of_Z 0) = false.
Proof.
  destruct (f64_eqb y (f64_of_Z 0)) eqn:Ef; intros Hx.
  - assert (Ok (f64_of_Z 1) = Ok (E := error) x) as [= <-] by exact Hx. by vm_compute.
  - destruct y; simpl in Hx; try done; by injection Hx as <-.
Qed.

Lemma evm_config_wf raw flags c Decode m :
  evm_typed raw -> Decode m = Ok raw -> NewEVMConfig Decode flags m = Ok c -> evm_wf flags c.
Proof.
  intros (Hg & Hi & Hu) E. unfold NewEVMConfig. rewrite E. simpl. intros (Hv & Hc)%validated_Ok.
  apply outcome_bind_Ok in Hc as (x & Hx & [= <-]).
  rewrite !list.Forall_cons in Hi. rewrite !list.Forall_cons in Hu.
  destruct Hi as (?&?&?&?&?&?&_), Hu as (?&?&_).
  apply evm_Validate_None in Hv as (? & ? & ?). simpl in *.
  constructor; simpl; [by apply general_Validate_wf|done|by apply polling_ok| | | |].
  - assert (is_i64 (or_default_Z (rev_BlockConfirmations raw) 10)) as Hb by defaulted. unfold is_i64 in Hb. lia.
  - rewrite !list.Forall_cons. split_and!; [..|done]; first [defaulted|by apply or_default_Z_nonzero].
  - assert (is_u64 (or_default_Z (rev_TransferGas raw) 250000)) as Hb by defaulted.
    pose proof (or_default_Z_nonzero (rev_TransferGas raw) 250000 ltac:(lia)). unfold is_u64 in Hb. lia.
  - by apply multiplier_ok in Hx.
Qed.

Lemma substrate_config_wf raw flags c Decode m :
  substrate_typed raw -> Decode m = Ok raw -> NewSubstrateConfig Decode flags m = Ok c -> substrate_wf flags c.
Proof.
  intros (Hg & Hi & Hu) E. unfold NewSubstrateConfig. rewrite E. simpl. intros (Hv & [= <-])%validated_Ok.
  rewrite !list.Forall_cons in Hi. rewrite !list.Forall_cons in Hu.
  destruct Hi as (?&?&?&?&_), Hu as (?&?&_).
  constructor; simpl; [by apply general_Validate_wf|by apply polling_ok|apply u16_wrap_range|done].
Qed.

Section btc_facts.
Context {Address : Type} (DecodeAddress : string -> Params -> res Address).

Lemma btc_resource_id params r x :
  btc_resource DecodeAddress params r = Ok x -> length (cr_ResourceID x) = 32%nat.
Proof. unfold btc_resource. intros H. invert_ok. subst x. apply to_32_length. Qed.

Lemma btc_resources_Ok params rs xs : btc_resources DecodeAddress params rs = Ok xs <->
  Forall2 (fun r x => btc_resource DecodeAddress params r = Ok x) rs xs.
Proof.
  revert xs. induction rs as [|r rs IH]; intros xs; simpl.
  { split; [by intros [= <-]|by intros ->%Forall2_nil_inv_l]. }
  split.
  - intros H. invert_ok. subst xs. constructor; [done|]. by apply IH.
  - intros (x & xs' & Hx & Hr & ->)%Forall2_cons_inv_l. rewrite Hx. simpl.
    by rewrite (proj2 (IH xs') Hr).
Qed.

Lemma btc_config_wf raw flags c Decode m :
  btc_typed raw -> Decode m = Ok raw -> NewBtcConfig DecodeAddress Decode flags m = Ok c -> btc_wf flags c.
Proof.
  intros (Hg & Hi & Hu) E. unfold NewBtcConfig. rewrite E. simpl. intros (Hv & Hc)%validated_Ok.
  rewrite !list.Forall_cons in Hi. destruct Hi as (?&?&?&_). invert_ok. subst c.
  apply btc_Validate_None in Hv as (? & ? & ? & ?). simpl in *.
  constructor; simpl; [by apply general_Validate_wf|by apply polling_ok| |done|].
  - assert (is_i64 (or_default_Z (rbt_BlockConfirmations raw) 10)) as Hb by defaulted. unfold is_i64 in Hb. lia.
  - match goal with H : btc_resources _ _ _ = Ok _ |- _ => apply btc_resources_Ok in H as Hr end.
    eapply Forall2_Forall_r; [exact Hr|]. apply Forall_true. intros r y Hy. by eapply btc_resource_id.
Qed.
End btc_facts.

(** ** The printed form of a resource is read back *)

Lemma dec_digits_uint d : forall acc, dec_digits acc (NilEmpty.string_of_uint d) = Some (dec_value acc d).
Proof.
  induction d as [|d IH|d IH|d IH|d IH|d IH|d IH|d IH|d IH|d IH|d IH]; intros acc;
    cbn [NilEmpty.string_of_uint dec_digits dec_value]; [done|..];
    (etransitivity; [apply IH|]); do 2 f_equal;
    match goal with |- context [code ?c] => let v := eval vm_compute in (code c) in change (code c) with v end; lia.
Qed.

Lemma unsigned10_fmt_u z : 0 <= z -> unsigned10 (fmt_u z) = Some z.
Proof.
  intros Hz. destruct (fmt_u_head z) as (a & s & E & _). unfold unsigned10. rewrite E, <- E.
  unfold fmt_u, NilZero.string_of_uint.
  destruct (N.to_uint (Z.to_N z)) eqn:En; [by apply to_uint_nonnil in En|..]; rewrite <- En;
    rewrite dec_digits_uint, <- dec_value_of_uint, DecimalN.Unsigned.of_to, Z2N.id by done; done.
Qed.

Lemma SetString10_fmt_u z : 0 <= z -> SetString10 (fmt_u z) = Some z.
Proof.
  intros Hz. pose proof (unsigned10_fmt_u z Hz) as H.
  destruct (fmt_u_head z) as (a & s & E & Ha). rewrite E in *. unfold SetString10.
  destruct a as [[] [] [] [] [] [] [] []]; done.
Qed.

(** A resource as an operator writes it down. *)
Definition print_resource {Address} (address : string) (r : ConfigResource Address) : RawResource :=
  {| rr_Address := address; rr_ResourceID := "0x" +:+ hex_encode (cr_ResourceID r);
     rr_FeeAmount := fmt_u (cr_FeeAmount r); rr_Tweak := cr_Tweak r; rr_Script := hex_encode (cr_Script r) |}.

Lemma btc_resource_printed {Address} DecodeAddress params address (r : ConfigResource Address) :
  length (cr_ResourceID r) = 32%nat -> 0 <= cr_FeeAmount r -> DecodeAddress address params = Ok (cr_Address r) ->
  btc_resource DecodeAddress params (print_resource address r) = Ok r.
Proof.
  intros Hid Hfee Ha. unfold btc_resource, print_resource. simpl.
  rewrite !hex_decode_encode, SetString10_fmt_u by done. simpl. rewrite Ha. simpl.
  rewrite str_app_nil_l, hex_decode_encode. simpl. rewrite to_32_id by done. by destruct r.
Qed.

(** A resource identifier that is too short or not hexadecimal ends the program. *)
Lemma btc_resource_panics {Address} DecodeAddress params r (a : Address) script fee :
  hex_decode (rr_Script r) = Some script -> SetString10 (rr_FeeAmount r) = Some fee ->
  DecodeAddress (rr_Address r) params = Ok a ->
  (forall s, drop2 (rr_ResourceID r) = Ok s -> hex_decode s = None) ->
  btc_resource DecodeAddress params r = Panic.
Proof.
  intros H1 H2 H3 H4. unfold btc_resource. rewrite H1, H2. simpl. rewrite H3. simpl.
  destruct (drop2 (rr_ResourceID r)) as [s|e|] eqn:E; simpl; [by rewrite (H4 s)| |done].
  destruct (rr_ResourceID r) as [|? [|? ?]]; done.
Qed.

(** ** The configurations of the three kinds of chains *)

Section chain_configs.
Context {Address : Type} (DecodeAddress : string -> Params -> res Address).
Context (DecodeEVM : chain_config -> res RawEVMConfig) (DecodeSubstrate : chain_config -> res RawSubstrateConfig).
Context (DecodeBtc : chain_config -> res RawBtcConfig).

(** Whatever a domain's map decodes to, a chain starts only with an identifier of
    8 bits, an endpoint, a name and the flags of the command line, a block interval
    that is not zero and a retry time of 64 bits; an EVM chain also with a bridge, at
    least one confirmation and gas settings that are not zero; a Bitcoin chain with
    at least one confirmation, a login and resource identifiers of 32 bytes. *)
Theorem chain_configs_wf flags m :
  (forall raw, DecodeEVM m = Ok raw -> evm_typed raw) ->
  (forall raw, DecodeSubstrate m = Ok raw -> substrate_typed raw) ->
  (forall raw, DecodeBtc m = Ok raw -> btc_typed raw) ->
  (forall c, NewEVMConfig DecodeEVM flags m = Ok c -> evm_wf flags c) /\
  (forall c, NewSubstrateConfig DecodeSubstrate flags m = Ok c -> substrate_wf flags c) /\
  (forall c, NewBtcConfig DecodeAddress DecodeBtc flags m = Ok c -> btc_wf flags c).
Proof.
  intros He Hs Hb. split_and!; intros c Hc.
  - destruct (DecodeEVM m) as [raw|e|] eqn:E; [|by unfold NewEVMConfig in Hc; rewrite E in Hc..].
    by apply (evm_config_wf raw flags c DecodeEVM m); [apply He|..].
  - destruct (DecodeSubstrate m) as [raw|e|] eqn:E; [|by unfold NewSubstrateConfig in Hc; rewrite E in Hc..].
    by apply (substrate_config_wf raw flags c DecodeSubstrate m); [apply Hs|..].
  - destruct (DecodeBtc m) as [raw|e|] eqn:E; [|by unfold NewBtcConfig in Hc; rewrite E in Hc..].
    by apply (btc_config_wf DecodeAddress raw flags c DecodeBtc m); [apply Hb|..].
Qed.

(** The resources of a Bitcoin chain are read as they are written: identifiers
    in hexadecimal after 0x, fees in decimal, scripts in hexadecimal, in order. *)
Theorem btc_resources_roundtrip flags m raw params fee (rs : list (string * ConfigResource Address)) :
  DecodeBtc m = Ok raw -> btc_Validate (default_Btc raw) = None ->
  networkParams (rbt_Network (default_Btc raw)) = Ok params ->
  DecodeAddress (rbt_FeeAddress raw) params = Ok fee ->
  Forall (fun r => length (cr_ResourceID r.2) = 32%nat /\ 0 <= cr_FeeAmount r.2 /\
                   DecodeAddress r.1 params = Ok (cr_Address r.2)) rs ->
  rbt_Resources raw = (fun r => print_resource r.1 r.2) <$> rs ->
  exists c, NewBtcConfig DecodeAddress DecodeBtc flags m = Ok c /\
    bt_Resources c = rs.*2 /\ bt_Network c = params /\ bt_FeeAddress c = fee.
Proof.
  intros Hd Hv Hn Hf Hrs Hr. unfold NewBtcConfig. rewrite Hd. cbn [mbind outcome_bind]. rewrite Hv.
  cbn [validated]. rewrite Hn. cbn [mbind outcome_bind]. simpl rbt_FeeAddress. rewrite Hf.
  cbn [mbind outcome_bind].
  assert (btc_resources DecodeAddress params (rbt_Resources (default_Btc raw)) = Ok rs.*2) as ->.
  { apply btc_resources_Ok. simpl. rewrite Hr. clear Hr. induction Hrs as [|r rs (H1 & H2 & H3) _ IH]; [done|].
    rewrite !fmap_cons. constructor; [by apply btc_resource_printed|done]. }
  by eexists.
Qed.
End chain_configs.

(** ** Example *)

Module ChainConfigExample.
Definition general : GeneralChainConfig :=
  {| gc_Name := "btc1"; gc_Id := Some 4; gc_Endpoint := "ws://domain.com"; gc_Type := "btc";
     gc_BlockstorePath := ""; gc_FreshStart := false; gc_LatestBlock := false; gc_Key := "k"; gc_Insecure := false |}.
Definition flags : Flags := {| fl_blockstore := "./lvldbdata"; fl_fresh := true; fl_latest := false |}.

Definition resource : ConfigResource string :=
  {| cr_Address := "tb1q"; cr_FeeAmount := 10000000; cr_ResourceID := to_32 [Byte.x03];
     cr_Tweak := "tweak"; cr_Script := [Byte.x51; Byte.x20] |}.
Definition DecodeAddress (s : string) (_ : Params) : res string :=
  if bool_decide (s = "") then Err "address" else Ok s.

Definition raw_btc : RawBtcConfig :=
  {| rbt_General := general; rbt_Resources := [print_resource "tb1q" resource]; rbt_StartBlock := 1000;
     rbt_FeeAddress := "mkHS"; rbt_Username := "user"; rbt_Password := "pass"; rbt_BlockInterval := 0;
     rbt_BlockRetryInterval := 0; rbt_BlockConfirmations := 0; rbt_Network := "testnet"; rbt_MempoolUrl := "" |}.
Definition raw_evm : RawEVMConfig :=
  {| rev_General := general; rev_Bridge := "0xb"; rev_Retry := ""; rev_FrostKeygen := ""; rev_Handlers := [];
     rev_MaxGasPrice := 0; rev_GasMultiplier := f64_of_Z 0; rev_GasIncreasePercentage := 0; rev_GasLimit := 0;
     rev_TransferGas := 0; rev_StartBlock := 7; rev_BlockConfirmations := 1; rev_BlockInterval := 0;
     rev_BlockRetryInterval := 10 |}.
Definition raw_substrate : RawSubstrateConfig :=
  {| rsc_General := general; rsc_ChainID := 5; rsc_StartBlock := 0; rsc_BlockInterval := 0;
     rsc_BlockRetryInterval := 0; rsc_SubstrateNetwork := 42; rsc_Tip := 0 |}.
End ChainConfigExample.
Import ChainConfigExample.

Example chain_configs_wf_witness :
  (exists c, NewEVMConfig (fun _ => Ok raw_evm) flags ∅ = Ok c /\ evm_wf flags c /\
     ev_BlockInterval c = 5 /\ ev_BlockRetryInterval c = 10 * 10 ^ 9) /\
  (exists c, NewBtcConfig DecodeAddress (fun _ => Ok raw_btc) flags ∅ = Ok c /\ btc_wf flags c).
Proof.
  assert (general_typed general) as Hg by (unfold general_typed, is_u8; simpl; lia).
  assert (Forall is_i64 [0; 0; 0; 7; 1; 0] /\ Forall is_u64 [0; 10] /\
          Forall is_i64 [5; 0; 0; 42] /\ Forall is_u64 [0; 0] /\ Forall is_i64 [1000; 0; 0] /\ is_u64 0)
    as (H1 & H2 & H3 & H4 & H5 & H6)
    by (rewrite !list.Forall_cons, !list.Forall_nil; unfold is_i64, is_u64; lia).
  destruct (chain_configs_wf DecodeAddress (fun _ => Ok raw_evm) (fun _ => Ok raw_substrate) (fun _ => Ok raw_btc)
              flags ∅) as (He & _ & Hb).
  - intros raw [= <-]. exact (conj Hg (conj H1 H2)).
  - intros raw [= <-]. exact (conj Hg (conj H3 H4)).
  - intros raw [= <-]. exact (conj Hg (conj H5 H6)).
  - split; eexists; (split; [reflexivity|]).
    + split; [by apply He|]. by vm_compute.
    + by apply Hb.
Defined.

Example btc_resources_roundtrip_witness :
  exists c, NewBtcConfig DecodeAddress (fun _ => Ok raw_btc) flags ∅ = Ok c /\ bt_Resources c = [resource].
Proof.
  destruct (btc_resources_roundtrip DecodeAddress (fun _ => Ok raw_btc) flags ∅ raw_btc TestNet3Params "mkHS"
              [("tb1q", resource)]) as (c & Hc & Hr & _); [by vm_compute..| |done|].
  - constructor; [|constructor]. by vm_compute.
  - exists c. split; [exact Hc|exact Hr].
Defined.
