(* ===== verification/Services.v ===== *)
(** * Services around the bridge

    The upload of Bitcoin proposal metadata ([chains/btc/uploader]), the job that
    checks the communication between the relayers ([jobs], [comm/health.go]) and the
    gauges it sets ([metrics/mpc.go]).  The HTTP connection and the back-off library
    are arguments. *)

From S2P Require Import Prelude GoBytes GoStrings GoJson Config Comm.

#[local] Open Scope string_scope.
#[local] Open Scope list_scope.
#[local] Open Scope Z_scope.

(** ** IPFS uploader *)

(** What a request meets: [client.Do] returns, with an error or a status and a body that
    can be read or not, or, since the client has no timeout, never does. *)
Inductive http_answer :=
| Responded (response : res (Z * res bytes))
| NoAnswer.

(** [ipfsResponse] and the requests made. *)
Record upload_state := { uq_hash : string; uq_requests : nat }.

(** An operation that may never return ([None]). *)
Definition uploading (A : Type) : Type := upload_state -> option (res A * upload_state).

#[export] Instance uploading_bind : MBind uploading :=
  fun A B f m s =>
    match m s with
    | Some (Ok a, s') => f a s'
    | Some (Err e, s') => Some (Err e, s')
    | Some (Panic, s') => Some (Panic, s')
    | None => None
    end.

Definition upload_fail {A} (e : error) : uploading A := fun s => Some (Err e, s).

Section uploader.
(** [json.Unmarshal] into the response: it can write the hash and fail. *)
Context (UnmarshalResponse : bytes -> string -> res unit * string) (network : nat -> http_answer).

Definition Do : uploading (Z * res bytes) := fun s =>
  match network (uq_requests s) with
  | Responded response => Some (response, {| uq_hash := uq_hash s; uq_requests := S (uq_requests s) |})
  | NoAnswer => None
  end.

Definition ReadAll (body : res bytes) : uploading bytes := fun s => Some (body, s).

Definition decode_response (respBody : bytes) : uploading unit := fun s =>
  let '(r, hash) := UnmarshalResponse respBody (uq_hash s) in
  Some (r, {| uq_hash := hash; uq_requests := uq_requests s |}).

Definition performRequest : uploading unit :=
  '(status, body) ← Do;
  if negb (status =? 200) then upload_fail "received non-200 status code"
  else respBody ← ReadAll body; decode_response respBody.

(** The attempts of an operation: the next one follows an error. *)
Fixpoint attempts {S} (retries : nat) (op : S -> option (res unit * S)) (s : S) : option (res unit * S) :=
  match retries, op s with
  | Datatypes.S k, Some (Err _, s') => attempts k op s'
  | _, r => r
  end.
End uploader.

(** [backoff.RetryNotify(op, backoff.WithMaxRetries(expBackoff, maxRetries), notify)] *)
Class Backoff := {
  RetryNotify {S : Type} (op : S -> option (res unit * S)) (maxElapsedTime maxRetries : Z)
    : S -> option (res unit * S);
}.

(** It repeats the operation while it fails, at most [maxRetries] times. *)
Class BackoffSpec `{Backoff} : Prop := {
  RetryNotify_attempts {S} (op : S -> option (res unit * S)) elapsed maxRetries s :
    0 <= maxRetries -> exists k, Z.of_nat k <= maxRetries /\ RetryNotify op elapsed maxRetries s = attempts k op s;
}.

Section upload.
Context `{Backoff} (UnmarshalResponse : bytes -> string -> res unit * string).
Context {Data : Type} (MarshalData : Data -> res bytes) (FormFile : bytes -> res bytes).
Context (NewRequest : string -> bytes -> res unit).

(** [FormFile] makes the multipart body of the JSON text.  The hash with the number of
    requests, or [None] when the upload never returns. *)
Definition ipfs_Upload (config : UploaderConfig) (network : nat -> http_answer) (dataToUpload : Data)
    : option (res string * nat) :=
  match (jsonData ← MarshalData dataToUpload;
         body ← FormFile jsonData;
         NewRequest (uc_URL config) body) with
  | Err e => Some (Err e, 0%nat)
  | Panic => Some (Panic, 0%nat)
  | Ok _ =>
      match RetryNotify (performRequest UnmarshalResponse network) (uc_MaxElapsedTime config) (uc_MaxRetries config)
              {| uq_hash := ""; uq_requests := 0 |} with
      | Some (r, s) => Some (_ ← r; Ok (uq_hash s), uq_requests s)
      | None => None
      end
  end.
End upload.

(** ** Communication health check and gauges *)

Record MpcMetrics := {
  mm_totalRelayerCount : Z;
  mm_availableRelayerCount : Z;
}.

(** [int64(len(all) - len(unavailable))] *)
Definition TrackRelayerStatus {Peer} (unavailable all : list Peer) : MpcMetrics :=
  {| mm_totalRelayerCount := Z.of_nat (length all);
     mm_availableRelayerCount := Z.of_nat (length all) - Z.of_nat (length unavailable) |}.

Section jobs.
Context {Peer : Type} `{EqDecision Peer}.

(** One round of [StartCommunicationHealthCheckJob]; the peer store is read twice. *)
Definition health_check_round (hostID : Peer) (send : Peer -> string -> res unit) (all checked : list Peer)
    : res MpcMetrics :=
  communicationErrors ← ExecuteCommHealthCheck hostID send checked;
  Ok (TrackRelayerStatus communicationErrors.*1 all).
End jobs.

(** ** The hash comes from the first good response *)

Section upload_facts.
Context (UnmarshalResponse : bytes -> string -> res unit * string) (network : nat -> http_answer).

(** The response after the requests [from], ..., [from + n - 1] have failed. *)
Fixpoint left_by (from n : nat) (hash : string) : option string :=
  match n with
  | O => Some hash
  | S n =>
      match performRequest UnmarshalResponse network {| uq_hash := hash; uq_requests := from |} with
      | Some (Err _, s) => left_by (S from) n (uq_hash s)
      | _ => None
      end
  end.

Lemma performRequest_counts s r s' :
  performRequest UnmarshalResponse network s = Some (r, s') -> uq_requests s' = S (uq_requests s).
Proof.
  unfold performRequest, mbind, uploading_bind, upload_fail, Do, ReadAll, decode_response.
  destruct (network (uq_requests s)) as [[[status body]|e|]|]; intros E; simplify_eq/=; [|done..].
  destruct (status =? 200); simplify_eq/=; [|done]. destruct body; simplify_eq/=; [|done..].
  destruct (UnmarshalResponse _ _); by simplify_eq/=.
Qed.

(** A request that is answered well: what it means of the response. *)
Lemma performRequest_Ok s s' : performRequest UnmarshalResponse network s = Some (Ok tt, s') ->
  exists resp, network (uq_requests s) = Responded (Ok (200, Ok resp)) /\
    UnmarshalResponse resp (uq_hash s) = (Ok tt, uq_hash s').
Proof.
  unfold performRequest, mbind, uploading_bind, upload_fail, Do, ReadAll, decode_response.
  destruct (network (uq_requests s)) as [[[status body]|e|]|]; intros E; simplify_eq/=.
  destruct (Z.eqb_spec status 200) as [->|]; simplify_eq/=. destruct body as [resp|e|]; simplify_eq/=.
  destruct (UnmarshalResponse resp (uq_hash s)) as [r hash] eqn:Eu. simplify_eq/=. by exists resp.
Qed.

Lemma performRequest_None s : performRequest UnmarshalResponse network s = None -> network (uq_requests s) = NoAnswer.
Proof.
  unfold performRequest, mbind, uploading_bind, upload_fail, Do, ReadAll, decode_response.
  destruct (network (uq_requests s)) as [[[status body]|e|]|]; intros E; [|done..]. exfalso.
  destruct (status =? 200); [|done]. destruct body; [|done..]. simpl in E. by destruct (UnmarshalResponse _ _).
Qed.

(** What [k] retries come to: after some failed requests one that does not fail, or [k]
    failures and the last. *)
Lemma attempts_spec k : forall hash from,
  exists n hash', (n <= k)%nat /\ left_by from n hash = Some hash' /\
    let last := performRequest UnmarshalResponse network {| uq_hash := hash'; uq_requests := from + n |} in
    attempts k (performRequest UnmarshalResponse network) {| uq_hash := hash; uq_requests := from |} = last /\
    match last with Some (Err _, _) => n = k | _ => True end.
Proof.
  induction k as [|k IH]; intros hash from.
  - exists 0%nat, hash. rewrite Nat.add_0_r. split_and!; [done..|]. simpl. split; [done|]. by case_match; [case_match; case_match|].
  - destruct (performRequest UnmarshalResponse network {| uq_hash := hash; uq_requests := from |}) as [[[u|e|] s]|] eqn:E.
    2: { pose proof (performRequest_counts _ _ _ E) as Hc. destruct s as [hash1 n1]. simpl in Hc. subst n1.
         destruct (IH hash1 (S from)) as (n & hash' & Hn & Hl & Ha & Hlast). exists (S n), hash'.
         rewrite Nat.add_succ_comm in Ha, Hlast. split; [lia|]. cbn [left_by attempts]. rewrite E. split; [done|].
         split; [done|]. cbv zeta. case_match; [|done]. repeat case_match; auto. }
    all: exists 0%nat, hash; rewrite Nat.add_0_r; split; [lia|]; split; [done|]; cbn [attempts]; rewrite E; by split.
Qed.
End upload_facts.

Section upload_theorem.
Context `{BackoffSpec} (UnmarshalResponse : bytes -> string -> res unit * string).
Context {Data : Type} (MarshalData : Data -> res bytes) (FormFile : bytes -> res bytes).
Context (NewRequest : string -> bytes -> res unit).

(** An upload whose request can be made sends at most one request more than the
    configured retries.  The hash it returns is read, over what failed attempts left, from
    a response with status 200 that follows failed requests only; it returns an error
    when all its requests have failed; and it never returns exactly when a request it
    makes is never answered, as the client has no timeout. *)
Theorem ipfs_Upload_result config network data json body :
  MarshalData data = Ok json -> FormFile json = Ok body -> NewRequest (uc_URL config) body = Ok tt ->
  0 <= uc_MaxRetries config ->
  exists n hash, Z.of_nat n <= uc_MaxRetries config /\ left_by UnmarshalResponse network 0 n "" = Some hash /\
    match ipfs_Upload UnmarshalResponse MarshalData FormFile NewRequest config network data with
    | Some (Ok cid, requests) => requests = S n /\ exists resp,
        network n = Responded (Ok (200, Ok resp)) /\ UnmarshalResponse resp hash = (Ok tt, cid)
    | Some (_, requests) => requests = S n
    | None => network n = NoAnswer
    end.
Proof.
  intros Hj Hf Hn Hm. unfold ipfs_Upload. rewrite Hj. cbn [mbind outcome_bind]. rewrite Hf.
  cbn [mbind outcome_bind]. rewrite Hn. set (op := performRequest UnmarshalResponse network).
  destruct (RetryNotify_attempts op (uc_MaxElapsedTime config) (uc_MaxRetries config)
              {| uq_hash := ""; uq_requests := 0 |} Hm) as (k & Hk & ->).
  destruct (attempts_spec UnmarshalResponse network k "" 0) as (n & hash & Hle & Hl & Ha & _).
  exists n, hash. split; [lia|]. split; [exact Hl|]. fold op in Ha |- *. rewrite Ha. cbn [Nat.add].
  destruct (op {| uq_hash := hash; uq_requests := n |}) as [[r s]|] eqn:E; [|by apply performRequest_None in E].
  pose proof (performRequest_counts _ _ _ _ _ E) as Hc. destruct r as [[]|e|]; simpl; [|done..].
  split; [done|]. by apply performRequest_Ok in E.
Qed.
End upload_theorem.

(** ** What the gauges show *)

Section health_facts.
Context {Peer : Type} `{EqDecision Peer} (hostID : Peer) (send : Peer -> string -> res unit).

Definition health_message : WrappedMessage Peer :=
  {| wm_MessageType := Unknown; wm_SessionID := "health-session"; wm_Payload := []; wm_From := Some hostID |}.

(** A peer that is not the relayer itself and cannot be sent to. *)
Definition unreachable (msg : string) (p : Peer) : bool :=
  negb (bool_decide (p = hostID)) && match send p msg with Err _ => true | _ => false end.

Lemma health_unavailable msg peers : Marshal health_message = Ok msg ->
  exists l, ExecuteCommHealthCheck hostID send peers = Ok l /\
    l.*1 = filter (fun p => unreachable msg p = true) peers.
Proof.
  intros Hm. induction peers as [|p peers (l & Hl & Hf)]; [by exists []|].
  cbn [ExecuteCommHealthCheck]. unfold Broadcast. fold health_message. rewrite Hm.
  unfold broadcast_targets. rewrite !filter_cons, filter_nil.
  assert (unreachable msg p = negb (bool_decide (p = hostID)) && match send p msg with Err _ => true | _ => false end)
    as -> by done.
  destruct (decide (p <> hostID)) as [Hne|Heq].
  - assert (bool_decide (p = hostID) = false) as -> by (by apply bool_decide_eq_false). unfold first_failure. simpl.
    destruct (send p msg) as [u|e|]; simpl; rewrite Hl; simpl.
    + by exists l.
    + exists ((p, e) :: l). split; [done|]. by rewrite fmap_cons, Hf.
    + by exists l.
  - apply dec_stable in Heq. assert (bool_decide (p = hostID) = true) as -> by (by apply bool_decide_eq_true).
    simpl. rewrite Hl. by exists l.
Qed.

(** A round of the health check counts every peer, and as available those it can
    send to and the relayer itself; the count stays between zero and the total when
    the peer store does not change during the round. *)
Theorem health_check_counts msg peers :
  Marshal health_message = Ok msg ->
  exists m, health_check_round hostID send peers peers = Ok m /\
    mm_totalRelayerCount m = Z.of_nat (length peers) /\
    mm_availableRelayerCount m = Z.of_nat (length (filter (fun p => unreachable msg p = false) peers)) /\
    0 <= mm_availableRelayerCount m <= mm_totalRelayerCount m.
Proof.
  intros Hm. destruct (health_unavailable msg peers Hm) as (l & Hl & Hf).
  unfold health_check_round. rewrite Hl. simpl. eexists. split; [done|]. unfold TrackRelayerStatus. simpl.
  rewrite Hf. split; [done|].
  assert (length (filter (fun p => unreachable msg p = true) peers)
          + length (filter (fun p => unreachable msg p = false) peers) = length peers)%nat.
  { clear. induction peers as [|p peers IH]; [done|]. rewrite !filter_cons.
    destruct (unreachable msg p); repeat case_decide; try done; simpl; lia. }
  lia.
Qed.
End health_facts.

(** ** Examples *)

Module ServicesExample.
(** Retries without pause until the budget is used. *)
#[export] Instance eager : Backoff := {| RetryNotify S op _ maxRetries := attempts (Z.to_nat maxRetries) op |}.
#[export] Instance eager_spec : BackoffSpec.
Proof. constructor. intros S op e m s Hm. exists (Z.to_nat m). split; [lia|done]. Qed.

Definition config : UploaderConfig :=
  {| uc_URL := "https://ipfs"; uc_AuthToken := ""; uc_MaxRetries := 5; uc_MaxElapsedTime := 300000 |}.
Definition decode (b : bytes) (hash : string) : res unit * string := (Ok tt, string_of_bytes b).
Definition upload (network : list http_answer) : option (res string * nat) :=
  ipfs_Upload decode (fun d : string => Ok (bytes_of_string d)) Ok (fun _ _ => Ok tt) config
    (fun n => default NoAnswer (network !! n)) "metadata".

(** A lost connection and a busy server are tried again; a silent server blocks the
    upload. *)
Definition flaky : list http_answer :=
  [Responded (Err "dial"); Responded (Ok (500, Ok [])); Responded (Ok (200, Ok (bytes_of_string "cid")))].

Definition second_down (p : nat) (_ : string) : res unit := if bool_decide (p = 2%nat) then Err "unreachable" else Ok tt.
End ServicesExample.
Import ServicesExample.

Example upload_flaky : upload flaky = Some (Ok "cid", 3%nat) /\ upload [Responded (Err "dial")] = None.
Proof. by vm_compute. Qed.

Example health_check_counts_witness :
  exists m, health_check_round 1%nat second_down [1%nat; 2%nat; 3%nat] [1%nat; 2%nat; 3%nat] = Ok m /\
    mm_availableRelayerCount m = 2.
Proof.
  destruct (health_check_counts 1%nat second_down (json_print (wrapped_json (health_message 1%nat))) [1%nat; 2%nat; 3%nat]) as (m & E & _ & Ha & _).
  - reflexivity.
  - exists m. split; [exact E|exact Ha].
Defined.
