(* ===== verification/Telemetry.v ===== *)
(** * Gauges ([metrics])

    The gauges of the relayer are callbacks that a collector runs when it reads them.
    Those of the MPC set read two integers the health check job writes, through pointers:
    the integers are cells of a heap, and a gauge reads the cell it was created with. *)

From S2P Require Import Prelude GoStrings Services.

#[local] Open Scope string_scope.
#[local] Open Scope list_scope.
#[local] Open Scope Z_scope.

(** An attribute of a measurement, and what a callback observes. *)
Definition attribute : Type := string * string.
Record observation := { ob_value : Z; ob_attributes : list attribute }.

(** OpenTelemetry's meter: [Int64ObservableGauge] registers a callback, which reads the
    heap, under the name of the gauge, or refuses; [callbacks] are those it runs when it
    is read, in the order of their registration. *)
Class Meter (M : Type) := {
  Int64ObservableGauge : string -> (list Z -> observation) -> M -> res string * M;
  callbacks : M -> list (string * (list Z -> observation));
  gauge_registered : forall name callback mt g mt', Int64ObservableGauge name callback mt = (Ok g, mt') ->
    callbacks mt' = callbacks mt ++ [(name, callback)];
}.

(** The heap of [int64] cells and the meter. *)
Record telemetry (M : Type) := {
  tl_heap : list Z;
  tl_meter : M;
}.
Arguments tl_heap {M} _.
Arguments tl_meter {M} _.
Arguments Build_telemetry {M} _ _.

Section metrics.
Context {M : Type} `{Meter M}.

Definition new_int64 : gom (telemetry M) nat := fun s =>
  (Ok (length (tl_heap s)), {| tl_heap := tl_heap s ++ [0]; tl_meter := tl_meter s |}).

(** [*p], and [*p = v]. *)
Definition deref (p : nat) (heap : list Z) : Z := default 0 (heap !! p).
Definition assign (p : nat) (v : Z) (s : telemetry M) : telemetry M :=
  {| tl_heap := <[p := v]> (tl_heap s); tl_meter := tl_meter s |}.

(** [meter.Int64ObservableGauge] with a callback. *)
Definition gauge (name : string) (callback : list Z -> observation) : gom (telemetry M) string := fun s =>
  let (g, mt) := Int64ObservableGauge name callback (tl_meter s) in
  (g, {| tl_heap := tl_heap s; tl_meter := mt |}).

Record mpc_metrics := {
  me_totalRelayersGauge : string;
  me_availableRelayersGauge : string;
  me_totalRelayerCount : nat;
  me_availableRelayerCount : nat;
}.

Definition NewMpcMetrics (opts : list attribute) : gom (telemetry M) mpc_metrics :=
  totalRelayerCount ← new_int64;
  availableRelayerCount ← new_int64;
  totalRelayersGauge ← gauge "relayer.TotalRelayers"
    (fun heap => {| ob_value := deref totalRelayerCount heap; ob_attributes := opts |});
  availableRelayersGauge ← gauge "relayer.AvailableRelayers"
    (fun heap => {| ob_value := deref availableRelayerCount heap; ob_attributes := opts |});
  mret {| me_totalRelayersGauge := totalRelayersGauge; me_availableRelayersGauge := availableRelayersGauge;
          me_totalRelayerCount := totalRelayerCount; me_availableRelayerCount := availableRelayerCount |}.

(** [now]: the Unix time of the start. *)
Definition NewHostMetrics (now : Z) (opts : list attribute) : gom (telemetry M) string :=
  gauge "relayer.StartTimeSeconds" (fun _ => {| ob_value := now; ob_attributes := opts |}).

(** [MpcMetrics.TrackRelayerStatus], through the pointers. *)
Definition mpc_TrackRelayerStatus {Peer} (m : mpc_metrics) (unavailable all : list Peer) (s : telemetry M) : telemetry M :=
  let counts := TrackRelayerStatus unavailable all in
  assign (me_availableRelayerCount m) (mm_availableRelayerCount counts)
    (assign (me_totalRelayerCount m) (mm_totalRelayerCount counts) s).

Record SygmaMetrics (R : Type) := {
  sm_RelayerMetrics : R;
  sm_MpcMetrics : mpc_metrics;
  sm_HostMetrics : string;
}.
Arguments sm_RelayerMetrics {R} _.
Arguments sm_MpcMetrics {R} _.
Arguments sm_HostMetrics {R} _.

(** [NewRelayerMetrics] of sygma-core registers its own gauges. *)
Definition NewSygmaMetrics {R} (NewRelayerMetrics : list attribute -> gom (telemetry M) R) (now : Z)
    (env relayerID version : string) : gom (telemetry M) (SygmaMetrics R) :=
  let attributes := [("relayerid", relayerID); ("env", env); ("version", version)] in
  relayerMetrics ← NewRelayerMetrics attributes;
  mpcMetrics ← NewMpcMetrics attributes;
  hostMetrics ← NewHostMetrics now attributes;
  mret {| sm_RelayerMetrics := relayerMetrics; sm_MpcMetrics := mpcMetrics; sm_HostMetrics := hostMetrics |}.

(** What the collector reads: every callback on the heap of that moment. *)
Definition read_gauges (s : telemetry M) : list (string * observation) :=
  (fun '(name, callback) => (name, callback (tl_heap s))) <$> callbacks (tl_meter s).

(** The job's rounds: the peers found unavailable, and all peers. *)
Definition track_all {Peer} (m : mpc_metrics) (rounds : list (list Peer * list Peer)) (s : telemetry M) : telemetry M :=
  foldl (fun s '(unavailable, all) => mpc_TrackRelayerStatus m unavailable all s) s rounds.
End metrics.
Arguments sm_RelayerMetrics {R} _.
Arguments sm_MpcMetrics {R} _.
Arguments sm_HostMetrics {R} _.

(** ** What the gauges show *)

Section metrics_facts.
Context {M : Type} `{Meter M}.

(** The counts a round sets, 0 before the first. *)
Definition last_counts {Peer} (rounds : list (list Peer * list Peer)) : Z * Z :=
  match list.last rounds with
  | Some (unavailable, all) =>
      (Z.of_nat (length all), Z.of_nat (length all) - Z.of_nat (length unavailable))
  | None => (0, 0)
  end.

Definition mpc_gauges (opts : list attribute) (p q : nat) : list (string * (list Z -> observation)) :=
  [("relayer.TotalRelayers", fun heap => {| ob_value := deref p heap; ob_attributes := opts |});
   ("relayer.AvailableRelayers", fun heap => {| ob_value := deref q heap; ob_attributes := opts |})].

Lemma gauge_Ok name callback s g s' : gauge name callback s = (Ok g, s') ->
  tl_heap s' = tl_heap s /\ callbacks (tl_meter s') = callbacks (tl_meter s) ++ [(name, callback)].
Proof.
  unfold gauge. destruct (Int64ObservableGauge name callback (tl_meter s)) as [r mt] eqn:E. intros [= -> <-].
  by apply gauge_registered in E.
Qed.

(** The set's gauges get two cells of their own. *)
Lemma NewMpcMetrics_Ok opts s m s' : NewMpcMetrics opts s = (Ok m, s') ->
  let p := length (tl_heap s) in
  me_totalRelayerCount m = p /\ me_availableRelayerCount m = S p /\
  tl_heap s' = tl_heap s ++ [0; 0] /\
  callbacks (tl_meter s') = callbacks (tl_meter s) ++ mpc_gauges opts p (S p).
Proof.
  intros E p. unfold NewMpcMetrics in E.
  apply gom_bind_Ok in E as (c1 & s1 & [= <- <-] & E). apply gom_bind_Ok in E as (c2 & s2 & [= <- <-] & E).
  apply gom_bind_Ok in E as (g1 & s3 & [Hh1 Hc1]%gauge_Ok & E).
  apply gom_bind_Ok in E as (g2 & s4 & [Hh2 Hc2]%gauge_Ok & E). injection E as <- <-. cbn in *.
  rewrite length_app in *. cbn in *. rewrite Nat.add_1_r in *. split; [done|]. split; [done|].
  rewrite Hh2, Hh1, Hc2, Hc1, <- !app_assoc. done.
Qed.

(** The rounds write the two cells of the set and nothing else. *)
Lemma track_round {Peer} m h a b (g : M) (unavailable all : list Peer) :
  me_totalRelayerCount m = length h -> me_availableRelayerCount m = S (length h) ->
  mpc_TrackRelayerStatus m unavailable all {| tl_heap := h ++ [a; b]; tl_meter := g |}
  = {| tl_heap := h ++ [Z.of_nat (length all); Z.of_nat (length all) - Z.of_nat (length unavailable)];
       tl_meter := g |}.
Proof.
  intros Ht Ha. unfold mpc_TrackRelayerStatus, assign. rewrite Ht, Ha. cbn. f_equal.
  rewrite insert_app_r_alt, Nat.sub_diag by lia. cbn.
  rewrite insert_app_r_alt, (Nat.sub_succ_l (length h) (length h)), Nat.sub_diag by lia. done.
Qed.

Lemma track_rounds {Peer} m h (g : M) (rounds : list (list Peer * list Peer)) :
  me_totalRelayerCount m = length h -> me_availableRelayerCount m = S (length h) ->
  track_all m rounds {| tl_heap := h ++ [0; 0]; tl_meter := g |}
  = {| tl_heap := h ++ [(last_counts rounds).1; (last_counts rounds).2]; tl_meter := g |}.
Proof.
  intros Ht Ha. unfold track_all, last_counts. induction rounds as [|[u l] rounds IH] using rev_ind; [done|].
  rewrite foldl_app, IH, last_snoc. cbn. by apply track_round.
Qed.

(** What a collector reads of a relayer whose metrics were created, after any rounds of
    the health check: the counts of the last round, or 0 before the first, and the time
    of the start, each with the relayer, the environment and the version; the gauges of
    sygma-core keep their place and their cells. *)
Theorem metrics_reported {R Peer} (NewRelayerMetrics : list attribute -> gom (telemetry M) R) now env relayerID version
    s m s1 (rounds : list (list Peer * list Peer)) :
  NewSygmaMetrics NewRelayerMetrics now env relayerID version s = (Ok m, s1) ->
  let attributes := [("relayerid", relayerID); ("env", env); ("version", version)] in
  let s2 := track_all (sm_MpcMetrics m) rounds s1 in
  exists s0, NewRelayerMetrics attributes s = (Ok (sm_RelayerMetrics m), s0) /\
    take (length (tl_heap s0)) (tl_heap s2) = tl_heap s0 /\
    read_gauges s2 = ((fun '(name, callback) => (name, callback (tl_heap s2))) <$> callbacks (tl_meter s0)) ++
      [("relayer.TotalRelayers", {| ob_value := (last_counts rounds).1; ob_attributes := attributes |});
       ("relayer.AvailableRelayers", {| ob_value := (last_counts rounds).2; ob_attributes := attributes |});
       ("relayer.StartTimeSeconds", {| ob_value := now; ob_attributes := attributes |})].
Proof.
  intros E attributes s2. unfold NewSygmaMetrics in E. fold attributes in E.
  apply gom_bind_Ok in E as (r & s0 & Hr & E). apply gom_bind_Ok in E as (mpc & s0' & Hm & E).
  apply gom_bind_Ok in E as (h & s1' & Hh & E). injection E as <- <-.
  apply NewMpcMetrics_Ok in Hm as (Ht & Ha & Hheap & Hcb). apply gauge_Ok in Hh as [Hh Hcb'].
  destruct s1' as [heap1 mt1]. cbn in *. rewrite Hheap in Hh. subst heap1 s2.
  exists s0. split; [done|]. rewrite track_rounds by done. cbn. split; [by rewrite take_app_length|].
  unfold read_gauges. cbn. rewrite Hcb', Hcb, <- app_assoc, fmap_app. f_equal. cbn.
  unfold deref. rewrite !lookup_app_r by lia. by rewrite Nat.sub_diag, Nat.sub_succ_l, Nat.sub_diag by lia.
Qed.
End metrics_facts.

(** ** Example *)

Module TelemetryExample.
(** A meter that takes every gauge. *)
#[export] Program Instance list_meter : Meter (list (string * (list Z -> observation))) := {|
  Int64ObservableGauge name callback l := (Ok name, l ++ [(name, callback)]);
  callbacks l := l;
|}.
Next Obligation. by intros name callback l g l' [= <- <-]. Qed.

Definition metrics : res (SygmaMetrics unit) * telemetry (list (string * (list Z -> observation))) :=
  NewSygmaMetrics (fun _ => mret tt) 1700000000 "TEST" "1" "v1" {| tl_heap := [5]; tl_meter := [] |}.
End TelemetryExample.
Import TelemetryExample.

Example metrics_reported_witness :
  exists m s1, metrics = (Ok m, s1) /\
    read_gauges (track_all (sm_MpcMetrics m) [([1], [1; 2; 3]); ([2; 3], [1; 2; 3; 4])] s1)
    = (fun '(name, v) => (name, {| ob_value := v;
                                   ob_attributes := [("relayerid", "1"); ("env", "TEST"); ("version", "v1")] |}))
      <$> [("relayer.TotalRelayers", 4); ("relayer.AvailableRelayers", 2); ("relayer.StartTimeSeconds", 1700000000)].
Proof.
  destruct metrics as [[m|e|] s1] eqn:E; [|exfalso; by vm_compute in E..]. exists m, s1. split; [reflexivity|].
  destruct (metrics_reported (fun _ => mret tt) 1700000000 "TEST" "1" "v1"
    {| tl_heap := [5]; tl_meter := [] |} m s1 [([1], [1; 2; 3]); ([2; 3], [1; 2; 3; 4])] E) as (s0 & Hr & _ & Hc).
  injection Hr as _ <-. exact Hc.
Defined.
