(* ===== verification/App.v ===== *)
(** * The application ([app/app.go])

    [Run] loads the configuration and the topology, creates the host, builds a domain
    for each configured chain and starts the relayer.  A component it creates is
    recorded with the values it is created with; the components themselves are the
    other files of this library.  Clients, key pairs, the block store and the database
    are arguments. *)

From Stdlib Require Import Ascii.
From S2P Require Import Prelude GoBytes GoStrings GoFloat GoParse GoJson Files Topology Transfer EvmDeposit EvmListener BtcTx BtcListener Config ChainConfig.

#[local] Open Scope string_scope.
#[local] Open Scope list_scope.
#[local] Open Scope Z_scope.

(** [panicOnError], and [panic(err)]. *)
Definition panicOnError {A} (r : res A) : res A :=
  match r with Err _ => Panic | r => r end.

(** [strings.ToLower] on ASCII. *)
Definition lower_char (c : ascii) : ascii :=
  if (65 <=? code c) && (code c <=? 90) then Ascii.ascii_of_nat (Ascii.nat_of_ascii c + 32) else c.
Fixpoint ToLower (s : string) : string :=
  match s with EmptyString => "" | String c s' => String (lower_char c) (ToLower s') end.

(** ** Configuration and topology *)

Section configuration.
Context {Level : Type} (ParseLevel : string -> res Level).
Context (Merge : chain_config -> chain_config -> res chain_config).
Context (MarshalTree : gmap string env_tree -> res bytes) (UnmarshalWrapper : bytes -> res RawConfig).
Context (UnmarshalChains : string -> res (list chain_config)) (UnmarshalShared : bytes -> res (list chain_config)).

(** What the outside holds: the variables, the value of [SYG_CHAINS], the answer of the
    configuration address, what the file at a path is read to. *)
Record config_sources := {
  cs_environ : list string;
  cs_chains : string;
  cs_network : string -> res bytes;
  cs_file : string -> res RawConfig;
}.

Definition load_configuration (w : config_sources) (configFlag configURL : string) : res (Config Level) :=
  shared ← (if bool_decide (configURL = "") then Ok None
            else Some <$> panicOnError (GetSharedConfigFromNetwork UnmarshalShared (cs_network w configURL)));
  if bool_decide (ToLower configFlag = "env")
  then panicOnError (GetConfigFromENV ParseLevel Merge MarshalTree UnmarshalWrapper UnmarshalChains
                       (cs_environ w) (cs_chains w) shared)
  else panicOnError (GetConfigFromFile ParseLevel Merge (cs_file w configFlag) shared).
End configuration.

Section topology.
Context `{CTR} `{TopologyLibs} `{TopologyJSON}.

(** The topology of the file, or else the published one, which is then stored. *)
Definition stored_or_published (env : os_env) (path : string) (published : res NetworkTopology)
    : gom files NetworkTopology := fun fs =>
  match stored_Topology env path fs with
  | Ok t => (Ok t, fs)
  | Panic => (Panic, fs)
  | Err _ =>
      match panicOnError published with
      | Ok t =>
          match StoreTopology env path t fs with
          | (Ok _, fs') => (Ok t, fs')
          | (_, fs') => (Panic, fs')
          end
      | _ => (Panic, fs)
      end
  end.

Definition load_topology (env : os_env) (config : TopologyConfiguration) (get : string -> res string)
    : gom files NetworkTopology :=
  decrypter ← gom_lift (panicOnError (NewAESEncryption (bytes_of_string (toc_EncryptionKey config))));
  stored_or_published env (toc_Path config) (fetch_topology decrypter (get (toc_Url config)) "").
End topology.

(** ** Domains *)

Inductive event_handler :=
| DepositEventHandler (bridge : bytes) (domainID : Z)
| KeygenEventHandler (bridge : bytes) (threshold : Z)
| FrostKeygenEventHandler (frostAddress : bytes) (threshold : Z)
(** [topology]: whether it has a topology provider and a topology store. *)
| RefreshEventHandler (bridge : bytes) (topology : bool)
| RetryV1EventHandler (bridge : bytes) (domainID blockConfirmations : Z)
| RetryV2EventHandler (retryAddress : bytes) (domainID : Z).

Inductive substrate_event_handler :=
| SubstrateRetryEventHandler (domainID : Z)
| SubstrateTransferEventHandler (domainID : Z).

(** The handlers registered with [message.MessageHandler]. *)
Inductive message_handler :=
| EvmTransferHandler
| EvmRetryHandler (blockConfirmations : Z)
| SubstrateTransferHandler
| SubstrateRetryHandler
| BtcTransferHandler
| BtcRetryHandler (blockConfirmations : Z).

Record evm_domain := {
  ed_id : Z;
  ed_bridge : bytes;
  ed_depositHandlers : gmap bytes DepositHandler;
  ed_eventHandlers : list event_handler;
  ed_messageHandlers : gmap string message_handler;
  ed_blockRetryInterval : Z;
  ed_blockConfirmations : Z;
  ed_blockInterval : Z;
  ed_transactionMaxGas : Z;
  ed_transferGas : Z;
  ed_startBlock : Z;
  ed_maxGasPrice : Z;
  ed_gasMultiplier : float64;
  ed_gasIncreasePercentage : Z;
}.

Record substrate_domain := {
  sd_id : Z;
  sd_eventHandlers : list substrate_event_handler;
  sd_messageHandlers : gmap string message_handler;
  sd_blockRetryInterval : Z;
  sd_blockInterval : Z;
  sd_startBlock : Z;
  sd_chainID : Z;
  sd_tip : Z;
}.

Record btc_domain (Address : Type) := {
  bd_chain : BtcChain;
  bd_resources : gmap bytes (ConfigResource Address);
  bd_feeAddress : Address;
  bd_messageHandlers : gmap string message_handler;
  bd_blockConfirmations : Z;
  bd_network : Params;
  bd_blockRetryInterval : Z;
  bd_mempoolUrl : string;
  bd_uploader : UploaderConfig;
}.
Arguments bd_chain {Address} _.
Arguments bd_resources {Address} _.
Arguments bd_feeAddress {Address} _.
Arguments bd_messageHandlers {Address} _.
Arguments bd_blockConfirmations {Address} _.
Arguments bd_network {Address} _.
Arguments bd_blockRetryInterval {Address} _.
Arguments bd_mempoolUrl {Address} _.
Arguments bd_uploader {Address} _.

Inductive domain (Address : Type) :=
| EvmDomain (d : evm_domain)
| SubstrateDomain (d : substrate_domain)
| BtcDomain (d : btc_domain Address).
Arguments EvmDomain {Address} d.
Arguments SubstrateDomain {Address} d.
Arguments BtcDomain {Address} d.

Definition domain_id {Address} (d : domain Address) : Z :=
  match d with
  | EvmDomain d => ed_id d
  | SubstrateDomain d => sd_id d
  | BtcDomain d => bc_id (bd_chain d)
  end.

(** btcd's [rpcclient.ConnConfig], the fields that are set. *)
Record ConnConfig := {
  cc_HTTPPostMode : bool;
  cc_Host : string;
  cc_User : string;
  cc_Pass : string;
  cc_DisableTLS : bool;
}.

(** The libraries [Run] calls: decoders of the chain configurations, key pairs, clients
    and their head, the block store of sygma-core. *)
Class AppLibs (Address : Type) := {
  DecodeEVM : chain_config -> res RawEVMConfig;
  DecodeSubstrate : chain_config -> res RawSubstrateConfig;
  DecodeBtc : chain_config -> res RawBtcConfig;
  DecodeAddress : string -> Params -> res Address;
  HexToAddress : string -> bytes;
  KeypairFromString : string -> res unit;
  KeyringPairFromSecret : string -> Z -> res unit;
  Connect : string -> res unit;
  rpcclient_New : ConnConfig -> res unit;
  GetBlockChainInfo : ConnConfig -> res string;
  LatestBlock : string -> res Z;
  GetStartBlock : Z -> Z -> bool -> bool -> res (option Z);
}.

(** [*config.GeneralChainConfig.Id] *)
Definition config_id (c : GeneralChainConfig) : res Z := or_panic (gc_Id c).

(** [handler.Type] in the switch over the configured handlers. *)
Definition deposit_handler_of (type : string) : option DepositHandler :=
  if bool_decide (type = "erc20") || bool_decide (type = "native") then Some Erc20DepositHandler
  else if bool_decide (type = "permissionlessGeneric") then Some PermissionlessGenericDepositHandler
  else if bool_decide (type = "erc721") then Some Erc721DepositHandler
  else if bool_decide (type = "erc1155") then Some Erc1155DepositHandler
  else None.

Section domains.
Context {Address : Type} `{AppLibs Address} (flags : Flags) (threshold : Z) (uploader : UploaderConfig).

(** [connection.NewBtcConnection] *)
Definition NewBtcConnection (url username password : string) (disableTLS : bool) : res unit :=
  let connConfig := {| cc_HTTPPostMode := true; cc_Host := url; cc_User := username; cc_Pass := password;
                       cc_DisableTLS := disableTLS |} in
  client ← rpcclient_New connConfig;
  _ ← GetBlockChainInfo connConfig;
  Ok client.

Definition register_handlers (handlers : list HandlerConfig) (e : gmap bytes DepositHandler)
    : gmap bytes DepositHandler :=
  foldl (fun e h => match deposit_handler_of (hc_Type h) with
                    | Some handler => RegisterDepositHandler HexToAddress (hc_Address h) handler e
                    | None => e
                    end) e handlers.

(** The block a domain starts at. *)
Definition start_block (id : Z) (general : GeneralChainConfig) (configured interval : Z) : res Z :=
  startBlock ← panicOnError (GetStartBlock id configured (gc_LatestBlock general) (gc_FreshStart general));
  startBlock ← match startBlock with
               | Some b => Ok b
               | None => panicOnError (LatestBlock (gc_Endpoint general))
               end;
  panicOnError (CalculateStartingBlock (Some startBlock) (Some interval)).

Definition new_evm_domain (chainConfig : chain_config) : res evm_domain :=
  config ← panicOnError (NewEVMConfig DecodeEVM flags chainConfig);
  _ ← panicOnError (KeypairFromString (gc_Key (ev_General config)));
  _ ← panicOnError (Connect (gc_Endpoint (ev_General config)));
  id ← config_id (ev_General config);
  let bridgeAddress := HexToAddress (ev_Bridge config) in
  let frostAddress := HexToAddress (ev_FrostKeygen config) in
  startBlock ← start_block id (ev_General config) (ev_StartBlock config) (ev_BlockInterval config);
  Ok {| ed_id := id; ed_bridge := bridgeAddress;
        ed_depositHandlers := register_handlers (ev_Handlers config) ∅;
        ed_eventHandlers :=
          [DepositEventHandler bridgeAddress id; KeygenEventHandler bridgeAddress threshold;
           FrostKeygenEventHandler frostAddress threshold; RefreshEventHandler bridgeAddress true;
           RetryV1EventHandler bridgeAddress id (ev_BlockConfirmations config)] ++
          (if bool_decide (ev_Retry config = "") then []
           else [RetryV2EventHandler (HexToAddress (ev_Retry config)) id]);
        ed_messageHandlers :=
          <[TransferMessageType := EvmTransferHandler]>
            (<[RetryMessageType := EvmRetryHandler (ev_BlockConfirmations config)]> ∅);
        ed_blockRetryInterval := ev_BlockRetryInterval config;
        ed_blockConfirmations := ev_BlockConfirmations config;
        ed_blockInterval := ev_BlockInterval config;
        ed_transactionMaxGas := u64_wrap (ev_GasLimit config); ed_transferGas := ev_TransferGas config;
        ed_startBlock := startBlock; ed_maxGasPrice := ev_MaxGasPrice config;
        ed_gasMultiplier := ev_GasMultiplier config;
        ed_gasIncreasePercentage := ev_GasIncreasePercentage config |}.

Definition new_substrate_domain (chainConfig : chain_config) : res substrate_domain :=
  config ← panicOnError (NewSubstrateConfig DecodeSubstrate flags chainConfig);
  _ ← panicOnError (Connect (gc_Endpoint (suc_General config)));
  _ ← panicOnError (KeyringPairFromSecret (gc_Key (suc_General config)) (suc_SubstrateNetwork config));
  id ← config_id (suc_General config);
  startBlock ← start_block id (suc_General config) (suc_StartBlock config) (suc_BlockInterval config);
  Ok {| sd_id := id;
        sd_eventHandlers := [SubstrateRetryEventHandler id; SubstrateTransferEventHandler id];
        sd_messageHandlers :=
          <[RetryMessageType := SubstrateRetryHandler]> (<[TransferMessageType := SubstrateTransferHandler]> ∅);
        sd_blockRetryInterval := suc_BlockRetryInterval config; sd_blockInterval := suc_BlockInterval config;
        sd_startBlock := startBlock; sd_chainID := suc_ChainID config; sd_tip := suc_Tip config |}.

(** [resources[resource.ResourceID] = resource] *)
Definition resource_map (rs : list (ConfigResource Address)) : gmap bytes (ConfigResource Address) :=
  foldl (fun m r => <[cr_ResourceID r := r]> m) ∅ rs.

Definition new_btc_domain (chainConfig : chain_config) : res (btc_domain Address) :=
  config ← panicOnError (NewBtcConfig DecodeAddress DecodeBtc flags chainConfig);
  _ ← panicOnError (NewBtcConnection (gc_Endpoint (bt_General config)) (bt_Username config)
                      (bt_Password config) false);
  id ← config_id (bt_General config);
  Ok {| bd_chain := NewBtcChain id; bd_resources := resource_map (bt_Resources config);
        bd_feeAddress := bt_FeeAddress config;
        bd_messageHandlers :=
          <[RetryMessageType := BtcRetryHandler (bt_BlockConfirmations config)]>
            (<[TransferMessageType := BtcTransferHandler]> ∅);
        bd_blockConfirmations := bt_BlockConfirmations config; bd_network := bt_Network config;
        bd_blockRetryInterval := bt_BlockRetryInterval config; bd_mempoolUrl := bt_MempoolUrl config;
        bd_uploader := uploader |}.

(** The switch on [chainConfig["type"]]. *)
Definition new_domain (chainConfig : chain_config) : res (domain Address) :=
  match chainConfig !! "type" with
  | Some (JString "evm") => EvmDomain <$> new_evm_domain chainConfig
  | Some (JString "substrate") => SubstrateDomain <$> new_substrate_domain chainConfig
  | Some (JString "btc") => BtcDomain <$> new_btc_domain chainConfig
  | _ => Panic
  end.

Fixpoint build_domains (configs : list chain_config) (domains : gmap Z (domain Address))
    : res (gmap Z (domain Address)) :=
  match configs with
  | [] => Ok domains
  | chainConfig :: rest =>
      d ← new_domain chainConfig;
      build_domains rest (<[domain_id d := d]> domains)
  end.
End domains.

(** ** Start of the relayer *)

Record started_relayer (PS Address DB : Type) := {
  rn_topology : NetworkTopology;
  rn_gate : NetworkTopology;
  rn_host : PS;
  rn_healthPort : Z;
  rn_bully : BullyConfig;
  rn_database : DB;
  rn_keysharePath : string;
  rn_frostKeysharePath : string;
  rn_healthCheckInterval : Z;
  rn_domains : gmap Z (domain Address);
  rn_member : bool;
}.
Arguments rn_topology {PS Address DB} _.
Arguments rn_gate {PS Address DB} _.
Arguments rn_host {PS Address DB} _.
Arguments rn_healthPort {PS Address DB} _.
Arguments rn_bully {PS Address DB} _.
Arguments rn_database {PS Address DB} _.
Arguments rn_keysharePath {PS Address DB} _.
Arguments rn_frostKeysharePath {PS Address DB} _.
Arguments rn_healthCheckInterval {PS Address DB} _.
Arguments rn_domains {PS Address DB} _.
Arguments rn_member {PS Address DB} _.

(** The loop that opens the database every ten seconds until the old instance has let
    go of it: [None] as long as it waits. *)
Fixpoint open_database {DB : Type} (attempts : list (res DB)) : option (res DB) :=
  match attempts with
  | [] => None
  | Ok db :: _ => Some (Ok db)
  | Err _ :: rest => open_database rest
  | Panic :: _ => Some Panic
  end.

(** What [Run] is given by the outside: the decoded libp2p key, the host listening at a
    port, the answers of the database, the collector of the metrics and the registration
    of the gauges, and whether there is a key share. *)
Record surroundings (PS DB : Type) := {
  sr_privKey : string -> res unit;
  sr_libp2p_New : Z -> res PS;
  sr_database : list (res DB);
  sr_metricProvider : string -> res unit;
  sr_metrics : string -> string -> res unit;
  sr_GetKeyshare : string -> bool;
}.
Arguments sr_privKey {PS DB} _.
Arguments sr_libp2p_New {PS DB} _.
Arguments sr_database {PS DB} _.
Arguments sr_metricProvider {PS DB} _.
Arguments sr_metrics {PS DB} _.
Arguments sr_GetKeyshare {PS DB} _.

Section run.
Context {Address PS DB Level : Type} `{CTR} `{TopologyLibs} `{TopologyJSON} `{Peerstore PS} `{AppLibs Address}.

(** The part of [Run] after the host is created; [None] while it waits for the
    database. *)
Definition run_domains (configuration : Config Level) (flags : Flags) (w : surroundings PS DB)
    (networkTopology : NetworkTopology) (host : PS) : res (option (started_relayer PS Address DB)) :=
  let relayer := cf_RelayerConfig configuration in
  let mpc := rc_MpcConfig relayer in
  match open_database (sr_database w) with
  | None => Ok None
  | Some db =>
      db ← panicOnError db;
      _ ← panicOnError (sr_metricProvider w (rc_OpenTelemetryCollectorURL relayer));
      _ ← panicOnError (sr_metrics w (rc_Env relayer) (rc_Id relayer));
      domains ← build_domains flags (nt_Threshold networkTopology) (rc_UploaderConfig relayer)
                  (cf_ChainConfigs configuration) ∅;
      Ok (Some {| rn_topology := networkTopology; rn_gate := networkTopology; rn_host := host;
                  rn_healthPort := rc_HealthPort relayer; rn_bully := rc_BullyConfig relayer;
                  rn_database := db; rn_keysharePath := mc_KeysharePath mpc;
                  rn_frostKeysharePath := mc_FrostKeysharePath mpc;
                  rn_healthCheckInterval := mc_CommHealthCheckInterval mpc; rn_domains := domains;
                  rn_member := sr_GetKeyshare w (mc_KeysharePath mpc) |})
  end.

Definition Run (configuration : res (Config Level)) (flags : Flags) (env : os_env) (get : string -> res string)
    (w : surroundings PS DB) : gom files (option (started_relayer PS Address DB)) :=
  configuration ← gom_lift (panicOnError configuration);
  let mpc := rc_MpcConfig (cf_RelayerConfig configuration) in
  networkTopology ← load_topology env (mc_TopologyConfiguration mpc) get;
  _ ← gom_lift (panicOnError (sr_privKey w (mc_Key mpc)));
  host ← gom_lift (panicOnError (NewHost true (sr_libp2p_New w (mc_Port mpc)) networkTopology));
  gom_lift (run_domains configuration flags w networkTopology host).
End run.

(** ** What a start establishes *)

Lemma panicOnError_Ok {A} (r : res A) a : panicOnError r = Ok a -> r = Ok a.
Proof. by destruct r. Qed.

Section topology_facts.
Context `{CTR} `{TopologyLibs} `{TopologyJSON}.

(** Once loaded, a topology is in its file: the next start gets the same one,
    whatever is published then. *)
Lemma stored_or_published_stored env path published fs t fs' :
  os_read env = None -> stored_or_published env path published fs = (Ok t, fs') ->
  stored_Topology env path fs' = Ok t /\
  (stored_Topology env path fs = Ok t \/ published = Ok t).
Proof.
  intros Hread E. unfold stored_or_published in E. destruct (stored_Topology env path fs) as [t0|e|] eqn:Es; simplify_eq.
  - auto.
  - destruct published as [t0|?|]; simpl in E; [|done..].
    destruct (StoreTopology env path t0 fs) as [r fs1] eqn:Est. destruct r; simplify_eq. split; [|by right].
    unfold StoreTopology in Est. destruct a.
    destruct (store_file_read _ env _ _ _ _ Est Hread) as (kb & Hm & Hr).
    unfold stored_Topology. rewrite Hr. simpl. by apply topology_json.
Qed.

Lemma stored_or_published_again env path published t fs :
  stored_Topology env path fs = Ok t -> stored_or_published env path published fs = (Ok t, fs).
Proof. intros E. unfold stored_or_published. by rewrite E. Qed.
End topology_facts.

(** The last domain of a list with an identifier. *)
Definition last_with_id {Address} (built : list (domain Address)) (id : Z) (d : domain Address) : Prop :=
  exists pre post, built = pre ++ d :: post /\ domain_id d = id /\ Forall (fun e => domain_id e <> id) post.

Section domain_facts.
Context {Address : Type} `{AppLibs Address} (flags : Flags) (threshold : Z) (uploader : UploaderConfig).

Lemma build_domains_Ok configs : forall ds ds', build_domains flags threshold uploader configs ds = Ok ds' <->
  exists built, Forall2 (fun c d => new_domain flags threshold uploader c = Ok d) configs built /\
    ds' = foldl (fun m d => <[domain_id d := d]> m) ds built.
Proof.
  induction configs as [|c configs IH]; intros ds ds'; simpl.
  - split; [intros [= <-]; by exists []|]. by intros (built & ->%Forall2_nil_inv_l & ->).
  - split.
    + intros (d & Hd & Hr)%outcome_bind_Ok. apply IH in Hr as (built & Hb & ->).
      exists (d :: built). split; [by constructor|done].
    + intros (built & Hb & ->). apply Forall2_cons_inv_l in Hb as (d & built' & Hd & Hr & ->).
      rewrite Hd. simpl. apply IH. by exists built'.
Qed.

Lemma domains_lookup (built : list (domain Address)) id d :
  foldl (fun m d => <[domain_id d := d]> m) (∅ : gmap Z (domain Address)) built !! id = Some d <-> last_with_id built id d.
Proof.
  induction built as [|e built IH] using rev_ind.
  { simpl. rewrite lookup_empty. split; [done|]. intros ([|] & post & E & _); done. }
  rewrite foldl_app. simpl. destruct (decide (domain_id e = id)) as [He|He].
  - rewrite He, lookup_insert_eq. split.
    + intros [= ->]. by exists built, [].
    + intros (pre & post & E & Hid & Hpost). destruct post as [|x post _] using rev_ind.
      * by apply app_inj_tail in E as [_ ->].
      * rewrite app_comm_cons, app_assoc in E. apply app_inj_tail in E as [_ ->].
        apply list.Forall_app in Hpost as [_ [Hx _]%list.Forall_cons]. done.
  - rewrite lookup_insert_ne by done. rewrite IH. split.
    + intros (pre & post & -> & Hid & Hpost). exists pre, (post ++ [e]).
      split; [by rewrite <- app_assoc|]. split; [done|]. apply list.Forall_app. by repeat constructor.
    + intros (pre & post & E & Hid & Hpost). destruct post as [|x post _] using rev_ind.
      * apply app_inj_tail in E as [_ ->]. done.
      * rewrite app_comm_cons, app_assoc in E. apply app_inj_tail in E as [-> ->].
        apply list.Forall_app in Hpost as [Hpost _]. by exists pre, post.
Qed.

(** The block to start at is found whenever the store and the client answer: the
    interval of a configuration is not zero. *)
Lemma start_block_Ok id general configured interval stored b :
  interval <> 0 ->
  GetStartBlock id configured (gc_LatestBlock general) (gc_FreshStart general) = Ok stored ->
  (stored = Some b \/ stored = None /\ LatestBlock (gc_Endpoint general) = Ok b) ->
  start_block id general configured interval = Ok (b - b mod Z.abs interval).
Proof.
  intros Hi Hs Hb. unfold start_block. rewrite Hs. simpl.
  assert (match stored with Some b => Ok b | None => panicOnError (LatestBlock (gc_Endpoint general)) end = Ok b)
    as -> by (by destruct Hb as [->|[-> ->]]).
  simpl. by destruct (Z.eqb_spec interval 0).
Qed.

Lemma start_block_inv id general configured interval b :
  interval <> 0 -> start_block id general configured interval = Ok b ->
  exists from, b = from - from mod Z.abs interval /\
    (GetStartBlock id configured (gc_LatestBlock general) (gc_FreshStart general) = Ok (Some from) \/
     GetStartBlock id configured (gc_LatestBlock general) (gc_FreshStart general) = Ok None /\
     LatestBlock (gc_Endpoint general) = Ok from).
Proof.
  intros Hi. unfold start_block. intros (stored & Hs%panicOnError_Ok & E)%outcome_bind_Ok.
  apply outcome_bind_Ok in E as (from & Hf & Hc%panicOnError_Ok). simpl in Hc.
  destruct (Z.eqb_spec interval 0); [done|]. injection Hc as <-. exists from. split; [done|].
  rewrite Hs. destruct stored as [x|]; [injection Hf as ->; by left|]. apply panicOnError_Ok in Hf. by right.
Qed.

(** The handler of an address is that of the last entry for it with a known type. *)
Definition registers (a : bytes) (h : HandlerConfig) : bool :=
  negb (bool_decide (hc_Address h = "")) && bool_decide (HexToAddress (hc_Address h) = a) &&
  match deposit_handler_of (hc_Type h) with Some _ => true | None => false end.

Lemma register_step hs h a :
  register_handlers (hs ++ [h]) ∅ !! a =
  if registers a h then deposit_handler_of (hc_Type h) else register_handlers hs ∅ !! a.
Proof.
  unfold register_handlers. rewrite foldl_app. cbn [foldl]. unfold registers, RegisterDepositHandler.
  destruct (deposit_handler_of (hc_Type h)) as [k|]; [|by rewrite andb_false_r].
  destruct (bool_decide (hc_Address h = "")); [done|]. simpl. rewrite andb_true_r.
  destruct (decide (HexToAddress (hc_Address h) = a)) as [Ha|Ha].
  - rewrite (bool_decide_eq_true_2 _ Ha). by rewrite Ha, lookup_insert_eq.
  - rewrite (bool_decide_eq_false_2 _ Ha). by rewrite lookup_insert_ne.
Qed.

Lemma register_handlers_lookup handlers a :
  register_handlers handlers ∅ !! a =
  match list.last (filter (fun h => registers a h = true) handlers) with
  | Some h => deposit_handler_of (hc_Type h)
  | None => None
  end.
Proof.
  induction handlers as [|h handlers IH] using rev_ind; [done|].
  rewrite register_step, list.filter_app, filter_cons, filter_nil.
  destruct (registers a h) eqn:E; case_decide; try congruence.
  - by rewrite last_snoc.
  - by rewrite app_nil_r, IH.
Qed.
End domain_facts.

Section wiring.
Context {Address : Type} `{AppLibs Address} (flags : Flags) (threshold : Z) (uploader : UploaderConfig).

(** An EVM domain is wired as configured: its identifier is the configured one and
    fits 8 bits; it polls from the multiple of the interval at or below the stored, or
    else the latest, block, at most one interval before it; a deposit is decoded by
    the handler type of the last entry for its handler contract; retries of the
    second version are listened to exactly when a contract is configured; at least
    one confirmation is awaited. *)
Theorem evm_domain_wired m raw d :
  DecodeEVM m = Ok raw -> evm_typed raw -> new_evm_domain flags threshold m = Ok d ->
  gc_Id (rev_General raw) = Some (ed_id d) /\ is_u8 (ed_id d) /\
  (exists from, ed_startBlock d <= from < ed_startBlock d + Z.abs (ed_blockInterval d) /\
     ed_startBlock d mod Z.abs (ed_blockInterval d) = 0 /\
     let g := ParseFlags flags (rev_General raw) in
     (GetStartBlock (ed_id d) (rev_StartBlock raw) (gc_LatestBlock g) (gc_FreshStart g) = Ok (Some from) \/
      GetStartBlock (ed_id d) (rev_StartBlock raw) (gc_LatestBlock g) (gc_FreshStart g) = Ok None /\
      LatestBlock (gc_Endpoint g) = Ok from)) /\
  (forall a, ed_depositHandlers d !! a =
     match list.last (filter (fun h => registers a h = true) (rev_Handlers raw)) with
     | Some h => deposit_handler_of (hc_Type h)
     | None => None
     end) /\
  (RetryV2EventHandler (HexToAddress (rev_Retry raw)) (ed_id d) ∈ ed_eventHandlers d <-> rev_Retry raw <> "") /\
  1 <= ed_blockConfirmations d.
Proof.
  intros Hraw Ht E. unfold new_evm_domain in E.
  apply outcome_bind_Ok in E as (c & Hc%panicOnError_Ok & E).
  pose proof (evm_config_wf _ _ _ _ _ Ht Hraw Hc) as Hwf.
  apply outcome_bind_Ok in E as ([] & _ & E). apply outcome_bind_Ok in E as ([] & _ & E).
  apply outcome_bind_Ok in E as (id & Hid%or_panic_Ok & E). apply outcome_bind_Ok in E as (b & Hb & E).
  unfold NewEVMConfig in Hc. rewrite Hraw in Hc. simpl in Hc. apply validated_Ok in Hc as (_ & Hc).
  apply outcome_bind_Ok in Hc as (x & _ & [= <-]). injection E as <-. simpl in *.
  destruct Hwf as [((id' & Hid' & Hu8) & _) _ (_ & _ & Hi & _) (Hconf & _) _ _ _]. simpl in *.
  rewrite Hid in Hid'. injection Hid' as <-.
  split; [done|]. split; [done|]. split.
  { apply start_block_inv in Hb as (from & -> & Hfrom); [|done]. exists from.
    pose proof (Z.mod_pos_bound from (Z.abs (or_default_Z (rev_BlockInterval raw) 5)) ltac:(lia)).
    split; [lia|]. split; [|done].
    rewrite Zminus_mod, Z.mod_mod, Z.sub_diag by lia. apply Z.mod_0_l. lia. }
  split; [intros a; apply register_handlers_lookup|]. split; [|done].
  case_bool_decide as Hr; split; try done.
  - intros Hin. by repeat (apply elem_of_cons in Hin as [Hin|Hin]; [done|]); apply not_elem_of_nil in Hin.
  - intros _. by repeat (first [by left|right]).
Qed.

(** Every configured chain becomes a domain or the relayer does not start, and a
    domain is found by its identifier: the last of the chains configured with it. *)
Theorem domains_built configs ds :
  build_domains flags threshold uploader configs ∅ = Ok ds ->
  exists built, Forall2 (fun c d => new_domain flags threshold uploader c = Ok d) configs built /\
    (forall id d, ds !! id = Some d <-> last_with_id built id d) /\
    (NoDup (domain_id <$> built) -> forall d, d ∈ built -> ds !! domain_id d = Some d).
Proof.
  intros (built & Hb & ->)%build_domains_Ok. exists built. split; [done|].
  split; [intros; apply domains_lookup|]. intros Hnd d Hd. apply domains_lookup.
  apply list_elem_of_split in Hd as (pre & post & ->). exists pre, post. split; [done|]. split; [done|].
  rewrite fmap_app, fmap_cons in Hnd. apply list.NoDup_app in Hnd as (_ & _ & [Hnd _]%list.NoDup_cons).
  apply list.Forall_forall. intros e He Heq. apply Hnd. rewrite <- Heq. by apply list_elem_of_fmap_2.
Qed.
End wiring.

Section run_facts.
Context {Address PS DB Level : Type} `{CTR} `{TopologyLibs} `{TopologyJSON} `{PeerstoreSpec PS} `{AppLibs Address}.

(** The database is the first one that could be opened; until then nothing is built. *)
Lemma open_database_Some (attempts : list (res DB)) db :
  open_database attempts = Some (Ok db) <->
  exists waits rest, attempts = waits ++ Ok db :: rest /\ Forall (fun a => exists e, a = Err e) waits.
Proof.
  induction attempts as [|[a|e|] l IH]; cbn.
  - split; [done|]. by intros ([|] & rest & E & _).
  - split; [intros [= ->]; by exists [], l|].
    intros ([|w waits] & rest & E & Hw); injection E as E1 E2; [by simplify_eq|].
    subst w. by apply list.Forall_cons in Hw as [(e & He) _].
  - rewrite IH. split.
    + intros (waits & rest & -> & Hw). exists (Err e :: waits), rest. split; [done|]. constructor; [by exists e|done].
    + intros ([|w waits] & rest & E & Hw); [done|]. injection E as E1 E2. subst.
      apply list.Forall_cons in Hw as [_ Hw]. by exists waits, rest.
  - split; [done|]. intros ([|w waits] & rest & E & Hw); [done|]. injection E as E1 E2. subst.
    by apply list.Forall_cons in Hw as [(e & He) _].
Qed.

Lemma run_domains_Some (configuration : Config Level) flags (w : surroundings PS DB) t h r :
  run_domains (Address := Address) configuration flags w t h = Ok (Some r) ->
  rn_topology r = t /\ rn_gate r = t /\ rn_host r = h /\
  open_database (sr_database w) = Some (Ok (rn_database r)) /\
  build_domains flags (nt_Threshold t) (rc_UploaderConfig (cf_RelayerConfig configuration))
    (cf_ChainConfigs configuration) ∅ = Ok (rn_domains r).
Proof.
  unfold run_domains. destruct (open_database _) as [db|]; [|done].
  intros (db' & Hdb%panicOnError_Ok & E)%outcome_bind_Ok. apply outcome_bind_Ok in E as (? & _ & E).
  apply outcome_bind_Ok in E as (? & _ & E). apply outcome_bind_Ok in E as (ds & Hds & [= <-]). by subst db.
Qed.

(** C34. A relayer that starts talks to its topology and to nobody else: the topology is
    the stored one, or the published one when none is stored, and is stored, so that
    the next start uses it whatever is published; the peers of the host are those the
    connection gate allows; the threshold of the key generation handlers is the
    topology's.  The domains are built once the database was opened, after any number of
    failed attempts.  *)
Theorem Run_started (configuration : Config Level) flags env get (w : surroundings PS DB) fs r fs' :
  let config := mc_TopologyConfiguration (rc_MpcConfig (cf_RelayerConfig configuration)) in
  os_read env = None ->
  Run (Address := Address) (Ok configuration) flags env get w fs = (Ok (Some r), fs') ->
  (stored_Topology env (toc_Path config) fs = Ok (rn_topology r) \/
   fetch_topology (bytes_of_string (toc_EncryptionKey config)) (get (toc_Url config)) "" = Ok (rn_topology r)) /\
  (forall get', load_topology env config get' fs' = (Ok (rn_topology r), fs')) /\
  (forall p, InterceptPeerDial (rn_gate r) p = true <-> p ∈ ps_Peers (rn_host r)) /\
  build_domains flags (nt_Threshold (rn_topology r)) (rc_UploaderConfig (cf_RelayerConfig configuration))
    (cf_ChainConfigs configuration) ∅ = Ok (rn_domains r) /\
  (exists waits rest, sr_database w = waits ++ Ok (rn_database r) :: rest /\
     Forall (fun a => exists e, a = Err e) waits).
Proof.
  intros config Hread E. unfold Run in E. rewrite gom_lift_bind in E. cbn [panicOnError] in E.
  apply gom_bind_Ok in E as (t & fs1 & Ht & E). fold config in Ht.
  rewrite gom_lift_bind in E. destruct (panicOnError (sr_privKey w _)) as [u| |]; [|done..].
  rewrite gom_lift_bind in E. destruct (panicOnError (NewHost _ _ _)) as [h| |] eqn:Eh; [|done..].
  apply gom_lift_Ok in E as [(<- & Eg & <- & Hdb & Hds)%run_domains_Some ->]. rewrite Eg.
  apply panicOnError_Ok in Eh. apply open_database_Some in Hdb.
  unfold load_topology in Ht |- *. rewrite gom_lift_bind in Ht.
  destruct (panicOnError (NewAESEncryption _)) as [key| |] eqn:Ek; [|done..].
  assert (key = bytes_of_string (toc_EncryptionKey config)) as ->.
  { apply panicOnError_Ok in Ek. unfold NewAESEncryption in Ek. case_bool_decide; by simplify_eq. }
  destruct (stored_or_published_stored _ _ _ _ _ _ Hread Ht) as [Hst Hor].
  split; [done|]. split; [|split; [|done]].
  - intros get'. rewrite gom_lift_bind. by apply stored_or_published_again.
  - by apply (NewHost_allowed true (sr_libp2p_New w (mc_Port (rc_MpcConfig (cf_RelayerConfig configuration))))).
Qed.
End run_facts.

(** ** Example *)

Module AppExample.
Import TopologyExample.

Definition key : string := "0123456789abcdef".

(** A provider of a document with two relayers, which hashes to itself. *)
#[export] Instance two_relayers : TopologyLibs := {|
  sha256 l := l;
  AddrInfoFromString s := Ok {| ai_ID := s; ai_Addrs := [s] |};
|}.
Definition agreed : NetworkTopology :=
  {| nt_Peers := [{| ai_ID := "a"; ai_Addrs := ["a"] |}; {| ai_ID := "b"; ai_Addrs := ["b"] |}]; nt_Threshold := 1 |}.
Definition get (url : string) : res string :=
  if bool_decide (url = "https://topology") then
    ct ← Encrypt (bytes_of_string key) (marshal_json (raw_doc {| rt_Peers := ["a"; "b"]; rt_Threshold := "1" |}))
           (Ok (be_fixed 16 9));
    Ok (hex_encode ct)
  else Err "get".

Definition general (id : Z) : GeneralChainConfig :=
  {| gc_Name := "chain"; gc_Id := Some id; gc_Endpoint := "ws://node"; gc_Type := ""; gc_BlockstorePath := "";
     gc_FreshStart := false; gc_LatestBlock := false; gc_Key := "k"; gc_Insecure := false |}.

Definition raw_evm : RawEVMConfig :=
  {| rev_General := general 1; rev_Bridge := "bridge"; rev_Retry := "retry"; rev_FrostKeygen := "frost";
     rev_Handlers := [{| hc_Address := "h1"; hc_Type := "erc721" |}; {| hc_Address := "h1"; hc_Type := "native" |};
                      {| hc_Address := "h2"; hc_Type := "unknown" |}];
     rev_MaxGasPrice := 0; rev_GasMultiplier := Floats.SpecFloat.S754_zero false; rev_GasIncreasePercentage := 0;
     rev_GasLimit := 0; rev_TransferGas := 0; rev_StartBlock := 100; rev_BlockConfirmations := 5;
     rev_BlockInterval := 0; rev_BlockRetryInterval := 0 |}.
Definition raw_substrate : RawSubstrateConfig :=
  {| rsc_General := general 2; rsc_ChainID := 5; rsc_StartBlock := 0; rsc_BlockInterval := 0;
     rsc_BlockRetryInterval := 0; rsc_SubstrateNetwork := 42; rsc_Tip := 0 |}.
Definition raw_btc : RawBtcConfig :=
  {| rbt_General := general 3; rbt_Resources := []; rbt_StartBlock := 0; rbt_FeeAddress := "fee";
     rbt_Username := "user"; rbt_Password := "pass"; rbt_BlockInterval := 0; rbt_BlockRetryInterval := 0;
     rbt_BlockConfirmations := 0; rbt_Network := "regtest"; rbt_MempoolUrl := "" |}.

(** Chain 1 was polled up to block 1234; the others start at the head, 90. *)
#[export] Instance app_libs : AppLibs string := {|
  DecodeEVM _ := Ok raw_evm;
  DecodeSubstrate _ := Ok raw_substrate;
  DecodeBtc _ := Ok raw_btc;
  DecodeAddress s _ := Ok s;
  HexToAddress := bytes_of_string;
  KeypairFromString _ := Ok tt;
  KeyringPairFromSecret _ _ := Ok tt;
  Connect _ := Ok tt;
  rpcclient_New _ := Ok tt;
  GetBlockChainInfo _ := Ok "main";
  LatestBlock _ := Ok 90;
  GetStartBlock id start latest fresh := Ok (if id =? 1 then Some 1234 else None);
|}.

Definition flags : Flags := {| fl_blockstore := "./lvldbdata"; fl_fresh := false; fl_latest := false |}.
Definition chains : list chain_config :=
  [{[ "type" := JString "evm" ]}; {[ "type" := JString "substrate" ]}; {[ "type" := JString "btc" ]}].
Definition configuration : Config nat :=
  {| cf_RelayerConfig :=
       {| rc_OpenTelemetryCollectorURL := ""; rc_LogLevel := 1%nat; rc_LogFile := ""; rc_HealthPort := 9001;
          rc_Env := ""; rc_Id := "";
          rc_MpcConfig :=
            {| mc_TopologyConfiguration :=
                 {| toc_EncryptionKey := key; toc_Url := "https://topology"; toc_Path := "/topology" |};
               mc_Port := 9000; mc_KeysharePath := ""; mc_FrostKeysharePath := ""; mc_Key := "";
               mc_CommHealthCheckInterval := 0 |};
          rc_BullyConfig := {| bcf_PingWaitTime := 0; bcf_PingBackOff := 0; bcf_PingInterval := 0;
                               bcf_ElectionWaitTime := 0; bcf_BullyWaitTime := 0 |};
          rc_UploaderConfig := {| uc_URL := ""; uc_AuthToken := ""; uc_MaxRetries := 0; uc_MaxElapsedTime := 0 |} |};
     cf_ChainConfigs := chains |}.

(** The database is locked at first. *)
Definition outside : surroundings (gmap string (list string)) nat :=
  {| sr_privKey := fun _ => Ok tt; sr_libp2p_New := fun _ => Ok ∅; sr_database := [Err "locked"; Err "locked"; Ok 7%nat];
     sr_metricProvider := fun _ => Ok tt; sr_metrics := fun _ _ => Ok tt; sr_GetKeyshare := fun _ => false |}.

Definition uploader : UploaderConfig := rc_UploaderConfig (cf_RelayerConfig configuration).

Definition first_start : res (option (started_relayer (gmap string (list string)) string nat)) * files :=
  Run (Ok configuration) flags os_ok get outside ∅.
End AppExample.
Import TopologyExample AppExample.

Example evm_domain_wired_witness :
  exists d, new_evm_domain flags 2 ∅ = Ok d /\ ed_startBlock d = 1230 /\
    ed_depositHandlers d !! bytes_of_string "h1" = Some Erc20DepositHandler /\
    (RetryV2EventHandler (HexToAddress (rev_Retry raw_evm)) (ed_id d) ∈ ed_eventHandlers d).
Proof.
  assert (match new_evm_domain flags 2 ∅ with Ok d => ed_startBlock d =? 1230 | _ => false end = true) as Hs
    by (vm_compute; reflexivity).
  destruct (new_evm_domain flags 2 ∅) as [d|e|] eqn:E; [|discriminate Hs..].
  exists d. split; [reflexivity|].
  destruct (evm_domain_wired flags 2 ∅ raw_evm d) as (_ & _ & _ & Hh & Hr & _); [reflexivity| |exact E|].
  { split; [unfold general_typed, is_u8; simpl; lia|].
    rewrite !list.Forall_cons, !list.Forall_nil. unfold is_i64, is_u64. simpl. lia. }
  split; [|split].
  - by apply Z.eqb_eq.
  - rewrite Hh. by vm_compute.
  - apply Hr. discriminate.
Defined.

Example domains_built_witness :
  exists ds, build_domains flags 2 uploader chains ∅ = Ok ds /\
    (exists d, ds !! 3 = Some (BtcDomain d) /\ bc_startBlock (bd_chain d) = None) /\
    exists built, Forall2 (fun c d => new_domain flags 2 uploader c = Ok d) chains built /\
      forall id d, ds !! id = Some d <-> last_with_id built id d.
Proof.
  assert (match build_domains flags 2 uploader chains ∅ with
          | Ok ds => match ds !! 3 with
                     | Some (BtcDomain d) => bool_decide (bc_startBlock (bd_chain d) = None) | _ => false end
          | _ => false end = true) as Hs by (vm_compute; reflexivity).
  destruct (build_domains flags 2 uploader chains ∅) as [ds|e|] eqn:E; [|discriminate Hs..].
  exists ds. split; [reflexivity|]. split.
  - destruct (ds !! 3) as [[]|]; try discriminate Hs. eexists. split; [reflexivity|].
    by apply (bool_decide_unpack _), Is_true_true_2.
  - destruct (domains_built flags 2 uploader chains ds E) as (built & Hb & Hl & _). by exists built.
Defined.

Example Run_started_witness :
  exists r fs, first_start = (Ok (Some r), fs) /\ rn_topology r = agreed /\ rn_database r = 7%nat /\
    (forall p, InterceptPeerDial (rn_gate r) p = true <-> p ∈ ps_Peers (rn_host r)).
Proof.
  assert (match first_start with
          | (Ok (Some r), _) => rn_topology r = agreed /\ rn_database r = 7%nat | _ => False end) as Ht
    by (vm_compute; split; reflexivity).
  destruct first_start as [[[r|]|e|] fs] eqn:E; [|destruct Ht..].
  exists r, fs. split; [reflexivity|]. destruct Ht as [Ht Hdb]. split; [exact Ht|]. split; [exact Hdb|].
  exact (proj1 (proj2 (proj2 (Run_started configuration flags os_ok get outside ∅ r fs eq_refl E)))).
Defined.
