(* ===== verification/TssLoops.v ===== *)
(** * The loops of a threshold process ([tss/ecdsa/common], [tss/message],
      [tss/ecdsa/signing], [tss/ecdsa/keygen], [tss/ecdsa/resharing])

    Once started, a process runs concurrent loops: one hands the messages of the other
    relayers to the party of the threshold protocol, one sends the party's messages,
    one waits for its result, and a signing also watches for a party that is stuck.
    Each loop body is a function of the event it receives; a loop is its iteration
    over a list of events and a run the interleaving of its loops.  The party is an
    argument. *)

From S2P Require Import Prelude GoBytes GoStrings GoBase64 GoJson Files Keyshare Comm Elector Coordinator Tss.

#[local] Open Scope string_scope.
#[local] Open Scope list_scope.
#[local] Open Scope Z_scope.

(** ** Messages *)

Record TssMessage := { tm_MsgBytes : bytes; tm_IsBroadcast : bool }.

(** Its JSON document. *)
Definition tss_fields : list string := ["msgBytes"; "isBroadcast"].

Definition tss_json (m : TssMessage) : json :=
  JObject [("msgBytes", JString (base64_encode (tm_MsgBytes m))); ("isBroadcast", JBool (tm_IsBroadcast m))].

Definition store_tss (m : TssMessage) (name : string) (v : json) : res TssMessage :=
  if bool_decide (name = "msgBytes") then
    b ← into_bytes v; Ok {| tm_MsgBytes := b; tm_IsBroadcast := tm_IsBroadcast m |}
  else
    f ← into_bool (tm_IsBroadcast m) v; Ok {| tm_MsgBytes := tm_MsgBytes m; tm_IsBroadcast := f |}.

Definition into_tss : json -> res TssMessage :=
  into_struct tss_fields store_tss {| tm_MsgBytes := []; tm_IsBroadcast := false |}.

Lemma tss_printable m : printable 9 (tss_json m) /\ match tss_json m with JArray _ | JObject _ => True | _ => False end.
Proof. split; [|done]. cbn. repeat constructor; cbn; try done. apply base64_plain. Qed.

Lemma into_tss_json m : into_tss (tss_json m) = Ok m.
Proof.
  unfold into_tss, tss_json. rewrite into_struct_fields by (unfold tss_fields; repeat constructor; set_solver).
  cbn. unfold store_tss. cbn. rewrite into_bytes_encode. cbn. by destruct m.
Qed.

#[export] Instance tss_message_json : JSON TssMessage := struct_json tss_json into_tss tss_printable into_tss_json.

Definition MarshalTssMessage (msgBytes : bytes) (isBroadcast : bool) : res bytes :=
  json_Marshal {| tm_MsgBytes := msgBytes; tm_IsBroadcast := isBroadcast |}.
Definition UnmarshalTssMessage (msgBytes : bytes) : res TssMessage :=
  json_Unmarshal msgBytes.

Lemma tss_message_roundtrip msgBytes isBroadcast : exists b, MarshalTssMessage msgBytes isBroadcast = Ok b /\
  UnmarshalTssMessage b = Ok {| tm_MsgBytes := msgBytes; tm_IsBroadcast := isBroadcast |}.
Proof. eexists. split; [reflexivity|]. by apply (json_roundtrip (JSON := tss_message_json)). Qed.

(** [Party] of tss-lib: the outcome of an update is its error, and the party after it. *)
Class Party (P : Type) := {
  UpdateFromBytes : bytes -> option PartyID -> bool -> Z -> P -> outcome tss_error unit * P;
}.

(** A message the party sends: its wire bytes with the routing's broadcast flag, and the
    flag and recipients of the message. *)
Record OutMessage := {
  om_WireBytes : res (bytes * bool);
  om_IsBroadcast : bool;
  om_To : list PartyID;
}.

(** ** Loop bodies: the party after the event and, if the loop returns, its error *)

Section bodies.
Context `{PeerText} {P : Type} `{Party P}.

(** The inbound loop recovers a panic and returns the stack; a panic of another loop is
    kept by the pool, which cancels the context, and raised again by [Wait]. *)
Definition recovered : tss_error := OtherError "goroutine stack".
Definition pool_panic : tss_error := OtherError "panic".

Definition inbound_body (PartyStore : gmap string PartyID) (SID : string) (wMsg : WrappedMessage PeerID) (party : P)
    : option (option tss_error) * P :=
  match UnmarshalTssMessage (wm_Payload wMsg) with
  | Err e => (Some (Some (OtherError e)), party)
  | Panic => (Some (Some recovered), party)
  | Ok msg =>
      match UpdateFromBytes (tm_MsgBytes msg) (PartyStore !! default "" (Pretty <$> wm_From wMsg))
              (tm_IsBroadcast msg) (be_val (bytes_of_string SID)) party with
      | (Ok _, party') => (None, party')
      | (Err e, party') => (Some (Some e), party')
      | (Panic, party') => (Some (Some recovered), party')
      end
  end.

(** [sent] is what [Broadcast] answers. *)
Definition outbound_body (Peers : list PeerID) (msg : OutMessage) (sent : option error)
    : option (option tss_error) * list (list PeerID * bytes) :=
  match ('(wireBytes, isBroadcast) ← om_WireBytes msg;
         msgBytes ← MarshalTssMessage wireBytes isBroadcast;
         peers ← BroadcastPeers Peers (om_IsBroadcast msg) (om_To msg);
         Ok (peers, msgBytes)) with
  | Ok broadcast => (match sent with None => None | Some e => Some (Some (CommError e)) end, [broadcast])
  | Err e => (Some (Some (OtherError e)), [])
  | Panic => (Some (Some pool_panic), [])
  end.
End bodies.

(** ** The loops *)

Inductive in_event := Inbound (wMsg : WrappedMessage PeerID) | InDone.
Inductive out_event := Outbound (msg : OutMessage) (sent : option error) | OutDone.

Section loops.
Context `{PeerText} {P : Type} `{Party P}.

(** [None] as long as the loop waits for an event. *)
Fixpoint ProcessInboundMessages (PartyStore : gmap string PartyID) (SID : string) (evs : list in_event) (party : P)
    : option (option tss_error) * P :=
  match evs with
  | [] => (None, party)
  | InDone :: _ => (Some None, party)
  | Inbound wMsg :: rest =>
      match inbound_body PartyStore SID wMsg party with
      | (None, party') => ProcessInboundMessages PartyStore SID rest party'
      | returned => returned
      end
  end.

Fixpoint ProcessOutboundMessages (Peers : list PeerID) (evs : list out_event)
    : option (option tss_error) * list (list PeerID * bytes) :=
  match evs with
  | [] => (None, [])
  | OutDone :: _ => (Some None, [])
  | Outbound msg sent :: rest =>
      match outbound_body Peers msg sent with
      | (None, l) => let '(r, l') := ProcessOutboundMessages Peers rest in (r, l ++ l')
      | returned => returned
      end
  end.
End loops.

(** [NewSigning]: the holders and the threshold of the key share on disk. *)
Definition NewSigning {K} (GetKeyshare : res (ECDSAKeyshare K)) : res Keyshare :=
  key ← GetKeyshare; Ok {| ks_Threshold := ek_Threshold key; ks_Peers := ek_Peers key |}.

(** [processEndMessage] of a signing: what it puts on the result channel. *)
Definition signing_end {Sig : Type} (coordinator : bool) (sig : Sig) : option Sig :=
  if coordinator then Some sig else None.

(** [monitorSigning]: the two reads of [WaitingFor] at a tick, and the peers it waited
    for at the tick before. *)
Inductive monitor_event := Tick (compared kept : list PartyID) | MonitorDone.

Definition monitor_body (waitingFor compared kept : list PartyID) : option (option tss_error) * list PartyID :=
  if negb (length waitingFor =? 0)%nat
     && bool_decide ((fun p => (pid_Id p, pid_Index p)) <$> compared = (fun p => (pid_Id p, pid_Index p)) <$> waitingFor)
  then (Some (Some (CommError "waiting for peers")), waitingFor)
  else (None, kept).

Fixpoint monitorSigning (waitingFor : list PartyID) (evs : list monitor_event) : option (option tss_error) :=
  match evs with
  | [] => None
  | MonitorDone :: _ => Some None
  | Tick compared kept :: rest =>
      match monitor_body waitingFor compared kept with
      | (None, waitingFor') => monitorSigning waitingFor' rest
      | (returned, _) => returned
      end
  end.

(** [processEndMessage] of a key generation and of a resharing: the key share is stored
    with the threshold and the peers of the process. *)
Section keys.
Context {K : Type} `{JSON (ECDSAKeyshare K)}.

Inductive end_event := EndKey (key : K) | EndDone.

(** What the loop returns after [StoreKeyshare]. *)
Definition end_stored (r : res unit * files) : option (option tss_error) * files :=
  match r with
  | (Ok _, fs') => (Some None, fs')
  | (Err e, fs') => (Some (Some (OtherError e)), fs')
  | (Panic, fs') => (Some (Some pool_panic), fs')
  end.

Definition ecdsa_processEndMessage (env : os_env) (path : string) (threshold : Z) (Peers : list PeerID)
    (evs : list end_event) (fs : files) : option (option tss_error) * files :=
  match evs with
  | [] => (None, fs)
  | EndDone :: _ => (Some None, fs)
  | EndKey key :: _ => end_stored (ecdsa_StoreKeyshare env path (NewECDSAKeyshare key threshold Peers) fs)
  end.

Definition resharing_processEndMessage (env : os_env) (path : string) (newThreshold : Z) (Peers : list PeerID)
    (evs : list end_event) (fs : files) : option (option tss_error) * files :=
  match evs with
  | [] => (None, fs)
  | EndDone :: _ => (Some None, fs)
  | EndKey key :: _ => end_stored (ecdsa_StoreKeyshare env path (NewECDSAKeyshare key newThreshold Peers) fs)
  end.

(** [NewResharing]: a relayer without a key share has no holders. *)
Definition NewResharing (GetKeyshare : res (ECDSAKeyshare K)) : Keyshare :=
  match GetKeyshare with
  | Ok key => {| ks_Threshold := ek_Threshold key; ks_Peers := ek_Peers key |}
  | _ => {| ks_Threshold := 0; ks_Peers := [] |}
  end.

(** [Run] of a key generation up to the start of the protocol: the parties it is
    started with and the party of the host. *)
Definition keygen_Run `{PeerText} `{PartySort} (hostID : PeerID) (peerstore : list PeerID)
    : list PartyID * gmap string PartyID * option PartyID :=
  let parties := PartiesFromPeers peerstore in
  let store := PopulatePartyStore ∅ parties in
  (parties, store, store !! Pretty hostID).
End keys.
Arguments end_event K : clear implicits.

(** ** A run of a signing: its four loops under one context *)

Inductive signing_loop := InLoop | OutLoop | EndLoop | MonitorLoop.

(** A loop waits in its select, is in the call its event leads to, or has returned.  In
    a call it sees neither other events nor that the context is done. *)
Inductive loop_state (T : Type) :=
| Selecting
| Calling (task : T)
| Returned (r : option tss_error).
Arguments Selecting {T}.
Arguments Calling {T} task.
Arguments Returned {T} r.

Definition selecting {T} (l : loop_state T) : bool := match l with Selecting => true | _ => false end.
Definition calling {T} (l : loop_state T) : bool := match l with Calling _ => true | _ => false end.
Definition ended {T} (l : loop_state T) : bool := match l with Returned _ => true | _ => false end.
Definition failed {T} (l : loop_state T) : bool := match l with Returned (Some _) => true | _ => false end.

(** The loop after a call: back in its select, unless the body returns. *)
Definition next {T} (r : option (option tss_error)) : loop_state T :=
  match r with None => Selecting | Some e => Returned e end.

(** The context of the pool is cancelled when a loop returns an error, and by the
    deferred [Cancel] of the end and monitor loops. *)
Definition cancels (r : option (option tss_error)) : bool :=
  match r with Some (Some _) => true | _ => false end.
Definition returned (r : option (option tss_error)) : bool :=
  match r with Some _ => true | None => false end.

Section run.
Context `{PeerText} {P Sig : Type} `{Party P}.

(** The calls: the update of the party with a message, the broadcast of a message, the
    send of the result on the result channel, and the reads of [WaitingFor]. *)
Record signing_run := {
  sr_party : P;
  sr_in : loop_state (WrappedMessage PeerID);
  sr_out : loop_state OutMessage;
  sr_end : loop_state Sig;
  sr_monitor : loop_state unit;
  sr_waitingFor : list PartyID;
  sr_cancelled : bool;
  sr_results : list (option Sig);
  sr_sent : list (list PeerID * bytes);
}.

Definition with_in (l : loop_state (WrappedMessage PeerID)) (party : P) (s : signing_run) : signing_run :=
  {| sr_party := party; sr_in := l; sr_out := sr_out s; sr_end := sr_end s; sr_monitor := sr_monitor s;
     sr_waitingFor := sr_waitingFor s; sr_cancelled := sr_cancelled s; sr_results := sr_results s; sr_sent := sr_sent s |}.
Definition with_out (l : loop_state OutMessage) (sent : list (list PeerID * bytes)) (s : signing_run) : signing_run :=
  {| sr_party := sr_party s; sr_in := sr_in s; sr_out := l; sr_end := sr_end s; sr_monitor := sr_monitor s;
     sr_waitingFor := sr_waitingFor s; sr_cancelled := sr_cancelled s; sr_results := sr_results s; sr_sent := sr_sent s ++ sent |}.
Definition with_end (l : loop_state Sig) (results : list (option Sig)) (s : signing_run) : signing_run :=
  {| sr_party := sr_party s; sr_in := sr_in s; sr_out := sr_out s; sr_end := l; sr_monitor := sr_monitor s;
     sr_waitingFor := sr_waitingFor s; sr_cancelled := sr_cancelled s; sr_results := sr_results s ++ results; sr_sent := sr_sent s |}.
Definition with_monitor (l : loop_state unit) (waitingFor : list PartyID) (s : signing_run) : signing_run :=
  {| sr_party := sr_party s; sr_in := sr_in s; sr_out := sr_out s; sr_end := sr_end s; sr_monitor := l;
     sr_waitingFor := waitingFor; sr_cancelled := sr_cancelled s; sr_results := sr_results s; sr_sent := sr_sent s |}.
Definition cancel_if (c : bool) (s : signing_run) : signing_run :=
  {| sr_party := sr_party s; sr_in := sr_in s; sr_out := sr_out s; sr_end := sr_end s; sr_monitor := sr_monitor s;
     sr_waitingFor := sr_waitingFor s; sr_cancelled := sr_cancelled s || c; sr_results := sr_results s; sr_sent := sr_sent s |}.

(** A loop receives an event of its channel; its call comes back: the party is updated,
    the broadcast is answered, somebody receives the result (or it is put in the
    channel's buffer, where it has one), the party tells whom it waits for; a loop sees
    that the context is done.  The context is also cancelled from outside, by [Stop] or
    the coordinator. *)
Inductive signing_event :=
| RunInbound (wMsg : WrappedMessage PeerID)
| RunUpdated
| RunOutbound (msg : OutMessage)
| RunSent (sent : option error)
| RunSignature (sig : Sig)
| RunResultTaken
| RunTick
| RunWaitingFor (compared kept : list PartyID)
| RunSeesDone (loop : signing_loop)
| RunCancelled.

Definition run_step (PartyStore : gmap string PartyID) (SID : string) (Peers : list PeerID) (coordinator : bool)
    (s : signing_run) (ev : signing_event) : signing_run :=
  match ev with
  | RunInbound wMsg => if selecting (sr_in s) then with_in (Calling wMsg) (sr_party s) s else s
  | RunUpdated =>
      match sr_in s with
      | Calling wMsg =>
          let '(r, party) := inbound_body PartyStore SID wMsg (sr_party s) in
          cancel_if (cancels r) (with_in (next r) party s)
      | _ => s
      end
  | RunOutbound msg => if selecting (sr_out s) then with_out (Calling msg) [] s else s
  | RunSent sent =>
      match sr_out s with
      | Calling msg =>
          let '(r, l) := outbound_body Peers msg sent in
          cancel_if (cancels r) (with_out (next r) l s)
      | _ => s
      end
  | RunSignature sig => if selecting (sr_end s) then with_end (Calling sig) [] s else s
  | RunResultTaken =>
      match sr_end s with
      | Calling sig => cancel_if true (with_end (Returned None) [signing_end coordinator sig] s)
      | _ => s
      end
  | RunTick => if selecting (sr_monitor s) then with_monitor (Calling tt) (sr_waitingFor s) s else s
  | RunWaitingFor compared kept =>
      match sr_monitor s with
      | Calling _ =>
          let '(r, waitingFor) := monitor_body (sr_waitingFor s) compared kept in
          cancel_if (returned r) (with_monitor (next r) waitingFor s)
      | _ => s
      end
  | RunSeesDone loop =>
      if negb (sr_cancelled s) then s
      else match loop with
           | InLoop => if selecting (sr_in s) then with_in (Returned None) (sr_party s) s else s
           | OutLoop => if selecting (sr_out s) then with_out (Returned None) [] s else s
           | EndLoop => if selecting (sr_end s) then with_end (Returned None) [] s else s
           | MonitorLoop => if selecting (sr_monitor s) then with_monitor (Returned None) (sr_waitingFor s) s else s
           end
  | RunCancelled => cancel_if true s
  end.

Definition run_start (party : P) : signing_run :=
  {| sr_party := party; sr_in := Selecting; sr_out := Selecting; sr_end := Selecting; sr_monitor := Selecting;
     sr_waitingFor := []; sr_cancelled := false; sr_results := []; sr_sent := [] |}.

(** [p.Wait()]: [None] while a loop runs. *)
Definition run_wait (s : signing_run) : option (option tss_error) :=
  match sr_in s, sr_out s, sr_end s, sr_monitor s with
  | Returned a, Returned b, Returned c, Returned d => Some (pool_wait (omap id [a; b; c; d]))
  | _, _, _, _ => None
  end.

(** The loop is in a call, and the event that ends the call. *)
Definition in_call (loop : signing_loop) (s : signing_run) : bool :=
  match loop with
  | InLoop => calling (sr_in s)
  | OutLoop => calling (sr_out s)
  | EndLoop => calling (sr_end s)
  | MonitorLoop => calling (sr_monitor s)
  end.

Definition comes_back (loop : signing_loop) (ev : signing_event) : bool :=
  match loop, ev with
  | InLoop, RunUpdated | OutLoop, RunSent _ | EndLoop, RunResultTaken | MonitorLoop, RunWaitingFor _ _ => true
  | _, _ => false
  end.
End run.

(** ** A run gives at most one result and ends, unless a call does not come back *)

Section run_spec.
Context `{PeerText} {P Sig : Type} `{Party P}.
Context (PartyStore : gmap string PartyID) (SID : string) (Peers : list PeerID) (coordinator : bool) (party : P).

Abbreviation step := (run_step PartyStore SID Peers coordinator).

Definition signing_after (evs : list (signing_event (Sig := Sig))) : signing_run (P := P) :=
  run_events step (run_start party) evs.

(** The end loop holds a signature of the protocol until its result is taken; the context
    is cancelled once a loop has returned, and only from outside, with the result or for
    an error. *)
Record run_inv (evs : list (signing_event (Sig := Sig))) (s : signing_run (P := P)) : Prop := {
  ri_end : match sr_end s with
           | Selecting => sr_results s = []
           | Calling sig => sr_results s = [] /\ RunSignature sig ∈ evs
           | Returned (Some _) => False
           | Returned None => sr_results s = [] \/
               exists sig, RunSignature sig ∈ evs /\ RunResultTaken ∈ evs /\ sr_results s = [signing_end coordinator sig]
           end;
  ri_ended : ended (sr_in s) || ended (sr_out s) || ended (sr_end s) || ended (sr_monitor s) = true ->
             sr_cancelled s = true;
  ri_cancelled : sr_cancelled s = true ->
    RunCancelled ∈ evs \/ sr_results s <> [] \/ failed (sr_in s) || failed (sr_out s) || failed (sr_monitor s) = true;
}.

Lemma monitor_body_returns w c k r w' : monitor_body w c k = (r, w') -> r <> Some None.
Proof. unfold monitor_body. case_match; intros; by simplify_eq. Qed.

Lemma inbound_body_returns store sid m (p p' : P) r : inbound_body store sid m p = (r, p') -> r <> Some None.
Proof. unfold inbound_body. intros E. case_go. Qed.

Lemma outbound_body_returns m sent r l : outbound_body Peers m sent = (r, l) -> r <> Some None.
Proof. unfold outbound_body. intros E. repeat case_match; by simplify_eq. Qed.

Lemma run_inv_more evs ev s : run_inv evs s -> run_inv (evs ++ [ev]) s.
Proof.
  intros [Hr Hret Hc]. constructor; [|done|].
  - destruct (sr_end s) as [|sig|[e|]]; [done| |done|].
    + destruct Hr. split; [done|]. apply elem_of_app. by left.
    + destruct Hr as [|(sig & Hs & Ht & ?)]; [by left|]. right. exists sig. rewrite !elem_of_app. auto.
  - intros [Hx|Hx]%Hc; [left; apply elem_of_app; by left|by right].
Qed.

(** The body of a loop in a call comes back with [r]. *)
Ltac body_returns r :=
  destruct r as [[err|]|]; [|done|]; constructor; simpl in *; rewrite ?orb_true_r, ?orb_false_r in *; auto.

Lemma run_inv_step evs s ev : run_inv evs s -> run_inv (evs ++ [ev]) (step s ev).
Proof.
  intros Hinv. pose proof (run_inv_more evs ev s Hinv) as Hsame. destruct s as [p i o e m w c rs st].
  destruct Hsame as [Hr Hret Hc]. simpl in Hr, Hret, Hc.
  assert (ev ∈ evs ++ [ev]) as Hev by (apply elem_of_app; right; by left).
  destruct ev as [msg| |msg|sent|sig| | |compared kept|l|]; simpl.
  - destruct i; by constructor.
  - destruct i as [|msg|]; try by constructor.
    destruct (inbound_body _ _ _ _) as [r p'] eqn:Eb. apply inbound_body_returns in Eb. body_returns r.
  - destruct o; constructor; simpl; rewrite ?app_nil_r; done.
  - destruct o as [|msg|]; try by constructor.
    destruct (outbound_body _ _ _) as [r l] eqn:Eb. apply outbound_body_returns in Eb. body_returns r.
  - destruct e; constructor; simpl; rewrite ?app_nil_r; done.
  - destruct e as [|sig|]; try by constructor. destruct Hr as [-> Hs].
    constructor; simpl; rewrite ?orb_true_r; [right; by exists sig|done|by right; left].
  - destruct m; by constructor.
  - destruct m as [|u|]; try by constructor.
    destruct (monitor_body _ _ _) as [r w'] eqn:Eb. apply monitor_body_returns in Eb. body_returns r.
  - destruct c; simpl; [|by constructor].
    destruct l; simpl; [destruct i|destruct o|destruct e|destruct m];
      constructor; simpl; rewrite ?app_nil_r; auto.
  - constructor; simpl; rewrite ?orb_true_r; auto.
Qed.

Lemma signing_after_inv evs : run_inv evs (signing_after evs).
Proof.
  induction evs as [|ev evs IH] using rev_ind; [by constructor|].
  unfold signing_after. rewrite run_events_app. by apply run_inv_step.
Qed.

Definition see_done : list (signing_event (Sig := Sig)) :=
  [RunSeesDone InLoop; RunSeesDone OutLoop; RunSeesDone EndLoop; RunSeesDone MonitorLoop].

Lemma see_done_ends (s : signing_run (P := P) (Sig := Sig)) : sr_cancelled s = true -> (forall loop, in_call loop s = false) ->
  returned (run_wait (run_events step s see_done)) = true.
Proof.
  intros E Hcall. pose proof (Hcall InLoop) as H1. pose proof (Hcall OutLoop) as H2.
  pose proof (Hcall EndLoop) as H3. pose proof (Hcall MonitorLoop) as H4.
  destruct s as [p i o e m w c rs st]. simpl in *. subst c. by destruct i, o, e, m.
Qed.

Lemma cancelled_step (s : signing_run (P := P) (Sig := Sig)) ev : sr_cancelled s = true -> sr_cancelled (step s ev) = true.
Proof. intros E. destruct ev; simpl; repeat case_match; simpl; rewrite ?E; done. Qed.

Lemma cancelled_after evs : RunCancelled ∈ evs -> sr_cancelled (signing_after evs) = true.
Proof.
  intros (pre & post & ->)%list_elem_of_split. unfold signing_after. rewrite run_events_app.
  apply (run_events_invariant step (fun s : signing_run (P := P) (Sig := Sig) => sr_cancelled s = true) post); [apply cancelled_step|].
  simpl. by rewrite orb_true_r.
Qed.

(** A call lasts until it comes back, and holds the run. *)
Lemma in_call_step loop (s : signing_run (P := P) (Sig := Sig)) ev : in_call loop s = true -> comes_back loop ev = false -> in_call loop (step s ev) = true.
Proof.
  intros Hb He. destruct s as [p i o e m w c rs st].
  destruct loop; [destruct i|destruct o|destruct e|destruct m]; try done;
    destruct ev; simpl in *; try done; repeat case_match; done.
Qed.

Lemma in_call_waits loop (s : signing_run (P := P) (Sig := Sig)) : in_call loop s = true -> run_wait s = None.
Proof.
  destruct s as [p i o e m w c rs st]. unfold run_wait. destruct loop, i, o, e, m; done.
Qed.

(** C14. However the messages, the protocol's result, the ticks of the monitor, the calls
    the loops make and a cancellation interleave: a signing puts at most one value on the
    result channel, the signature for the coordinator and nil for the others, and ends
    without an error only if it was cancelled or its result was taken; once one of its
    loops has ended or it is cancelled, it ends as soon as its loops see it, if none of
    them is in a call; but a loop in a call that does not come back holds the run for
    ever.  So a signature that nobody takes from the result channel any more, as when
    the relayer that watches the transfer has returned, is never given up: [Run] does
    not return even when it is cancelled. *)
Theorem signing_run_result evs :
  let s := signing_after evs in
  (sr_results s = [] \/
   exists sig, RunSignature sig ∈ evs /\ RunResultTaken ∈ evs /\ sr_results s = [if coordinator then Some sig else None]) /\
  (run_wait s = Some None -> RunCancelled ∈ evs \/ sr_results s <> []) /\
  (ended (sr_in s) || ended (sr_out s) || ended (sr_end s) || ended (sr_monitor s) = true \/ RunCancelled ∈ evs ->
   (forall loop, in_call loop s = false) -> returned (run_wait (signing_after (evs ++ see_done))) = true) /\
  (forall loop later, in_call loop s = true -> Forall (fun ev => comes_back loop ev = false) later ->
   run_wait (signing_after (evs ++ later)) = None).
Proof.
  intros s. destruct (signing_after_inv evs) as [Hr Hret Hc]. fold s in Hr, Hret, Hc. split_and!.
  - destruct (sr_end s) as [|sig|[e|]]; [by left|left; by apply Hr|done|].
    destruct Hr as [?|(sig & ? & ? & ->)]; [by left|right]. by exists sig.
  - intros Hw. unfold run_wait in Hw.
    destruct (sr_in s) as [| |[x|]] eqn:E1; try done; destruct (sr_out s) as [| |[y|]] eqn:E2; try done;
      destruct (sr_end s) as [| |[z|]] eqn:E3; try done; destruct (sr_monitor s) as [| |[t|]] eqn:E4; try done.
    destruct (Hc (Hret eq_refl)) as [Hx|[Hx|Hx]]; [by left|by right|done].
  - intros Hx Hcall. unfold signing_after. rewrite run_events_app. apply see_done_ends; [|exact Hcall].
    destruct Hx as [Hx|Hx]; [by apply Hret|by apply cancelled_after].
  - intros loop later Hcall Hl. unfold signing_after. rewrite run_events_app. fold (signing_after evs). fold s.
    apply (in_call_waits loop). clearbody s. clear Hr Hret Hc. revert s Hcall.
    induction Hl as [|ev later He _ IH]; intros s Hcall; [done|]. apply IH. by apply in_call_step.
Qed.
End run_spec.

(** ** The monitor reports a party that makes no progress *)

Definition same_parties (a b : list PartyID) : Prop :=
  (fun p => (pid_Id p, pid_Index p)) <$> a = (fun p => (pid_Id p, pid_Index p)) <$> b.

Lemma monitor_body_spec w c k :
  (w <> [] /\ same_parties c w /\ monitor_body w c k = (Some (Some (CommError "waiting for peers")), w)) \/
  ((w = [] \/ ~ same_parties c w) /\ monitor_body w c k = (None, k)).
Proof.
  unfold monitor_body, same_parties. destruct w as [|p w]; [right; auto|]. simpl.
  case_bool_decide; [left|right]; simpl; auto.
Qed.

(** The peers waited for after ticks that returned nothing. *)
Lemma monitor_app w evs rest : monitorSigning w evs = None ->
  exists w', monitorSigning w (evs ++ rest) = monitorSigning w' rest.
Proof.
  revert w. induction evs as [|[c k|] evs IH]; intros w E; simpl in *; [by exists w| |done].
  destruct (monitor_body_spec w c k) as [(_ & _ & Hb)|[_ Hb]]; rewrite Hb in E |- *; [done|by apply IH].
Qed.

Lemma monitor_error w evs e : monitorSigning w evs = Some (Some e) ->
  exists pre c k post, evs = pre ++ Tick c k :: post /\
    exists w', w' <> [] /\ same_parties c w' /\
      ((pre = [] /\ w' = w) \/ exists pre' c0, pre = pre' ++ [Tick c0 w']).
Proof.
  revert w. induction evs as [|[c k|] evs IH]; intros w E; simpl in E; [done| |done].
  destruct (monitor_body_spec w c k) as [(Hw & Hs & Hb)|[_ Hb]]; rewrite Hb in E.
  - exists [], c, k, evs. split; [done|]. exists w. auto.
  - destruct (IH k E) as (pre & c' & k' & post & -> & w' & Hw & Hs & Hpre).
    exists (Tick c k :: pre), c', k', post. split; [done|]. exists w'. split_and!; [done..|]. right.
    destruct Hpre as [[-> ->]|(pre' & c0 & ->)]; [by exists [], c|by exists (Tick c k :: pre'), c0].
Qed.

(** A signing whose party waits for the same peers, and for some, at two ticks in a
    row is ended with a communication error, at most six minutes after it stopped
    making progress; the error is reported only then. *)
Theorem monitor_detects_stuck evs :
  (forall w k, monitorSigning [] evs = None -> w <> [] ->
     exists e, monitorSigning [] (evs ++ [Tick w w; Tick w k]) = Some (Some (CommError e))) /\
  (forall e, monitorSigning [] evs = Some (Some e) ->
     exists pre c0 kept c k post, evs = pre ++ [Tick c0 kept; Tick c k] ++ post /\ kept <> [] /\ same_parties c kept).
Proof.
  split.
  - intros w k Hrun Hw. destruct (monitor_app [] evs [Tick w w; Tick w k] Hrun) as [w0 ->]. simpl.
    destruct (monitor_body_spec w0 w w) as [(_ & _ & ->)|[_ ->]]; [by eexists|].
    destruct (monitor_body_spec w w k) as [(_ & _ & ->)|[[?|Hs] _]]; [by eexists|done|by destruct Hs].
  - intros e He. destruct (monitor_error [] evs e He) as (pre & c & k & post & -> & w & Hw & Hs & Hpre).
    destruct Hpre as [[_ ->]|(pre' & c0 & ->)]; [done|]. exists pre', c0, w, c, k, post.
    split; [|done]. by rewrite <- app_assoc.
Qed.

(** ** What one party sends is what the others are updated with *)

Section relay.
Context `{PeerText} {P Chan : Type} `{Party P} `{EqDecision Chan}.

(** The party's own routing of its messages: the recipients, the wire bytes and the flag. *)
Definition routed (Peers : list PeerID) (m : OutMessage) : res (list PeerID * bytes * bool) :=
  '(b, f) ← om_WireBytes m; to ← BroadcastPeers Peers (om_IsBroadcast m) (om_To m); Ok (to, b, f).

(** The updates of a party with messages of one sender, until one fails. *)
Fixpoint updates (store : gmap string PartyID) (SID : string) (from : PeerID) (l : list (bytes * bool)) (party : P)
    : option (option tss_error) * P :=
  match l with
  | [] => (None, party)
  | (b, f) :: rest =>
      match UpdateFromBytes b (store !! Pretty from) f (be_val (bytes_of_string SID)) party with
      | (Ok _, party') => updates store SID from rest party'
      | (Err e, party') => (Some (Some e), party')
      | (Panic, party') => (Some (Some recovered), party')
      end
  end.

(** What [Broadcast] sends the peer [q] for the broadcasts of a process: nothing to the
    host itself. *)
Definition sent_to (host : PeerID) (SID : string) (msgType : MessageType) (q : PeerID) (sent : list (list PeerID * bytes))
    : list (WrappedMessage PeerID) :=
  (fun s => {| wm_MessageType := msgType; wm_SessionID := SID; wm_Payload := s.2; wm_From := Some host |})
    <$> filter (fun s => q ∈ broadcast_targets host s.1) sent.

(** What the loop of a process receives on its channel. *)
Definition on_channel (ch : Chan) (received : list (Chan * WrappedMessage PeerID)) : list in_event :=
  (fun d => Inbound d.2) <$> filter (fun d => d.1 = ch) received.

(** The bytes of a message on the wire. *)
Definition payload_of (r : list PeerID * bytes * bool) : bytes :=
  match MarshalTssMessage r.1.2 r.2 with Ok b => b | _ => [] end.

Lemma payload_read r : UnmarshalTssMessage (payload_of r) = Ok {| tm_MsgBytes := r.1.2; tm_IsBroadcast := r.2 |}.
Proof. unfold payload_of. destruct (tss_message_roundtrip r.1.2 r.2) as (b & -> & E). exact E. Qed.

Lemma outbound_sends Peers msgs out : Forall2 (fun m r => routed Peers m = Ok r) msgs out ->
  ProcessOutboundMessages Peers ((fun m => Outbound m None) <$> msgs) = (None, (fun r => (r.1.1, payload_of r)) <$> out).
Proof.
  induction 1 as [|m [[to b] f] msgs out Hr _ IH]; [done|].
  unfold routed in Hr. apply outcome_bind_Ok in Hr as ([b' f'] & Hw & Hr).
  apply outcome_bind_Ok in Hr as (to' & Hb & [= -> -> ->]).
  rewrite !fmap_cons. cbn [ProcessOutboundMessages]. unfold outbound_body, payload_of at 1. cbn [fst snd].
  destruct (tss_message_roundtrip b f) as (msgBytes & Ej & _).
  rewrite Hw. cbn [mbind outcome_bind]. rewrite Ej. cbn [mbind outcome_bind]. rewrite Hb. cbn [mbind outcome_bind].
  by rewrite IH.
Qed.

(** A message of a party on the channel of a peer. *)
Abbreviation arriving host SID msgType ch r :=
  (ch, {| wm_MessageType := msgType; wm_SessionID := SID; wm_Payload := payload_of r; wm_From := Some host |}).

Lemma inbound_updates store SID host msgType (ch : Chan) l (party : P) :
  ProcessInboundMessages store SID ((fun d => Inbound d.2) <$> map (fun r => arriving host SID msgType ch r) l) party
  = updates store SID host ((fun r => (r.1.2, r.2)) <$> l) party.
Proof.
  revert party. induction l as [|[[to b] f] l IH]; intros party; [done|].
  rewrite map_cons, !fmap_cons.
  cbn [ProcessInboundMessages updates]. unfold inbound_body. cbn [fst snd wm_Payload wm_From].
  rewrite payload_read. simpl.
  destruct (UpdateFromBytes b _ f _ party) as [[u|e|] party']; [apply IH|done|done].
Qed.

Lemma filter_pairs {B} (ch : Chan) (b : B) (l : list Chan) :
  filter (fun d : Chan * B => d.1 = ch) ((., b) <$> l) = (., b) <$> filter (fun c => c = ch) l.
Proof. induction l as [|c l IH]; [done|]. rewrite fmap_cons, !filter_cons. cbn [fst]. by case_decide; rewrite IH. Qed.

(** The hand overs on one channel of what is sent to a peer. *)
Lemma on_one_channel (subs : gmap string (gmap Z (gmap string Chan))) host SID msgType q (ch : Chan) out :
  filter (fun c => c = ch) (GetSubscribers subs SID msgType) = [ch] ->
  filter (fun d => d.1 = ch)
    (sent_to host SID msgType q ((fun r => (r.1.1, payload_of r)) <$> out) ≫= handovers subs host)
  = map (fun r => arriving host SID msgType ch r) (filter (fun r => q ∈ broadcast_targets host r.1.1) out).
Proof.
  intros Hch. unfold sent_to. induction out as [|r out IH]; [done|].
  rewrite fmap_cons, !filter_cons. cbn [fst snd]. case_decide; [|apply IH].
  rewrite fmap_cons, bind_cons, list.filter_app, IH, map_cons. change (?x :: ?l) with ([x] ++ l). f_equal.
  unfold handovers, from_peer. cbn [wm_SessionID wm_MessageType wm_Payload].
  by rewrite filter_pairs, Hch.
Qed.

End relay.

(** ** Examples *)

Module TssLoopsExample.
Import KeyshareExample NumberCode.

(** A party that keeps what it is updated with and refuses messages of strangers. *)
#[export] Instance recorder : Party (list (bytes * string * bool)) := {|
  UpdateFromBytes b from f _ party :=
    match from with
    | Some p => (Ok tt, party ++ [(b, pid_Id p, f)])
    | None => (Err (TssError []), party)
    end;
|}.

Definition party_of (id : string) (i : Z) : PartyID := {| pid_Id := id; pid_Index := i |}.
Definition store : gmap string PartyID := {[ "a" := party_of "a" 0; "b" := party_of "b" 1; "c" := party_of "c" 2 ]}.

(** A round for all, and a share for [b] only. *)
Definition msgs : list OutMessage :=
  [{| om_WireBytes := Ok ([Byte.x01], true); om_IsBroadcast := true; om_To := [] |};
   {| om_WireBytes := Ok ([Byte.x02], false); om_IsBroadcast := false; om_To := [party_of "b" 1] |}].
Definition out : list (list PeerID * bytes * bool) :=
  [(["a"; "b"; "c"], [Byte.x01], true); (["b"], [Byte.x02], false)].
End TssLoopsExample.
Import TssExample TssLoopsExample.


(** The coordinator's signing: a finished one gives its signature and ends; the signature
    nobody takes holds the run, cancelled or not. *)
Example signing_finishes :
  let s := signing_after store "s" ["a"; "b"] true []
             ([RunTick; RunWaitingFor [party_of "b" 1] [party_of "b" 1]; RunSignature 5; RunResultTaken] ++ see_done) in
  sr_results s = [Some 5] /\ run_wait s = Some None.
Proof. by vm_compute. Qed.

Example signing_held :
  let s := signing_after store "s" ["a"; "b"] true [] ([RunSignature 5; RunCancelled] ++ see_done ++ see_done) in
  sr_results s = [] /\ sr_end s = Calling 5 /\ run_wait s = None.
Proof. by vm_compute. Qed.
