(* ===== verification/FrostTss.v ===== *)
(** * FROST processes ([tss/frost])

    The loops of the FROST processes, which talk to a handler of the protocol library
    and hand over from the sending loop to the waiting one when it closes its channel;
    the parameters of signing and resharing; the key share a process works with and the
    one it stores.  The handler, the curve and JSON are arguments. *)

From S2P Require Import Prelude GoBytes GoStrings Files Keyshare Comm Elector Coordinator Tss TssLoops.

#[local] Open Scope string_scope.
#[local] Open Scope list_scope.
#[local] Open Scope Z_scope.

(** ** Messages of the protocol *)

Record FrostMessage := { fm_Broadcast : bool; fm_To : string; fm_Data : bytes }.

(** [protocol.Message] in its binary form. *)
Class FrostCodec := {
  MarshalBinary : FrostMessage -> res bytes;
  UnmarshalBinary : bytes -> res FrostMessage;
  frost_codec : forall m b, MarshalBinary m = Ok b -> UnmarshalBinary b = Ok m;
}.

(** ** Loop bodies *)

Section bodies.
Context `{PeerText} `{FrostCodec}.

(** [can] is what the handler answers to [CanAccept]; the message is then accepted in a
    goroutine of its own. *)
Definition frost_inbound_body (wMsg : WrappedMessage PeerID) (can : FrostMessage -> bool)
    : option (option tss_error) * list FrostMessage :=
  match UnmarshalBinary (wm_Payload wMsg) with
  | Err e => (Some (Some (OtherError e)), [])
  | Panic => (Some (Some recovered), [])
  | Ok msg => (None, if can msg then [msg] else [])
  end.

Definition frost_outbound_body (Peers : list PeerID) (msg : FrostMessage) (sent : option error)
    : option (option tss_error) * list (list PeerID * bytes) :=
  match (msgBytes ← MarshalBinary msg;
         peers ← frost_BroadcastPeers Peers (fm_Broadcast msg) (fm_To msg);
         Ok (peers, msgBytes)) with
  | Ok broadcast => (match sent with None => None | Some e => Some (Some (CommError e)) end, [broadcast])
  | Err e => (Some (Some (OtherError e)), [])
  | Panic => (Some (Some pool_panic), [])
  end.
End bodies.

(** ** A run of a signing *)

(** A loop waits for events, or is blocked on a channel, or has returned. *)
Inductive frost_status := FLooping | FBlocked | FReturned (err : option tss_error).

Inductive frost_loop := FInLoop | FOutLoop | FEndLoop.

Section run.
Context `{PeerText} `{FrostCodec} {Sig : Type}.

Record frost_run := {
  fr_in : frost_status;
  fr_out : frost_status;
  fr_end : frost_status;
  fr_cancelled : bool;
  fr_accepted : list FrostMessage;
  fr_sent : list (list PeerID * bytes);
  fr_results : list (Z * Sig);
}.

(** [FClosed]: the sending loop finds the handler's channel closed and sends on [Done];
    [FHandshake]: the waiting loop takes it and asks the handler for its result. *)
Inductive frost_event :=
| FInbound (wMsg : WrappedMessage PeerID) (can : FrostMessage -> bool)
| FOutbound (msg : FrostMessage) (sent : option error)
| FClosed
| FHandshake (result : res Sig)
| FSeesDone (loop : frost_loop)
| FCancelled.

Definition status_of (r : option (option tss_error)) : frost_status :=
  match r with None => FLooping | Some e => FReturned e end.

Definition is_looping (s : frost_status) : bool := match s with FLooping => true | _ => false end.
Definition is_returned (s : frost_status) : bool := match s with FReturned _ => true | _ => false end.

(** [processEndMessage] after [Done]: the error it returns and what it puts on the
    result channel. *)
Definition frost_signing_end (id : Z) (result : res Sig) : option tss_error * list (Z * Sig) :=
  match result with
  | Ok sig => (None, [(id, sig)])
  | Err e => (Some (OtherError e), [])
  | Panic => (Some pool_panic, [])
  end.

Definition frost_step (Peers : list PeerID) (id : Z) (s : frost_run) (ev : frost_event) : frost_run :=
  match ev with
  | FInbound wMsg can =>
      if negb (is_looping (fr_in s)) then s
      else let '(r, l) := frost_inbound_body wMsg can in
           {| fr_in := status_of r; fr_out := fr_out s; fr_end := fr_end s;
              fr_cancelled := fr_cancelled s || returned r; fr_accepted := fr_accepted s ++ l;
              fr_sent := fr_sent s; fr_results := fr_results s |}
  | FOutbound msg sent =>
      if negb (is_looping (fr_out s)) then s
      else let '(r, l) := frost_outbound_body Peers msg sent in
           {| fr_in := fr_in s; fr_out := status_of r; fr_end := fr_end s;
              fr_cancelled := fr_cancelled s || returned r; fr_accepted := fr_accepted s;
              fr_sent := fr_sent s ++ l; fr_results := fr_results s |}
  | FClosed =>
      if negb (is_looping (fr_out s)) then s
      else {| fr_in := fr_in s; fr_out := FBlocked; fr_end := fr_end s; fr_cancelled := fr_cancelled s;
              fr_accepted := fr_accepted s; fr_sent := fr_sent s; fr_results := fr_results s |}
  | FHandshake result =>
      match fr_out s, fr_end s with
      | FBlocked, FLooping =>
          let '(e, l) := frost_signing_end id result in
          {| fr_in := fr_in s; fr_out := FReturned None; fr_end := FReturned e; fr_cancelled := true;
             fr_accepted := fr_accepted s; fr_sent := fr_sent s; fr_results := fr_results s ++ l |}
      | _, _ => s
      end
  | FSeesDone loop =>
      if negb (fr_cancelled s) then s
      else
        let stop (l : frost_loop) (r : frost_status) :=
          match l, loop with
          | FInLoop, FInLoop | FOutLoop, FOutLoop | FEndLoop, FEndLoop => if is_looping r then FReturned None else r
          | _, _ => r
          end in
        {| fr_in := stop FInLoop (fr_in s); fr_out := stop FOutLoop (fr_out s); fr_end := stop FEndLoop (fr_end s);
           fr_cancelled := fr_cancelled s; fr_accepted := fr_accepted s; fr_sent := fr_sent s;
           fr_results := fr_results s |}
  | FCancelled =>
      {| fr_in := fr_in s; fr_out := fr_out s; fr_end := fr_end s; fr_cancelled := true;
         fr_accepted := fr_accepted s; fr_sent := fr_sent s; fr_results := fr_results s |}
  end.

Definition frost_start : frost_run :=
  {| fr_in := FLooping; fr_out := FLooping; fr_end := FLooping; fr_cancelled := false; fr_accepted := [];
     fr_sent := []; fr_results := [] |}.

Definition frost_wait (s : frost_run) : option (option tss_error) :=
  match fr_in s, fr_out s, fr_end s with
  | FReturned a, FReturned b, FReturned c => Some (pool_wait (omap id [a; b; c]))
  | _, _, _ => None
  end.
End run.

(** ** Signing ([frost/signing]) *)

Section signing.
Context {Scalar Point : Type}.

(** [NewSigning]: the key share, with the key derived for the tweak. *)
Definition frost_NewSigning (scalar_of : bytes -> res Scalar)
    (Derive : TaprootConfig Scalar Point -> Scalar -> res (TaprootConfig Scalar Point))
    (GetKeyshare : res (FrostKeyshare Scalar Point)) (tweak : string) : res (FrostKeyshare Scalar Point) :=
  key ← GetKeyshare;
  tweakBytes ← from_opt "encoding/hex" (hex_decode tweak);
  h ← scalar_of tweakBytes;
  derived ← Derive (fk_Key key) h;
  Ok {| fk_Key := derived; fk_Threshold := fk_Threshold key; fk_Peers := fk_Peers key |}.

Context `{PeerText} (SortPeers : list PeerID -> string -> list PeerID).
Context (key : FrostKeyshare Scalar Point) (SID : string).

Definition frost_readyParticipants (readyPeers : list PeerID) : list PeerID :=
  filter (fun p => contains (fk_Peers key) p = true) readyPeers.

Definition frost_signing_Ready (readyPeers excludedPeers : list PeerID) : error + bool :=
  inr (Z.of_nat (length (frost_readyParticipants readyPeers)) =? fk_Threshold key + 1).

Definition frost_signing_StartParams (readyPeers : list PeerID) : bytes :=
  MarshalPeers (take_subset (fk_Threshold key + 1) [] (SortPeers (frost_readyParticipants readyPeers) SID)).

Definition frost_signing_unmarshallStartParams (paramBytes : bytes) : res (list PeerID) :=
  UnmarshalPeers paramBytes.

(** [Run] up to the start of the protocol: the peers it runs with. *)
Definition frost_signing_Run (hostID : PeerID) (params : bytes) : outcome tss_error (list PeerID) :=
  match frost_signing_unmarshallStartParams params with
  | Ok peerSubset =>
      if negb (IsParticipant Pretty hostID peerSubset) then Err (SubsetError hostID) else Ok peerSubset
  | Err e => Err (OtherError e)
  | Panic => Panic
  end.

Definition frost_signing_process : TssProcess :=
  {| tp_SessionID := SID; tp_Ready := frost_signing_Ready; tp_StartParams := frost_signing_StartParams;
     tp_Retryable := true; tp_ValidCoordinators := fk_Peers key |}.
End signing.

(** ** Key generation ([frost/keygen]) *)

Section keygen.
Context `{PeerText} (peerstore : list PeerID) (SID : string).

Definition frost_keygen_Ready (readyPeers excludedPeers : list PeerID) : error + bool :=
  if (0 <? length excludedPeers)%nat then inl "error"
  else inr (length readyPeers =? length peerstore)%nat.

(** [Peers] are those of the peer store when the process was created. *)
Definition frost_keygen_process (Peers : list PeerID) : TssProcess :=
  {| tp_SessionID := SID; tp_Ready := frost_keygen_Ready; tp_StartParams := fun _ => [];
     tp_Retryable := false; tp_ValidCoordinators := Peers |}.

(** [Run] up to the start of the protocol: the parties are the peers and the host, each
    once, in some order. *)
Definition frost_keygen_Run (hostID : PeerID) (partyIds : list string) : Prop :=
  PartyIDSFromPeers (peerstore ++ [hostID]) partyIds.
End keygen.

(** ** Resharing ([frost/resharing]) *)

(** [startParams]; a nil map is [None].  A nil point counts as no entry. *)
Record frostParams (Point : Type) := {
  fp_PublicKey : bytes;
  fp_VerificationShares : option (gmap string Point);
}.
Arguments fp_PublicKey {Point} _.
Arguments fp_VerificationShares {Point} _.

Section resharing.
Context {Scalar Point : Type} `{PeerText} `{JSON (frostParams Point)}.
(** The zero scalar and the identity of the group. *)
Context (zero : Scalar) (NewPoint : Point).

(** [NewResharing]: a relayer without a key share starts with an empty one. *)
Definition frost_NewResharing (GetKeyshare : res (FrostKeyshare Scalar Point)) (threshold : Z) (hostID : PeerID)
    : FrostKeyshare Scalar Point :=
  let key := match GetKeyshare with
             | Ok key => key
             | _ => {| fk_Key := {| tc_ID := Pretty hostID; tc_Threshold := threshold; tc_PrivateShare := zero;
                                    tc_PublicKey := []; tc_ChainKey := []; tc_VerificationShares := ∅ |};
                       fk_Threshold := 0; fk_Peers := [] |}
             end in
  {| fk_Key := {| tc_ID := tc_ID (fk_Key key); tc_Threshold := threshold;
                  tc_PrivateShare := tc_PrivateShare (fk_Key key); tc_PublicKey := tc_PublicKey (fk_Key key);
                  tc_ChainKey := tc_ChainKey (fk_Key key);
                  tc_VerificationShares := tc_VerificationShares (fk_Key key) |};
     fk_Threshold := fk_Threshold key; fk_Peers := fk_Peers key |}.

Definition frost_resharing_Ready (peerstore : list PeerID) (readyPeers excludedPeers : list PeerID) : error + bool :=
  inr (length readyPeers =? length peerstore)%nat.

(** The error of the encoder is dropped. *)
Definition frost_resharing_StartParams (key : FrostKeyshare Scalar Point) (readyPeers : list PeerID) : bytes :=
  match json_Marshal {| fp_PublicKey := tc_PublicKey (fk_Key key);
                        fp_VerificationShares := Some (tc_VerificationShares (fk_Key key)) |} with
  | Ok b => b
  | _ => []
  end.

Definition frost_resharing_process (key : FrostKeyshare Scalar Point) (peerstore : list PeerID) (SID : string)
    : TssProcess :=
  {| tp_SessionID := SID; tp_Ready := frost_resharing_Ready peerstore;
     tp_StartParams := frost_resharing_StartParams key; tp_Retryable := false;
     tp_ValidCoordinators := fk_Peers key |}.

(** The loop over the parties that adds a share to those without one; a write to a nil
    map panics. *)
Fixpoint add_shares (partyIds : list string) (shares : option (gmap string Point)) : res (option (gmap string Point)) :=
  match partyIds with
  | [] => Ok shares
  | k :: rest =>
      match shares with
      | None => Panic
      | Some m => match m !! k with
                  | Some _ => add_shares rest shares
                  | None => add_shares rest (Some (<[k := NewPoint]> m))
                  end
      end
  end.

(** [Run] up to the start of the protocol: the public key and the verification shares
    the refresh starts from. *)
Definition frost_resharing_Run (key : FrostKeyshare Scalar Point) (partyIds : list string) (params : bytes)
    : res (bytes * option (gmap string Point)) :=
  startParams ← json_Unmarshal params;
  let '(publicKey, shares) :=
    if bool_decide (size (tc_VerificationShares (fk_Key key)) = 0%nat)
    then (fp_PublicKey startParams, fp_VerificationShares startParams)
    else (tc_PublicKey (fk_Key key), Some (tc_VerificationShares (fk_Key key))) in
  shares ← add_shares partyIds shares;
  Ok (publicKey, shares).
End resharing.

(** ** The key share a key generation or a resharing leaves *)

Section end_message.
Context {Scalar Point : Type} `{CurveCodec Scalar Point} `{JSON frostKeyshareStore}.

Inductive frost_end_event := FrostDone (result : res (TaprootConfig Scalar Point)) | FrostEndDone.

(** [order] is the order in which the store iterates over the shares. *)
Definition frost_processEndMessage (env : os_env) (path : string) (newThreshold : Z) (Peers : list PeerID)
    (order : list (string * Point)) (evs : list frost_end_event) (fs : files) : option (option tss_error) * files :=
  match evs with
  | [] => (None, fs)
  | FrostEndDone :: _ => (Some None, fs)
  | FrostDone (Err e) :: _ => (Some (Some (OtherError e)), fs)
  | FrostDone Panic :: _ => (Some (Some pool_panic), fs)
  | FrostDone (Ok taprootConfig) :: _ =>
      end_stored (frost_StoreKeyshare env path (NewFrostKeyshare taprootConfig newThreshold Peers) order fs)
  end.

Definition frost_keygen_processEndMessage (env : os_env) (path : string) (threshold : Z) (Peers : list PeerID)
    (order : list (string * Point)) (evs : list frost_end_event) (fs : files) : option (option tss_error) * files :=
  match evs with
  | [] => (None, fs)
  | FrostEndDone :: _ => (Some None, fs)
  | FrostDone (Err e) :: _ => (Some (Some (OtherError e)), fs)
  | FrostDone Panic :: _ => (Some (Some pool_panic), fs)
  | FrostDone (Ok taprootConfig) :: _ =>
      end_stored (frost_StoreKeyshare env path (NewFrostKeyshare taprootConfig threshold Peers) order fs)
  end.
End end_message.
Arguments frost_end_event Scalar Point : clear implicits.

(** ** Every run gives at most one signature, and when it can hang *)

Section run_spec.
Context `{PeerText} `{FrostCodec} {Sig : Type} (Peers : list PeerID) (id : Z).

Definition frost_after (evs : list (frost_event (Sig := Sig))) : frost_run :=
  run_events (frost_step Peers id) frost_start evs.

Definition no_error (s : frost_status) : bool := match s with FReturned (Some _) => false | _ => true end.

(** A result is given once, by the waiting loop; the context is cancelled once a loop
    has returned, and only from outside, with the result or for an error. *)
Record frost_inv (evs : list (frost_event (Sig := Sig))) (s : frost_run (Sig := Sig)) : Prop := {
  fi_results : fr_results s = [] \/
    (exists sig, FHandshake (Ok sig) ∈ evs /\ fr_results s = [(id, sig)] /\ is_returned (fr_end s) = true);
  fi_end : fr_end s <> FBlocked;
  fi_in : fr_in s <> FBlocked;
  fi_returned : is_returned (fr_in s) || is_returned (fr_out s) || is_returned (fr_end s) = true ->
                fr_cancelled s = true;
  fi_cancelled : fr_cancelled s = true ->
    FCancelled ∈ evs \/ fr_results s <> [] \/ no_error (fr_in s) && no_error (fr_out s) && no_error (fr_end s) = false;
}.

Lemma frost_inbound_returns m can r l : frost_inbound_body m can = (r, l) ->
  is_returned (status_of r) = returned r /\ no_error (status_of r) = negb (returned r) /\ status_of r <> FBlocked.
Proof. unfold frost_inbound_body. intros E. repeat case_match; by simplify_eq. Qed.

Lemma frost_outbound_returns m sent r l : frost_outbound_body Peers m sent = (r, l) ->
  is_returned (status_of r) = returned r /\ no_error (status_of r) = negb (returned r) /\ status_of r <> FBlocked.
Proof. unfold frost_outbound_body. intros E. repeat case_match; by simplify_eq. Qed.

Lemma frost_inv_step evs s ev : frost_inv evs s -> frost_inv (evs ++ [ev]) (frost_step Peers id s ev).
Proof.
  intros [Hr He Hi Hret Hc].
  assert (fr_results s = [] \/ (exists sig, FHandshake (Ok sig) ∈ evs ++ [ev] /\ fr_results s = [(id, sig)] /\
            is_returned (fr_end s) = true)) as Hres.
  { destruct Hr as [?|(sig & ? & ?)]; [by left|right]. exists sig. split; [|done]. apply elem_of_app. by left. }
  assert (forall rest, FCancelled (Sig := Sig) ∈ evs \/ rest -> FCancelled (Sig := Sig) ∈ evs ++ [ev] \/ rest) as Hin
    by (intros rest [?|?]; [left; apply elem_of_app; by left|by right]).
  assert (frost_inv (evs ++ [ev]) s) as Hsame by (constructor; auto).
  destruct ev as [m can|m sent| |result|l|]; simpl.
  - destruct (fr_in s) eqn:E; try done. simpl. destruct (frost_inbound_body m can) as [r l] eqn:Eb.
    destruct (frost_inbound_returns _ _ _ _ Eb) as (E1 & E2 & E3). constructor; simpl; [done|done|done| |].
    + rewrite E1. destruct (returned r); intros Hx; [by rewrite orb_true_r|]. rewrite orb_false_r. by apply Hret.
    + rewrite E2. destruct (returned r); [by right; right|]. rewrite orb_false_r. auto.
  - destruct (fr_out s) eqn:E; try done. simpl. destruct (frost_outbound_body Peers m sent) as [r l] eqn:Eb.
    destruct (frost_outbound_returns _ _ _ _ Eb) as (E1 & E2 & E3). constructor; simpl; [done|done|done| |].
    + rewrite E1. destruct (returned r); intros Hx; [by rewrite orb_true_r|]. rewrite orb_false_r. by apply Hret.
    + rewrite E2. destruct (returned r); [right; right; by rewrite andb_false_r|]. rewrite orb_false_r. auto.
  - destruct (fr_out s) eqn:E; try done. simpl. constructor; simpl; auto.
  - destruct (fr_out s) eqn:Eo; try done. destruct (fr_end s) eqn:Ee; try done.
    destruct Hr as [Hr|(? & _ & _ & ?)]; [|done].
    destruct result as [sig|e|]; constructor; simpl; try done; rewrite Hr.
    + right. exists sig. split; [apply elem_of_app; right; by left|done].
    + by right; left.
    + by left.
    + intros _. right; right. by rewrite andb_false_r.
    + by left.
    + intros _. right; right. by rewrite andb_false_r.
  - destruct (fr_cancelled s) eqn:Ec; simpl; [|done]. constructor; simpl; [| | |by intros _|].
    + destruct Hres as [?|(sig & ? & ? & ?)]; [by left|right]. exists sig. split_and!; [done..|].
      by destruct l, (fr_end s).
    + by destruct l, (fr_end s).
    + by destruct l, (fr_in s).
    + intros _. apply Hin. destruct (Hc eq_refl) as [?|[?|Hx]]; [by left|by right; left|right; right].
      by destruct l, (fr_in s) as [| |[|]], (fr_out s) as [| |[|]], (fr_end s) as [| |[|]].
  - constructor; simpl; [done|done|done|done|]. intros _. left. apply elem_of_app. right. by left.
Qed.

Lemma frost_after_inv evs : frost_inv evs (frost_after evs).
Proof.
  induction evs as [|ev evs IH] using rev_ind; [constructor; auto|].
  unfold frost_after. rewrite run_events_app. by apply frost_inv_step.
Qed.

Definition frost_see_done : list (frost_event (Sig := Sig)) :=
  [FSeesDone FInLoop; FSeesDone FOutLoop; FSeesDone FEndLoop].

(** C25. However its events interleave, a FROST signing gives at most one signature,
    the one of its handler, with the identifier of its input; it ends without an error
    only if it was cancelled or gave the signature; and, once one of its loops has
    ended, it ends unless its sending loop is blocked. *)
Theorem frost_run_result evs :
  let s := frost_after evs in
  (fr_results s = [] \/ exists sig, FHandshake (Ok sig) ∈ evs /\ fr_results s = [(id, sig)]) /\
  (frost_wait s = Some None -> FCancelled ∈ evs \/ fr_results s <> []) /\
  (is_returned (fr_in s) || is_returned (fr_out s) || is_returned (fr_end s) = true -> fr_out s <> FBlocked ->
   returned (frost_wait (frost_after (evs ++ frost_see_done))) = true).
Proof.
  intros s. destruct (frost_after_inv evs) as [Hr He Hi Hret Hc]. fold s in Hr, He, Hi, Hret, Hc. split_and!.
  - destruct Hr as [?|(sig & ? & ? & _)]; [by left|right; by exists sig].
  - unfold frost_wait. intros Hw.
    destruct (fr_in s) as [| |[x|]] eqn:E1; try done; destruct (fr_out s) as [| |[y|]] eqn:E2; try done;
      destruct (fr_end s) as [| |[z|]] eqn:E3; try done.
    destruct (Hc (Hret eq_refl)) as [?|[?|?]]; [by left|by right|done].
  - intros Hx Hb. unfold frost_after. rewrite run_events_app. fold (frost_after evs). fold s.
    apply Hret in Hx. destruct s as [i o e c a t rs]. simpl in *. subst c. by destruct i, o, e.
Qed.

Lemma hang_step (s : frost_run (Sig := Sig)) ev : fr_out s = FBlocked -> is_returned (fr_end s) = true ->
  fr_out (frost_step Peers id s ev) = FBlocked /\ is_returned (fr_end (frost_step Peers id s ev)) = true.
Proof.
  intros Ho He. destruct ev; simpl; rewrite ?Ho; simpl; try done.
  - destruct (negb (is_looping (fr_in s))); [done|]. by destruct (frost_inbound_body _ _).
  - destruct (fr_end s) eqn:E; [done..|]. by rewrite E.
  - destruct (fr_cancelled s); [|done]. simpl. destruct (fr_end s) eqn:E; [done..|]. by destruct loop.
Qed.

(** A FROST signing can hang: when it is cancelled, the waiting loop ends and the
    handler's channel is closed before the sending loop sees the cancellation, the
    sending loop waits for a receiver that is gone, and nothing that happens later
    ends the run. *)
Theorem frost_run_hangs evs later :
  fr_cancelled (frost_after evs) = true -> fr_out (frost_after evs) = FLooping ->
  frost_wait (frost_after (evs ++ [FSeesDone FEndLoop; FClosed] ++ later)) = None.
Proof.
  intros Hc Ho. destruct (frost_after_inv evs) as [_ He _ _ _].
  unfold frost_after. rewrite !run_events_app. fold (frost_after evs).
  assert (fr_out (run_events (frost_step Peers id) (frost_after evs) [FSeesDone FEndLoop; FClosed]) = FBlocked /\
          is_returned (fr_end (run_events (frost_step Peers id) (frost_after evs) [FSeesDone FEndLoop; FClosed])) = true)
    as Hblocked.
  { destruct (frost_after evs) as [i o e c a t rs]. simpl in *. subst. by destruct e. }
  apply (run_events_invariant (frost_step Peers id) (fun s => fr_out s = FBlocked /\ is_returned (fr_end s) = true) later)
    in Hblocked as [Hb _]; [|intros s ev [? ?]; by apply hang_step].
  unfold frost_wait. rewrite Hb. by destruct (fr_in _).
Qed.
End run_spec.

(** ** All relayers refresh the same verification shares *)

Section resharing_spec.
Context {Scalar Point : Type} `{PeerText} `{JSON (frostParams Point)} (NewPoint : Point).

Lemma add_shares_spec ids : forall m, exists m',
  add_shares NewPoint ids (Some m) = Ok (Some m') /\
  forall k, m' !! k = match m !! k with
                      | Some p => Some p
                      | None => if bool_decide (k ∈ ids) then Some NewPoint else None
                      end.
Proof.
  induction ids as [|i ids IH]; intros m; cbn [add_shares].
  { exists m. split; [done|]. intros k. destruct (m !! k); [done|]. by rewrite bool_decide_eq_false_2 by set_solver. }
  destruct (m !! i) as [p|] eqn:Ei.
  - destruct (IH m) as (m' & E & Hm'). exists m'. split; [done|]. intros k. rewrite Hm'.
    destruct (m !! k) eqn:Ek; [done|]. destruct (decide (k = i)) as [->|]; [congruence|].
    by rewrite (bool_decide_ext (k ∈ i :: ids) (k ∈ ids)) by set_solver.
  - destruct (IH (<[i := NewPoint]> m)) as (m' & E & Hm'). exists m'. split; [done|]. intros k. rewrite Hm'.
    destruct (decide (k = i)) as [->|].
    + rewrite lookup_insert_eq, Ei. by rewrite bool_decide_eq_true_2 by set_solver.
    + rewrite lookup_insert_ne by done. destruct (m !! k); [done|]. by rewrite (bool_decide_ext (k ∈ i :: ids) (k ∈ ids)) by set_solver.
Qed.

(** A relayer of the session: it holds the public key and the shares of the leader, or
    has none yet. *)
Definition holds_or_joins (leader key : FrostKeyshare Scalar Point) : Prop :=
  tc_VerificationShares (fk_Key key) = ∅ \/
  tc_VerificationShares (fk_Key key) = tc_VerificationShares (fk_Key leader) /\
  tc_PublicKey (fk_Key key) = tc_PublicKey (fk_Key leader).

(** C29. Every relayer of a FROST resharing, one that holds a key share and one that
    joins, starts the refresh from the public key and the verification shares of the
    leader, extended by the identity for each party that has none; so every party has
    a share and no share is changed. *)
Theorem frost_resharing_agrees (leader : FrostKeyshare Scalar Point) ready (ids : list string) b :
  tc_VerificationShares (fk_Key leader) <> ∅ ->
  json_Marshal {| fp_PublicKey := tc_PublicKey (fk_Key leader);
                  fp_VerificationShares := Some (tc_VerificationShares (fk_Key leader)) |} = Ok b ->
  exists m, (forall k, m !! k = match tc_VerificationShares (fk_Key leader) !! k with
                                | Some p => Some p
                                | None => if bool_decide (k ∈ ids) then Some NewPoint else None
                                end) /\
    forall key ids', holds_or_joins leader key -> (forall k, k ∈ ids' <-> k ∈ ids) ->
      frost_resharing_Run NewPoint key ids' (frost_resharing_StartParams leader ready)
      = Ok (tc_PublicKey (fk_Key leader), Some m).
Proof.
  intros Hne Hb. set (vs := tc_VerificationShares (fk_Key leader)) in *.
  destruct (add_shares_spec ids vs) as (m & Em & Hm). exists m. split; [done|].
  intros key ids' Hkey Hids. unfold frost_resharing_Run, frost_resharing_StartParams. fold vs. rewrite Hb.
  rewrite (json_roundtrip _ _ Hb). cbn [mbind outcome_bind fp_PublicKey fp_VerificationShares].
  assert ((if bool_decide (size (tc_VerificationShares (fk_Key key)) = 0%nat)
           then (tc_PublicKey (fk_Key leader), Some vs)
           else (tc_PublicKey (fk_Key key), Some (tc_VerificationShares (fk_Key key))))
          = (tc_PublicKey (fk_Key leader), Some vs)) as ->.
  { destruct Hkey as [->|[-> ->]]; [by rewrite map_size_empty|].
    case_bool_decide as Hs; [by apply map_size_empty_inv in Hs|done]. }
  destruct (add_shares_spec ids' vs) as (m' & -> & Hm'). cbn [mbind outcome_bind]. do 3 f_equal.
  apply map_eq. intros k. rewrite Hm, Hm'. destruct (vs !! k); [done|]. by rewrite (bool_decide_ext (k ∈ ids') (k ∈ ids)) by apply Hids.
Qed.

(** Start parameters without shares end a relayer that joins: the map is nil. *)
Lemma frost_resharing_nil_shares (key : FrostKeyshare Scalar Point) ids params pk :
  tc_VerificationShares (fk_Key key) = ∅ -> ids <> [] ->
  json_Unmarshal params = Ok {| fp_PublicKey := pk; fp_VerificationShares := None |} ->
  frost_resharing_Run NewPoint key ids params = Panic.
Proof.
  intros Hk Hids Hp. unfold frost_resharing_Run. rewrite Hp, Hk. simpl. rewrite map_size_empty. simpl.
  by destruct ids.
Qed.
End resharing_spec.

(** ** FROST and ECDSA signings are started alike *)

Lemma frost_signing_as_ecdsa {Scalar Point} `{PeerText} SortPeers (key : FrostKeyshare Scalar Point) SID :
  frost_signing_process SortPeers key SID =
  signing_process SortPeers {| ks_Threshold := fk_Threshold key; ks_Peers := fk_Peers key |} SID.
Proof. done. Qed.

(** ** The key share after a key generation or a resharing *)

Lemma end_stored_Ok r fs' : end_stored r = (Some None, fs') -> r = (Ok tt, fs').
Proof. destruct r as [[[]| |] fs]; simpl; intros E; by simplify_eq. Qed.

Section stored_spec.
Context {K Scalar Point : Type} `{JSON (ECDSAKeyshare K)} `{CurveCodec Scalar Point} `{JSON frostKeyshareStore}.

(** A key generation or a resharing, ECDSA or FROST, that ends without an error on the
    result of its protocol leaves a key share in its file with that key, the threshold
    of the process and the peers it was created with. *)
Theorem key_share_after env path threshold Peers fs fs' :
  (forall (key : K) rest,
     ecdsa_processEndMessage env path threshold Peers (EndKey key :: rest) fs = (Some None, fs') \/
     resharing_processEndMessage env path threshold Peers (EndKey key :: rest) fs = (Some None, fs') ->
     ecdsa_GetKeyshare os_ok path fs' = Ok (NewECDSAKeyshare key threshold Peers)) /\
  (forall (cfg : TaprootConfig Scalar Point) order order' rest,
     order_of (tc_VerificationShares cfg) order -> (forall m, order_of m (order' m)) ->
     frost_keygen_processEndMessage env path threshold Peers order (FrostDone (Ok cfg) :: rest) fs = (Some None, fs') \/
     frost_processEndMessage env path threshold Peers order (FrostDone (Ok cfg) :: rest) fs = (Some None, fs') ->
     frost_GetKeyshare os_ok path order' fs' = Ok (NewFrostKeyshare cfg threshold Peers)).
Proof.
  split.
  - intros key rest [E|E]; apply end_stored_Ok in E; by eapply ecdsa_stored_read.
  - intros cfg order order' rest Ho Ho' [E|E]; apply end_stored_Ok in E; by eapply frost_stored_read.
Qed.
End stored_spec.

(** ** Examples *)

Module FrostExample.
Import KeyshareExample NumberCode.

Definition enc_message (m : FrostMessage) : bytes := enc (fm_Broadcast m, fm_To m, fm_Data m).
Definition dec_message (b : bytes) : res FrostMessage :=
  (fun '(br, to, d) => {| fm_Broadcast := br; fm_To := to; fm_Data := d |}) <$> dec b.

#[export] Program Instance frost_numbers : FrostCodec :=
  {| MarshalBinary m := Ok (enc_message m); UnmarshalBinary := dec_message |}.
Next Obligation.
  intros m b Hb. simpl in Hb. simplify_eq. unfold dec_message, enc_message. rewrite dec_enc. by destruct m.
Qed.

#[export] Instance frost_params_json : JSON (frostParams Z) :=
  sealed_json (A := frostParams Z) (B := bytes * option (gmap string Z)) (fun p => (fp_PublicKey p, fp_VerificationShares p))
    (fun '(k, v) => {| fp_PublicKey := k; fp_VerificationShares := v |}) ltac:(by intros []).

(** A signing that is cancelled, and one that is finished. *)
Definition cancelled : list (frost_event (Sig := Z)) := [FCancelled].
Definition finished : list (frost_event (Sig := Z)) := [FClosed; FHandshake (Ok 77); FSeesDone FInLoop].

Definition newcomer : FrostKeyshare Z Z :=
  frost_NewResharing (H := TssExample.plain_text) 0 (Err "no key share") 1 "c".
End FrostExample.
Import KeyshareExample FrostExample TssExample.

Example finished_run :
  fr_results (frost_after ["a"; "b"] 3 finished) = [(3, 77)] /\ frost_wait (frost_after ["a"; "b"] 3 finished) = Some None.
Proof. by vm_compute. Qed.

Example frost_run_hangs_witness :
  frost_wait (frost_after (Sig := Z) ["a"; "b"] 3 (cancelled ++ [FSeesDone FEndLoop; FClosed] ++ frost_see_done)) = None.
Proof. apply (frost_run_hangs ["a"; "b"] 3 cancelled frost_see_done); reflexivity. Defined.

Example frost_resharing_agrees_witness :
  exists m, m !! "a" = Some 7 /\ m !! "c" = Some 0 /\
    frost_resharing_Run 0 newcomer ["c"; "b"; "a"] (frost_resharing_StartParams frost_share ["b"]) = Ok ([Byte.x09], Some m) /\
    frost_resharing_Run 0 frost_share ["a"; "b"; "c"] (frost_resharing_StartParams frost_share ["b"]) = Ok ([Byte.x09], Some m).
Proof.
  destruct (frost_resharing_agrees 0 frost_share ["b"] ["a"; "b"; "c"]
              (match json_Marshal {| fp_PublicKey := [Byte.x09]; fp_VerificationShares := Some {["a" := 7; "b" := 8]} |} with
               | Ok b => b | _ => [] end)) as (m & Hm & Hrun).
  - by vm_compute.
  - reflexivity.
  - exists m. split; [rewrite Hm; by vm_compute|]. split; [rewrite Hm; by vm_compute|].
    split; apply Hrun; [by left|intros k; rewrite !elem_of_cons; tauto|by right|done].
Defined.

Example key_share_after_witness :
  ecdsa_GetKeyshare os_ok "share" (ecdsa_StoreKeyshare os_ok "share" (NewECDSAKeyshare 12 2 ["a"]) disk).2
  = Ok (NewECDSAKeyshare 12 2 ["a"]).
Proof.
  apply (proj1 (key_share_after (K := Z) (Scalar := Z) (Point := Z) os_ok "share" 2 ["a"] disk
                  (ecdsa_StoreKeyshare os_ok "share" (NewECDSAKeyshare 12 2 ["a"]) disk).2) 12 []).
  left. by vm_compute.
Defined.
