(* ===== verification/Session.v ===== *)
(** * A signing session across the relayers ([tss/coordinator.go], [tss/message])

    Every relayer starts the same session with the same coordinator: the coordinator
    collects ready messages and broadcasts a start message, the other relayers answer
    and wait for it.  Between them are the streams of [Comm]: what a relayer hears is
    what the other end wrote, encoded as JSON, framed, decoded and handed to the
    subscribers of its session.  The theorem is that the relayers agree on who signs. *)

From S2P Require Import Prelude GoBytes GoStrings GoBase64 GoJson Comm Elector Coordinator Tss.

#[local] Open Scope string_scope.
#[local] Open Scope list_scope.
#[local] Open Scope Z_scope.

(** ** Start messages *)

Record StartMessage := { sm_Params : bytes }.

(** Its JSON document. *)
Definition start_fields : list string := ["params"].
Definition start_doc (m : StartMessage) : json := JObject [("params", JString (base64_encode (sm_Params m)))].
Definition store_start (m : StartMessage) (name : string) (v : json) : res StartMessage :=
  b ← into_bytes v; Ok {| sm_Params := b |}.

Definition MarshalStartMessage (params : bytes) : res bytes := Ok (marshal_json (start_doc {| sm_Params := params |})).
Definition UnmarshalStartMessage (msgBytes : bytes) : res StartMessage :=
  unmarshal_json (into_struct start_fields store_start {| sm_Params := [] |}) msgBytes.

(** The parameters [waitForStart] passes to the processes. *)
Definition start_params (payload : bytes) : res bytes :=
  msg ← UnmarshalStartMessage payload; Ok (sm_Params msg).

Lemma start_roundtrip params payload :
  MarshalStartMessage params = Ok payload -> start_params payload = Ok params.
Proof.
  intros E. assert (payload = marshal_json (start_doc {| sm_Params := params |})) as ->
    by (unfold MarshalStartMessage in E; congruence).
  unfold start_params, UnmarshalStartMessage. rewrite (unmarshal_marshal _ 2).
  2: lia.
  2: { cbn. repeat constructor; cbn; try done. apply base64_plain. }
  unfold start_doc. rewrite into_struct_fields by (unfold start_fields; repeat constructor; set_solver).
  cbn. unfold store_start. by rewrite into_bytes_encode.
Qed.

(** ** The session *)

Section session.
Context `{PeerText}.
Context (SortPeers : list PeerID -> string -> list PeerID) (key : Keyshare) (SID : string).
(** What [Run] returns at each relayer, the coordinator all of them elect, the
    peers it leaves out, and the events of each relayer. *)
Context (Run : PeerID -> bool -> bytes -> list tss_error).
Context (coordinator : PeerID) (excluded : list PeerID) (events : PeerID -> attempt).

Definition session_start (relayer : PeerID) : option (option tss_error) * list coord_action :=
  coord_start Pretty MarshalStartMessage start_params relayer (signing_process SortPeers key SID)
    (Run relayer) coordinator excluded (events relayer).

(** The network delivers what was sent: a start message of the coordinator is one it
    broadcast, a ready message one its sender sent to the coordinator. *)
Record authentic : Prop := {
  start_sent : forall relayer payload, StartMsg coordinator payload ∈ at_wait (events relayer) ->
    BroadcastStart payload ∈ (session_start coordinator).2;
  ready_sent : forall relayer, ReadyMsg relayer ∈ at_init (events coordinator) ->
    SendReady coordinator ∈ (session_start relayer).2;
}.

Abbreviation lead :=
  (initiate MarshalStartMessage coordinator (signing_process SortPeers key SID) (Run coordinator)
     excluded (at_init (events coordinator))).
Abbreviation follow relayer :=
  (waitForStart start_params (Run relayer) coordinator (at_wait (events relayer))).

Lemma session_leader : session_start coordinator = lead.
Proof. unfold session_start, coord_start. by rewrite bool_decide_eq_true_2. Qed.

Lemma session_follower relayer : relayer <> coordinator -> session_start relayer = follow relayer.
Proof.
  intros Hne. unfold session_start, coord_start. rewrite bool_decide_eq_false_2; [done|].
  intros E%Pretty_inj. congruence.
Qed.

(** A relayer runs the processes with the parameters the coordinator runs with. *)
Lemma session_params relayer b params :
  authentic -> coordinator <> "" -> RunProcesses b params ∈ (session_start relayer).2 ->
  RunProcesses true params ∈ (session_start coordinator).2.
Proof.
  intros [Hstart _] Hc Hin. destruct (decide (relayer = coordinator)) as [->|Hne].
  { pose proof Hin as Hb. rewrite session_leader in Hb. by apply initiate_runs in Hb as [-> _]. }
  rewrite session_follower in Hin by done.
  destruct (wait_actions _ _ _ _ _ Hin) as [(from & E & _)|(from & payload & params' & E & Hev & Hfrom & Eu)];
    [discriminate E|].
  injection E as _ <-. apply unwanted_spec in Hfrom as [?| ->]; [done|].
  apply Hstart in Hev. rewrite session_leader in Hev |- *.
  apply initiate_broadcasts in Hev as (params' & Em & Hr). apply start_roundtrip in Em. congruence.
Qed.

(** A relayer the start message reaches before it gives up runs the processes. *)
Lemma session_starts relayer pre payload post params :
  authentic -> relayer <> coordinator ->
  at_wait (events relayer) = pre ++ StartMsg coordinator payload :: post ->
  Forall (fun ev => keeps_waiting coordinator ev = true) pre ->
  RunProcesses true params ∈ (session_start coordinator).2 ->
  (session_start relayer).1 = Some (pool_wait (Run relayer false params)) /\
  RunProcesses false params ∈ (session_start relayer).2.
Proof.
  intros [Hstart _] Hne Hev Hpre Hlead.
  assert (BroadcastStart payload ∈ (session_start coordinator).2) as Hb
    by (apply (Hstart relayer); rewrite Hev; set_solver).
  rewrite session_leader in Hb, Hlead. rewrite (session_follower relayer Hne), Hev.
  apply initiate_broadcasts in Hb as (params' & Em & Hr).
  assert (params' = params) as -> by (eapply runs_unique; [apply initiate_once|done..]).
  apply wait_starts; [done|by right|by apply start_roundtrip].
Qed.

(** Agreement on who signs: nobody runs the signing, or there are parameters and one
    set of peers such that the parameters are those of every run, the peers are those
    every run signs with, and a relayer that hears the start message runs. *)
Definition signers_agree : Prop :=
  (forall relayer b params, RunProcesses b params ∉ (session_start relayer).2) \/
  exists params subset,
    NoDup subset /\ Z.of_nat (length subset) = ks_Threshold key + 1 /\ coordinator ∈ subset /\
    (forall p, p ∈ subset -> p ∈ ks_Peers key /\
       (p = coordinator \/ ((p ∉ excluded) /\ SendReady coordinator ∈ (session_start p).2))) /\
    (forall relayer b params', RunProcesses b params' ∈ (session_start relayer).2 -> params' = params) /\
    (forall relayer, signing_Run relayer params
                     = if bool_decide (relayer ∈ subset) then Ok subset else Err (SubsetError relayer)) /\
    RunProcesses true params ∈ (session_start coordinator).2 /\
    (forall relayer pre payload post, relayer <> coordinator ->
       at_wait (events relayer) = pre ++ StartMsg coordinator payload :: post ->
       Forall (fun ev => keeps_waiting coordinator ev = true) pre ->
       (session_start relayer).1 = Some (pool_wait (Run relayer false params)) /\
       RunProcesses false params ∈ (session_start relayer).2).

Lemma session_agrees :
  (forall l s, SortPeers l s ≡ₚ l) -> Forall valid_peer (ks_Peers key) -> 1 <= ks_Threshold key ->
  coordinator ∈ ks_Peers key -> coordinator <> "" -> authentic -> signers_agree.
Proof.
  intros Hsort Hvalid Ht Hkey Hc Hauth.
  destruct (List.filter is_run (session_start coordinator).2) as [|act l] eqn:Ef.
  - left. intros relayer b params Hin. apply session_params in Hin; [|done..].
    assert (RunProcesses true params ∈ List.filter is_run (session_start coordinator).2) as Hx
      by (apply list_elem_of_In, List.filter_In; split; [by apply list_elem_of_In|done]).
    rewrite Ef in Hx. set_solver.
  - right. assert (act ∈ List.filter is_run (session_start coordinator).2) as Hact by (rewrite Ef; set_solver).
    apply list_elem_of_In, List.filter_In in Hact as [Hact Hrun]. apply list_elem_of_In in Hact.
    destruct act as [| | |b params]; [done..|]. apply (session_params _ _ _ Hauth Hc) in Hact.
    pose proof Hact as Hlead. rewrite session_leader in Hlead.
    destruct (signing_run_subset _ _ _ _ _ _ _ _ _ _ Hsort Hvalid Ht Hkey Hlead)
      as (subset & Hnd & Hlen & Hin & Hmem & Hsign).
    exists params, subset. split_and!; [done..| | |done|done|].
    + intros p Hp. destruct (Hmem p Hp) as [Hk [->|[Hx Hr]]]; (split; [done|]); [by left|right].
      split; [done|]. by apply (ready_sent Hauth).
    + intros relayer b' params' Hin'%session_params; [|done..]. rewrite session_leader in Hin'.
      eapply runs_unique; [apply initiate_once|exact Hin'|exact Hlead].
    + intros relayer pre payload post Hne Hev Hpre. by eapply session_starts.
Qed.

(** ** On the wire *)

(** The message an action of the coordinator code sends to a peer. *)
Definition coord_message (self to : PeerID) (act : coord_action) : option (WrappedMessage PeerID) :=
  let message msgType payload :=
    {| wm_MessageType := msgType; wm_SessionID := SID; wm_Payload := payload; wm_From := Some self |} in
  match act with
  | BroadcastInitiate => Some (message TssInitiateMsg [])
  | SendReady p => if bool_decide (p = to) then Some (message TssReadyMsg []) else None
  | BroadcastStart payload => Some (message TssStartMsg payload)
  | RunProcesses _ _ => None
  end.

(** What each relayer wrote for another one, messages of other sessions and of the
    processes among it; the subscriptions of a relayer and its channels for start and
    ready messages. *)
Context {Chan : Type} (traffic : PeerID -> PeerID -> list (WrappedMessage PeerID)).
Context (subs : PeerID -> gmap string (gmap Z (gmap string Chan))) (startMsgChn readyChan : PeerID -> Chan).

Definition deliveries (p q : PeerID) : list (Chan * WrappedMessage PeerID) :=
  ProcessMessagesFromStream (S (length (traffic p q))) (subs q) p
    (stream_of (json_print ∘ wrapped_json <$> traffic p q)).

(** A relayer writes messages that can be encoded; a start message that the coordinator
    writes in this session, and a ready message that any relayer writes, are those of its
    coordinator code, but other relayers may write start messages; the channels are
    subscribed for the session and their type alone; what a relayer takes from a channel
    was delivered to it by some stream. *)
Record on_wire : Prop := {
  encoded : forall p q, Forall encodable (traffic p q);
  honest : forall p q m, m ∈ traffic p q -> wm_SessionID m = SID ->
    (p = coordinator /\ wm_MessageType m = TssStartMsg) \/ wm_MessageType m = TssReadyMsg ->
    exists act, act ∈ (session_start p).2 /\ coord_message p q act = Some m;
  start_channel : forall q s t, startMsgChn q ∈ GetSubscribers (subs q) s t -> s = SID /\ t = TssStartMsg;
  ready_channel : forall q s t, readyChan q ∈ GetSubscribers (subs q) s t -> s = SID /\ t = TssReadyMsg;
  start_heard : forall q from payload, StartMsg from payload ∈ at_wait (events q) -> exists p m,
    (startMsgChn q, m) ∈ deliveries p q /\ wm_From m = Some from /\ wm_Payload m = payload;
  ready_heard : forall q from, ReadyMsg from ∈ at_init (events q) -> exists p m,
    (readyChan q, m) ∈ deliveries p q /\ wm_From m = Some from;
}.

(** A message on a channel is one its sender wrote, whatever sender it claims. *)
Lemma delivery_sent p q chan m : on_wire -> (chan, m) ∈ deliveries p q ->
  wm_From m = Some p /\ exists w, w ∈ traffic p q /\ wm_Payload w = wm_Payload m /\
    chan ∈ GetSubscribers (subs q) (wm_SessionID w) (wm_MessageType w).
Proof.
  intros Hw Hin. unfold deliveries in Hin. rewrite (messages_processed _ _ (traffic p q)) in Hin.
  - apply list_elem_of_In, List.in_concat in Hin as (l & Hl%list_elem_of_In & Hin%list_elem_of_In).
    apply list_elem_of_fmap in Hl as (w & -> & Hw'). apply list_elem_of_fmap in Hin as (sub & [= -> ->] & Hs). split; [done|]. by exists w.
  - apply (encoded Hw).
  - clear. induction (traffic p q) as [|m l IH]; [constructor|]. rewrite fmap_cons. by constructor.
  - lia.
Qed.

Lemma wire_authentic : on_wire -> authentic.
Proof.
  intros Hw. split.
  - intros q payload (p & m & Hd & Hfrom & Hpay)%(start_heard Hw).
    apply (delivery_sent _ _ _ _ Hw) in Hd as (Hp & w & Hin & Hpw & Hs). rewrite Hfrom in Hp. injection Hp as <-.
    apply (start_channel Hw) in Hs as [Hsid Hty].
    destruct (honest Hw _ _ _ Hin Hsid) as (act & Hact & E); [by left|].
    destruct act as [|to|pl|]; cbn in E; [| |injection E as <-|done].
    + injection E as <-. done.
    + case_bool_decide; [injection E as <-|]; done.
    + cbn in Hpw. by rewrite Hpw, Hpay in Hact.
  - intros from (p & m & Hd & Hfrom)%(ready_heard Hw).
    apply (delivery_sent _ _ _ _ Hw) in Hd as (Hp & w & Hin & Hpw & Hs). rewrite Hfrom in Hp. injection Hp as <-.
    apply (ready_channel Hw) in Hs as [Hsid Hty].
    destruct (honest Hw _ _ _ Hin Hsid) as (act & Hact & E); [by right|].
    destruct act as [|to|pl|]; cbn in E; [injection E as <-; done| |injection E as <-; done|done].
    case_bool_decide; [by subst to|done].
Qed.

(** C6. The relayers of a signing session agree on who signs, down to the bytes on the
    streams between them.  All relayers have the same coordinator, a key holder; what
    they hear was written by the relayer at the other end of a stream, framed and
    encoded in JSON, among the messages of any other session, and relayers other than
    the coordinator may write any start message.  Then either no relayer
    runs the signing, or there are parameters and one set of peers, one more than the
    threshold, all different key holders and none excluded but possibly the
    coordinator, each of which is the coordinator or answered it, such that every
    relayer that runs the signing does so with these parameters, signs with exactly
    these peers if it is one of them and otherwise reports it is not; and every
    relayer the start message reaches before it gives up does run. *)
Theorem signing_session_agrees :
  (forall l s, SortPeers l s ≡ₚ l) -> Forall valid_peer (ks_Peers key) -> 1 <= ks_Threshold key ->
  coordinator ∈ ks_Peers key -> coordinator <> "" -> on_wire -> signers_agree.
Proof. intros. by apply session_agrees, wire_authentic. Qed.
End session.

(** ** A session of four holders: "d" is left out and "x" holds no key *)

Module SessionExample.
Import TssExample.

(** The message the coordinator broadcasts for the peers that answered. *)
Definition start_payload : bytes :=
  match MarshalStartMessage (signing_StartParams sorted key "1-2-3-4-0" ["a"; "c"; "b"]) with
  | Ok b => b | _ => [] end.

Definition example_events (p : PeerID) : attempt :=
  {| at_init := if bool_decide (p = "a") then [ReadyMsg "c"; InitTick; ReadyMsg "c"; ReadyMsg "d"; ReadyMsg "b"] else [];
     at_wait := if bool_decide (p = "b" \/ p = "c" \/ p = "d")
                then [StartMsg "x" []; InitiateMsg "a"; StartMsg "a" start_payload] else [WaitTimeout];
     at_watch := [WatchDone]; at_watch_first := false |}.

Definition sign_errors (p : PeerID) (_ : bool) (params : bytes) : list tss_error :=
  match signing_Run p params with Err e => [e] | _ => [] end.

Abbreviation example_session := (session_start sorted key "1-2-3-4-0" sign_errors "a" ["d"] example_events).

Lemma example_leads : (example_session "a").2
  = [BroadcastInitiate; BroadcastInitiate; BroadcastStart start_payload;
     RunProcesses true (signing_StartParams sorted key "1-2-3-4-0" ["a"; "c"; "b"])].
Proof. vm_compute. reflexivity. Qed.

(** Relayer "x" writes a start message of its own, and "a" one of another session. *)
Definition forged : WrappedMessage PeerID :=
  {| wm_MessageType := TssStartMsg; wm_SessionID := "1-2-3-4-0"; wm_Payload := []; wm_From := Some "a" |}.
Definition unrelated : WrappedMessage PeerID :=
  {| wm_MessageType := TssStartMsg; wm_SessionID := "9"; wm_Payload := [Byte.x07]; wm_From := Some "a" |}.

Definition example_traffic (p q : PeerID) : list (WrappedMessage PeerID) :=
  (if bool_decide (p = "x") then [forged] else [unrelated])
  ++ omap (coord_message "1-2-3-4-0" p q) (example_session p).2.

Definition example_subs (_ : PeerID) : gmap string (gmap Z (gmap string nat)) :=
  {[ "1-2-3-4-0" := {[ TssStartMsg := {[ "" := 1%nat ]}; TssReadyMsg := {[ "" := 2%nat ]} ]} ]}.

Abbreviation example_wire :=
  (on_wire sorted key "1-2-3-4-0" sign_errors "a" ["d"] example_events example_traffic example_subs
     (fun _ => 1%nat) (fun _ => 2%nat)).

Lemma coord_message_encodable p q act m : coord_message "1-2-3-4-0" p q act = Some m -> encodable m.
Proof. destruct act; cbn; repeat case_match; intros [= <-]; by split. Qed.

Lemma example_subscribed q s t c : c ∈ GetSubscribers (example_subs q) s t ->
  s = "1-2-3-4-0" /\ ((t = TssStartMsg /\ c = 1%nat) \/ (t = TssReadyMsg /\ c = 2%nat)).
Proof.
  unfold GetSubscribers, lookup_subs, example_subs. destruct (decide (s = "1-2-3-4-0")) as [->|Hs].
  2: { rewrite lookup_singleton_ne by done. cbn. set_solver. }
  rewrite lookup_singleton_eq. cbn [mbind option_bind].
  destruct (decide (t = TssStartMsg)) as [->|H1]; [|destruct (decide (t = TssReadyMsg)) as [->|H2]].
  - vm_compute. intros Hc. apply list_elem_of_In in Hc as [<-|[]]. auto.
  - vm_compute. intros Hc. apply list_elem_of_In in Hc as [<-|[]]. auto.
  - rewrite lookup_insert_ne, lookup_singleton_ne by done. cbn. set_solver.
Qed.

(** A delivery found by evaluation. *)
Definition delivered (c : nat) (payload : option bytes) (from p q : PeerID) : bool :=
  existsb (fun '(c', m) => bool_decide (c' = c) && bool_decide (wm_From m = Some from)
                           && match payload with Some b => bool_decide (wm_Payload m = b) | None => true end)
    (deliveries example_traffic example_subs p q).

Lemma delivered_spec c payload from p q : delivered c payload from p q = true -> exists m,
  (c, m) ∈ deliveries example_traffic example_subs p q /\ wm_From m = Some from /\
  match payload with Some b => wm_Payload m = b | None => True end.
Proof.
  intros ([c' m] & Hin%list_elem_of_In & Hm)%existsb_exists. exists m.
  rewrite !andb_true_iff, !bool_decide_eq_true in Hm. destruct Hm as [[-> Hf] Hp]. split_and!; [done..|].
  destruct payload; [by apply bool_decide_eq_true in Hp|done].
Qed.

Lemma example_on_wire : example_wire.
Proof.
  split.
  - intros p q. apply list.Forall_forall. intros m [Hm|Hm]%elem_of_app.
    + case_bool_decide; apply list_elem_of_singleton in Hm as ->; by split.
    + apply list_elem_of_omap in Hm as (act & _ & E). by apply coord_message_encodable in E.
  - intros p q m [Hm|Hm]%elem_of_app Hsid Hty.
    + case_bool_decide; apply list_elem_of_singleton in Hm as ->; [subst p|done].
      by destruct Hty as [[? _]|?].
    + by apply list_elem_of_omap in Hm.
  - intros q s t Hc%example_subscribed. naive_solver.
  - intros q s t Hc%example_subscribed. naive_solver.
  - intros q from payload Hin. cbn in Hin. case_bool_decide as Hq; [|by apply list_elem_of_singleton in Hin].
    apply elem_of_cons in Hin as [[= -> ->]|Hin];
      [exists "x"|apply elem_of_cons in Hin as [[=]|Hin]; apply list_elem_of_singleton in Hin as [= -> ->]; exists "a"].
    + destruct (delivered_spec 1 (Some []) "x" "x" q) as (m & ? & ? & ?); [|by exists m].
      destruct Hq as [->|[->| ->]]; vm_compute; reflexivity.
    + destruct (delivered_spec 1 (Some start_payload) "a" "a" q) as (m & ? & ? & ?); [|by exists m].
      destruct Hq as [->|[->| ->]]; vm_compute; reflexivity.
  - intros q from Hin. cbn in Hin. case_bool_decide as Hq; [subst q|by apply elem_of_nil in Hin].
    assert (from = "b" \/ from = "c" \/ from = "d") as Hf by set_solver. exists from.
    destruct (delivered_spec 2 None from from "a") as (m & ? & ? & ?); [|by exists m].
    destruct Hf as [->|[->| ->]]; vm_compute; reflexivity.
Qed.
End SessionExample.

Import TssExample SessionExample.

(** The start message of "x" is ignored; "b" and "c" run, "d" runs and reports that it is not one of the signers. *)
Lemma signing_session_agrees_witness :
  exists params subset, length subset = 3%nat /\
    signing_Run "b" params = Ok subset /\
    (session_start sorted key "1-2-3-4-0" sign_errors "a" ["d"] example_events "d").1
    = Some (Some (SubsetError "d")).
Proof.
  destruct (signing_session_agrees sorted key "1-2-3-4-0" sign_errors "a" ["d"] example_events
              example_traffic example_subs (fun _ => 1%nat) (fun _ => 2%nat))
    as [Hnone|(params & subset & Hnd & Hlen & Ha & Hmem & Hall & Hsign & Hlead & Hstart)].
  - done.
  - by repeat constructor.
  - cbn. lia.
  - cbn. set_solver.
  - done.
  - apply example_on_wire.
  - exfalso. apply (Hnone "a" true (signing_StartParams sorted key "1-2-3-4-0" ["a"; "c"; "b"])).
    rewrite example_leads. do 3 right. left.
  - exists params, subset. split; [cbn in Hlen; lia|].
    assert (params = signing_StartParams sorted key "1-2-3-4-0" ["a"; "c"; "b"]) as ->
      by (symmetry; apply (Hall "a" true); rewrite example_leads; do 3 right; left).
    assert ("d" ∉ subset) as Hd by (intros [_ [?|[Hd _]]]%Hmem; [done|apply Hd; left]).
    split.
    { assert (is_ok (signing_Run "b" (signing_StartParams sorted key "1-2-3-4-0" ["a"; "c"; "b"])) = true) as Hb
        by (vm_compute; reflexivity).
      rewrite Hsign in Hb |- *. case_bool_decide; [done|discriminate Hb]. }
    rewrite (proj1 (Hstart "d" [StartMsg "x" []; InitiateMsg "a"] start_payload [] ltac:(done) eq_refl
                      ltac:(by repeat constructor))).
    unfold sign_errors. rewrite Hsign, bool_decide_eq_false_2 by done. done.
Defined.
