(* ===== verification/TssRun.v ===== *)
(** * The life of a threshold process ([tss/ecdsa], [tss/frost])

    A process is created, run once by the coordinator (or twice, when a signing is
    retried) and stopped.  Creating it reads and locks the key share, running it
    fills its party store, subscribes it to the messages of its session and starts
    the loops of [TssLoops] and [FrostTss], stopping it ends the subscription, gives
    back the lock and cancels its context.  The operations act on one state: the
    fields of the process, the subscriptions of the relayer and the lock of the key
    share.  The threshold protocols are arguments. *)

From Stdlib Require Import Ascii.
From S2P Require Import Prelude GoBytes GoStrings Files Keyshare Comm Elector Coordinator Tss TssLoops FrostTss.

#[local] Open Scope string_scope.
#[local] Open Scope list_scope.
#[local] Open Scope Z_scope.

(** ** The state of a process *)

(** Channels are numbered in the order they are made.  [pc_loops] holds the message
    channels of the loops that were started, [pc_locks] the operations on the lock of
    the key share, [pc_cancelled] whether the context of the last run is cancelled. *)
Record proc := {
  pc_SID : string;
  pc_Peers : list PeerID;
  pc_PartyStore : gmap string PartyID;
  pc_subscriptionID : string;
  pc_subs : gmap string (gmap Z (gmap string nat));
  pc_next : nat;
  pc_loops : list nat;
  pc_locks : list lock_op;
  pc_cancelled : bool;
}.

(** An operation of a process: its outcome and the state after it, which an error
    keeps. *)
Definition proc_m (A : Type) : Type := proc -> outcome tss_error A * proc.

#[export] Instance proc_ret : MRet proc_m := fun A a s => (Ok a, s).
#[export] Instance proc_bind : MBind proc_m :=
  fun A B f m s =>
    match m s with
    | (Ok a, s') => f a s'
    | (Err e, s') => (Err e, s')
    | (Panic, s') => (Panic, s')
    end.

Definition proc_fail {A} (e : tss_error) : proc_m A := fun s => (Err e, s).
(** A call of a library that returns an ordinary error. *)
Definition proc_call {A} (m : res A) : proc_m A := fun s =>
  (match m with Ok a => Ok a | Err e => Err (OtherError e) | Panic => Panic end, s).

Definition set_Peers (peers : list PeerID) : proc_m unit := fun s =>
  (Ok tt, {| pc_SID := pc_SID s; pc_Peers := peers; pc_PartyStore := pc_PartyStore s;
             pc_subscriptionID := pc_subscriptionID s; pc_subs := pc_subs s; pc_next := pc_next s;
             pc_loops := pc_loops s; pc_locks := pc_locks s; pc_cancelled := pc_cancelled s |}).

(** [PopulatePartyStore] on the store of the process; it returns the store. *)
Definition populate (parties : list PartyID) : proc_m (gmap string PartyID) := fun s =>
  let store := PopulatePartyStore (pc_PartyStore s) parties in
  (Ok store, {| pc_SID := pc_SID s; pc_Peers := pc_Peers s; pc_PartyStore := store;
                pc_subscriptionID := pc_subscriptionID s; pc_subs := pc_subs s; pc_next := pc_next s;
                pc_loops := pc_loops s; pc_locks := pc_locks s; pc_cancelled := pc_cancelled s |}).

(** [context.WithCancel], whose cancel function replaces the one the process holds. *)
Definition new_context : proc_m unit := fun s =>
  (Ok tt, {| pc_SID := pc_SID s; pc_Peers := pc_Peers s; pc_PartyStore := pc_PartyStore s;
             pc_subscriptionID := pc_subscriptionID s; pc_subs := pc_subs s; pc_next := pc_next s;
             pc_loops := pc_loops s; pc_locks := pc_locks s; pc_cancelled := false |}).

Definition lock_with (op : lock_op) : proc_m unit := fun s =>
  (Ok tt, {| pc_SID := pc_SID s; pc_Peers := pc_Peers s; pc_PartyStore := pc_PartyStore s;
             pc_subscriptionID := pc_subscriptionID s; pc_subs := pc_subs s; pc_next := pc_next s;
             pc_loops := pc_loops s; pc_locks := pc_locks s ++ [op]; pc_cancelled := pc_cancelled s |}).

(** [msgChn := make(...)] and [Communication.Subscribe] at the time [now]. *)
Definition Subscribe (msgType : MessageType) (now : Z) : proc_m nat := fun s =>
  let subscription := SubscribeTo (pc_subs s) (pc_SID s) msgType (pc_next s) now in
  (Ok (pc_next s),
   {| pc_SID := pc_SID s; pc_Peers := pc_Peers s; pc_PartyStore := pc_PartyStore s;
      pc_subscriptionID := fst subscription; pc_subs := snd subscription; pc_next := S (pc_next s);
      pc_loops := pc_loops s; pc_locks := pc_locks s; pc_cancelled := pc_cancelled s |}).

(** [p.Go] of the loops that read from a channel. *)
Definition start_loops (msgChn : nat) : proc_m unit := fun s =>
  (Ok tt, {| pc_SID := pc_SID s; pc_Peers := pc_Peers s; pc_PartyStore := pc_PartyStore s;
             pc_subscriptionID := pc_subscriptionID s; pc_subs := pc_subs s; pc_next := pc_next s;
             pc_loops := pc_loops s ++ [msgChn]; pc_locks := pc_locks s; pc_cancelled := pc_cancelled s |}).

(** [Communication.UnSubscribe] *)
Definition UnSubscribe : proc_m unit := fun s =>
  (Ok tt, {| pc_SID := pc_SID s; pc_Peers := pc_Peers s; pc_PartyStore := pc_PartyStore s;
             pc_subscriptionID := pc_subscriptionID s;
             pc_subs := UnSubscribeFrom (pc_subs s) (pc_subscriptionID s); pc_next := pc_next s;
             pc_loops := pc_loops s; pc_locks := pc_locks s; pc_cancelled := pc_cancelled s |}).

Definition Cancel : proc_m unit := fun s =>
  (Ok tt, {| pc_SID := pc_SID s; pc_Peers := pc_Peers s; pc_PartyStore := pc_PartyStore s;
             pc_subscriptionID := pc_subscriptionID s; pc_subs := pc_subs s; pc_next := pc_next s;
             pc_loops := pc_loops s; pc_locks := pc_locks s; pc_cancelled := true |}).

(** A process as its constructor makes it, with the lock operations of the
    constructor and the subscriptions and channels the relayer has. *)
Definition new_proc (SID : string) (Peers : list PeerID) (locks : list lock_op)
    (subs : gmap string (gmap Z (gmap string nat))) (next : nat) : proc :=
  {| pc_SID := SID; pc_Peers := Peers; pc_PartyStore := ∅; pc_subscriptionID := ""; pc_subs := subs;
     pc_next := next; pc_loops := []; pc_locks := locks; pc_cancelled := false |}.

(** ** ECDSA processes *)

(** tss-lib: the parameters of a protocol, the local party made of them and its
    start, which returns the error of the party. *)
Class EcdsaLib (Params K P : Type) := {
  NewParameters : list PartyID -> option PartyID -> Z -> Z -> res Params;
  NewReSharingParameters : list PartyID -> list PartyID -> option PartyID -> Z -> Z -> Z -> Z -> res Params;
  signing_NewLocalParty : Z -> Params -> K -> Z -> Z -> res P;
  keygen_NewLocalParty : Params -> Z -> res P;
  resharing_NewLocalParty : Params -> K -> Z -> res P;
  Start : P -> option tss_error * P;
}.

Section ecdsa.
Context `{PeerText} `{PartySort} {Params K P : Type} `{EcdsaLib Params K P}.
(** The host and the peers of its peer store. *)
Context (hostID : PeerID) (peerstore : list PeerID).

Definition session_number (SID : string) : Z := be_val (bytes_of_string SID).

(** [Party.Start]: the party, or its error. *)
Definition start_party (party : P) : proc_m P := fun s =>
  match Start party with
  | (None, party') => (Ok party', s)
  | (Some e, _) => (Err e, s)
  end.

Definition get_SID : proc_m string := fun s => (Ok (pc_SID s), s).

(** [Run] of a signing until [p.Wait]: the party that was started. *)
Definition ecdsa_signing_start (key : ECDSAKeyshare K) (msg : Z) (params : bytes) (now : Z) : proc_m P :=
  _ ← new_context;
  peerSubset ← proc_call (signing_unmarshallStartParams params);
  if negb (IsParticipant Pretty hostID peerSubset) then proc_fail (SubsetError hostID) else
  _ ← set_Peers peerSubset;
  let parties := PartiesFromPeers peerSubset in
  store ← populate parties;
  tssParams ← proc_call (NewParameters parties (store !! Pretty hostID)
                           (Z.of_nat (length parties)) (ek_Threshold key));
  SID ← get_SID;
  party ← proc_call (signing_NewLocalParty msg tssParams (ek_Key key) 0 (session_number SID));
  msgChn ← Subscribe TssKeySignMsg now;
  _ ← start_loops msgChn;
  start_party party.

Definition signing_Stop : proc_m unit := _ ← UnSubscribe; Cancel.

(** [NewSigning]: the lock is held while the key share is read, and given back on
    every path. *)
Definition signing_New (GetKeyshare : res (ECDSAKeyshare K)) (SID : string)
    (subs : gmap string (gmap Z (gmap string nat))) (next : nat) : res (ECDSAKeyshare K * proc) :=
  key ← GetKeyshare;
  Ok (key, new_proc SID (ek_Peers key) [Lock; Unlock] subs next).

Definition keygen_New (SID : string) (subs : gmap string (gmap Z (gmap string nat))) (next : nat) : proc :=
  new_proc SID peerstore [] subs next.

Definition ecdsa_keygen_start (threshold : Z) (now : Z) : proc_m P :=
  _ ← new_context;
  _ ← lock_with Lock;
  let parties := PartiesFromPeers peerstore in
  store ← populate parties;
  tssParams ← proc_call (NewParameters parties (store !! Pretty hostID)
                           (Z.of_nat (length parties)) threshold);
  msgChn ← Subscribe TssKeyGenMsg now;
  SID ← get_SID;
  party ← proc_call (keygen_NewLocalParty tssParams (session_number SID));
  _ ← start_loops msgChn;
  start_party party.

Definition keygen_Stop : proc_m unit :=
  _ ← UnSubscribe; _ ← lock_with Unlock; Cancel.

(** [NewResharing]: the lock is kept; a relayer without a key share has an empty one. *)
Definition resharing_New (noKey : K) (GetKeyshare : res (ECDSAKeyshare K)) (SID : string)
    (subs : gmap string (gmap Z (gmap string nat))) (next : nat) : ECDSAKeyshare K * proc :=
  (match GetKeyshare with
   | Ok key => key
   | _ => {| ek_Key := noKey; ek_Threshold := 0; ek_Peers := [] |}
   end, new_proc SID peerstore [Lock] subs next).

(** A nil entry of the new parties makes [PopulatePartyStore] panic. *)
Definition all_parties (newParties : list (option PartyID)) : res (list PartyID) :=
  or_panic (mapM id newParties).

Definition ecdsa_resharing_start (key : ECDSAKeyshare K) (newThreshold : Z) (params : bytes) (now : Z) : proc_m P :=
  _ ← new_context;
  startParams ← proc_call (resharing_unmarshallStartParams
                             {| ks_Threshold := ek_Threshold key; ks_Peers := ek_Peers key |} peerstore params);
  let oldParties := PartiesFromPeers (sp_OldSubset startParams) in
  newParties ← proc_call (sortParties (PartiesFromPeers peerstore) oldParties);
  newParties ← proc_call (all_parties newParties);
  store ← populate newParties;
  tssParams ← proc_call (NewReSharingParameters oldParties newParties (store !! Pretty hostID)
                           (Z.of_nat (length oldParties)) (sp_OldThreshold startParams)
                           (Z.of_nat (length newParties)) newThreshold);
  msgChn ← Subscribe TssReshareMsg now;
  SID ← get_SID;
  party ← proc_call (resharing_NewLocalParty tssParams (ek_Key key) (session_number SID));
  _ ← start_loops msgChn;
  start_party party.

Definition resharing_Stop : proc_m unit :=
  _ ← UnSubscribe; _ ← lock_with Unlock; Cancel.
End ecdsa.

(** ** FROST processes *)

(** multi-party-sig: the handler of a protocol for the parties of a session.  A refresh
    starts from the key with the public key and the verification shares that [Run]
    put in it. *)
Class FrostLib (Scalar Point Hd : Type) := {
  SignTaproot : TaprootConfig Scalar Point -> list string -> bytes -> bytes -> res Hd;
  KeygenTaproot : string -> list string -> Z -> bytes -> res Hd;
  RefreshTaproot : TaprootConfig Scalar Point -> bytes * option (gmap string Point) -> list string -> bytes -> res Hd;
}.

Section frost.
Context `{PeerText} {Scalar Point Hd : Type} `{FrostLib Scalar Point Hd} `{JSON (frostParams Point)}.
Context (hostID : PeerID) (peerstore : list PeerID) (NewPoint : Point).
(** [PartyIDSFromPeers]: the text forms of the peers, in an order the library leaves
    open. *)
Context (PartyIDs : list PeerID -> list string).

Definition frost_signing_New (key : res (FrostKeyshare Scalar Point)) (SID : string)
    (subs : gmap string (gmap Z (gmap string nat))) (next : nat) : res (FrostKeyshare Scalar Point * proc) :=
  key ← key;
  Ok (key, new_proc SID (fk_Peers key) [Lock; Unlock] subs next).

(** [Run] until [p.Wait]; the peers are set before the host is looked for in them. *)
Definition frost_signing_start (key : FrostKeyshare Scalar Point) (msg params : bytes) (now : Z) : proc_m Hd :=
  _ ← new_context;
  peerSubset ← proc_call (frost_signing_unmarshallStartParams params);
  _ ← set_Peers peerSubset;
  if negb (IsParticipant Pretty hostID peerSubset) then proc_fail (SubsetError hostID) else
  msgChn ← Subscribe TssKeySignMsg now;
  SID ← get_SID;
  handler ← proc_call (SignTaproot (fk_Key key) (PartyIDs peerSubset) msg (bytes_of_string SID));
  _ ← start_loops msgChn;
  mret handler.

Definition frost_signing_Stop : proc_m unit := _ ← UnSubscribe; Cancel.

Definition frost_keygen_New (SID : string) (subs : gmap string (gmap Z (gmap string nat))) (next : nat) : proc :=
  new_proc SID peerstore [Lock] subs next.

Definition frost_keygen_start (threshold : Z) (now : Z) : proc_m Hd :=
  _ ← new_context;
  msgChn ← Subscribe TssKeyGenMsg now;
  SID ← get_SID;
  handler ← proc_call (KeygenTaproot (Pretty hostID) (PartyIDs (peerstore ++ [hostID])) threshold
                         (bytes_of_string SID));
  _ ← start_loops msgChn;
  mret handler.

Definition frost_keygen_Stop : proc_m unit :=
  _ ← UnSubscribe; _ ← lock_with Unlock; Cancel.

Definition frost_resharing_New (zero : Scalar) (GetKeyshare : res (FrostKeyshare Scalar Point)) (threshold : Z)
    (SID : string) (subs : gmap string (gmap Z (gmap string nat))) (next : nat)
    : FrostKeyshare Scalar Point * proc :=
  (frost_NewResharing zero GetKeyshare threshold hostID, new_proc SID peerstore [Lock] subs next).

Definition frost_resharing_start (key : FrostKeyshare Scalar Point) (params : bytes) (now : Z) : proc_m Hd :=
  _ ← new_context;
  msgChn ← Subscribe TssReshareMsg now;
  config ← proc_call (frost_resharing_Run NewPoint key (PartyIDs (peerstore ++ [hostID])) params);
  SID ← get_SID;
  handler ← proc_call (RefreshTaproot (fk_Key key) config (PartyIDs (peerstore ++ [hostID])) (bytes_of_string SID));
  _ ← start_loops msgChn;
  mret handler.

Definition frost_resharing_Stop : proc_m unit :=
  _ ← UnSubscribe; _ ← lock_with Unlock; Cancel.
End frost.

(** ** What a run does to the state *)

(** Either the run ended before it subscribed, or it took the next channel; in both
    cases the session and the operations on the lock are known. *)
Record run_effect (t : MessageType) (now : Z) (locks : list lock_op) (ok : bool) (s s' : proc) : Prop := {
  re_SID : pc_SID s' = pc_SID s;
  re_locks : pc_locks s' = pc_locks s ++ locks;
  re_context : pc_cancelled s' = false;
  re_subs :
    (ok = false /\ pc_subs s' = pc_subs s /\ pc_subscriptionID s' = pc_subscriptionID s /\
     pc_next s' = pc_next s /\ pc_loops s' = pc_loops s) \/
    (pc_subscriptionID s' = NewSubscriptionID (pc_SID s) t now /\
     pc_subs s' = snd (SubscribeTo (pc_subs s) (pc_SID s) t (pc_next s) now) /\
     pc_next s' = S (pc_next s) /\
     (pc_loops s' = pc_loops s ++ [pc_next s] \/ ok = false /\ pc_loops s' = pc_loops s));
}.

Definition run_ok {A} (r : outcome tss_error A) : bool := is_ok r.

(** Splits a run into its steps, one equation for each call of a library. *)
Ltac run_steps :=
  repeat (unfold mbind, proc_bind, mret, proc_ret, proc_call, proc_fail, new_context, set_Peers, populate,
            lock_with, get_SID, start_loops, start_party, Subscribe, UnSubscribe, Cancel in *; cbn beta iota zeta in *;
          cbn [fst snd pc_SID pc_Peers pc_PartyStore pc_subscriptionID pc_subs pc_next pc_loops pc_locks
               pc_cancelled] in *).

Ltac run_cases :=
  run_steps;
  repeat (match goal with
          | |- context [match ?m with Ok _ => _ | Err _ => _ | Panic => _ end] => destruct m eqn:?; run_steps
          | |- context [if ?b then _ else _] => destruct b eqn:?; run_steps
          | |- context [match Start ?p with _ => _ end] => destruct (Start p) as [[] ?]; run_steps
          end).

Ltac run_effect :=
  split; cbn; [done|by rewrite ?app_nil_r|done|by auto 8].

Section effects.
Context `{PeerText} `{PartySort} {Params K P : Type} `{EcdsaLib Params K P}.
Context (hostID : PeerID) (peerstore : list PeerID).

Lemma ecdsa_signing_effect (key : ECDSAKeyshare K) msg params now s :
  let r := ecdsa_signing_start (P := P) hostID key msg params now s in
  run_effect TssKeySignMsg now [] (run_ok r.1) s r.2.
Proof. intros r. subst r. unfold ecdsa_signing_start. run_cases. all: run_effect. Qed.

Lemma ecdsa_keygen_effect threshold now s :
  let r := ecdsa_keygen_start (P := P) hostID peerstore threshold now s in
  run_effect TssKeyGenMsg now [Lock] (run_ok r.1) s r.2.
Proof. intros r. subst r. unfold ecdsa_keygen_start. run_cases. all: run_effect. Qed.

Lemma ecdsa_resharing_effect (key : ECDSAKeyshare K) newThreshold params now s :
  let r := ecdsa_resharing_start (P := P) hostID peerstore key newThreshold params now s in
  run_effect TssReshareMsg now [] (run_ok r.1) s r.2.
Proof. intros r. subst r. unfold ecdsa_resharing_start. run_cases. all: run_effect. Qed.

Context {Scalar Point Hd : Type} `{FrostLib Scalar Point Hd} `{JSON (frostParams Point)}.
Context (NewPoint : Point) (PartyIDs : list PeerID -> list string).

Lemma frost_signing_effect (key : FrostKeyshare Scalar Point) msg params now s :
  let r := frost_signing_start (Hd := Hd) hostID PartyIDs key msg params now s in
  run_effect TssKeySignMsg now [] (run_ok r.1) s r.2.
Proof. intros r. subst r. unfold frost_signing_start. run_cases. all: run_effect. Qed.

Lemma frost_keygen_effect threshold now s :
  let r := frost_keygen_start (Hd := Hd) hostID peerstore PartyIDs threshold now s in
  run_effect TssKeyGenMsg now [] (run_ok r.1) s r.2.
Proof. intros r. subst r. unfold frost_keygen_start. run_cases. all: run_effect. Qed.

Lemma frost_resharing_effect (key : FrostKeyshare Scalar Point) params now s :
  let r := frost_resharing_start (Hd := Hd) hostID peerstore NewPoint PartyIDs key params now s in
  run_effect TssReshareMsg now [] (run_ok r.1) s r.2.
Proof. intros r. subst r. unfold frost_resharing_start. run_cases. all: run_effect. Qed.
End effects.

(** ** The life of a process *)

Definition kind_message (k : process_kind) : MessageType :=
  match k with
  | EcdsaSigning | FrostSigning => TssKeySignMsg
  | EcdsaKeygen | FrostKeygen => TssKeyGenMsg
  | EcdsaResharing | FrostResharing => TssReshareMsg
  end.

Section life.
Context `{PeerText} `{PartySort} {Params K P : Type} `{EcdsaLib Params K P}.
Context {Scalar Point Hd : Type} `{FrostLib Scalar Point Hd} `{JSON (frostParams Point)}.
Context (hostID : PeerID) (peerstore : list PeerID) (NewPoint : Point) (PartyIDs : list PeerID -> list string).
(** The key shares, what is signed and the threshold of a key generation or a
    resharing. *)
Context (ekey : ECDSAKeyshare K) (fkey : FrostKeyshare Scalar Point) (hash : Z) (digest : bytes) (threshold : Z).

(** A process of a kind as its constructor leaves it. *)
Inductive created : process_kind -> proc -> Prop :=
| created_signing get SID subs next key s :
    signing_New (K := K) get SID subs next = Ok (key, s) -> created EcdsaSigning s
| created_frost_signing get SID subs next key s :
    frost_signing_New (Scalar := Scalar) (Point := Point) get SID subs next = Ok (key, s) -> created FrostSigning s
| created_keygen SID subs next : created EcdsaKeygen (keygen_New peerstore SID subs next)
| created_frost_keygen SID subs next : created FrostKeygen (frost_keygen_New peerstore SID subs next)
| created_resharing noKey get SID subs next :
    created EcdsaResharing (resharing_New (K := K) peerstore noKey get SID subs next).2
| created_frost_resharing zero get SID subs next :
    created FrostResharing (frost_resharing_New (Scalar := Scalar) (Point := Point) hostID peerstore zero get
                              threshold SID subs next).2.

Definition started {A} (r : outcome tss_error A * proc) : bool * proc := (run_ok r.1, r.2).

(** A run with start parameters at a time: whether it started the protocol, and the
    state after it. *)
Definition run_with (k : process_kind) (s : proc) (run : bytes * Z) : bool * proc :=
  let '(params, now) := run in
  match k with
  | EcdsaSigning => started (ecdsa_signing_start (P := P) hostID ekey hash params now s)
  | FrostSigning => started (frost_signing_start (Hd := Hd) hostID PartyIDs fkey digest params now s)
  | EcdsaKeygen => started (ecdsa_keygen_start (P := P) hostID peerstore threshold now s)
  | FrostKeygen => started (frost_keygen_start (Hd := Hd) hostID peerstore PartyIDs threshold now s)
  | EcdsaResharing => started (ecdsa_resharing_start (P := P) hostID peerstore ekey threshold params now s)
  | FrostResharing => started (frost_resharing_start (Hd := Hd) hostID peerstore NewPoint PartyIDs fkey params now s)
  end.

Definition run_of (k : process_kind) (s : proc) (run : bytes * Z) : proc := (run_with k s run).2.

#[local] Strategy expand [run_of run_with].

(** The runs all start the protocol. *)
Fixpoint all_start (k : process_kind) (s : proc) (rs : list (bytes * Z)) : bool :=
  match rs with
  | [] => true
  | run :: rest => (run_with k s run).1 && all_start k (run_of k s run) rest
  end.

(** The channels of the runs that made one, with the times they subscribed it. *)
Fixpoint run_channels (k : process_kind) (s : proc) (rs : list (bytes * Z)) : list (nat * Z) :=
  match rs with
  | [] => []
  | run :: rest =>
      (if (pc_next (run_of k s run) =? S (pc_next s))%nat then [(pc_next s, run.2)] else [])
        ++ run_channels k (run_of k s run) rest
  end.

Definition stop_of (k : process_kind) (s : proc) : proc :=
  match k with
  | EcdsaSigning => (signing_Stop s).2
  | FrostSigning => (frost_signing_Stop s).2
  | EcdsaKeygen => (keygen_Stop s).2
  | FrostKeygen => (frost_keygen_Stop s).2
  | EcdsaResharing => (resharing_Stop s).2
  | FrostResharing => (frost_resharing_Stop s).2
  end.

Definition life (k : process_kind) (s : proc) (rs : list (bytes * Z)) : proc :=
  stop_of k (foldl (run_of k) s rs).

Lemma started_effect {A} (r : outcome tss_error A * proc) t now locks s :
  run_effect t now locks (run_ok r.1) s r.2 -> run_effect t now locks (started r).1 s (started r).2.
Proof. done. Qed.

Lemma run_of_effect k s params now :
  run_effect (kind_message k) now (run_locks k) (run_with k s (params, now)).1 s (run_of k s (params, now)).
Proof.
  unfold run_of. destruct k; apply started_effect;
    [eapply ecdsa_signing_effect|eapply frost_signing_effect|eapply ecdsa_keygen_effect
    |eapply frost_keygen_effect|eapply ecdsa_resharing_effect|eapply frost_resharing_effect].
Qed.

Lemma run_channels_app k s a b :
  run_channels k s (a ++ b) = run_channels k s a ++ run_channels k (foldl (run_of k) s a) b.
Proof. revert s. induction a as [|run a IH]; intros s; [done|]. simpl. by rewrite IH, app_assoc. Qed.

Lemma run_channels_started k s rs : all_start k s rs = true -> (run_channels k s rs).*2 = rs.*2.
Proof.
  revert s. induction rs as [|[params now] rs IH]; intros s; [done|]. cbn [all_start run_channels].
  intros [Hok Hrest]%andb_prop. destruct (run_of_effect k s params now) as [_ _ _ [(E & _)|(_ & _ & En & _)]].
  { congruence. }
  rewrite fmap_app, (IH _ Hrest), En, Nat.eqb_refl. done.
Qed.

(** The subscriptions that runs make, given by their channels and times. *)
Definition subscribe_all (subs : gmap string (gmap Z (gmap string nat))) (SID : string) (t : MessageType)
    (l : list (nat * Z)) : gmap string (gmap Z (gmap string nat)) :=
  foldl (fun m '(ch, now) => snd (SubscribeTo m SID t ch now)) subs l.

Definition last_subscription (id SID : string) (t : MessageType) (l : list (nat * Z)) : string :=
  match list.last l with Some (_, now) => NewSubscriptionID SID t now | None => id end.

Lemma runs_effect k s rs :
  let l := run_channels k s rs in let s' := foldl (run_of k) s rs in
    pc_SID s' = pc_SID s /\
    pc_locks s' = pc_locks s ++ concat (replicate (length rs) (run_locks k)) /\
    pc_subs s' = subscribe_all (pc_subs s) (pc_SID s) (kind_message k) l /\
    pc_subscriptionID s' = last_subscription (pc_subscriptionID s) (pc_SID s) (kind_message k) l /\
    l.*1 = seq (pc_next s) (length l) /\ pc_next s' = (pc_next s + length l)%nat /\
    sublist l.*2 rs.*2.
Proof.
  induction rs as [|[params now] rs IH] using rev_ind.
  { cbn. rewrite app_nil_r. split_and!; done || lia. }
  destruct IH as (HS & HL & Hs & Hi & Hch & Hn & Hsub). rewrite run_channels_app, foldl_app. cbn [foldl run_channels].
  set (l := run_channels k s rs) in *. set (s1 := foldl (run_of k) s rs) in *.
  destruct (run_of_effect k s1 params now) as [E1 E2 _ E4].
  assert (concat (replicate (length (rs ++ [(params, now)])) (run_locks k))
          = concat (replicate (length rs) (run_locks k)) ++ run_locks k) as Hc.
  { rewrite length_app, replicate_add. cbn. rewrite concat_app. cbn. by rewrite app_nil_r. }
  cbv zeta. destruct E4 as [(_ & E & E' & En & _)|(E & E' & En & _)].
  - replace (pc_next (run_of k s1 (params, now)) =? S (pc_next s1))%nat with false
      by (rewrite En; symmetry; apply Nat.eqb_neq; lia).
    rewrite !app_nil_r.
    split_and!; [congruence|by rewrite E2, HL, Hc, app_assoc|congruence..|].
    rewrite fmap_app. by apply sublist_inserts_r.
  - rewrite En, Nat.eqb_refl, app_nil_r. rewrite (length_app l), !fmap_app.
    split_and!; [congruence|by rewrite E2, HL, Hc, app_assoc| | | | |].
    + rewrite E', Hs, HS. unfold subscribe_all. by rewrite foldl_app.
    + rewrite E, HS. unfold last_subscription. cbn [snd]. by rewrite last_snoc.
    + rewrite Hch, seq_app, Hn. done.
    + rewrite Hn. cbn. lia.
    + by apply sublist_app.
Qed.

Definition ident (now : Z) : string := fmt_u (u32_wrap now).

Lemma ident_plain SID t now : 0 <= t <= Unknown -> lacks "-"%char SID = true ->
  SubscriptionIdentifier (NewSubscriptionID SID t now) = ident now.
Proof. intros Ht Hs. unfold SubscriptionIdentifier. by rewrite Unwrap_plain. Qed.

Lemma subscribe_all_other subs SID t l sid ty i :
  0 <= t <= Unknown -> lacks "-"%char SID = true ->
  (sid, ty) <> (SID, t) \/ i ∉ ident <$> l.*2 ->
  channel_at (subscribe_all subs SID t l) sid ty i = channel_at subs sid ty i.
Proof.
  intros Ht Hs Hn. induction l as [|[ch now] l IH] using rev_ind; [done|].
  unfold subscribe_all. rewrite foldl_app. cbn [foldl]. fold (subscribe_all subs SID t l).
  rewrite channel_at_Subscribe, ident_plain by done. rewrite !fmap_app in Hn. cbn in Hn.
  rewrite decide_False by (intros E; simplify_eq; set_solver). apply IH. set_solver.
Qed.

Lemma subscribe_all_at subs SID t l ch now :
  0 <= t <= Unknown -> lacks "-"%char SID = true -> NoDup (ident <$> l.*2) -> (ch, now) ∈ l ->
  channel_at (subscribe_all subs SID t l) SID t (ident now) = Some ch.
Proof.
  intros Ht Hs Hnd Hin. induction l as [|[ch' now'] l IH] using rev_ind; [by apply not_elem_of_nil in Hin|].
  unfold subscribe_all. rewrite foldl_app. cbn [foldl]. fold (subscribe_all subs SID t l).
  rewrite channel_at_Subscribe, ident_plain by done. rewrite !fmap_app in Hnd. cbn in Hnd.
  apply list.NoDup_app in Hnd as (Hnd & Hdis & _).
  apply elem_of_app in Hin as [Hin|Hin%list_elem_of_singleton].
  - rewrite decide_False; [by apply IH|]. intros E. injection E as E. apply (Hdis (ident now)).
    + apply list_elem_of_fmap. exists now. split; [done|]. apply list_elem_of_fmap. by exists (ch, now).
    + set_solver.
  - injection Hin as -> ->. by rewrite decide_True.
Qed.

Lemma unsubscribe_last subs SID t l ch now sid ty i :
  0 <= t <= Unknown -> lacks "-"%char SID = true -> NoDup (ident <$> (l ++ [(ch, now)]).*2) ->
  channel_at subs SID t (ident now) = None ->
  channel_at (UnSubscribeFrom (subscribe_all subs SID t (l ++ [(ch, now)])) (NewSubscriptionID SID t now)) sid ty i
  = channel_at (subscribe_all subs SID t l) sid ty i.
Proof.
  intros Ht Hs Hnd Hfree. rewrite (channel_at_UnSubscribe _ _ _ _ _ _ _ _ (Unwrap_plain SID t now Ht Hs)).
  fold (ident now). rewrite !fmap_app in Hnd. cbn in Hnd. apply list.NoDup_app in Hnd as (Hnd & Hdis & _).
  assert (ident now ∉ ident <$> l.*2) as Hn by set_solver.
  case_decide as E.
  - injection E as <- <- <-. rewrite subscribe_all_other by auto. by rewrite Hfree.
  - unfold subscribe_all. rewrite foldl_app. cbn [foldl].
    rewrite channel_at_Subscribe, ident_plain, decide_False by done. done.
Qed.

Lemma kind_message_range k : 0 <= kind_message k <= Unknown.
Proof. destruct k; unfold kind_message, TssKeySignMsg, TssKeyGenMsg, TssReshareMsg, Unknown; lia. Qed.

Lemma stop_of_effect k s :
  pc_locks (stop_of k s) = pc_locks s ++ stop_locks k /\ pc_cancelled (stop_of k s) = true /\
  pc_subs (stop_of k s) = UnSubscribeFrom (pc_subs s) (pc_subscriptionID s).
Proof. by destruct k; cbn; rewrite ?app_nil_r. Qed.

Lemma created_state k s : created k s -> pc_locks s = new_locks k /\ pc_subscriptionID s = "".
Proof.
  destruct 1 as [[] * E|[] * E| | | |]; cbn in *; simplify_eq; done.
Qed.

End life.

(** ** The senders a signing knows *)

Section party_store.
Context `{PeerText} `{PartySort} {Params K P : Type} `{EcdsaLib Params K P}.
Context (hostID : PeerID) (key : ECDSAKeyshare K) (msg : Z).

Lemma populate_lookup store parties party :
  NoDup (pid_Id <$> parties) -> party ∈ parties ->
  PopulatePartyStore store parties !! pid_Id party = Some party.
Proof.
  intros Hnd Hin. induction parties as [|q parties IH] using rev_ind; [by apply not_elem_of_nil in Hin|].
  unfold PopulatePartyStore. rewrite foldl_app. cbn [foldl]. rewrite fmap_app in Hnd.
  apply list.NoDup_app in Hnd as (Hnd & Hdis & _). apply elem_of_app in Hin as [Hin|Hin%list_elem_of_singleton].
  - rewrite lookup_insert_ne; [by apply IH|]. intros E. apply (Hdis (pid_Id party)); [|rewrite <- E; by left].
    apply list_elem_of_fmap. by exists party.
  - subst q. apply lookup_insert_eq.
Qed.

Lemma populate_other store parties id :
  id ∉ pid_Id <$> parties -> PopulatePartyStore store parties !! id = store !! id.
Proof.
  intros Hn. induction parties as [|q parties IH] using rev_ind; [done|].
  unfold PopulatePartyStore. rewrite foldl_app. cbn [foldl]. rewrite fmap_app in Hn.
  rewrite lookup_insert_ne by set_solver. apply IH. set_solver.
Qed.

(** The parties of distinct peers: every peer has one, and indices tell them apart. *)
Lemma parties_NoDup (peers : list PeerID) : NoDup peers -> NoDup (pid_Id <$> PartiesFromPeers peers).
Proof.
  intros Hnd. rewrite PartiesFromPeers_ids. apply NoDup_fmap_2; [|done]. intros p q. apply Pretty_inj.
Qed.

Lemma party_of_peer (peers : list PeerID) p :
  p ∈ peers <-> Pretty p ∈ pid_Id <$> PartiesFromPeers peers.
Proof.
  rewrite PartiesFromPeers_ids, list_elem_of_fmap. split; [by eauto|]. by intros (q & ->%Pretty_inj & ?).
Qed.

Lemma party_at_index (peers : list PeerID) party :
  party ∈ PartiesFromPeers peers <-> exists i, PartiesFromPeers peers !! i = Some party /\ pid_Index party = Z.of_nat i.
Proof.
  rewrite list_elem_of_lookup. split; [|by intros (i & ? & _); exists i].
  intros [i Hi]. exists i. split; [done|]. by eapply SortPartyIDs_index.
Qed.

Lemma signing_run_store subset now s :
  Forall valid_peer subset -> IsParticipant Pretty hostID subset = true ->
  let s' := (ecdsa_signing_start (P := P) hostID key msg (MarshalPeers subset) now s).2 in
  pc_PartyStore s' = PopulatePartyStore (pc_PartyStore s) (PartiesFromPeers subset) /\ pc_Peers s' = subset.
Proof.
  intros Hv Hh s'. subst s'. unfold ecdsa_signing_start, signing_unmarshallStartParams.
  rewrite peers_json by done. run_steps. rewrite Hh. cbn [negb]. run_cases. all: done.
Qed.

(** The state after a first run and after its retry. *)
Definition after_runs (s : proc) (subsets : list (list PeerID * Z)) : proc :=
  foldl (fun s '(subset, now) => (ecdsa_signing_start (P := P) hostID key msg (MarshalPeers subset) now s).2) s subsets.

(** A message is handed to the party as coming from this index; [None] is a nil
    sender. *)
Definition sender_index (s : proc) (p : PeerID) : option Z := pid_Index <$> pc_PartyStore s !! Pretty p.

Lemma sender_in_run s subset now p :
  Forall valid_peer subset -> NoDup subset -> IsParticipant Pretty hostID subset = true -> p ∈ subset ->
  exists i, sender_index (after_runs s [(subset, now)]) p = Some (Z.of_nat i) /\
            pid_Id <$> PartiesFromPeers subset !! i = Some (Pretty p).
Proof.
  intros Hv Hnd Hh Hp. unfold sender_index, after_runs. cbn [foldl].
  destruct (signing_run_store subset now s Hv Hh) as [-> _].
  apply party_of_peer, list_elem_of_fmap in Hp as (party & -> & Hin).
  rewrite populate_lookup by (done || by apply parties_NoDup).
  apply party_at_index in Hin as (i & Hi & Ei). exists i. rewrite Hi. cbn. by rewrite Ei.
Qed.

Lemma sender_not_in_run s subset now p :
  Forall valid_peer subset -> IsParticipant Pretty hostID subset = true -> p ∉ subset ->
  sender_index (after_runs s [(subset, now)]) p = sender_index s p.
Proof.
  intros Hv Hh Hp. unfold sender_index, after_runs. cbn [foldl].
  destruct (signing_run_store subset now s Hv Hh) as [-> _].
  rewrite populate_other; [done|]. by rewrite <- party_of_peer.
Qed.

(** What is known of the peers of a subset does not depend on earlier runs, and every
    index below the size of the subset is taken. *)
Lemma sender_in_run_any s s' subset t t' p :
  Forall valid_peer subset -> NoDup subset -> IsParticipant Pretty hostID subset = true -> p ∈ subset ->
  sender_index (after_runs s [(subset, t)]) p = sender_index (after_runs s' [(subset, t')]) p.
Proof.
  intros Hv Hnd Hh Hp. unfold sender_index, after_runs. cbn [foldl].
  destruct (signing_run_store subset t s Hv Hh) as [-> _].
  destruct (signing_run_store subset t' s' Hv Hh) as [-> _].
  apply party_of_peer, list_elem_of_fmap in Hp as (party & -> & Hin).
  by rewrite !populate_lookup by (done || by apply parties_NoDup).
Qed.

Lemma index_taken s subset t i :
  Forall valid_peer subset -> NoDup subset -> IsParticipant Pretty hostID subset = true -> (i < length subset)%nat ->
  exists q, q ∈ subset /\ sender_index (after_runs s [(subset, t)]) q = Some (Z.of_nat i).
Proof.
  intros Hv Hnd Hh Hi. destruct (lookup_lt_is_Some_2 (PartiesFromPeers subset) i) as [party Hp].
  { by rewrite PartiesFromPeers_length. }
  assert (party ∈ PartiesFromPeers subset) as Hin by (by eapply list_elem_of_lookup_2).
  assert (pid_Id party ∈ Pretty <$> subset) as Hid
    by (rewrite <- PartiesFromPeers_ids; by apply list_elem_of_fmap_2).
  apply list_elem_of_fmap in Hid as (q & Eq & Hq). exists q. split; [done|].
  unfold sender_index, after_runs. cbn [foldl]. destruct (signing_run_store subset t s Hv Hh) as [-> _].
  rewrite <- Eq, populate_lookup by (done || by apply parties_NoDup). cbn. f_equal.
  by eapply SortPartyIDs_index.
Qed.

(** C23. The senders a signing knows.  In the first run of a signing the peers of the
    subset, and no others, are known, each under an index of its own below the size of
    the subset.  The store is not emptied for a retry: in the second run the peers of
    the new subset are known as in a first run, but a peer of the first subset that is
    not in the second, an excluded culprit for instance, is still known, under the
    index of a peer of the new subset when that is as large as the first. *)
Theorem retry_senders s S1 S2 t1 t2 :
  pc_PartyStore s = ∅ ->
  Forall valid_peer S1 -> NoDup S1 -> IsParticipant Pretty hostID S1 = true ->
  Forall valid_peer S2 -> NoDup S2 -> IsParticipant Pretty hostID S2 = true ->
  let first := sender_index (after_runs s [(S1, t1)]) in
  let second := sender_index (after_runs s [(S1, t1); (S2, t2)]) in
  (forall p, is_Some (first p) <-> p ∈ S1) /\
  (forall p q i, first p = Some i -> first q = Some i -> p = q) /\
  (forall p i, first p = Some i -> 0 <= i < Z.of_nat (length S1)) /\
  (forall p, p ∈ S2 -> second p = sender_index (after_runs s [(S2, t2)]) p) /\
  (forall p, p ∈ S1 -> p ∉ S2 -> second p = first p /\
     ((length S1 <= length S2)%nat -> exists q, q ∈ S2 /\ q <> p /\ second q = second p)).
Proof.
  intros Hs Hv1 Hnd1 Hh1 Hv2 Hnd2 Hh2 first second.
  assert (forall p, p ∉ S1 -> first p = None) as Hout.
  { intros p Hp. unfold first. rewrite sender_not_in_run by done. unfold sender_index. by rewrite Hs. }
  assert (forall p i, first p = Some i -> exists j, i = Z.of_nat j /\
            pid_Id <$> PartiesFromPeers S1 !! j = Some (Pretty p)) as Hat.
  { intros p i Hi. destruct (decide (p ∈ S1)) as [Hp|Hp]; [|by rewrite (Hout p Hp) in Hi].
    destruct (sender_in_run s S1 t1 p Hv1 Hnd1 Hh1 Hp) as (j & Ej & Hj). exists j.
    split; [|done]. fold (first p) in Ej. congruence. }
  assert (forall p, second p = sender_index (after_runs (after_runs s [(S1, t1)]) [(S2, t2)]) p) as Hsec by done.
  split_and!.
  - intros p. split; [|by intros Hp; destruct (sender_in_run s S1 t1 p Hv1 Hnd1 Hh1 Hp) as (j & Ej & _); eauto].
    intros [i Hi]. destruct (decide (p ∈ S1)) as [|Hp]; [done|]. by rewrite (Hout p Hp) in Hi.
  - intros p q i Hp Hq. apply Hat in Hp as (j & -> & Hj), Hq as (j' & Ej & Hj').
    apply Nat2Z.inj in Ej as <-. apply Pretty_inj. congruence.
  - intros p i (j & -> & Hj)%Hat. apply fmap_Some in Hj as (party & Hj & _).
    apply lookup_lt_Some in Hj. rewrite PartiesFromPeers_length in Hj. lia.
  - intros p Hp. rewrite Hsec. by apply sender_in_run_any.
  - intros p Hp Hn. assert (second p = first p) as E by (rewrite Hsec; by apply sender_not_in_run).
    split; [done|]. intros Hlen.
    destruct (sender_in_run s S1 t1 p Hv1 Hnd1 Hh1 Hp) as (i & Ei & Hi). fold (first p) in Ei.
    apply fmap_Some in Hi as (party & Hi & _). apply lookup_lt_Some in Hi. rewrite PartiesFromPeers_length in Hi.
    destruct (index_taken (after_runs s [(S1, t1)]) S2 t2 i Hv2 Hnd2 Hh2) as (q & Hq & Eq); [lia|].
    exists q. split_and!; [done|by intros ->|]. by rewrite E, Ei, Hsec.
Qed.
End party_store.

(** ** Concrete lives *)

Module TssRunExample.
Import TssExample NumberCode.
#[local] Existing Instance plain_text.
#[local] Existing Instance name_sort.

(** Libraries whose calls succeed; a key and a party are numbers. *)
#[export] Instance ecdsa_lib : EcdsaLib unit Z Z :=
  {| NewParameters := fun _ _ _ _ => Ok tt; NewReSharingParameters := fun _ _ _ _ _ _ _ => Ok tt;
     signing_NewLocalParty := fun _ _ k _ _ => Ok k; keygen_NewLocalParty := fun _ _ => Ok 0;
     resharing_NewLocalParty := fun _ k _ => Ok k; Start := fun p => (None, p) |}.

Definition ekey : ECDSAKeyshare Z := {| ek_Key := 5; ek_Threshold := 2; ek_Peers := ["a"; "b"; "c"; "d"] |}.

#[export] Instance frost_lib : FrostLib Z Z Z :=
  {| SignTaproot := fun _ _ _ _ => Ok 1; KeygenTaproot := fun _ _ _ _ => Ok 2; RefreshTaproot := fun _ _ _ _ => Ok 3 |}.

Definition created_in (SID : string) : proc := new_proc SID (ek_Peers ekey) [Lock; Unlock] ∅ 0.
End TssRunExample.

Import TssRunExample TssExample FrostExample NumberCode.
#[local] Existing Instance plain_text.
#[local] Existing Instance name_sort.

(** Peer "b" is in the first subset and not in the second; it keeps the index that "c"
    has in the second run. *)
Lemma retry_senders_witness :
  let second := sender_index (after_runs "a" ekey 9 (created_in "6ac1") [(["a"; "b"; "c"], 1); (["a"; "c"; "d"], 2)]) in
  second "b" = Some 1 /\ second "c" = Some 1 /\
  exists q, q ∈ ["a"; "c"; "d"] /\ q <> "b" /\ second q = second "b".
Proof.
  split; [reflexivity|]. split; [reflexivity|].
  apply (retry_senders "a" ekey 9 (created_in "6ac1") ["a"; "b"; "c"] ["a"; "c"; "d"] 1 2);
    try reflexivity; try (apply (bool_decide_unpack _); vm_compute; exact I); repeat constructor.
Defined.

