(* ===== verification/EndToEnd.v ===== *)
(** * From a deposit to a signature

    The parts between a deposit event on an EVM chain and the signing sessions of its
    destination, put together: the deposit event handler of the source
    ([EvmListener], [EvmDeposit]), the relayer that takes messages to their
    destination, the message handler and the executor of the destination
    ([EvmMessage], [EvmExecutor]; [BtcTx], [BtcExecutor]).  The relayer between them
    is sygma-core's and is an argument. *)

From S2P Require Import Prelude GoBytes GoStrings Transfer Routing EvmDeposit EvmMessage EvmListener PropStore EvmExecutor BtcTx BtcExecutor.

#[local] Open Scope string_scope.
#[local] Open Scope list_scope.
#[local] Open Scope Z_scope.

(** sygma-core's [Relayer]: the messages of a batch are handed, one after the other, to
    the message handler of their destination; an error leaves a message out, a panic is
    not recovered from, and the proposals are written to the destination together. *)
Definition panics {A} (r : res A) : bool := match r with Panic => true | _ => false end.
Definition made {A} (r : res A) : option A := match r with Ok a => Some a | _ => None end.

Class CoreRelayer := {
  route : (Message -> res Proposal) -> list Message -> res (list Proposal);
  route_spec : forall handler msgs,
    route handler msgs
    = if existsb (fun m => panics (handler m)) msgs then Panic else Ok (omap (fun m => made (handler m)) msgs);
}.

Lemma routed `{CoreRelayer} handler msgs :
  (forall m, m ∈ msgs -> handler m <> Panic) ->
  route handler msgs = Ok (omap (fun m => made (handler m)) msgs).
Proof.
  intros Hp. rewrite route_spec. destruct (existsb _ msgs) eqn:E; [|done]. apply existsb_exists in E as (m & Hm & E).
  exfalso. apply (Hp m); [by apply list_elem_of_In|]. by destruct (handler m).
Qed.

(** The proposals written to a domain are those the handler makes of the messages of the
    events for this domain. *)
Lemma routed_elem `{CoreRelayer} {E} (resolve : E -> option Message) (handler : Message -> res Proposal) evts d :
  (forall evt m, evt ∈ evts -> resolve evt = Some m -> handler m <> Panic) ->
  exists ps, route handler (default [] (collect resolve evts ∅ !! d)) = Ok ps /\
    ps = omap (fun m => made (handler m)) (omap (fun ev => to_domain d (resolve ev)) evts) /\
    forall p, p ∈ ps <->
      exists evt m, evt ∈ evts /\ resolve evt = Some m /\ m_Destination m = d /\ handler m = Ok p.
Proof.
  intros Hp. rewrite routed.
  2: { intros m (_ & evt & Hevt & Hm)%collect_elem. by eapply Hp. }
  eexists. split; [reflexivity|]. split; [by rewrite collect_empty_lookup, nonempty_default|]. intros p.
  rewrite list_elem_of_omap. setoid_rewrite collect_elem. split.
  - intros (m & (Hd & evt & Hevt & Hm) & Hpr). exists evt, m. split_and!; [done..|].
    unfold made in Hpr. by case_match; simplify_eq.
  - intros (evt & m & Hevt & Hm & Hd & Hpr). exists m. rewrite Hpr. by split; [split; [|exists evt]|].
Qed.

(** ** Messages of deposits become proposals the executor can batch *)

(** The gas limit of the metadata, if there is one, is a [uint64]. *)
Definition gas_typed (md : metadata_map) : Prop :=
  forall l, md !! ("gasLimit" : string) = Some l -> is_Some (as_uint64 l).

Lemma gas_typed_empty : gas_typed ∅.
Proof. intros l. by rewrite lookup_empty. Qed.

Lemma gas_typed_gasLimit z : gas_typed {["gasLimit" := IUint64 z]}.
Proof. intros l. rewrite lookup_singleton_eq. intros [= <-]. by eexists. Qed.

#[local] Hint Resolve gas_typed_empty gas_typed_gasLimit : core.

Section messages.
Context `{LP : LeftPad} (Unpack : bytes -> res (list iface)) (Pack : list iface -> res bytes).

(** The message handler of generic transfers reads five values. *)
Definition payload_fits (ty : TransferType) (pl : list iface) : Prop :=
  ty = PermissionlessGenericTransfer -> length pl = 5%nat.

Lemma HandleDeposit_gas h a c m c' :
  HandleDeposit_of Unpack h a c = (Ok m, c') ->
  exists md pl ty, m = deposit_message a md pl ty /\ gas_typed md /\ payload_fits ty pl.
Proof.
  destruct h; simpl;
    unfold Erc20_HandleDeposit, Erc721_HandleDeposit, Erc1155_HandleDeposit,
      PermissionlessGeneric_HandleDeposit; intros E; gom_inv;
    (eexists _, _, _; split; [reflexivity|]; split; [by auto|done]).
Qed.

(** No handler of the destination panics on such a message. *)
Lemma payload_at_safe msg i : (i < length (tmd_Payload (tm_Data msg)))%nat -> payload_at msg i <> Panic.
Proof. intros [v Hv]%lookup_lt_is_Some_2. unfold payload_at. by rewrite Hv. Qed.

Lemma payload_bytes_safe msg i err :
  (i < length (tmd_Payload (tm_Data msg)))%nat -> payload_bytes msg i err <> Panic.
Proof.
  intros [v Hv]%lookup_lt_is_Some_2. unfold payload_bytes, payload_at. rewrite Hv. cbn. by destruct (as_bytes v).
Qed.

Lemma bind_safe {A B} (m : res A) (f : A -> res B) :
  m <> Panic -> (forall x, m = Ok x -> f x <> Panic) -> mbind f m <> Panic.
Proof. intros Hm Hf. destruct m; cbn; [by apply Hf|done|done]. Qed.

Lemma HandleMessage_safe a md pl ty :
  (forall l, Pack l <> Panic) -> payload_fits ty pl ->
  TransferMessageHandler_HandleMessage Pack (deposit_message a md pl ty) <> Panic.
Proof.
  intros Hpack Hfit. unfold TransferMessageHandler_HandleMessage, transfer_message_of. cbn [mbind outcome_bind or_panic
    as_transfer deposit_message m_Data m_Source m_Destination m_ID m_Type tm_Data tmd_Type].
  unfold ERC20MessageHandler, ERC1155MessageHandler, ERC721MessageHandler, GenericMessageHandler,
    PermissionlessGenericMessageHandler.
  cbn [tm_Data tmd_Payload]. unfold payload_fits in Hfit.
  repeat case_bool_decide; try done; try (match goal with H : ty = PermissionlessGenericTransfer |- _ => specialize (Hfit H) end); cbn [andb] in *;
    repeat match goal with H : ~ (_ <> _) |- _ => apply dec_stable in H end;
    repeat first [done | apply Hpack | apply payload_bytes_safe; cbn; lia | apply payload_at_safe; cbn; lia
      | apply bind_safe; [|intros ? _] | case_bool_decide | by destruct (as_big_ints _)].
Qed.

(** A proposal of the message handler has the envelope and the metadata of its
    message. *)
Lemma HandleMessage_proposal m p :
  TransferMessageHandler_HandleMessage Pack m = Ok p ->
  exists msg data, transfer_message_of m = Ok msg /\ p = transfer_proposal_of msg data.
Proof.
  unfold TransferMessageHandler_HandleMessage. intros (msg & Hm & E)%outcome_bind_Ok.
  exists msg. unfold ERC20MessageHandler, ERC1155MessageHandler, ERC721MessageHandler, GenericMessageHandler,
    PermissionlessGenericMessageHandler in E.
  repeat (case_match; invert_ok); simplify_eq; eauto.
Qed.

(** The transfer proposal of a deposit with the arguments [a]. *)
Definition proposal_for (a : DepositArgs) (tp : TransferProposal) : Prop :=
  tp_Source tp = da_sourceID a /\ tp_Destination tp = da_destID a /\ tp_MessageID tp = da_messageID a /\
  tpd_DepositNonce (tp_Data tp) = da_nonce a /\ tpd_ResourceId (tp_Data tp) = da_resourceID a.

Lemma deposit_proposal a md pl ty p :
  gas_typed md -> TransferMessageHandler_HandleMessage Pack (deposit_message a md pl ty) = Ok p ->
  exists tp, to_transfer_proposal p = Ok tp /\ proposal_for a tp /\
    (forall gas, is_ok (propGasLimit gas tp) = true) /\ tpd_Metadata (tp_Data tp) = md.
Proof.
  intros Hg E. apply HandleMessage_proposal in E as (msg & data & Hm & ->).
  unfold transfer_message_of in Hm. cbn in Hm. injection Hm as <-.
  eexists. split; [reflexivity|]. split; [by repeat split|]. split; [|done].
  intros gas. unfold propGasLimit. cbn. destruct (md !! _) as [l|] eqn:El; [|done].
  by destruct (Hg l El) as [z ->].
Qed.
End messages.

(** What becomes of the messages for a domain, told by the events they are made of. *)
Lemma omap_to_domain {E B} (resolve : E -> option Message) (dest : E -> Z) (f : Message -> option B) d (l : list E) :
  (forall ev m, resolve ev = Some m -> m_Destination m = dest ev) ->
  omap f (omap (fun ev => to_domain d (resolve ev)) l)
  = omap (fun ev => m ← resolve ev; f m) (filter (fun ev => dest ev = d) l).
Proof.
  intros Hd. induction l as [|ev l IH]; [done|]. rewrite filter_cons. cbn [omap list_omap].
  destruct (resolve ev) as [m|] eqn:Em; cbn [to_domain mbind option_bind].
  - rewrite (Hd ev m Em). case_decide; cbn [omap list_omap]; [|done].
    rewrite Em. cbn [mbind option_bind]. by rewrite IH.
  - case_decide; [|done]. cbn [omap list_omap]. by rewrite Em.
Qed.

(** ** Lists *)

Lemma elem_of_concat {A} (x : A) ls : x ∈ concat ls <-> exists l, l ∈ ls /\ x ∈ l.
Proof.
  induction ls as [|l ls IH]; cbn.
  - split; [by intros ?%not_elem_of_nil|]. by intros (l & ?%not_elem_of_nil & _).
  - rewrite elem_of_app, IH. setoid_rewrite elem_of_cons. naive_solver.
Qed.

(** What a partial map keeps is in the order of the list. *)
Lemma omap_sublist {A B C} (f : A -> option B) (g : B -> C) (h : A -> C) (l : list A) :
  (forall x y, x ∈ l -> f x = Some y -> g y = h x) -> sublist (g <$> omap f l) (h <$> l).
Proof.
  induction l as [|x l IH]; intros Hf; [done|]. cbn [omap list_omap]. rewrite fmap_cons.
  assert (sublist (g <$> omap f l) (h <$> l)) as Hs by (apply IH; intros; apply Hf; [by right|done]).
  destruct (f x) as [y|] eqn:Ex; [|by constructor].
  rewrite fmap_cons, (Hf x y) by (done || by left). by constructor.
Qed.

Lemma Forall2_and_l {A B} (P : A -> B -> Prop) (Q : A -> Prop) l k :
  Forall2 P l k -> Forall Q l -> Forall2 (fun x y => P x y /\ Q x) l k.
Proof. induction 1; intros Hq; inversion Hq; constructor; auto. Qed.

Lemma unexecuted_elem `{BridgeContract} ps tp :
  tp ∈ unexecuted ps <->
  IsProposalExecuted tp = Ok false /\ exists p, p ∈ ps /\ to_transfer_proposal p = Ok tp.
Proof.
  unfold unexecuted. rewrite list_elem_of_omap. split.
  - intros (p & Hp & E). destruct (to_transfer_proposal p) as [tp'| |] eqn:Et; [|done..].
    case_decide; [|done]. injection E as ->. eauto.
  - intros (Hx & p & Hp & Et). exists p. split; [done|]. by rewrite Et, decide_True.
Qed.

(** ** Proposals that can be batched are signed *)

(** When the queries succeed, the executor starts sessions that carry exactly the
    unexecuted proposals, each session over the hash of its batch. *)
Lemma ready_sessions `{BridgeContract} transactionMaxGas transferGasCost sc ps :
  Forall (ready transferGasCost) ps -> answered sc -> scheduled transactionMaxGas transferGasCost sc ps ->
  exists ss, Execute transactionMaxGas transferGasCost sc ps = Ok (Ok <$> ss) /\
    concat ((fun s => b_proposals (s_batch s)) <$> ss) = unexecuted ps /\
    (forall tp, (exists s, s ∈ ss /\ tp ∈ b_proposals (s_batch s)) <->
       IsProposalExecuted tp = Ok false /\ exists p, p ∈ ps /\ to_transfer_proposal p = Ok tp) /\
    (forall s, s ∈ ss -> exists h, ProposalsHash (b_proposals (s_batch s)) = Ok h /\ s_msg s = be_val h) /\
    ((forall k, sc_i sc k = k) -> NoDup (s_sessionID <$> ss)).
Proof.
  intros Hr Ha Hsc.
  destruct (Execute_sessions transactionMaxGas transferGasCost sc ps Hr Ha Hsc) as (bs & ss & _ & Ex & Hc & Hf).
  exists ss. split_and!; [done..| | |].
  - intros tp. rewrite <- unexecuted_elem, <- Hc, elem_of_concat. setoid_rewrite list_elem_of_fmap. naive_solver.
  - intros s [i Hi]%list_elem_of_lookup. by destruct (Forall2_lookup_r _ _ _ _ _ Hf Hi) as (k & _ & (_ & _ & _ & Hh)).
  - intros Hown. eapply sessions_distinct; [exact Hf|].
    rewrite (list_fmap_ext _ id) by (intros; apply Hown). rewrite list_fmap_id. apply started_from_NoDup.
Qed.

(** ** EVM to EVM *)

Section evm_to_evm.
Context `{EN : EvmNode} `{BC : BridgeContract} `{CR : CoreRelayer} `{LP : LeftPad, LPS : !LeftPadSpec}.
(** The source: its ABI decoder, the handlers of its resources and the registered
    deposit handlers; the destination: its ABI encoder and gas configuration. *)
Context (Unpack : bytes -> res (list iface)) (GetHandler : bytes -> res bytes) (e : DepositHandlers).
Context (Pack : list iface -> res bytes) (transactionMaxGas transferGasCost : Z).
Context (domainID : Z) (Pack_safe : forall l, Pack l <> Panic).

Abbreviation eth := (ETH_HandleDeposit Unpack GetHandler e).

(** What the executor of a domain is given for the messages of a range of blocks. *)
Definition written (dd : gmap Z (list Message)) (d : Z) : res (list Proposal) :=
  route (TransferMessageHandler_HandleMessage Pack) (default [] (dd !! d)).

(** The proposal that a deposit event ends as. *)
Definition event_proposal (startBlock endBlock : Z) (ev : EvmDepositEvent) : option Proposal :=
  m ← resolve_deposit eth domainID startBlock endBlock ev; made (TransferMessageHandler_HandleMessage Pack m).

Definition args (startBlock endBlock : Z) (ev : EvmDepositEvent) : DepositArgs :=
  args_of domainID (range_id domainID ev startBlock endBlock) ev.

Lemma resolve_typed startBlock endBlock ev m :
  resolve_deposit eth domainID startBlock endBlock ev = Some m ->
  exists md pl ty, m = deposit_message (args startBlock endBlock ev) md pl ty /\ gas_typed md /\ payload_fits ty pl.
Proof.
  unfold resolve_deposit, handle, args. destruct (eth _ _) as [[m'| |] c] eqn:E; cbn; intros Hm; simplify_eq.
  unfold ETH_HandleDeposit in E. gom_inv. by eapply HandleDeposit_gas.
Qed.

Lemma event_proposal_ready startBlock endBlock ev p :
  (forall tp, is_ok (IsProposalExecuted tp) = true) ->
  event_proposal startBlock endBlock ev = Some p ->
  ready transferGasCost p /\
  exists tp, to_transfer_proposal p = Ok tp /\ proposal_for (args startBlock endBlock ev) tp.
Proof.
  intros Hq E. unfold event_proposal in E.
  destruct (resolve_deposit _ _ _ _ ev) as [m|] eqn:Em; [|done]. cbn in E.
  destruct (TransferMessageHandler_HandleMessage Pack m) as [p'| |] eqn:Eh; [|done..]. injection E as ->.
  apply resolve_typed in Em as (md & pl & ty & -> & Hg & _).
  destruct (deposit_proposal Pack _ _ _ _ _ Hg Eh) as (tp & Ht & Hf & Hgas & _).
  split; [|by eauto]. specialize (Hq tp). destruct (IsProposalExecuted tp) as [b| |] eqn:Eb; [|done..].
  by exists tp, b.
Qed.

(** The proposals written to a domain are those of its deposit events, in order. *)
Lemma written_events bridgeAddress startBlock endBlock deposits dd d :
  FetchDeposits bridgeAddress startBlock endBlock = Ok deposits ->
  evm_ProcessDeposits eth domainID bridgeAddress startBlock endBlock = Ok dd ->
  written dd d
  = Ok (omap (event_proposal startBlock endBlock)
          (filter (fun ev => ed_DestinationDomainID ev = d) deposits)).
Proof.
  intros Hf E. unfold evm_ProcessDeposits in E. rewrite Hf in E. injection E as <-.
  destruct (routed_elem (resolve_deposit eth domainID startBlock endBlock) (TransferMessageHandler_HandleMessage Pack)
              deposits d) as (ps & E & -> & _).
  { intros ev m _ (md & pl & ty & -> & _ & Hfit)%resolve_typed. by apply HandleMessage_safe. }
  unfold written. rewrite E. f_equal.
  apply omap_to_domain. intros ev m Hm. by apply resolve_typed in Hm as (md & pl & ty & -> & _).
Qed.

(** What the ERC20 handler of the source makes of calldata, for the destination. *)
Definition erc20_data (a : DepositArgs) (cd : bytes) : bytes :=
  erc20_amount a cd ++ sub_list cd 32 (64 + recipient_len cd) ++ (if has_optional cd then erc20_optional cd else []).

Lemma erc20_resolved startBlock endBlock ev addr :
  GetHandler (ed_ResourceID ev) = Ok addr -> e !! addr = Some Erc20DepositHandler ->
  erc20_wf (args startBlock endBlock ev) (ed_Data ev) ->
  resolve_deposit eth domainID startBlock endBlock ev = Some (erc20_message (args startBlock endBlock ev) (ed_Data ev)).
Proof.
  intros Hg He Hwf. destruct (Erc20_accepts _ _ Hwf) as [c' Ec].
  unfold resolve_deposit, handle, ETH_HandleDeposit. rewrite gom_lift_bind.
  change (da_resourceID (args_of _ _ ev)) with (ed_ResourceID ev). rewrite Hg.
  unfold matchAddressWithHandlerFunc. rewrite He, gom_lift_bind. cbn [HandleDeposit_of].
  unfold args in Ec |- *. by rewrite Ec.
Qed.

Lemma erc20_event_proposal startBlock endBlock ev addr :
  GetHandler (ed_ResourceID ev) = Ok addr -> e !! addr = Some Erc20DepositHandler ->
  erc20_wf (args startBlock endBlock ev) (ed_Data ev) ->
  exists p tp, event_proposal startBlock endBlock ev = Some p /\ to_transfer_proposal p = Ok tp /\
    tpd_Data (tp_Data tp) = erc20_data (args startBlock endBlock ev) (ed_Data ev).
Proof.
  intros Hg He Hwf. pose proof (erc20_message_data Pack _ _ Hwf) as Hb.
  fold (erc20_data (args startBlock endBlock ev) (ed_Data ev)) in Hb.
  unfold event_proposal. rewrite (erc20_resolved _ _ _ _ Hg He Hwf). cbn [mbind option_bind].
  destruct (TransferMessageHandler_HandleMessage Pack _) as [p| |] eqn:Ep; [|done..].
  cbn in Hb. destruct (as_transfer_prop (p_Data p)) as [d|] eqn:Ed; [|done]. injection Hb as Hb.
  exists p. eexists. split; [done|]. unfold to_transfer_proposal. rewrite Ed. split; [reflexivity|]. done.
Qed.

(** The nonces of unexecuted proposals are those of events, in their order. *)
Lemma unexecuted_nonces startBlock endBlock (evs : list EvmDepositEvent) :
  (forall tp, is_ok (IsProposalExecuted tp) = true) ->
  sublist ((fun tp => tpd_DepositNonce (tp_Data tp)) <$> unexecuted (omap (event_proposal startBlock endBlock) evs))
    (ed_DepositNonce <$> evs).
Proof.
  intros Hq. set (nonce := fun p => match to_transfer_proposal p with
                                     | Ok tp => tpd_DepositNonce (tp_Data tp) | _ => 0 end).
  transitivity (nonce <$> omap (event_proposal startBlock endBlock) evs).
  - apply omap_sublist. intros p tp _ E. unfold nonce.
    destruct (to_transfer_proposal p); [|done..]. case_decide; by simplify_eq.
  - apply omap_sublist. intros ev p _ Hp. unfold nonce.
    destruct (event_proposal_ready _ _ _ _ Hq Hp) as [_ (tp & -> & (_ & _ & _ & Hn & _))]. done.
Qed.

(** C8. A deposit reaches the signers of its destination.  When the queries to the
    destination and the key share are answered, the ABI encoder does not panic and whatever
    the goroutines of the executor read of its loop variables, it starts sessions for the
    proposals of a range of blocks of the source such that: every proposal of a session is
    that of a deposit event of the range to this domain which the bridge has not executed,
    with its source, destination, nonce and resource, and it is in the batch whose hash
    the session signs; the proposal of a well-formed ERC20 deposit the bridge has not
    executed is in one of the sessions, with the amount, the recipient and the optional
    message of the deposit; no deposit is in two sessions when the nonces of the events
    are distinct; and the sessions have different identifiers, so that the coordinator
    takes all of them, when each goroutine reads the index of its own batch. *)
Theorem evm_to_evm bridgeAddress startBlock endBlock deposits dd d sc :
  FetchDeposits bridgeAddress startBlock endBlock = Ok deposits ->
  evm_ProcessDeposits eth domainID bridgeAddress startBlock endBlock = Ok dd ->
  (forall tp, is_ok (IsProposalExecuted tp) = true) -> answered sc ->
  (forall ps, written dd d = Ok ps -> scheduled transactionMaxGas transferGasCost sc ps) ->
  exists ps ss, written dd d = Ok ps /\ Execute transactionMaxGas transferGasCost sc ps = Ok (Ok <$> ss) /\
    (forall s tp, s ∈ ss -> tp ∈ b_proposals (s_batch s) ->
       IsProposalExecuted tp = Ok false /\
       exists ev, ev ∈ deposits /\ ed_DestinationDomainID ev = d /\ proposal_for (args startBlock endBlock ev) tp) /\
    (forall s, s ∈ ss -> exists h, ProposalsHash (b_proposals (s_batch s)) = Ok h /\ s_msg s = be_val h) /\
    (forall ev addr, ev ∈ deposits -> ed_DestinationDomainID ev = d ->
       GetHandler (ed_ResourceID ev) = Ok addr -> e !! addr = Some Erc20DepositHandler ->
       erc20_wf (args startBlock endBlock ev) (ed_Data ev) ->
       exists tp, proposal_for (args startBlock endBlock ev) tp /\
         tpd_Data (tp_Data tp) = erc20_data (args startBlock endBlock ev) (ed_Data ev) /\
         (IsProposalExecuted tp = Ok false -> exists s, s ∈ ss /\ tp ∈ b_proposals (s_batch s))) /\
    (NoDup (ed_DepositNonce <$> filter (fun ev => ed_DestinationDomainID ev = d) deposits) ->
     NoDup ((fun tp => tpd_DepositNonce (tp_Data tp)) <$> concat ((fun s => b_proposals (s_batch s)) <$> ss))) /\
    ((forall k, sc_i sc k = k) -> NoDup (s_sessionID <$> ss)).
Proof.
  intros Hf E Hq Ha Hsc. pose proof (written_events _ _ _ _ _ d Hf E) as Hw. specialize (Hsc _ Hw).
  set (evs := filter (fun ev => ed_DestinationDomainID ev = d) deposits) in *.
  set (ps := omap (event_proposal startBlock endBlock) evs) in *.
  assert (Forall (ready transferGasCost) ps) as Hr.
  { apply list.Forall_forall. intros p (ev & _ & Hp)%list_elem_of_omap. by eapply event_proposal_ready. }
  destruct (ready_sessions transactionMaxGas transferGasCost sc ps Hr Ha Hsc) as (ss & Ex & Hcs & Hel & Hids & Hnd).
  assert (forall tp, (exists s, s ∈ ss /\ tp ∈ b_proposals (s_batch s)) <->
    IsProposalExecuted tp = Ok false /\ exists ev p, ev ∈ evs /\ event_proposal startBlock endBlock ev = Some p /\
      to_transfer_proposal p = Ok tp) as Hun.
  { intros tp. rewrite Hel. unfold ps. setoid_rewrite list_elem_of_omap. naive_solver. }
  exists ps, ss. split_and!; [done..| | | | |done].
  - intros s tp Hs Htp. destruct (proj1 (Hun tp)) as (Hx & ev & p & Hev & Hp & Ht); [by eauto|].
    split; [done|]. exists ev. apply list_elem_of_filter in Hev as [Hd Hev]. split_and!; [done..|].
    destruct (event_proposal_ready _ _ _ _ Hq Hp) as [_ (tp' & Ht' & Hfor)]. congruence.
  - done.
  - intros ev addr Hev Hd Hg He Hwf.
    destruct (erc20_event_proposal startBlock endBlock ev addr Hg He Hwf) as (p & tp & Hp & Ht & Hdata).
    destruct (event_proposal_ready _ _ _ _ Hq Hp) as [_ (tp' & Ht' & Hfor)].
    assert (tp' = tp) as -> by congruence. exists tp. split_and!; [done..|]. intros Hx.
    apply Hun. split; [done|]. exists ev, p. split_and!; [|done..]. by apply list_elem_of_filter.
  - intros Hn. rewrite Hcs. eapply sublist_NoDup; [exact Hn|]. by apply unexecuted_nonces.
Qed.
End evm_to_evm.

(** ** EVM to Bitcoin *)

(** The bitcoin proposal of an envelope. *)
Definition btc_proposal (p : Proposal) : option BtcTransferProposal :=
  (fun data => {| btp_Source := p_Source p; btp_Destination := p_Destination p; btp_Data := data |})
    <$> as_btc_prop (p_Data p).

(** The selected proposals are proposals of the batch, in its order. *)
Lemma select_loop_from {S} `{PropStorer S} ps acc (s : S) l s' :
  select_loop ps acc s = (Ok l, s') -> exists chosen, l = acc ++ chosen /\ sublist chosen (omap btc_proposal ps).
Proof.
  revert acc s. induction ps as [|p ps IH]; intros acc s E; cbn in E.
  { injection E as <- _. exists []. by rewrite app_nil_r. }
  apply gom_bind_Ok in E as (b & s0 & _ & E). cbn [omap list_omap]. destruct b.
  - apply IH in E as (chosen & -> & Hs). exists chosen. split; [done|].
    destruct (btc_proposal p); [by constructor|done].
  - apply gom_bind_Ok in E as (data & s1 & Ed & E). apply gom_lift_Ok in Ed as [Ed%or_panic_Ok ->].
    apply gom_bind_Ok in E as ([] & s2 & _ & E). apply IH in E as (chosen & -> & Hs).
    unfold btc_proposal at 1. rewrite Ed. cbn. eexists (_ :: chosen).
    split; [by rewrite <- app_assoc|by constructor].
Qed.

Section pays.
Context {Address : Type} `{BL : BtcLib Address}.
Context (RecommendedFee : nat -> res (option Fee)) (MempoolUtxos : Address -> res (list Utxo)).

(** An output that pays a proposal: its value and the script of its recipient. *)
Definition pays_proposal (p : BtcTransferProposal) (o : TxOut) : Prop :=
  out_value o = i64_wrap (bpd_Amount (btp_Data p)) /\
  exists addr, DecodeAddress (bpd_Recipient (btp_Data p)) = Ok addr /\ PayToAddrScript addr = Ok (out_script o).

Lemma outputs_loop_pays ps tx acc tx' amt :
  outputs_loop ps tx acc = Ok (tx', amt) ->
  exists outs, tx_out tx' = tx_out tx ++ outs /\ Forall2 pays_proposal ps outs.
Proof.
  revert tx acc. induction ps as [|p ps IH]; intros tx acc E; cbn in E.
  { injection E as <- _. exists []. by rewrite app_nil_r. }
  invert_ok. apply IH in E as (outs & -> & Hf). eexists (_ :: outs). cbn. rewrite <- app_assoc. split; [done|].
  constructor; [|done]. split; [done|]. by eexists.
Qed.

Lemma inputs_loop_out us need tx acc used tx' amt used' :
  inputs_loop us need tx acc used = Ok (tx', amt, used') -> tx_out tx' = tx_out tx.
Proof.
  revert tx acc used. induction us as [|u us IH]; intros tx acc used E; cbn in E; invert_ok; [by simplify_eq|].
  destruct (_ <? _); [by simplify_eq|]. by apply IH in E as ->.
Qed.

(** The first outputs of an assembled transaction pay its proposals. *)
Lemma rawTx_pays ps resource tx us :
  rawTx RecommendedFee MempoolUtxos ps resource = Ok (tx, us) ->
  Forall2 pays_proposal ps (take (length ps) (tx_out tx)).
Proof.
  unfold rawTx, outputs, inputs. intros E. invert_ok. destruct x as [tx1 amt1], x0 as [tx0 amt0].
  invert_ok. simplify_eq. destruct x0 as [[tx2 inp] us2].
  rename select (outputs_loop _ _ _ = _) into Eo. rename select (inputs_loop _ _ _ _ _ = _) into Ei.
  apply inputs_loop_out in Ei. apply outputs_loop_pays in Eo as (outs & Eo & Hf). cbn in Ei, Eo.
  assert (exists rest, tx_out tx = outs ++ rest) as [rest ->].
  { rewrite Eo in Ei. repeat (case_match; invert_ok); simplify_eq; cbn; rewrite Ei, <- ?app_assoc; by eexists. }
  pose proof Hf as Hl%Forall2_length. by rewrite Hl, take_app_length.
Qed.
End pays.

Section evm_to_btc.
Context `{EN : EvmNode} `{CR : CoreRelayer} `{LP : LeftPad, LPS : !LeftPadSpec}.
Context (Unpack : bytes -> res (list iface)) (GetHandler : bytes -> res bytes) (e : DepositHandlers) (domainID : Z).
Context {Address : Type} `{BL : BtcLib Address}.
Context (CalcTaprootSignatureHash : MsgTx -> list ((bytes * Z) * TxOut) -> nat -> res bytes).

Abbreviation eth := (ETH_HandleDeposit Unpack GetHandler e).

Definition written_btc (dd : gmap Z (list Message)) (d : Z) : res (list Proposal) :=
  route FungibleMessageHandler_HandleMessage (default [] (dd !! d)).

(** The bitcoin proposal of a deposit event: its resource is of an ERC20 handler, the
    amount is that of the deposit, cut to 8 decimals and to 64 bits, the recipient is that
    of the calldata. *)
Definition made_of (startBlock endBlock : Z) (ev : EvmDepositEvent) (p : BtcTransferProposal) : Prop :=
  (exists addr, GetHandler (ed_ResourceID ev) = Ok addr /\ e !! addr = Some Erc20DepositHandler) /\
  btp_Source p = domainID /\ btp_Destination p = ed_DestinationDomainID ev /\
  bpd_DepositNonce (btp_Data p) = ed_DepositNonce ev /\ bpd_ResourceId (btp_Data p) = ed_ResourceID ev /\
  bpd_Amount (btp_Data p)
  = u64_wrap (be_val (erc20_amount (args domainID startBlock endBlock ev) (ed_Data ev)) / 10 ^ 10) /\
  bpd_Recipient (btp_Data p)
  = string_of_bytes (sub_list (ed_Data ev) 64 (64 + i64_wrap (recipient_len (ed_Data ev)))).

(** A fungible message with two values is the ERC20 handler's. *)
Lemma fungible_resolved startBlock endBlock ev md amount recipient :
  resolve_deposit eth domainID startBlock endBlock ev
  = Some (deposit_message (args domainID startBlock endBlock ev) md [IBytes amount; IBytes recipient] FungibleTransfer) ->
  (exists addr, GetHandler (ed_ResourceID ev) = Ok addr /\ e !! addr = Some Erc20DepositHandler) /\
  amount = erc20_amount (args domainID startBlock endBlock ev) (ed_Data ev) /\
  recipient = sub_list (ed_Data ev) 64 (64 + i64_wrap (recipient_len (ed_Data ev))).
Proof.
  unfold resolve_deposit, handle. destruct (eth _ _) as [[m| |] c'] eqn:E; cbn; intros Hm; simplify_eq.
  unfold ETH_HandleDeposit in E. apply gom_bind_Ok in E as (addr & c1 & E1 & E). apply gom_lift_Ok in E1 as [E1 ->].
  apply gom_bind_Ok in E as (h & c2 & E2 & E). apply gom_lift_Ok in E2 as [E2 ->].
  unfold matchAddressWithHandlerFunc in E2. destruct (e !! addr) as [h'|] eqn:Eh; [|done]. injection E2 as ->.
  assert (h = Erc20DepositHandler) as ->.
  { destruct h; [done|..]; exfalso; cbn in E; unfold Erc721_HandleDeposit, Erc1155_HandleDeposit,
      PermissionlessGeneric_HandleDeposit in E; gom_inv; done. }
  split; [by exists addr|]. cbn [HandleDeposit_of] in E.
  by apply (Erc20_plain_inv _ _ (ed_HandlerResponse ev)) in E.
Qed.

Lemma btc_message_proposal startBlock endBlock ev m p :
  resolve_deposit eth domainID startBlock endBlock ev = Some m ->
  FungibleMessageHandler_HandleMessage m = Ok p ->
  exists q, btc_proposal p = Some q /\ made_of startBlock endBlock ev q.
Proof.
  intros Hm E. pose proof Hm as Hm'. apply resolve_typed in Hm as (md & pl & ty & -> & _).
  unfold FungibleMessageHandler_HandleMessage, transfer_message_of in E. cbn [mbind outcome_bind or_panic as_transfer
    deposit_message m_Data m_Source m_Destination m_ID m_Type tm_Data tmd_Type] in E.
  case_bool_decide as Ety; [|done]. unfold btc_ERC20MessageHandler in E. cbn [tm_Data tmd_Payload] in E.
  case_bool_decide as El; [done|]. destruct pl as [|v0 [|v1 [|? ?]]]; try (by destruct El); try done.
  unfold payload_bytes, payload_at in E. cbn in E. invert_ok.
  destruct v0, v1; cbn in *; simplify_eq. apply fungible_resolved in Hm' as (Hh & -> & ->).
  eexists. split; [reflexivity|]. by split_and!.
Qed.

Lemma btc_message_safe a md pl ty : FungibleMessageHandler_HandleMessage (deposit_message a md pl ty) <> Panic.
Proof.
  unfold FungibleMessageHandler_HandleMessage, transfer_message_of. cbn [mbind outcome_bind or_panic as_transfer
    deposit_message m_Data m_Source m_Destination m_ID m_Type tm_Data tmd_Type].
  case_bool_decide; [|done]. unfold btc_ERC20MessageHandler. cbn [tm_Data tmd_Payload].
  case_bool_decide as Hl; [done|].
  apply bind_safe; [apply payload_bytes_safe; cbn; lia|intros ? _].
  apply bind_safe; [apply payload_bytes_safe; cbn; lia|done].
Qed.

Lemma written_btc_made bridgeAddress startBlock endBlock deposits dd d :
  FetchDeposits bridgeAddress startBlock endBlock = Ok deposits ->
  evm_ProcessDeposits eth domainID bridgeAddress startBlock endBlock = Ok dd ->
  exists ps, written_btc dd d = Ok ps /\ forall q, q ∈ omap btc_proposal ps ->
    exists ev, ev ∈ deposits /\ ed_DestinationDomainID ev = d /\ made_of startBlock endBlock ev q.
Proof.
  intros Hf E. unfold evm_ProcessDeposits in E. rewrite Hf in E. injection E as <-.
  destruct (routed_elem (resolve_deposit eth domainID startBlock endBlock) FungibleMessageHandler_HandleMessage
              deposits d) as (ps & Ep & _ & Hel).
  { intros ev m _ (md & pl & ty & -> & _)%resolve_typed. apply btc_message_safe. }
  exists ps. split; [done|]. intros q (p & Hp & Hq)%list_elem_of_omap.
  apply Hel in Hp as (ev & m & Hev & Hr & Hd & Eh).
  destruct (btc_message_proposal _ _ _ _ _ Hr Eh) as (q' & Eq & Hq'). exists ev. split; [done|].
  apply resolve_typed in Hr as (md & pl & ty & -> & _). split; [done|]. by assert (q' = q) as <- by congruence.
Qed.

(** A transaction of an execution starts with outputs for proposals of the batch. *)
Lemma btc_Execute_pays {S} `{PropStorer S} envs resources ps (st st' : exec_state S) tasks x :
  btc_Execute CalcTaprootSignatureHash envs resources ps st = Some (Ok tasks, st') ->
  Ok x ∈ tasks ->
  Forall2 (fun p o => pays_proposal p o /\ p ∈ omap btc_proposal ps)
    (re_proposals x) (take (length (re_proposals x)) (tx_out (re_tx x))).
Proof.
  intros Hx Hin. unfold btc_Execute in Hx. destruct ps as [|first rest]; [done|].
  set (ps := first :: rest) in *.
  destruct (proposalsForExecution ps st) as [[[props| |] st1]|] eqn:Ep; simplify_eq.
  assert (sublist props (omap btc_proposal ps)) as Hsub.
  { rewrite proposalsForExecution_eq in Ep. destruct (es_locked st); [done|].
    destruct (select_loop _ _ _) as [[l| |] s'] eqn:El; simplify_eq.
    by apply select_loop_from in El as (chosen & -> & ?). }
  apply list_elem_of_fmap in Hin as ([id l] & He & Hl%elem_of_map_to_list).
  destruct (resources !! id) as [resource|]; [|done]. unfold executeResourceProps in He. symmetry in He.
  invert_ok. destruct x0 as [tx us]. invert_ok. subst x. cbn [re_proposals re_tx].
  rename select (rawTx _ _ _ _ = _) into Er. apply rawTx_pays in Er.
  rewrite propsPerResource_lookup in Hl.
  apply Forall2_and_l; [done|]. apply list.Forall_forall. intros q Hq.
  eapply elem_of_sublist; [|exact Hsub]. destruct (filter _ props) as [|q0 l0] eqn:Efl; simplify_eq.
  rewrite <- Efl in Hq. by apply list_elem_of_filter in Hq as [_ ?].
Qed.

(** C17. A deposit to Bitcoin is paid as it was made.  Whatever the executor selects of
    the proposals of a range of blocks and whatever the services answer, each transaction
    it assembles starts with one output for each of its proposals, in order.  A proposal
    is that of a deposit event of the range to this domain, of an ERC20 resource, with its
    source, nonce and resource; the output pays the amount of the deposit (the first word
    of the handler's response, or of the calldata), cut from 18 to 8 decimals and to 64
    bits, to the script of the address that the calldata names. *)
Theorem evm_to_btc {S} `{PropStorer S} bridgeAddress startBlock endBlock deposits dd d envs resources
    (st : exec_state S) :
  FetchDeposits bridgeAddress startBlock endBlock = Ok deposits ->
  evm_ProcessDeposits eth domainID bridgeAddress startBlock endBlock = Ok dd ->
  exists ps, written_btc dd d = Ok ps /\
    forall tasks st' x, btc_Execute CalcTaprootSignatureHash envs resources ps st = Some (Ok tasks, st') ->
      Ok x ∈ tasks ->
      Forall2 (fun p o => pays_proposal p o /\
                 exists ev, ev ∈ deposits /\ ed_DestinationDomainID ev = d /\ made_of startBlock endBlock ev p)
        (re_proposals x) (take (length (re_proposals x)) (tx_out (re_tx x))).
Proof.
  intros Hf E. destruct (written_btc_made _ _ _ _ _ d Hf E) as (ps & Ep & Hmade). exists ps. split; [done|].
  intros tasks st' x Hx Hin. pose proof (btc_Execute_pays _ _ _ _ _ _ _ Hx Hin) as Hp.
  eapply Forall2_impl; [|exact Hp]. cbn. intros p o [Hpo Hq]. split; [done|]. by apply Hmade.
Qed.
End evm_to_btc.

(** ** A concrete bridge *)

Module EndToEndExample.
Import LeftPadRef MapDB EvmListenerExample BtcTxExample.

#[export] Instance relayer : CoreRelayer := {|
  route handler msgs := if existsb (fun m => panics (handler m)) msgs then Panic
                        else Ok (omap (fun m => made (handler m)) msgs);
  route_spec := fun _ _ => eq_refl;
|}.

(** A bridge that has executed the deposit with nonce 1. *)
#[export] Instance bridge : BridgeContract := {|
  IsProposalExecuted tp := Ok (bool_decide (tpd_DepositNonce (tp_Data tp) = 1));
  ExecuteProposals _ _ _ := Ok [];
  ProposalsHash ps := Ok (be_fixed 32 (Z.of_nat (length ps)));
|}.

(** Every goroutine reads its own index. *)
Definition prompt : schedule := {| sc_i k := k; sc_batch k := k; sc_NewSigning _ := Ok tt |}.
Lemma prompt_in_loop n : in_loop n prompt.
Proof. intros k Hk. cbn. lia. Qed.

Definition ok_list {A} (r : res (list A)) : list A := match r with Ok l => l | _ => [] end.

Definition unpack (_ : bytes) : res (list iface) := Err "abi".
Definition handler_of (_ : bytes) : res bytes := Ok (be_fixed 20 3).

(** The messages of the blocks 5 to 9. *)
Definition messages : gmap Z (list Message) :=
  match evm_ProcessDeposits (ETH_HandleDeposit unpack handler_of handlers) 1 (be_fixed 20 1) 5 9 with
  | Ok dd => dd | _ => ∅ end.

(** A chain with one deposit, of 10^15 units, to the domain 3. *)
Definition to_btc : Log :=
  log (be_fixed 1 3 ++ be_fixed 1 7 ++ be_fixed 32 (10 ^ 15) ++ be_fixed 32 20 ++ be_fixed 20 77).
Definition btc_node : EvmNode := {|
  FetchEventLogs _ sig _ _ := Ok [to_btc];
  WaitAndReturnTxReceipt _ := Err "receipt"; LatestBlock := Ok 100; BlockTime n := Ok n;
  UnpackDeposit := decode; UnpackRetryV1 _ := Err "abi"; UnpackRetryV2 _ := Err "abi"; UnpackKeyRefresh _ := Err "abi";
  BytesToAddress l := drop 12 l; HexToHash s := bytes_of_string s; HashHex h := string_of_bytes h; Now := 5;
|}.

Definition btc_deposits : list EvmDepositEvent :=
  match FetchDeposits (H := btc_node) (be_fixed 20 1) 5 9 with Ok l => l | _ => [] end.
Definition btc_messages : gmap Z (list Message) :=
  match evm_ProcessDeposits (H := btc_node) (ETH_HandleDeposit unpack handler_of handlers) 1 (be_fixed 20 1) 5 9 with
  | Ok dd => dd | _ => ∅ end.
Definition idle : exec_state (gmap bytes bytes) := {| es_store := ∅; es_locked := false |}.
End EndToEndExample.

Import LeftPadRef MapDB EvmListenerExample BtcTxExample BtcExecutorExample EndToEndExample.

(** Of the three deposits to domain 2 the first is executed and the second malformed; the
    third is signed. *)
Lemma evm_to_evm_witness :
  exists ps ss, written (fun _ => Err "abi") messages 2 = Ok ps /\
    Execute 1000000 100000 prompt ps = Ok (Ok <$> ss) /\
    (fun s => (s_sessionID s, (fun tp => tpd_DepositNonce (tp_Data tp)) <$> b_proposals (s_batch s))) <$> ss
    = [("1-2-5-9-0", [3])].
Proof.
  destruct (evm_to_evm unpack handler_of handlers (fun _ => Err "abi") 1000000 100000 1 ltac:(discriminate)
              (be_fixed 20 1) 5 9 deposits messages 2 prompt) as (ps & ss & Ep & E & _).
  - reflexivity.
  - vm_compute. reflexivity.
  - reflexivity.
  - split; reflexivity.
  - intros ps _ bs _. apply prompt_in_loop.
  - exists ps, ss. split; [exact Ep|]. split; [exact E|]. vm_compute in Ep. injection Ep as <-. vm_compute in E.
    destruct ss as [|s [|? ?]]; [discriminate| |discriminate]. injection E as <-. reflexivity.
Defined.

(** The deposit is paid with 100000 satoshi. *)
Lemma evm_to_btc_witness :
  exists ps x st', written_btc btc_messages 3 = Ok ps /\
    btc_Execute hash_input (env enough) {[be_fixed 32 1 := resource]} ps idle = Some (Ok [Ok x], st') /\
    out_value <$> take 1 (tx_out (re_tx x)) = [100000] /\
    Forall2 (fun p o => pays_proposal p o /\
               exists ev, ev ∈ btc_deposits /\ ed_DestinationDomainID ev = 3 /\
                 made_of handler_of handlers 1 5 9 ev p)
      (re_proposals x) (take (length (re_proposals x)) (tx_out (re_tx x))).
Proof.
  destruct (evm_to_btc (EN := btc_node) unpack handler_of handlers 1 hash_input (be_fixed 20 1) 5 9
             btc_deposits btc_messages 3 (env enough) {[be_fixed 32 1 := resource]} idle) as (ps & Ep & Hpay).
  - vm_compute. reflexivity.
  - vm_compute. reflexivity.
  - exists ps. assert (match btc_Execute hash_input (env enough) {[be_fixed 32 1 := resource]} ps idle with
          | Some (Ok [Ok x], _) => bool_decide (out_value <$> take 1 (tx_out (re_tx x)) = [100000])
          | _ => false end = true) as Hok.
    { clear Hpay. vm_compute in Ep. injection Ep as <-. vm_compute. reflexivity. }
    destruct (btc_Execute hash_input (env enough) {[be_fixed 32 1 := resource]} ps idle)
      as [[[[|[x| |] [|? ?]]| |] st']|] eqn:E; try discriminate Hok.
    exists x, st'. split; [exact Ep|]. split; [reflexivity|]. split.
    + exact (bool_decide_eq_true_1 _ Hok).
    + apply (Hpay _ _ _ eq_refl). left.
Defined.
