(* ===== verification/BtcToEvm.v ===== *)
(** * From a Bitcoin transaction to a signature

    The way of a Bitcoin deposit to an EVM chain: the transactions of a block
    ([BtcListener]), the relayer of sygma-core and the message handler and executor of
    the destination, as in [EndToEnd]. *)

From Stdlib Require Import Ascii.
From S2P Require Import Prelude GoBytes GoStrings GoFloat GoParse Transfer Routing EvmDeposit EvmMessage EvmExecutor BtcListener EndToEnd.

#[local] Open Scope string_scope.
#[local] Open Scope list_scope.
#[local] Open Scope Z_scope.

Section btc_to_evm.
Context `{BC : BridgeContract} `{CR : CoreRelayer} `{LP : LeftPad, LPS : !LeftPadSpec}.
Context (HexToAddress : string -> bytes) (sha256 : bytes -> bytes) (domainID : Z) (feeAddress : string).
Context (HAddr : forall s, length (HexToAddress s) = 20%nat).
Context (Pack : list iface -> res bytes) (transactionMaxGas transferGasCost : Z).

(** The deposit a transaction makes for one of the resources: what its outputs say, its
    nonce, the recipient and the destination named in its text. *)
Record tx_deposit (block : Z) (order : TxRawResult -> list ListenerResource) (evt : TxRawResult)
    (dep : Deposit) (nonce : Z) (to : string) (dest : Z) : Prop := {
  td_resource : exists resource, resource ∈ order evt /\
    DecodeDepositEvent evt resource feeAddress = Ok (Some dep);
  td_nonce : CalculateNonce sha256 block (tr_Hash evt) = Ok nonce;
  td_to : str_split "_"%char (d_Data dep) !! 0%nat = Some to;
  td_dest : exists text n, str_split "_"%char (d_Data dep) !! 1%nat = Some text /\
    ParseUint text 8 = Ok n /\ dest = u8_wrap n;
}.

(** The proposal that pays such a deposit. *)
Record pays_deposit (dep : Deposit) (nonce : Z) (to : string) (dest : Z) (tp : TransferProposal) : Prop := {
  pd_source : tp_Source tp = domainID;
  pd_dest : tp_Destination tp = dest;
  pd_nonce : tpd_DepositNonce (tp_Data tp) = nonce;
  pd_resource : tpd_ResourceId (tp_Data tp) = d_ResourceID dep;
  pd_data : 0 <= d_Amount dep < 2 ^ 63 ->
    tpd_Data (tp_Data tp) = be_fixed 32 (d_Amount dep * 10 ^ 10) ++ be_fixed 32 20 ++ HexToAddress to;
}.

Definition deposit_data (dep : Deposit) (nonce : Z) (to : string) : TransferMessageData :=
  {| tmd_DepositNonce := nonce; tmd_ResourceId := d_ResourceID dep; tmd_Metadata := ∅;
     tmd_Payload := [IBytes (big_bytes (d_Amount dep * 10 ^ 10)); IBytes (HexToAddress to)];
     tmd_Type := FungibleTransfer |}.

Lemma process_tx_deposit block order evt m :
  tx_message HexToAddress sha256 domainID feeAddress block order evt = Some m ->
  exists dep nonce to, tx_deposit block order evt dep nonce to (m_Destination m) /\
    m_Source m = domainID /\ m_Data m = TransferData (deposit_data dep nonce to).
Proof.
  unfold tx_message. destruct (process_tx _ _ _ _ _ _ _) as [[m'|]| |] eqn:E; [|done..]. intros [= ->].
  assert (forall rs, (forall r, r ∈ rs -> r ∈ order evt) ->
    process_tx HexToAddress sha256 domainID feeAddress block evt rs = Ok (Some m) ->
    exists dep nonce, (exists resource, resource ∈ order evt /\
      DecodeDepositEvent evt resource feeAddress = Ok (Some dep)) /\
      CalculateNonce sha256 block (tr_Hash evt) = Ok nonce /\
      btc_HandleDeposit HexToAddress domainID nonce (d_ResourceID dep) (d_Amount dep) (d_Data dep) block
        (tr_Blocktime evt) = Ok m) as Hfind.
  { clear E. induction rs as [|r rs IH]; cbn; [done|]. intros Hrs E. invert_ok.
    destruct x as [dep|]; [|apply IH; [intros; apply Hrs; by right|done]]. invert_ok. simplify_eq.
    eexists dep, _. split_and!; [|done|done]. exists r. split; [apply Hrs; by left|done]. }
  apply Hfind in E as (dep & nonce & Hdec & Hn & Hm); [|done]. unfold btc_HandleDeposit in Hm. invert_ok. subst m.
  eexists dep, nonce, _. split; [|done]. split; [done..|]. by eexists _, _.
Qed.

(** The message of a deposit becomes its proposal. *)
Lemma deposit_pays m dep nonce to :
  m_Source m = domainID -> m_Data m = TransferData (deposit_data dep nonce to) ->
  exists p tp, TransferMessageHandler_HandleMessage Pack m = Ok p /\ to_transfer_proposal p = Ok tp /\
    pays_deposit dep nonce to (m_Destination m) tp /\ (forall gas, is_ok (propGasLimit gas tp) = true).
Proof.
  intros Hs Hd. pose proof (dispatch_fungible_data Pack m _ Hd eq_refl) as Hdisp.
  pose proof (ERC20_data_plain {| tm_Source := m_Source m; tm_Destination := m_Destination m;
    tm_Data := deposit_data dep nonce to; tm_Type := m_Type m; tm_ID := m_ID m |} _ _ eq_refl) as Hb.
  rewrite <- Hdisp in Hb. destruct (TransferMessageHandler_HandleMessage Pack m) as [p| |] eqn:Ep; [|done..].
  apply HandleMessage_proposal in Ep as (msg & data & Hm & ->).
  unfold transfer_message_of in Hm. rewrite Hd in Hm. cbn in Hm. injection Hm as <-. cbn in Hb. injection Hb as Hb.
  eexists _, _. split; [reflexivity|]. split; [reflexivity|]. split; [|done].
  split; [done..|]. intros Ha. cbn. rewrite Hb.
  rewrite LeftPadBytes_big_bytes, len_bytes_padded, HAddr by (rewrite ?HAddr; simpl; lia). done.
Qed.

End btc_to_evm.

(** ** Example *)

Module BtcToEvmExample.
Import LeftPadRef BtcListenerExample EndToEndExample.

Definition block_messages : gmap Z (list Message) :=
  match btc_ProcessDeposits to_address hash 3 "fee" fetch (fun _ => [vault]) 100 with Ok dd => dd | _ => ∅ end.
Definition block_txs : list TxRawResult := match fetch 100 with Ok l => l | _ => [] end.
End BtcToEvmExample.
Import LeftPadRef BtcListenerExample EndToEndExample BtcToEvmExample.

