(* ===== verification/SubPaths.v ===== *)
(** * To and from a substrate chain

    The ways of a deposit between a substrate and an EVM chain: the events of either
    chain ([Substrate], [EvmListener]), the relayer of sygma-core and the message handler
    and executor of the destination, as in [EndToEnd]. *)

From S2P Require Import Prelude GoBytes GoStrings Transfer Routing EvmDeposit EvmMessage EvmListener EvmExecutor EvmBridge Substrate EndToEnd.

#[local] Open Scope string_scope.
#[local] Open Scope list_scope.
#[local] Open Scope Z_scope.

(** A proposal with bytes is a transfer proposal with these bytes. *)
Lemma proposal_bytes_transfer r data :
  proposal_bytes r = Some data ->
  exists p tp, r = Ok p /\ to_transfer_proposal p = Ok tp /\ tpd_Data (tp_Data tp) = data.
Proof.
  unfold proposal_bytes, to_transfer_proposal. destruct r as [p| |]; [|done..]. cbn.
  destruct (as_transfer_prop (p_Data p)) as [d|] eqn:Ed; [|done]. intros [= <-].
  eexists p, _. split; [done|]. rewrite Ed. done.
Qed.

(** ** Substrate to EVM *)

Section substrate_to_evm.
Context {V : Type} `{FD : FieldDecoder V} `{BC : BridgeContract} `{CR : CoreRelayer} `{LP : LeftPad, LPS : !LeftPadSpec}.
Context (Pack : list iface -> res bytes) (Pack_safe : forall l, Pack l <> Panic) (transactionMaxGas transferGasCost : Z) (domainID : Z).
Context (IntBytesToBigInt : bytes -> Z).
Context (IntBytes_small : forall l, length l = 32%nat -> be_val l < 2 ^ 255 -> IntBytesToBigInt l = be_val l).

Abbreviation sub := (sub_HandleDeposit (sub_handlers IntBytesToBigInt)).

Definition sub_event_args (startBlock endBlock : Z) (dep : SubDeposit) : DepositArgs :=
  sub_args domainID ("" +:+ sub_range_id domainID (sd_DestDomainID dep) startBlock endBlock) dep.

(** A deposit event of the pallet and what it says. *)
Definition deposit_event (evt : SubEvent V) (dep : SubDeposit) : Prop :=
  ev_Name evt = sub_DepositEvent /\ sub_DecodeDepositEvent (ev_Fields evt) = Ok dep.

Lemma sub_resolve_deposit startBlock endBlock evt m :
  sub_resolve sub domainID startBlock endBlock evt = Some m ->
  exists dep pl, deposit_event evt dep /\ sd_TransferType dep = 0 /\
    m = deposit_message (sub_event_args startBlock endBlock dep) ∅ pl FungibleTransfer.
Proof.
  unfold sub_resolve, event_message. case_bool_decide as Hn; [|done].
  destruct (sub_DecodeDepositEvent _) as [dep| |] eqn:Ed; cbn [mbind outcome_bind]; [|done..].
  destruct (sub _ _ _) as [m'| |] eqn:Em; [|done..]. intros [= ->]. exists dep.
  unfold sub_HandleDeposit, matchTransferTypeHandlerFunc, sub_handlers, sub_RegisterDepositHandler in Em.
  destruct (Z.eqb_spec (sd_TransferType dep) 0) as [Ht|]; [|done]. cbn [bool_decide] in Em.
  rewrite bool_decide_false, lookup_insert_eq in Em by done. cbn [from_opt mbind outcome_bind] in Em.
  unfold FungibleTransferHandler in Em. case_match; [done|]. invert_ok. subst m. by eexists.
Qed.

Lemma sub_resolve_wf startBlock endBlock evt dep :
  deposit_event evt dep -> sd_TransferType dep = 0 -> sub_wf (sd_CallData dep) ->
  exists m, sub_resolve sub domainID startBlock endBlock evt = Some m /\ m_Destination m = sd_DestDomainID dep /\
    proposal_bytes (TransferMessageHandler_HandleMessage Pack m)
    = Some (take (Z.to_nat (64 + recipient_len (sd_CallData dep))) (sd_CallData dep)).
Proof.
  intros [Hn Hd] Ht Hwf. eexists. split.
  - unfold sub_resolve, event_message. rewrite bool_decide_true, Hd by done. cbn [mbind outcome_bind].
    rewrite Ht, (sub_HandleDeposit_accepts IntBytesToBigInt IntBytes_small) by done. reflexivity.
  - split; [done|]. rewrite dispatch_fungible. by erewrite ERC20_data_plain, reencode.
Qed.

(** What is written to a domain: proposals of its deposit events. *)
Lemma sub_written startBlock endBlock evts d :
  exists ps, written Pack (collect (sub_resolve sub domainID startBlock endBlock) evts ∅) d = Ok ps /\
    (forall p, p ∈ ps -> exists evt dep tp, evt ∈ evts /\ deposit_event evt dep /\ sd_TransferType dep = 0 /\
       sd_DestDomainID dep = d /\ to_transfer_proposal p = Ok tp /\
       proposal_for (sub_event_args startBlock endBlock dep) tp /\ (forall gas, is_ok (propGasLimit gas tp) = true)) /\
    (forall evt m p, evt ∈ evts -> sub_resolve sub domainID startBlock endBlock evt = Some m -> m_Destination m = d ->
       TransferMessageHandler_HandleMessage Pack m = Ok p -> p ∈ ps).
Proof.
  destruct (routed_elem (sub_resolve sub domainID startBlock endBlock) (TransferMessageHandler_HandleMessage Pack)
              evts d) as (ps & Ep & _ & Hel).
  { intros evt m _ (dep & pl & _ & _ & ->)%sub_resolve_deposit. by apply HandleMessage_safe. }
  exists ps. split_and!; [done| |].
  - intros p (evt & m & Hevt & Hm & Hd & Hp)%Hel.
    destruct (sub_resolve_deposit _ _ _ _ Hm) as (dep & pl & He & Ht & ->).
    destruct (deposit_proposal Pack _ _ _ _ _ gas_typed_empty Hp) as (tp & Htp & Hf & Hg & _).
    by exists evt, dep, tp.
  - intros evt m p Hevt Hm Hd Hp. apply Hel. by exists evt, m.
Qed.

(** C19. A deposit on a substrate chain reaches the signers of an EVM chain.  When the
    queries to the destination and the key share are answered, the ABI encoder does not
    panic and whatever the goroutines of the executor read of its loop variables, it
    starts sessions for the events of a range of blocks such that every proposal of a
    session is that of a fungible deposit event of the pallet to this domain which the
    bridge has not executed, with its source, destination, nonce and resource, in the
    batch whose hash the session signs; the proposal of every fungible deposit event to
    this domain whose calldata holds the recipient it announces is in a session unless the
    bridge has executed it, and its data is the calldata up to the end of the recipient;
    and the sessions have different identifiers, so that the coordinator takes all of
    them, when each goroutine reads the index of its own batch. *)
Theorem substrate_to_evm FetchEvents startBlock endBlock evts dd d sc :
  FetchEvents startBlock endBlock = Ok evts ->
  sub_ProcessDeposits sub domainID FetchEvents startBlock endBlock = Ok dd ->
  (forall tp, is_ok (IsProposalExecuted tp) = true) -> answered sc ->
  (forall ps, written Pack dd d = Ok ps -> scheduled transactionMaxGas transferGasCost sc ps) ->
  exists ps ss, written Pack dd d = Ok ps /\ Execute transactionMaxGas transferGasCost sc ps = Ok (Ok <$> ss) /\
    (forall s tp, s ∈ ss -> tp ∈ b_proposals (s_batch s) ->
       IsProposalExecuted tp = Ok false /\
       exists evt dep, evt ∈ evts /\ deposit_event evt dep /\ sd_TransferType dep = 0 /\ sd_DestDomainID dep = d /\
         proposal_for (sub_event_args startBlock endBlock dep) tp) /\
    (forall s, s ∈ ss -> exists h, ProposalsHash (b_proposals (s_batch s)) = Ok h /\ s_msg s = be_val h) /\
    (forall evt dep, evt ∈ evts -> deposit_event evt dep -> sd_TransferType dep = 0 -> sd_DestDomainID dep = d ->
       sub_wf (sd_CallData dep) ->
       exists tp, proposal_for (sub_event_args startBlock endBlock dep) tp /\
         tpd_Data (tp_Data tp) = take (Z.to_nat (64 + recipient_len (sd_CallData dep))) (sd_CallData dep) /\
         (IsProposalExecuted tp = Ok false -> exists s, s ∈ ss /\ tp ∈ b_proposals (s_batch s))) /\
    ((forall k, sc_i sc k = k) -> NoDup (s_sessionID <$> ss)).
Proof.
  intros Hf E Hq Ha Hsc. unfold sub_ProcessDeposits in E. rewrite Hf in E. injection E as <-.
  destruct (sub_written startBlock endBlock evts d) as (ps & Ep & Hof & Hin). specialize (Hsc ps Ep).
  destruct (ready_sessions transactionMaxGas transferGasCost sc ps) as (ss & Ex & _ & Hs & Hhash & Hnd); [|done..|].
  { apply list.Forall_forall. intros p (evt & dep & tp & _ & _ & _ & _ & Ht & _ & Hg)%Hof.
    specialize (Hq tp). destruct (IsProposalExecuted tp) as [b| |] eqn:Eb; [|done..]. by exists tp, b. }
  exists ps, ss. split_and!; [done..| |done| |done].
  - intros s tp Hss Htp. destruct (proj1 (Hs tp)) as (Hx & p & Hp & Ht); [by eauto|]. split; [done|].
    apply Hof in Hp as (evt & dep & tp' & Hevt & He & Hty & Hd & Ht' & Hfor & _).
    assert (tp' = tp) as -> by congruence. by exists evt, dep.
  - intros evt dep Hevt He Hty Hd Hwf.
    destruct (sub_resolve_wf startBlock endBlock evt dep He Hty Hwf) as (m & Hm & Hmd & Hb).
    destruct (proposal_bytes_transfer _ _ Hb) as (p & tp & Hp & Ht & Hdata).
    pose proof (Hin evt m p Hevt Hm ltac:(by rewrite Hmd) Hp) as Hps.
    pose proof Hm as (dep' & pl & He' & _ & ->)%sub_resolve_deposit.
    assert (dep' = dep) as -> by (destruct He, He'; congruence).
    destruct (deposit_proposal Pack _ _ _ _ _ gas_typed_empty Hp) as (tp' & Ht' & Hfor & _).
    assert (tp' = tp) as -> by congruence. exists tp. split_and!; [done..|]. intros Hx. apply Hs.
    split; [done|]. by exists p.
Qed.
End substrate_to_evm.

(** ** EVM to substrate *)

Section evm_to_substrate.
Context `{EN : EvmNode} `{CR : CoreRelayer} `{LP : LeftPad, LPS : !LeftPadSpec}.
Context (Unpack : bytes -> res (list iface)) (GetHandler : bytes -> res bytes) (e : DepositHandlers) (domainID : Z).
(** The pallet of the destination. *)
Context (IsExecuted : TransferProposal -> res bool) (Hash : list TransferProposal -> res bytes).
Context (NewSigning : res unit).

Abbreviation eth := (ETH_HandleDeposit Unpack GetHandler e).

Definition written_sub (dd : gmap Z (list Message)) (d : Z) : res (list Proposal) :=
  route SubstrateMessageHandler_HandleMessage (default [] (dd !! d)).

(** The proposals of the session, if there is one. *)
Definition signed (o : option Session) : list TransferProposal :=
  from_option (fun s => b_proposals (s_batch s)) [] o.

(** A well-formed deposit of an ERC20 resource. *)
Definition erc20_deposit (startBlock endBlock : Z) (ev : EvmDepositEvent) : Prop :=
  (exists addr, GetHandler (ed_ResourceID ev) = Ok addr /\ e !! addr = Some Erc20DepositHandler) /\
  erc20_wf (args domainID startBlock endBlock ev) (ed_Data ev).

(** The proposal of a message for the pallet has the envelope of the message. *)
Lemma substrate_proposal a md pl ty p :
  SubstrateMessageHandler_HandleMessage (deposit_message a md pl ty) = Ok p ->
  exists tp, to_transfer_proposal p = Ok tp /\ proposal_for a tp /\ length pl = 2%nat.
Proof.
  unfold SubstrateMessageHandler_HandleMessage, transfer_message_of. cbn [mbind outcome_bind or_panic as_transfer
    deposit_message m_Data m_Source m_Destination m_ID m_Type tm_Data tmd_Type].
  case_bool_decide; [|done]. unfold fungibleTransferMessageHandler. cbn [tm_Data tmd_Payload].
  case_bool_decide as Hl; [done|]. intros E. invert_ok. subst p.
  eexists. split; [reflexivity|]. split; [by repeat split|]. lia.
Qed.

(** The pallet's form of an ERC20 deposit; one with an optional message has none. *)
Lemma substrate_erc20 a cd :
  erc20_wf a cd ->
  proposal_bytes (SubstrateMessageHandler_HandleMessage (erc20_message a cd))
  = if has_optional cd then None else Some (erc20_data a cd).
Proof.
  intros Hwf. pose proof (erc20_message_data (fun _ => Panic) _ _ Hwf) as Hb. unfold erc20_data, erc20_message in *.
  destruct (has_optional cd); [done|]. rewrite sub_dispatch. rewrite dispatch_fungible in Hb. rewrite <- Hb.
  by erewrite fungible_data, ERC20_data_plain.
Qed.

Lemma substrate_message_safe a md pl ty :
  SubstrateMessageHandler_HandleMessage (deposit_message a md pl ty) <> Panic.
Proof.
  unfold SubstrateMessageHandler_HandleMessage, transfer_message_of. cbn [mbind outcome_bind or_panic as_transfer
    deposit_message m_Data m_Source m_Destination m_ID m_Type tm_Data tmd_Type].
  case_bool_decide; [|done]. unfold fungibleTransferMessageHandler. cbn [tm_Data tmd_Payload].
  case_bool_decide as Hl; [done|].
  apply bind_safe; [apply payload_bytes_safe; cbn; lia|intros ? _].
  apply bind_safe; [apply payload_bytes_safe; cbn; lia|done].
Qed.

Lemma written_sub_Ok startBlock endBlock deposits d :
  exists ps, written_sub (collect (resolve_deposit eth domainID startBlock endBlock) deposits ∅) d = Ok ps /\
    (forall p, p ∈ ps -> exists ev tp, ev ∈ deposits /\ ed_DestinationDomainID ev = d /\ to_transfer_proposal p = Ok tp /\
       proposal_for (args domainID startBlock endBlock ev) tp /\
       (erc20_deposit startBlock endBlock ev -> has_optional (ed_Data ev) = false)) /\
    (forall ev m p, ev ∈ deposits -> resolve_deposit eth domainID startBlock endBlock ev = Some m ->
       m_Destination m = d -> SubstrateMessageHandler_HandleMessage m = Ok p -> p ∈ ps).
Proof.
  destruct (routed_elem (resolve_deposit eth domainID startBlock endBlock) SubstrateMessageHandler_HandleMessage
              deposits d) as (ps & Ep & _ & Hel).
  { intros ev m _ (md & pl & ty & -> & _)%resolve_typed. apply substrate_message_safe. }
  exists ps. split_and!; [done| |by intros ev m p Hev Hm Hd Hp; apply Hel; exists ev, m].
  intros p (ev & m & Hev & Hm & Hd & Hp)%Hel.
  pose proof Hm as (md & pl & ty & -> & _)%resolve_typed.
  destruct (substrate_proposal _ _ _ _ _ Hp) as (tp & Ht & Hf & Hl). exists ev, tp. split_and!; [done..|].
  intros [(addr & Hg & He) Hwf]. rewrite (erc20_resolved _ _ _ _ _ _ _ _ Hg He Hwf) in Hm.
  unfold erc20_message in Hm. destruct (has_optional _); [|done]. injection Hm as _ <-. done.
Qed.

(** When the queries succeed, the session signs the proposals written to the chain. *)
Lemma sub_Execute_signed ps :
  (forall p, p ∈ ps -> is_ok (to_transfer_proposal p) = true) ->
  (forall tp, is_ok (IsExecuted tp) = true) -> (forall tps, is_ok (Hash tps) = true) -> is_ok NewSigning = true ->
  exists o, sub_Execute IsExecuted Hash NewSigning ps = Ok o /\
    Forall2 (fun p tp => to_transfer_proposal p = Ok tp) ps (signed o) /\
    (forall s, o = Some s -> exists h, Hash (signed o) = Ok h /\ s_msg s = be_val h).
Proof.
  intros Ht Hq Hh Hn. destruct (decide (ps = [])) as [->|Hne]; [by exists None|].
  assert (exists tps, Forall2 (fun p tp => to_transfer_proposal p = Ok tp) ps tps) as [tps Hf].
  { clear Hne. induction ps as [|p ps IH]; [by exists []|].
    destruct IH as [tps Hf]; [intros; apply Ht; by right|].
    specialize (Ht p (list_elem_of_here _ _)). destruct (to_transfer_proposal p) as [tp| |] eqn:Ep; [|done..].
    exists (tp :: tps). by constructor. }
  destruct (sub_Execute_signs_all IsExecuted Hash NewSigning ps tps) as (s & first & h & E & Hb & _ & _ & Hhash & Hm);
    [done|eapply Forall2_impl; [intros p tp Hp; split; [exact Hp|apply Hq]|exact Hf]|done|done|].
  exists (Some s). unfold signed. cbn. rewrite Hb. split_and!; [done..|]. intros ? [= <-]. by exists h.
Qed.

(** C20. A deposit on an EVM chain reaches the signers of a substrate chain.  When the
    queries to the pallet and the key share are answered, the session of the executor, if
    it starts one, signs the hash of its proposals; every proposal of it is that of a
    deposit event of the range to this domain, with its source, destination, nonce and
    resource; the proposal of every well-formed ERC20 deposit without optional message is
    in it, with the amount and the recipient of the deposit; and no ERC20 deposit with an
    optional message is. *)
Theorem evm_to_substrate bridgeAddress startBlock endBlock deposits dd d :
  FetchDeposits bridgeAddress startBlock endBlock = Ok deposits ->
  evm_ProcessDeposits eth domainID bridgeAddress startBlock endBlock = Ok dd ->
  (forall tp, is_ok (IsExecuted tp) = true) -> (forall tps, is_ok (Hash tps) = true) -> is_ok NewSigning = true ->
  exists ps o, written_sub dd d = Ok ps /\ sub_Execute IsExecuted Hash NewSigning ps = Ok o /\
    (forall s, o = Some s -> exists h, Hash (signed o) = Ok h /\ s_msg s = be_val h) /\
    (forall tp, tp ∈ signed o ->
       exists ev, ev ∈ deposits /\ ed_DestinationDomainID ev = d /\
         proposal_for (args domainID startBlock endBlock ev) tp /\
         (erc20_deposit startBlock endBlock ev -> has_optional (ed_Data ev) = false)) /\
    (forall ev, ev ∈ deposits -> ed_DestinationDomainID ev = d -> erc20_deposit startBlock endBlock ev ->
       has_optional (ed_Data ev) = false ->
       exists tp, tp ∈ signed o /\ proposal_for (args domainID startBlock endBlock ev) tp /\
         tpd_Data (tp_Data tp) = erc20_data (args domainID startBlock endBlock ev) (ed_Data ev)).
Proof.
  intros Hf E Hq Hh Hn. unfold evm_ProcessDeposits in E. rewrite Hf in E. injection E as <-.
  destruct (written_sub_Ok startBlock endBlock deposits d) as (ps & Ep & Hof & Hps).
  destruct (sub_Execute_signed ps) as (o & Eo & Hs & Hhash); [|done..|].
  { intros p (ev & tp & _ & _ & -> & _)%Hof. done. }
  exists ps, o. split_and!; [done..| |].
  - intros tp [i Hi]%list_elem_of_lookup. destruct (Forall2_lookup_r _ _ _ _ _ Hs Hi) as (p & Hp & Ht).
    apply list_elem_of_lookup_2, Hof in Hp as (ev & tp' & Hev & Hd & Ht' & Hfor & Hopt).
    assert (tp' = tp) as -> by congruence. by exists ev.
  - intros ev Hev Hd [(addr & Hg & He) Hwf] Hopt.
    pose proof (substrate_erc20 _ _ Hwf) as Hb. rewrite Hopt in Hb.
    destruct (proposal_bytes_transfer _ _ Hb) as (p & tp & Hp & Ht & Hdata).
    assert (p ∈ ps) as [i Hi]%list_elem_of_lookup.
    { eapply Hps; [done|by apply (erc20_resolved Unpack _ _ _ _ _ _ _ Hg He Hwf)| |done].
      unfold erc20_message. by rewrite Hopt. }
    destruct (Forall2_lookup_l _ _ _ _ _ Hs Hi) as (tp' & Htp & Ht').
    assert (tp' = tp) as -> by congruence. exists tp. split_and!; [by eapply list_elem_of_lookup_2| |done].
    unfold erc20_message in Hp. rewrite Hopt in Hp. destruct (substrate_proposal _ _ _ _ _ Hp) as (tp' & E' & Hfor & _).
    by assert (tp' = tp) as <- by congruence.
Qed.
End evm_to_substrate.

(** ** Concrete paths *)

Module SubPathsExample.
Import LeftPadRef EvmMessageExample EvmListenerExample SubstrateExample EndToEndExample.

(** Event fields are numbers or bytes. *)
#[export] Instance fields : FieldDecoder (Z + bytes) := {|
  decode_uint v := match v with inl z => Ok z | inr _ => Err "expected uint" end;
  decode_bytes v := match v with inr l => Ok l | inl _ => Err "expected bytes" end;
  decode_time v := match v with inl z => Ok z | inr _ => Err "expected time" end;
|}.

Definition sub_event_of (dest nonce ty : Z) (calldata : bytes) : SubEvent (Z + bytes) :=
  {| ev_Name := sub_DepositEvent;
     ev_Fields := [("dest_domain_id", inl dest); ("resource_id", inr (be_fixed 32 1)); ("deposit_nonce", inl nonce);
                   ("sygma_traits_TransferType", inl ty); ("deposit_data", inr calldata)] |}.

(** An executed deposit, one of another type, one to another domain, one to sign and an
    event of another pallet. *)
Definition sub_evts : list (SubEvent (Z + bytes)) :=
  [sub_event_of 2 1 0 cd; sub_event_of 2 4 1 cd; sub_event_of 3 5 0 cd; sub_event_of 2 6 0 cd;
   {| ev_Name := ParachainUpdatedEvent; ev_Fields := [] |}].
Definition sub_fetch (_ _ : Z) : res (list (SubEvent (Z + bytes))) := Ok sub_evts.
Definition sub_messages : gmap Z (list Message) :=
  match sub_ProcessDeposits (sub_HandleDeposit (sub_handlers twos_complement)) 4 sub_fetch 5 9 with
  | Ok dd => dd | _ => ∅ end.
End SubPathsExample.
Import LeftPadRef EvmMessageExample EvmListenerExample SubstrateExample EndToEndExample SubPathsExample.

(** The deposit with nonce 6 is signed, its trailing bytes cut off. *)
Lemma substrate_to_evm_witness :
  exists ps ss, written noPack sub_messages 2 = Ok ps /\ Execute 1000000 100000 prompt ps = Ok (Ok <$> ss) /\
    (fun s => (fun tp => (tpd_DepositNonce (tp_Data tp), tpd_Data (tp_Data tp))) <$> b_proposals (s_batch s)) <$> ss
    = [[(6, take 84 cd)]].
Proof.
  destruct (substrate_to_evm noPack ltac:(discriminate) 1000000 100000 4 twos_complement twos_complement_small
              sub_fetch 5 9 sub_evts sub_messages 2 prompt) as (ps & ss & Ep & E & _).
  - reflexivity.
  - vm_compute. reflexivity.
  - reflexivity.
  - split; reflexivity.
  - intros ps _ bs _. apply prompt_in_loop.
  - exists ps, ss. split; [exact Ep|]. split; [exact E|]. vm_compute in Ep. injection Ep as <-. vm_compute in E.
    destruct ss as [|s [|? ?]]; [discriminate| |discriminate]. injection E as <-. vm_compute. reflexivity.
Defined.

(** Both well-formed deposits are signed, the one the bridge has executed as well. *)
Lemma evm_to_substrate_witness :
  exists ps o, written_sub messages 2 = Ok ps /\ sub_Execute IsProposalExecuted hash (Ok tt) ps = Ok o /\
    (fun tp => tpd_DepositNonce (tp_Data tp)) <$> signed o = [1; 3].
Proof.
  destruct (evm_to_substrate unpack handler_of handlers 1 IsProposalExecuted hash (Ok tt)
              (be_fixed 20 1) 5 9 deposits messages 2) as (ps & o & Ep & E & _).
  - reflexivity.
  - vm_compute. reflexivity.
  - reflexivity.
  - reflexivity.
  - reflexivity.
  - exists ps, o. split; [exact Ep|]. split; [exact E|]. vm_compute in Ep. injection Ep as <-.
    vm_compute in E. injection E as <-. vm_compute. reflexivity.
Defined.
