(* ===== verification/Payments.v ===== *)
(** * Payments of a Bitcoin executor

    The executor of a Bitcoin domain, its running transactions and the retry handlers of
    the other domains share the status store.  Here their operations ([btc_Execute], the
    watcher and [isExecuted] of the retries) are the steps of one system, in any order,
    and the question is whether a deposit can be paid twice. *)

From S2P Require Import Prelude GoBytes GoStrings Transfer PropStore Retry BtcTx BtcExecutor.

#[local] Open Scope string_scope.
#[local] Open Scope list_scope.
#[local] Open Scope Z_scope.

Abbreviation key := (Z * Z * Z)%type.

(** The executor, the transactions whose watcher has not returned, and the deposits of the
    transactions the node took, in the order of the sends. *)
Record pay_state (S : Type) := {
  py_exec : exec_state S;
  py_running : list ResourceExecution;
  py_paid : list key;
}.
Arguments py_exec {S} _.
Arguments py_running {S} _.
Arguments py_paid {S} _.

Definition keys_of (e : ResourceExecution) : list key := btp_key <$> re_proposals e.
Definition running_keys {S} (st : pay_state S) : list key := py_running st ≫= keys_of.

Definition started (tasks : list (res ResourceExecution)) : list ResourceExecution :=
  omap (fun t => match t with Ok e => Some e | _ => None end) tasks.

Section system.
Context {S Address : Type} `{PS : PropStorer S} `{BL : BtcLib Address}.

(** The watcher of a transaction, after the events [evs]. *)
Definition watcher_of (e : ResourceExecution) (st : exec_state S) (evs : list btc_event) : btc_watcher S :=
  run_events (btc_watchExecution (re_tx e) (re_proposals e) (re_sessionID e)) (btc_watch_start (re_tx e) st) evs.

(** It has returned, or waits for the mutex for ever. *)
Definition ended (w : btc_watcher S) : bool :=
  match bw_status w with BtcRunning => false | _ => true end.

(** The node took a transaction of the watcher: this is the answer it gave, whatever the
    watcher made of it. *)
Definition accepted (w : btc_watcher S) : bool :=
  existsb (fun '(_, answer) => match answer with Accepted _ => true | Refused _ => false end) (sends (bw_actions w)).

(** A step, labelled with the deposit it retries.  The watcher touches the store in its
    last step only, so the state it starts from is the one it ends in. *)
Inductive pay_step : pay_state S -> option key -> pay_state S -> Prop :=
| pay_execute st sighash envs resources ps tasks ex :
    Forall wf_prop ps ->
    btc_Execute (Address := Address) sighash envs resources ps (py_exec st) = Some (Ok tasks, ex) ->
    pay_step st None {| py_exec := ex; py_running := py_running st ++ started tasks; py_paid := py_paid st |}
| pay_refuse st sighash envs resources ps e ex :
    btc_Execute (Address := Address) sighash envs resources ps (py_exec st) = Some (Err e, ex) ->
    pay_step st None {| py_exec := ex; py_running := py_running st; py_paid := py_paid st |}
| pay_watch st pre e post evs : py_running st = pre ++ e :: post ->
    ended (watcher_of e (py_exec st) evs) = true ->
    pay_step st None
      {| py_exec := bw_exec (watcher_of e (py_exec st) evs); py_running := pre ++ post;
         py_paid := py_paid st ++ if accepted (watcher_of e (py_exec st) evs) then keys_of e else [] |}
| pay_retry st msg data k r s : as_transfer (m_Data msg) = Some data ->
    Retry.deposit_key msg = Some k -> wf_deposit msg ->
    isExecuted msg data (es_store (py_exec st)) = (r, s) ->
    pay_step st (Some k)
      {| py_exec := {| es_store := s; es_locked := es_locked (py_exec st) |};
         py_running := py_running st; py_paid := py_paid st |}.

(** Runs in which no deposit is retried while a transaction that pays it is running. *)
Inductive calm_run : pay_state S -> Prop :=
| calm_start s : calm_run {| py_exec := {| es_store := s; es_locked := false |}; py_running := []; py_paid := [] |}
| calm_next st k st' : calm_run st -> pay_step st k st' ->
    (forall key, k = Some key -> key ∉ running_keys st) -> calm_run st'.
End system.

(** ** The groups of a batch are its proposals *)

Lemma bind_filter_started tasks (l : list (bytes * list BtcTransferProposal)) :
  Forall2 (fun t il => forall e, t = Ok e -> re_proposals e = il.2) tasks l ->
  sublist (started tasks ≫= re_proposals) (l ≫= snd).
Proof.
  induction 1 as [|t il tasks l Ht _ IH]; [done|]. unfold started in *. cbn [omap list_omap].
  destruct t as [e| |]; rewrite ?bind_cons; cbn; rewrite ?bind_cons.
  - rewrite (Ht e eq_refl). by apply sublist_app.
  - by apply sublist_inserts_l.
  - by apply sublist_inserts_l.
Qed.

Lemma propsPerResource_perm ps : map_to_list (propsPerResource ps) ≫= snd ≡ₚ ps.
Proof.
  induction ps as [|p ps IH] using rev_ind; [done|]. rewrite propsPerResource_snoc.
  set (m := propsPerResource ps) in *. set (id := bpd_ResourceId (btp_Data p)).
  destruct (m !! id) as [l|] eqn:El; cbn.
  - rewrite <- insert_delete_eq, map_to_list_insert by apply lookup_delete_eq. rewrite bind_cons. cbn.
    rewrite <- (map_to_list_delete m id l El), bind_cons in IH. cbn in IH.
    rewrite <- IH. by rewrite <- !app_assoc, (Permutation_app_comm [p]).
  - rewrite map_to_list_insert by done. rewrite bind_cons, IH. by rewrite Permutation_app_comm.
Qed.

(** ** What each operation does to the statuses *)

Section effects.
Context {S Address : Type} `{PS : PropStorer S, PSS : !PropStorerSpec S} `{BL : BtcLib Address}.
Context (Hok : storage_ok (S := S)).

Lemma store_statuses_spec props status (s : S) :
  Forall (fun p => valid_deposit (btp_key p)) props ->
  (forall k, k ∈ btp_key <$> props -> status_of (store_statuses props status s) k = (status, None)) /\
  (forall k, valid_deposit k -> k ∉ btp_key <$> props ->
     status_of (store_statuses props status s) k = status_of s k).
Proof.
  destruct Hok as [_ Hput]. induction props as [|p props IH] using rev_ind; intros Hv.
  { split; [by intros k ?%not_elem_of_nil|done]. }
  apply list.Forall_app in Hv as [Hv [Hp _]%list.Forall_cons]. destruct (IH Hv) as [Hin Hout].
  unfold store_statuses in *. rewrite fold_left_app. cbn [fold_left].
  set (s1 := fold_left _ props s) in *.
  destruct (StorePropStatus (btp_Source p) (btp_Destination p) (bpd_DepositNonce (btp_Data p)) status s1)
    as [err s2] eqn:E.
  assert (err = None) as ->.
  { specialize (Hput (btp_Source p) (btp_Destination p) (bpd_DepositNonce (btp_Data p)) status s1). by rewrite E in Hput. }
  cbn [snd].
  assert (status_of s2 (btp_key p) = (status, None)) as Hnew by (exact (PropStatus_store_eq _ _ _ _ _ _ Hp E)).
  assert (forall k, valid_deposit k -> k <> btp_key p -> status_of s2 k = status_of s1 k) as Hold.
  { intros [[a b] n] Hk Hne. eapply PropStatus_store_ne; [exact Hp|exact Hk| |exact E]. by intros [= <- <- <-]. }
  rewrite fmap_app. split.
  - intros k. destruct (decide (k = btp_key p)) as [->|Hne]; [done|]. intros [Hk|Hk]%elem_of_app; [|set_solver].
    rewrite Hold; [by apply Hin| |done]. apply list_elem_of_fmap in Hk as (q & -> & Hq).
    rewrite list.Forall_forall in Hv. by apply Hv.
  - intros k Hk [Hn Hne]%not_elem_of_app. rewrite Hold; [by apply Hout|done|set_solver].
Qed.

(** How a watcher that ends leaves the executor. *)
Definition watch_effect (e : ResourceExecution) (st st' : exec_state S) (took : bool) : Prop :=
  (st' = st /\ (took = true -> es_locked st = true)) \/
  (es_locked st = false /\ st' = recorded (re_proposals e) st (if took then ExecutedProp else FailedProp)).

Lemma watcher_effect e st evs :
  let w := watcher_of (S := S) e st evs in ended w = true -> watch_effect e st (bw_exec w) (accepted w).
Proof.
  intros w Hend. destruct (run_settled (re_tx e) (re_proposals e) (re_sessionID e) st evs) as [Hs _].
  fold (watcher_of e st evs) in Hs. fold w in Hs. unfold settled, sent in Hs. unfold ended in Hend.
  unfold watch_effect, accepted. destruct (bw_status w) as [| |[]]; [done|..].
  - destruct Hs as (Hl & -> & _). by left.
  - destruct Hs as [(-> & _ & ->)|(Hl & (hash & -> & _) & ->)]; [by left|by right].
  - destruct Hs as [(-> & _ & ->)|(Hl & (-> & _) & _ & ->)]; [by left|by right].
  - destruct Hs as (-> & -> & _). by left.
Qed.

(** A retry changes the status of its own deposit only, from pending to failed. *)
Lemma isExecuted_effect msg data k (s : S) r s' :
  as_transfer (m_Data msg) = Some data -> Retry.deposit_key msg = Some k -> wf_deposit msg ->
  isExecuted msg data s = (r, s') ->
  (status_of s k = (PendingProp, None) -> status_of s' k = (FailedProp, None)) /\
  (status_of s k <> (PendingProp, None) -> s' = s) /\
  (forall k', valid_deposit k' -> k' <> k -> status_of s' k' = status_of s k').
Proof.
  intros Hd Hk Hwf. unfold Retry.deposit_key in Hk. rewrite Hd in Hk. injection Hk as <-.
  unfold wf_deposit, Retry.deposit_key in Hwf. rewrite Hd in Hwf. cbn in Hwf.
  unfold isExecuted, status_of. cbn [fst snd].
  destruct (PropStatus _ _ _ s) as [status [err|]] eqn:Es; [intros [= <- <-]; naive_solver|].
  destruct (bool_decide_reflect (status = ExecutedProp)) as [->|]; [intros [= <- <-]; naive_solver|].
  destruct (bool_decide_reflect (status = PendingProp)) as [->|Hnp]; [|intros [= <- <-]; naive_solver].
  destruct (StorePropStatus _ _ _ FailedProp s) as [err s1] eqn:E. intros [= _ <-].
  destruct Hok as [_ Hput]. assert (err = None) as -> by (by rewrite <- (Hput (m_Source msg) (m_Destination msg)
    (tmd_DepositNonce data) FailedProp s), E).
  split_and!; [|naive_solver|].
  - intros _. by eapply PropStatus_store_eq.
  - intros [[a b] nonce] Hv Hne. eapply PropStatus_store_ne; [exact Hwf|exact Hv| |exact E]. by intros [= <- <- <-].
Qed.

(** What an execution adds to the running transactions. *)
Lemma Execute_effect sighash envs resources ps (st st' : exec_state S) tasks :
  Forall wf_prop ps ->
  btc_Execute (Address := Address) sighash envs resources ps st = Some (Ok tasks, st') ->
  exists l, es_locked st = false /\ es_locked st' = false /\ selection (es_store st) (es_store st') l /\
    sublist (started tasks ≫= re_proposals) (map_to_list (propsPerResource l) ≫= snd).
Proof.
  intros Hps E. unfold btc_Execute in E. destruct ps as [|first ps]; [done|].
  destruct (proposalsForExecution (first :: ps) st) as [[[l| |] st1]|] eqn:Es; [|done..]. injection E as <- <-.
  rewrite proposalsForExecution_eq in Es. destruct (es_locked st); [done|].
  destruct (select_loop (first :: ps) [] (es_store st)) as [[l'| |] s'] eqn:El; simplify_eq.
  apply select_loop_spec in El as (chosen & -> & Hsel & _); [|done]. exists chosen. split_and!; [done..|].
  apply bind_filter_started. apply Forall2_fmap_l, Forall_Forall2_diag, list.Forall_forall.
  intros [id group] _ e He. cbn. destruct (resources !! id) as [resource|]; [|done].
  unfold executeResourceProps in He. invert_ok. destruct x as [tx us]. invert_ok. by simplify_eq.
Qed.
End effects.

(** ** No deposit is paid twice *)

Section once.
Context {S Address : Type} `{PS : PropStorer S, PSS : !PropStorerSpec S} `{BL : BtcLib Address}.
Context (Hok : storage_ok (S := S)).

Record pay_inv (st : pay_state S) : Prop := {
  pv_valid : Forall valid_deposit (running_keys st ++ py_paid st);
  pv_once : NoDup (running_keys st ++ py_paid st);
  pv_running : es_locked (py_exec st) = false ->
    Forall (fun k => status_of (es_store (py_exec st)) k = (PendingProp, None)) (running_keys st);
  pv_paid : es_locked (py_exec st) = false ->
    Forall (fun k => status_of (es_store (py_exec st)) k = (ExecutedProp, None)) (py_paid st);
}.

(** Statuses that a change leaves alone. *)
Lemma Forall_status (s s' : S) v l :
  (forall k, k ∈ l -> status_of s' k = status_of s k) ->
  Forall (fun k => status_of s k = v) l -> Forall (fun k => status_of s' k = v) l.
Proof. rewrite !list.Forall_forall. intros Hs Hl k Hk. rewrite Hs by done. by apply Hl. Qed.

Lemma keys_of_proposals es : es ≫= keys_of = btp_key <$> (es ≫= re_proposals).
Proof. unfold keys_of. induction es as [|e es IH]; [done|]. by rewrite !bind_cons, fmap_app, IH. Qed.

Lemma inv_execute sighash envs resources ps tasks ex st :
  pay_inv st -> Forall wf_prop ps ->
  btc_Execute (Address := Address) sighash envs resources ps (py_exec st) = Some (Ok tasks, ex) ->
  pay_inv {| py_exec := ex; py_running := py_running st ++ started tasks; py_paid := py_paid st |}.
Proof.
  intros [Hval Hnd Hrun Hpaid] Hps (l & Hfree & Hfree' & (Hndl & Hin & Hout) & Hsub)%Execute_effect; [|done].
  specialize (Hrun Hfree). specialize (Hpaid Hfree).
  set (new := btp_key <$> (started tasks ≫= re_proposals)).
  assert (forall k, k ∈ new -> k ∈ btp_key <$> l) as Hnew.
  { intros k (p & -> & Hp)%list_elem_of_fmap. apply list_elem_of_fmap_2.
    rewrite <- (propsPerResource_perm l). by eapply elem_of_sublist. }
  assert (NoDup new) as Hndn.
  { eapply sublist_NoDup; [|by apply fmap_sublist, Hsub]. by rewrite propsPerResource_perm. }
  assert (forall k, k ∈ running_keys st ++ py_paid st -> k ∉ btp_key <$> l) as Hdisj.
  { intros k Hk Hl. destruct (Hin k Hl) as (_ & Hsel & _). rewrite list.Forall_forall in Hrun, Hpaid.
    unfold selectable in Hsel. apply elem_of_app in Hk as [Hk|Hk]; [rewrite Hrun in Hsel|rewrite Hpaid in Hsel];
      naive_solver. }
  assert (running_keys {| py_exec := ex; py_running := py_running st ++ started tasks; py_paid := py_paid st |}
          = running_keys st ++ new) as Hkeys
    by (unfold running_keys; cbn; by rewrite bind_app, (keys_of_proposals (started tasks))).
  rewrite list.Forall_forall in Hval. split; rewrite ?Hkeys; cbn.
  - rewrite <- app_assoc, (Permutation_app_comm new), app_assoc. apply list.Forall_app. split; apply list.Forall_forall.
    + done.
    + intros k Hk%Hnew. by apply Hin in Hk as (? & _).
  - rewrite <- app_assoc, (Permutation_app_comm new), app_assoc. apply list.NoDup_app. split_and!; [done| |done].
    intros k Hk Hn%Hnew. by apply (Hdisj k).
  - intros _. apply list.Forall_app. split.
    + eapply Forall_status; [|exact Hrun]. intros k Hk. apply Hout; [apply Hval|apply Hdisj]; apply elem_of_app; by left.
    + apply list.Forall_forall. intros k Hk%Hnew. by apply Hin in Hk as (_ & _ & ?).
  - intros _. eapply Forall_status; [|exact Hpaid]. intros k Hk.
    apply Hout; [apply Hval|apply Hdisj]; apply elem_of_app; by right.
Qed.

Lemma inv_refuse sighash envs resources ps e ex st :
  pay_inv st ->
  btc_Execute (Address := Address) sighash envs resources ps (py_exec st) = Some (Err e, ex) ->
  pay_inv {| py_exec := ex; py_running := py_running st; py_paid := py_paid st |}.
Proof.
  intros [Hval Hnd _ _] E.
  assert (es_locked ex = true) as Hl.
  { unfold btc_Execute in E. destruct ps as [|first ps]; [done|]. rewrite proposalsForExecution_eq in E.
    destruct (es_locked (py_exec st)); [done|]. by destruct (select_loop _ _ _) as [[] ?]; simplify_eq. }
  split; [done|done|..]; cbn; rewrite Hl; done.
Qed.

Lemma inv_watch pre e post took ex st :
  pay_inv st -> py_running st = pre ++ e :: post -> watch_effect e (py_exec st) ex took ->
  pay_inv {| py_exec := ex; py_running := pre ++ post; py_paid := py_paid st ++ if took then keys_of e else [] |}.
Proof.
  intros [Hval Hnd Hrun Hpaid] Er Hw.
  set (rest := (pre ++ post) ≫= keys_of).
  assert (running_keys st ≡ₚ rest ++ keys_of e) as Hperm.
  { unfold running_keys, rest. rewrite Er, !bind_app, bind_cons.
    by rewrite <- app_assoc, (Permutation_app_comm (keys_of e)). }
  rewrite Hperm in Hval, Hnd. rewrite Hperm in Hrun.
  assert (Forall (fun p => valid_deposit (btp_key p)) (re_proposals e)) as Hve.
  { apply list.Forall_app in Hval as [Hval _].
    apply list.Forall_app in Hval as [_ Hval]. unfold keys_of in Hval. rewrite list.Forall_forall in Hval. apply list.Forall_forall.
    intros p Hp. by apply Hval, list_elem_of_fmap_2. }
  assert (forall k, k ∈ rest ++ py_paid st -> valid_deposit k /\ k ∉ keys_of e) as Hother.
  { intros k Hk. rewrite <- app_assoc, (Permutation_app_comm (keys_of e)), app_assoc in Hval, Hnd.
    apply list.Forall_app in Hval as [Hval _]. rewrite list.Forall_forall in Hval. split; [by apply Hval|].
    apply list.NoDup_app in Hnd as (_ & Hd & _). by apply Hd. }
  assert (Forall valid_deposit (rest ++ py_paid st ++ if took then keys_of e else []) /\
          NoDup (rest ++ py_paid st ++ if took then keys_of e else [])) as [Hv' Hn'].
  { rewrite <- app_assoc, (Permutation_app_comm (keys_of e)), app_assoc in Hval, Hnd. rewrite app_assoc.
    destruct took; [done|]. rewrite app_nil_r. apply list.Forall_app in Hval as [? _].
    by apply list.NoDup_app in Hnd as [? _]. }
  destruct Hw as [[-> Htook]|[Hfree ->]].
  - split; cbn; [done|done|..]; fold rest; intros Hf.
    + specialize (Hrun Hf). by apply list.Forall_app in Hrun as [? _].
    + destruct took; [by rewrite Htook in Hf|]. rewrite app_nil_r. by apply Hpaid.
  - specialize (Hrun Hfree). specialize (Hpaid Hfree). apply list.Forall_app in Hrun as [Hrun _].
    destruct (store_statuses_spec Hok (re_proposals e) (if took then ExecutedProp else FailedProp)
                (es_store (py_exec st)) Hve) as [Hin Hout].
    split; cbn; [done|done|..]; fold rest; intros _.
    + eapply Forall_status; [|exact Hrun]. intros k Hk. by apply Hout; apply Hother, elem_of_app; auto.
    + apply list.Forall_app. split.
      * eapply Forall_status; [|exact Hpaid]. intros k Hk. by apply Hout; apply Hother, elem_of_app; auto.
      * destruct took; [|done]. apply list.Forall_forall. exact Hin.
Qed.

Lemma inv_retry msg data k r s st :
  pay_inv st -> as_transfer (m_Data msg) = Some data -> Retry.deposit_key msg = Some k -> wf_deposit msg ->
  isExecuted msg data (es_store (py_exec st)) = (r, s) -> k ∉ running_keys st ->
  pay_inv {| py_exec := {| es_store := s; es_locked := es_locked (py_exec st) |};
             py_running := py_running st; py_paid := py_paid st |}.
Proof.
  intros [Hval Hnd Hrun Hpaid] Hd Hk Hwf E Hnot.
  destruct (isExecuted_effect Hok msg data k _ r s Hd Hk Hwf E) as (_ & Hsame & Hframe).
  rewrite list.Forall_forall in Hval. split; [by apply list.Forall_forall|done|..]; cbn; intros Hf.
  - eapply Forall_status; [|exact (Hrun Hf)]. intros k' Hk'. apply Hframe; [apply Hval; set_solver|].
    intros ->. by apply Hnot.
  - specialize (Hpaid Hf). eapply Forall_status; [|exact Hpaid]. intros k' Hk'.
    destruct (decide (k' = k)) as [->|Hne]; [|apply Hframe; [apply Hval; set_solver|done]].
    rewrite list.Forall_forall in Hpaid. by rewrite Hsame; [|rewrite Hpaid].
Qed.

Lemma calm_inv st : calm_run (S := S) (Address := Address) st -> pay_inv st.
Proof.
  induction 1 as [s|st k st' _ IH Hstep Hcalm]; [split; cbn; constructor|].
  inversion Hstep; subst.
  - by eapply inv_execute.
  - by eapply inv_refuse.
  - eapply inv_watch; [done..|]. by apply watcher_effect.
  - eapply inv_retry; [done..|]. by apply Hcalm.
Qed.

(** A retried deposit is selected again, whether its transaction is running or not. *)
Lemma retried_selected msg data k (st : exec_state S) r s prop :
  es_locked st = false -> status_of (es_store st) k = (PendingProp, None) ->
  as_transfer (m_Data msg) = Some data -> Retry.deposit_key msg = Some k -> wf_deposit msg ->
  isExecuted msg data (es_store st) = (r, s) -> wf_prop prop -> prop_key prop = k ->
  exists p ex, proposalsForExecution [prop] {| es_store := s; es_locked := es_locked st |} = Some (Ok [p], ex) /\
    btp_key p = k.
Proof.
  intros Hfree Hpend Hd Hk Hwf E (d & Hpd & Hv) Hkey.
  destruct (isExecuted_effect Hok msg data k _ r s Hd Hk Hwf E) as (Hfail & _ & _). specialize (Hfail Hpend).
  unfold prop_key in Hkey. rewrite Hpd in Hkey. subst k. unfold status_of in Hfail. cbn in Hfail.
  rewrite proposalsForExecution_eq. cbn [es_locked]. rewrite Hfree. cbn. unfold mbind, gom_bind, btc_isExecuted.
  rewrite Hpd. cbn. rewrite Hfail. cbn. rewrite (bool_decide_eq_true_2 (FailedProp = FailedProp)), orb_true_r by done.
  unfold put_status.
  destruct (StorePropStatus (p_Source prop) (p_Destination prop) (bpd_DepositNonce d) PendingProp s) as [err s2] eqn:Ep.
  destruct Hok as [_ Hput]. specialize (Hput (p_Source prop) (p_Destination prop) (bpd_DepositNonce d) PendingProp s).
  rewrite Ep in Hput. cbn in Hput. subst err. do 2 eexists. split; [reflexivity|done].
Qed.

(** C3. Payments of a Bitcoin domain.  A deposit is paid when the node accepts a
    transaction that pays it.  Where the status store always answers and takes what is
    written to it, as long as no deposit is retried while a transaction that pays it is
    running, and whatever order executions, watchers and retries come in: no deposit is
    paid twice, no running transaction pays a deposit that was paid, and while selection
    still works a paid deposit is recorded executed and never selected.  Both conditions
    matter.  A retry does not look for running transactions: it makes the deposit of one
    selectable, so that a second transaction for it is started; and a status that could
    not be written is only logged, so that the deposit can be retried and paid again
    ([paid_after_lost_write]). *)
Theorem no_double_payment (st : pay_state S) :
  calm_run (Address := Address) st ->
  NoDup (py_paid st) /\
  (forall k, k ∈ py_paid st -> k ∉ running_keys st) /\
  (es_locked (py_exec st) = false -> forall k, k ∈ py_paid st ->
     status_of (es_store (py_exec st)) k = (ExecutedProp, None) /\
     forall ps l ex, Forall wf_prop ps -> proposalsForExecution ps (py_exec st) = Some (Ok l, ex) ->
       k ∉ btp_key <$> l) /\
  (es_locked (py_exec st) = false -> forall k msg data r s prop, k ∈ running_keys st ->
     as_transfer (m_Data msg) = Some data -> Retry.deposit_key msg = Some k -> wf_deposit msg ->
     isExecuted msg data (es_store (py_exec st)) = (r, s) -> wf_prop prop -> prop_key prop = k ->
     exists p ex, proposalsForExecution [prop] {| es_store := s; es_locked := es_locked (py_exec st) |}
       = Some (Ok [p], ex) /\ btp_key p = k).
Proof.
  intros [Hval Hnd Hrun Hpaid]%calm_inv. apply list.NoDup_app in Hnd as (_ & Hdisj & Hnd).
  split_and!; [done| | |].
  - intros k Hk Hr. by apply (Hdisj k).
  - intros Hf k Hk. specialize (Hpaid Hf). rewrite list.Forall_forall in Hpaid. split; [by apply Hpaid|].
    intros ps l ex Hps E Hl. rewrite proposalsForExecution_eq, Hf in E.
    destruct (select_loop ps [] _) as [[l'| |] s'] eqn:El; simplify_eq.
    apply select_loop_spec in El as (chosen & -> & (_ & Hin & _) & _); [|done].
    destruct (Hin k Hl) as (_ & Hsel & _). unfold selectable in Hsel. rewrite Hpaid in Hsel by done. naive_solver.
  - intros Hf k msg data r s prop Hk. specialize (Hrun Hf). rewrite list.Forall_forall in Hrun.
    intros. by eapply retried_selected; [..|done]; auto.
Qed.
End once.

(** ** A deposit that is paid twice *)

Module PaymentsExample.
Import MapDB BtcTxExample BtcExecutorExample.

Section runs.
Context {S : Type} `{PS : PropStorer S}.

Definition execute (st : pay_state S) : pay_state S :=
  match btc_Execute hash_input (env enough) {[be_fixed 32 1 := resource]} [prop 4] (py_exec st) with
  | Some (Ok tasks, ex) =>
      {| py_exec := ex; py_running := py_running st ++ started tasks; py_paid := py_paid st |}
  | _ => st
  end.

(** The first running transaction gets its two signatures and the node takes it. *)
Definition finish (st : pay_state S) : pay_state S :=
  match py_running st with
  | e :: post =>
      let w := watcher_of e (py_exec st) sigs in
      {| py_exec := bw_exec w; py_running := post;
         py_paid := py_paid st ++ if accepted w then keys_of e else [] |}
  | [] => st
  end.

Definition retried_data : TransferMessageData :=
  {| tmd_DepositNonce := 4; tmd_ResourceId := be_fixed 32 1; tmd_Metadata := ∅; tmd_Payload := [];
     tmd_Type := FungibleTransfer |}.
Definition retried_msg : Message := NewMessage 1 3 (TransferData retried_data) "1-3-8-9" TransferMessageType 0.

Definition retry (st : pay_state S) : pay_state S :=
  {| py_exec := {| es_store := snd (isExecuted retried_msg retried_data (es_store (py_exec st)));
                   es_locked := es_locked (py_exec st) |};
     py_running := py_running st; py_paid := py_paid st |}.

Definition start (s : S) : pay_state S :=
  {| py_exec := {| es_store := s; es_locked := false |}; py_running := []; py_paid := [] |}.

Lemma prop_wf : Forall wf_prop [prop 4].
Proof. repeat constructor; (eexists; split; [reflexivity|]); repeat split; simpl; lia. Qed.

Lemma execute_step st :
  match btc_Execute hash_input (env enough) {[be_fixed 32 1 := resource]} [prop 4] (py_exec st) with
  | Some (Ok _, _) => true | _ => false end = true ->
  pay_step (Address := string) st None (execute st).
Proof.
  unfold execute. destruct (btc_Execute _ _ _ _ _) as [[[tasks| |] ex]|] eqn:E; [|done..]. intros _.
  eapply pay_execute; [exact prop_wf|exact E].
Qed.

Lemma finish_step st :
  match py_running st with e :: _ => ended (watcher_of e (py_exec st) sigs) | [] => false end = true ->
  pay_step (Address := string) st None (finish st).
Proof.
  unfold finish. destruct (py_running st) as [|e post] eqn:E; [done|]. intros Hw.
  exact (pay_watch st [] e post sigs E Hw).
Qed.

Lemma retry_step st : pay_step (Address := string) st (Some (1, 3, 4)) (retry st).
Proof.
  apply (pay_retry st retried_msg retried_data (1, 3, 4)
    (fst (isExecuted retried_msg retried_data (es_store (py_exec st))))); [reflexivity|reflexivity| |apply surjective_pairing].
  repeat split; simpl; lia.
Qed.
End runs.

(** A database that loses its second write. *)
Definition forgetful : KeyValueStore (nat * gmap bytes bytes) :=
  {| GetByKey k s := GetByKey k s.2;
     SetByKey k v s := if (s.1 =? 1)%nat then (Some "disk full", (2%nat, s.2))
                       else let (e, m) := SetByKey k v s.2 in (e, (Datatypes.S s.1, m)) |}.
#[export] Instance forgetful_store : PropStorer (nat * gmap bytes bytes) := @PropStore_PropStorer _ forgetful.
End PaymentsExample.
Import MapDB BtcTxExample BtcExecutorExample PaymentsExample.

(** Deposit 4 is retried while its transaction waits for signatures: both transactions
    are taken. *)
Example paid_twice :
  exists st1 st2 st3 st4, pay_step (Address := string) (start ∅) None st1 /\ pay_step (Address := string) st1 (Some (1, 3, 4)) st2 /\
    pay_step (Address := string) st2 None st3 /\ pay_step (Address := string) st3 None st4 /\
    pay_step (Address := string) st4 None (finish st4) /\ py_paid (finish st4) = [(1, 3, 4); (1, 3, 4)].
Proof.
  set (st := execute (start (S := gmap bytes bytes) ∅)).
  exists st, (retry st), (execute (retry st)), (finish (execute (retry st))).
  split_and!.
  - apply execute_step. by vm_compute.
  - apply retry_step.
  - apply execute_step. by vm_compute.
  - apply finish_step. by vm_compute.
  - apply finish_step. by vm_compute.
  - by vm_compute.
Qed.

(** Nothing is retried while it is running, but the record of the first payment is lost:
    the deposit is retried and paid again. *)
Example paid_after_lost_write :
  exists st : pay_state (nat * gmap bytes bytes),
    calm_run (Address := string) st /\ py_paid st = [(1, 3, 4); (1, 3, 4)].
Proof.
  set (st0 := start (S := nat * gmap bytes bytes) (0%nat, ∅)).
  exists (finish (execute (retry (finish (execute st0))))). split; [|by vm_compute].
  assert (calm_run (Address := string) (execute st0)) as H1.
  { eapply (calm_next st0 None); [constructor| |done]. apply execute_step. by vm_compute. }
  assert (calm_run (Address := string) (finish (execute st0))) as H2.
  { eapply (calm_next _ None); [exact H1| |done]. apply finish_step. by vm_compute. }
  assert (calm_run (Address := string) (retry (finish (execute st0)))) as H3.
  { eapply (calm_next _ (Some (1, 3, 4))); [exact H2|apply retry_step|].
    intros k [= <-]. apply (bool_decide_unpack _). by vm_compute. }
  assert (calm_run (Address := string) (execute (retry (finish (execute st0))))) as H4.
  { eapply (calm_next _ None); [exact H3| |done]. apply execute_step. by vm_compute. }
  eapply (calm_next _ None); [exact H4| |done]. apply finish_step. by vm_compute.
Qed.

Example no_double_payment_witness :
  calm_run (Address := string) (finish (execute (start ∅))) /\ py_paid (finish (execute (start ∅))) = [(1, 3, 4)] /\
  forall ps l ex, Forall wf_prop ps ->
    proposalsForExecution ps (py_exec (finish (execute (start ∅)))) = Some (Ok l, ex) -> (1, 3, 4) ∉ btp_key <$> l.
Proof.
  assert (calm_run (Address := string) (finish (execute (start ∅)))) as Hrun.
  { eapply (calm_next (execute (start ∅)) None); [eapply (calm_next (start ∅) None); [constructor| |done]| |done].
    - apply execute_step. by vm_compute.
    - apply finish_step. by vm_compute. }
  assert (py_paid (finish (execute (start ∅))) = [(1, 3, 4)]) as Hp by (by vm_compute).
  split; [exact Hrun|]. split; [exact Hp|].
  apply (no_double_payment (Address := string) RetryExample.db_ok (finish (execute (start ∅))) Hrun); [by vm_compute|].
  rewrite Hp. by left.
Defined.
