(* ===== verification/ExampleApp.v ===== *)
(** * The example application ([example/app/app.go])

    The relayer of the end to end tests: [Run] with a topology written in the code, a
    configuration read from a file only, one attempt to open the database and Bitcoin
    nodes without TLS.  It builds its domains itself; [example_domains_agree] shows which
    domains these are, in terms of those of the application. *)

From S2P Require Import Prelude GoBytes GoStrings GoFloat GoParse Files Topology Transfer EvmDeposit EvmListener BtcTx BtcListener Config ChainConfig App.

#[local] Open Scope string_scope.
#[local] Open Scope list_scope.
#[local] Open Scope Z_scope.

(** The topology of the three relayers. *)
Definition example_topology : RawTopology :=
  {| rt_Peers :=
       ["/dns4/relayer2/tcp/9001/p2p/QmeTuMtdpPB7zKDgmobEwSvxodrf5aFVSmBXX3SQJVjJaT";
        "/dns4/relayer3/tcp/9002/p2p/QmYAYuLUPNwYEBYJaKHcE7NKjUhiUV8txx2xDXHvcYa1xK";
        "/dns4/relayer1/tcp/9000/p2p/QmcvEg7jGvuxdsUFRUiE4VdrL2P1Yeju5L83BsJvvXz7zX"];
     rt_Threshold := "2" |}.

Section domains.
Context {Address : Type} `{AppLibs Address} (flags : Flags) (threshold : Z) (uploader : UploaderConfig).

Definition example_evm_domain (chainConfig : chain_config) : res evm_domain :=
  config ← panicOnError (NewEVMConfig DecodeEVM flags chainConfig);
  _ ← panicOnError (KeypairFromString (gc_Key (ev_General config)));
  _ ← panicOnError (Connect (gc_Endpoint (ev_General config)));
  id ← config_id (ev_General config);
  let bridgeAddress := HexToAddress (ev_Bridge config) in
  let frostAddress := HexToAddress (ev_FrostKeygen config) in
  let eventHandlers :=
    [DepositEventHandler bridgeAddress id; KeygenEventHandler bridgeAddress threshold;
     FrostKeygenEventHandler frostAddress threshold; RefreshEventHandler bridgeAddress false;
     RetryV1EventHandler bridgeAddress id (ev_BlockConfirmations config)] in
  let eventHandlers :=
    if bool_decide (ev_Retry config <> "")
    then eventHandlers ++ [RetryV2EventHandler (HexToAddress (ev_Retry config)) id] else eventHandlers in
  let mh : gmap string message_handler :=
    <[RetryMessageType := EvmRetryHandler (ev_BlockConfirmations config)]> ∅ in
  let mh := <[TransferMessageType := EvmTransferHandler]> mh in
  startBlock ← start_block id (ev_General config) (ev_StartBlock config) (ev_BlockInterval config);
  Ok {| ed_id := id; ed_bridge := bridgeAddress;
        ed_depositHandlers := register_handlers (ev_Handlers config) ∅;
        ed_eventHandlers := eventHandlers; ed_messageHandlers := mh;
        ed_blockRetryInterval := ev_BlockRetryInterval config;
        ed_blockConfirmations := ev_BlockConfirmations config;
        ed_blockInterval := ev_BlockInterval config;
        ed_transactionMaxGas := u64_wrap (ev_GasLimit config); ed_transferGas := ev_TransferGas config;
        ed_startBlock := startBlock; ed_maxGasPrice := ev_MaxGasPrice config;
        ed_gasMultiplier := ev_GasMultiplier config;
        ed_gasIncreasePercentage := ev_GasIncreasePercentage config |}.

Definition example_substrate_domain (chainConfig : chain_config) : res substrate_domain :=
  config ← panicOnError (NewSubstrateConfig DecodeSubstrate flags chainConfig);
  _ ← panicOnError (Connect (gc_Endpoint (suc_General config)));
  _ ← panicOnError (KeyringPairFromSecret (gc_Key (suc_General config)) (suc_SubstrateNetwork config));
  id ← config_id (suc_General config);
  let mh : gmap string message_handler := <[TransferMessageType := SubstrateTransferHandler]> ∅ in
  let mh := <[RetryMessageType := SubstrateRetryHandler]> mh in
  startBlock ← start_block id (suc_General config) (suc_StartBlock config) (suc_BlockInterval config);
  Ok {| sd_id := id;
        sd_eventHandlers := [SubstrateRetryEventHandler id; SubstrateTransferEventHandler id];
        sd_messageHandlers := mh;
        sd_blockRetryInterval := suc_BlockRetryInterval config; sd_blockInterval := suc_BlockInterval config;
        sd_startBlock := startBlock; sd_chainID := suc_ChainID config; sd_tip := suc_Tip config |}.

(** The node is reached without TLS. *)
Definition example_btc_domain (chainConfig : chain_config) : res (btc_domain Address) :=
  config ← panicOnError (NewBtcConfig DecodeAddress DecodeBtc flags chainConfig);
  _ ← panicOnError (NewBtcConnection (gc_Endpoint (bt_General config)) (bt_Username config)
                      (bt_Password config) true);
  id ← config_id (bt_General config);
  let mh : gmap string message_handler := <[TransferMessageType := BtcTransferHandler]> ∅ in
  let mh := <[RetryMessageType := BtcRetryHandler (bt_BlockConfirmations config)]> mh in
  Ok {| bd_chain := NewBtcChain id; bd_resources := resource_map (bt_Resources config);
        bd_feeAddress := bt_FeeAddress config; bd_messageHandlers := mh;
        bd_blockConfirmations := bt_BlockConfirmations config; bd_network := bt_Network config;
        bd_blockRetryInterval := bt_BlockRetryInterval config; bd_mempoolUrl := bt_MempoolUrl config;
        bd_uploader := uploader |}.

Fixpoint example_build_domains (configs : list chain_config) (domains : gmap Z (domain Address))
    : res (gmap Z (domain Address)) :=
  match configs with
  | [] => Ok domains
  | chainConfig :: rest =>
      d ← match chainConfig !! "type" with
          | Some (JString "evm") => EvmDomain <$> example_evm_domain chainConfig
          | Some (JString "substrate") => SubstrateDomain <$> example_substrate_domain chainConfig
          | Some (JString "btc") => BtcDomain <$> example_btc_domain chainConfig
          | _ => Panic
          end;
      example_build_domains rest (<[domain_id d := d]> domains)
  end.
End domains.

(** What the example has started. *)
Record example_running (PS Address DB : Type) := {
  er_topology : NetworkTopology;
  er_host : PS;
  er_bully : BullyConfig;
  er_database : DB;
  er_keysharePath : string;
  er_frostKeysharePath : string;
  er_healthCheckInterval : Z;
  er_domains : gmap Z (domain Address);
}.
Arguments er_topology {PS Address DB} _.
Arguments er_host {PS Address DB} _.
Arguments er_bully {PS Address DB} _.
Arguments er_database {PS Address DB} _.
Arguments er_keysharePath {PS Address DB} _.
Arguments er_frostKeysharePath {PS Address DB} _.
Arguments er_healthCheckInterval {PS Address DB} _.
Arguments er_domains {PS Address DB} _.

Section run.
Context {Address PS DB Level : Type} (ParseLevel : string -> res Level).
Context (Merge : chain_config -> chain_config -> res chain_config).
Context `{TopologyLibs} `{Peerstore PS} `{AppLibs Address}.

(** [Run]: every error stops it, that of the topology too, since the topology is then a
    nil pointer whose peers are read when the host is created.  [db] is what opening the
    database answers, [priv] the decoding of the key. *)
Definition example_Run (file : res RawConfig) (flags : Flags) (db : string -> res DB) (priv : string -> res unit)
    (libp2p_New : Z -> res PS) (metricProvider : string -> res unit) (metrics : string -> string -> res unit)
    : res (example_running PS Address DB) :=
  configuration ← panicOnError (GetConfigFromFile ParseLevel Merge file None);
  let relayer := cf_RelayerConfig configuration in
  let mpc := rc_MpcConfig relayer in
  db ← panicOnError (db (fl_blockstore flags));
  _ ← panicOnError (priv (mc_Key mpc));
  networkTopology ← panicOnError (ProcessRawTopology AddrInfoFromString example_topology);
  host ← panicOnError (NewHost true (libp2p_New (mc_Port mpc)) networkTopology);
  _ ← panicOnError (metricProvider (rc_OpenTelemetryCollectorURL relayer));
  _ ← panicOnError (metrics (rc_Env relayer) (rc_Id relayer));
  domains ← example_build_domains flags (nt_Threshold networkTopology) (rc_UploaderConfig relayer)
              (cf_ChainConfigs configuration) ∅;
  Ok {| er_topology := networkTopology; er_host := host; er_bully := rc_BullyConfig relayer;
        er_database := db; er_keysharePath := mc_KeysharePath mpc;
        er_frostKeysharePath := mc_FrostKeysharePath mpc;
        er_healthCheckInterval := mc_CommHealthCheckInterval mpc; er_domains := domains |}.
End run.

(** ** The domains of the example are those of the application *)

(** The handler of refresh events is created with a nil provider and a nil store. *)
Definition no_topology (h : event_handler) : event_handler :=
  match h with RefreshEventHandler b _ => RefreshEventHandler b false | h => h end.

Definition unrefreshed {Address} (d : domain Address) : domain Address :=
  match d with
  | EvmDomain d =>
      EvmDomain {| ed_id := ed_id d; ed_bridge := ed_bridge d; ed_depositHandlers := ed_depositHandlers d;
        ed_eventHandlers := no_topology <$> ed_eventHandlers d; ed_messageHandlers := ed_messageHandlers d;
        ed_blockRetryInterval := ed_blockRetryInterval d; ed_blockConfirmations := ed_blockConfirmations d;
        ed_blockInterval := ed_blockInterval d; ed_transactionMaxGas := ed_transactionMaxGas d;
        ed_transferGas := ed_transferGas d; ed_startBlock := ed_startBlock d;
        ed_maxGasPrice := ed_maxGasPrice d; ed_gasMultiplier := ed_gasMultiplier d;
        ed_gasIncreasePercentage := ed_gasIncreasePercentage d |}
  | d => d
  end.

Lemma unrefreshed_id {Address} (d : domain Address) : domain_id (unrefreshed d) = domain_id d.
Proof. by destruct d. Qed.

Lemma res_fmap_bind {A B C} (f : B -> C) (m : res A) (k : A -> res B) :
  f <$> (m ≫= k) = m ≫= (fun a => f <$> k a).
Proof. by destruct m. Qed.

Lemma res_bind_ext {A B} (m : res A) (k k' : A -> res B) :
  (forall a, k a = k' a) -> m ≫= k = m ≫= k'.
Proof. destruct m; simpl; auto. Qed.

Section domain_facts.
Context {Address : Type} `{AppLibs Address} (flags : Flags) (threshold : Z) (uploader : UploaderConfig).

(** A node answers the same with and without TLS. *)
Definition tls_agnostic : Prop := forall url user pass,
  panicOnError (NewBtcConnection url user pass true) = panicOnError (NewBtcConnection url user pass false).

Lemma example_evm_domain_agrees c :
  EvmDomain (Address := Address) <$> example_evm_domain flags threshold c =
  unrefreshed <$> (EvmDomain <$> new_evm_domain flags threshold c).
Proof.
  unfold example_evm_domain, new_evm_domain. rewrite !res_fmap_bind. apply res_bind_ext. intros config.
  repeat (rewrite ?res_fmap_bind; apply res_bind_ext; intros ?). cbn.
  do 2 f_equal. by destruct (bool_decide_reflect (ev_Retry config = "")) as [->|Hne];
    [rewrite bool_decide_eq_false_2 by naive_solver|rewrite bool_decide_eq_true_2 by done].
Qed.

Lemma example_substrate_domain_agrees c :
  SubstrateDomain (Address := Address) <$> example_substrate_domain flags c =
  unrefreshed <$> (SubstrateDomain <$> new_substrate_domain flags c).
Proof.
  change (example_substrate_domain flags c) with (new_substrate_domain flags c).
  by destruct (new_substrate_domain flags c).
Qed.

Lemma example_btc_domain_agrees c : tls_agnostic ->
  BtcDomain (Address := Address) <$> example_btc_domain flags uploader c =
  unrefreshed <$> (BtcDomain <$> new_btc_domain flags uploader c).
Proof.
  intros Htls. unfold example_btc_domain, new_btc_domain. rewrite !res_fmap_bind. apply res_bind_ext.
  intros config. rewrite Htls. by repeat (rewrite ?res_fmap_bind; apply res_bind_ext; intros ?).
Qed.

Lemma example_new_domain_agrees c : tls_agnostic ->
  match c !! "type" with
  | Some (JString "evm") => EvmDomain <$> example_evm_domain flags threshold c
  | Some (JString "substrate") => SubstrateDomain <$> example_substrate_domain flags c
  | Some (JString "btc") => BtcDomain <$> example_btc_domain flags uploader c
  | _ => Panic
  end = unrefreshed <$> new_domain flags threshold uploader c.
Proof.
  intros Htls. unfold new_domain.
  rewrite example_evm_domain_agrees, example_substrate_domain_agrees, (example_btc_domain_agrees c Htls).
  destruct (c !! "type") as [[s| | |]|]; try done.
  by repeat case_match.
Qed.

Lemma example_build_domains_agree configs : tls_agnostic -> forall ds,
  example_build_domains flags threshold uploader configs (unrefreshed <$> ds) =
  fmap (M := gmap Z) unrefreshed <$> build_domains flags threshold uploader configs ds.
Proof.
  intros Htls. induction configs as [|c configs IH]; intros ds; [done|]. simpl.
  rewrite (example_new_domain_agrees c Htls). destruct (new_domain flags threshold uploader c) as [d| |]; [|done..].
  simpl. by rewrite <- IH, fmap_insert, unrefreshed_id.
Qed.
End domain_facts.

Section run_facts.
Context {Address PS DB Level : Type} (ParseLevel : string -> res Level).
Context (Merge : chain_config -> chain_config -> res chain_config).
Context `{TopologyLibs} `{PeerstoreSpec PS} `{AppLibs Address}.

Lemma example_topology_parsed t :
  ProcessRawTopology AddrInfoFromString example_topology = Ok t -> nt_Threshold t = 2 /\ length (nt_Peers t) = 3%nat.
Proof.
  unfold ProcessRawTopology. intros (peers & Hp%process_peers_Ok%Forall2_length & E)%outcome_bind_Ok.
  change (ParseInt0 _ 64) with (Ok (E := error) 2) in E. cbn in E. by simplify_eq.
Qed.

(** The example starts with three peers and threshold two, lets in exactly the peers its
    host knows, and its domains are those the application builds from the same
    configuration with that threshold, but for the handler of refresh events, which has
    neither provider nor store. *)
Theorem example_domains_agree file flags (db : string -> res DB) priv libp2p_New provider metrics r :
  tls_agnostic ->
  example_Run ParseLevel Merge file flags db priv libp2p_New provider metrics = Ok r ->
  (nt_Threshold (er_topology r) = 2 /\ length (nt_Peers (er_topology r)) = 3%nat) /\
  (forall p, InterceptPeerDial (er_topology r) p = true <-> p ∈ ps_Peers (er_host r)) /\
  exists configuration ds, GetConfigFromFile ParseLevel Merge file None = Ok configuration /\
    build_domains flags 2 (rc_UploaderConfig (cf_RelayerConfig configuration))
      (cf_ChainConfigs configuration) ∅ = Ok ds /\
    er_domains r = unrefreshed <$> ds.
Proof.
  intros Htls E. unfold example_Run in E.
  apply outcome_bind_Ok in E as (configuration & Hc%panicOnError_Ok & E).
  do 2 apply outcome_bind_Ok in E as (? & _ & E).
  apply outcome_bind_Ok in E as (t & Ht%panicOnError_Ok & E).
  apply outcome_bind_Ok in E as (h & Hh%panicOnError_Ok & E).
  do 2 apply outcome_bind_Ok in E as (? & _ & E).
  apply outcome_bind_Ok in E as (ds & Hds & [= <-]). cbn.
  destruct (example_topology_parsed t Ht) as [Hth Hlen]. split; [done|]. split.
  - eapply NewHost_allowed, Hh.
  - exists configuration. rewrite Hth, <- (fmap_empty (M := gmap Z) unrefreshed), example_build_domains_agree in Hds
      by done.
    apply outcome_fmap_Ok in Hds as (ds0 & Hds & <-). by exists ds0.
Qed.
End run_facts.

(** Such a handler panics on a refresh event that names a topology: the provider whose
    method it calls is nil. *)
Lemma example_refresh_panics `{EvmNode} `{TopologyJSON} {PS} `{Peerstore PS} env path bridge from to events hash
    (ns : network_state PS) :
  FetchRefreshEvents bridge from to = Ok (events ++ [hash]) -> hash <> "" ->
  Refresh_HandleEvents (fun _ => Panic) env path bridge from to ns = (Panic, ns).
Proof.
  intros E Hne. unfold Refresh_HandleEvents. rewrite E, rev_unit. by rewrite bool_decide_eq_false_2.
Qed.

(** ** Example *)

Module ExampleAppExample.
Import TopologyExample AppExample.

Definition raw_file : RawConfig :=
  {| raw_RelayerConfig := ConfigExample.raw_relayer; raw_ChainConfigs := chains |}.

Definition example_start : res (example_running (gmap string (list string)) string nat) :=
  example_Run ConfigExample.ParseLevel ConfigExample.Merge (Ok raw_file) flags (fun _ => Ok 7%nat)
    (fun _ => Ok tt) (fun _ => Ok ∅) (fun _ => Ok tt) (fun _ _ => Ok tt).
End ExampleAppExample.
Import TopologyExample AppExample ExampleAppExample.

Example example_domains_agree_witness :
  exists r, example_start = Ok r /\ size (er_domains r) = 3%nat /\
    (forall p, InterceptPeerDial (er_topology r) p = true <-> p ∈ ps_Peers (er_host r)).
Proof.
  assert (match example_start with Ok r => bool_decide (size (er_domains r) = 3%nat) | _ => false end = true) as Hok
    by (vm_compute; reflexivity).
  destruct example_start as [r|e|] eqn:E; [|discriminate Hok..].
  exists r. split; [reflexivity|]. split; [by apply bool_decide_eq_true in Hok|].
  assert (tls_agnostic (Address := string)) as Htls by (intros url user pass; reflexivity).
  unfold example_start in E. exact (proj1 (proj2 (example_domains_agree _ _ _ _ _ _ _ _ _ _ Htls E))).
Defined.
