(* ===== verification/Cli.v ===== *)
(** * Command line tools and the health endpoint ([cli], [health])

    The commands [topology test], [peer gen-key], [peer info], [keygen gen-key] and
    [utils derivateSS58] ([topology encrypt] is in Topology).  A command returns an error
    or the text it prints.  Key generation, peer identifiers and key encodings of libp2p,
    sygma-core and the Substrate client are arguments. *)

From Stdlib Require Import Ascii.
From S2P Require Import Prelude GoBytes GoStrings GoParse GoBase64 Topology Config.

#[local] Open Scope string_scope.
#[local] Open Scope list_scope.
#[local] Open Scope Z_scope.

(** A line feed. *)
Definition nl : string := String "010" "".

(** ** The commands *)

Section topology.
Context `{CTR} `{TopologyLibs} (fmt_topology : NetworkTopology -> string).

(** [topology test]: [get] fetches a URL, [fmt_topology] is the verb [%+v]. *)
Definition testTopology (decryptionKey url hash : string) (get : string -> res string) : res string :=
  let config := {| toc_EncryptionKey := decryptionKey; toc_Url := url; toc_Path := "" |} in
  nt ← NewAESEncryption (bytes_of_string (toc_EncryptionKey config));
  decryptedTopology ← fetch_topology nt (get (toc_Url config)) hash;
  Ok ("Everything is fine your topology is " +:+ nl +:+ fmt_topology decryptedTopology).
End topology.

(** libp2p's keys.  A key is written to a configuration in base64. *)
Class Libp2pCrypto (Priv Pub : Type) := {
  MarshalPrivateKey : Priv -> res bytes;
  UnmarshalPrivateKey : bytes -> res Priv;
  ConfigDecodeKey : string -> res bytes;
  GetPublic : Priv -> Pub;
  IDFromPublicKey : Pub -> res string;
  IDFromPrivateKey : Priv -> res string;
  marshal_key : forall k b, MarshalPrivateKey k = Ok b -> UnmarshalPrivateKey b = Ok k;
  decode_key : forall b, ConfigDecodeKey (base64_encode b) = Ok b;
  same_identity : forall k, IDFromPrivateKey k = IDFromPublicKey (GetPublic k);
}.

Section peer.
Context {Priv Pub : Type} `{Libp2pCrypto Priv Pub}.

(** [peer gen-key]: [pair] is the generated pair.  The format is a raw string, in which
    [\n] is two characters. *)
Definition peer_generateKey (pair : res (Priv * Pub)) : res (string * string * string) :=
  '(priv, pub) ← pair;
  peerID ← IDFromPublicKey pub;
  marshPriv ← MarshalPrivateKey priv;
  let encPriv := base64_encode marshPriv in
  Ok (peerID, encPriv,
      nl +:+ "LibP2P peer identity: " +:+ peerID +:+ " \n" +:+ nl +:+
      "LibP2P private key: " +:+ encPriv +:+ nl).

(** [peer info] *)
Definition peerInfo (privateKey : string) : res string :=
  privBytes ← ConfigDecodeKey privateKey;
  priv ← UnmarshalPrivateKey privBytes;
  peerID ← IDFromPrivateKey priv;
  Ok (nl +:+ "LibP2P peer identity: " +:+ peerID +:+ nl).

(** The key of the MPC configuration, as [Run] decodes it. *)
Definition decode_priv (key : string) : res Priv :=
  privBytes ← ConfigDecodeKey key; UnmarshalPrivateKey privBytes.
End peer.

(** [keygen gen-key]: the encoded key and the public key of the generated pair. *)
Definition keygen_generateKey (pair : res (bytes * string)) : res string :=
  '(encoded, public) ← pair;
  let privHex := hex_encode encoded in
  Ok ("Public key: " +:+ public +:+ nl +:+ "Private key: 0x" +:+ privHex +:+ nl).

(** [utils derivateSS58] *)
Definition derivateSS58 (KeyringPairFromSecret : string -> Z -> res string) (privateKey : string) (networkID : Z)
    : res string :=
  address ← KeyringPairFromSecret privateKey networkID;
  Ok (address +:+ nl).

(** ** The health endpoint *)

(** [StartHealthEndpoint]: the address it listens at and the body of the answer of the
    one path it handles.  The result of [ListenAndServe] is dropped. *)
Definition StartHealthEndpoint (port : Z) : string * gmap string string :=
  (":" +:+ fmt_u port, {[ "/health" := "ok" ]}).

(** ** What the tools print can be used *)

Section peer_facts.
Context {Priv Pub : Type} `{Libp2pCrypto Priv Pub}.

(** A key that [peer gen-key] prints is a key of a relayer: [peer info] and the relayer
    itself, which decode it from the configuration, find the identity printed with it. *)
Theorem peer_key_usable pair peerID encPriv out :
  (forall priv pub, pair = Ok (priv, pub) -> pub = GetPublic priv) ->
  peer_generateKey pair = Ok (peerID, encPriv, out) ->
  peerInfo encPriv = Ok (nl +:+ "LibP2P peer identity: " +:+ peerID +:+ nl) /\
  exists priv, decode_priv encPriv = Ok priv /\ IDFromPrivateKey priv = Ok peerID.
Proof.
  intros Hpair E. unfold peer_generateKey in E. apply outcome_bind_Ok in E as ([priv pub] & -> & E).
  apply outcome_bind_Ok in E as (id & Hid & E). apply outcome_bind_Ok in E as (b & Hb & E).
  injection E as <- <- _. rewrite (Hpair _ _ eq_refl), <- same_identity in Hid.
  unfold peerInfo, decode_priv. rewrite decode_key. simpl. rewrite (marshal_key _ _ Hb). simpl.
  rewrite Hid. split; [done|]. by exists priv.
Qed.
End peer_facts.

Section topology_facts.
Context `{CTR} `{TopologyLibs} (fmt_topology : NetworkTopology -> string).

(** The two tools agree: [topology test] accepts the document and the hash that
    [topology encrypt] printed, wherever it is served, exactly when the file holds a
    topology, and shows that topology. *)
Theorem encrypted_topology_tested key file iv published hash url get :
  encryptTopology (bytes_of_string key) (Ok file) (Ok iv) = Ok (published, hash) -> length iv = BlockSize ->
  get url = Ok published \/ get url = Ok (published +:+ nl) ->
  testTopology fmt_topology key url hash get =
  (raw ← UnmarshalRaw file; t ← ProcessRawTopology AddrInfoFromString raw;
   Ok ("Everything is fine your topology is " +:+ nl +:+ fmt_topology t)).
Proof.
  intros E Hiv Hget. unfold testTopology. cbn [toc_EncryptionKey toc_Url].
  assert (NewAESEncryption (bytes_of_string key) = Ok (bytes_of_string key)) as ->.
  { unfold encryptTopology in E. destruct (UnmarshalRaw file); [|done..]. unfold NewAESEncryption in *. by case_bool_decide. }
  cbn [mbind outcome_bind].
  assert (exists body, get url = Ok body /\ (body = published \/ body = published +:+ String "010" "")) as (body & -> & Hb)
    by (destruct Hget as [->| ->]; eauto).
  rewrite (fetch_published _ _ _ _ _ body hash E Hiv Hb) by auto. by rewrite outcome_bind_assoc.
Qed.
End topology_facts.

(** ** Examples *)

Module CliExample.
(** Keys are bytes, the public key is the reversed one, an identity is hexadecimal. *)
#[export] Program Instance byte_keys : Libp2pCrypto bytes bytes := {|
  MarshalPrivateKey k := if bool_decide (k = []) then Err "no key" else Ok k;
  UnmarshalPrivateKey b := if bool_decide (b = []) then Err "short key" else Ok b;
  ConfigDecodeKey s := from_opt "illegal base64 data" (base64_decode s);
  GetPublic k := rev k;
  IDFromPublicKey p := Ok (hex_encode p);
  IDFromPrivateKey k := Ok (hex_encode (rev k));
|}.
Next Obligation. intros k b. cbn. by case_bool_decide; intros [= <-]; rewrite bool_decide_eq_false_2. Qed.
Next Obligation. intros b. cbn. by rewrite base64_decode_encode. Qed.
Next Obligation. done. Qed.

Definition generated : res (bytes * bytes) :=
  let k := bytes_of_string "secret key!" in Ok (k, rev k).
End CliExample.
Import CliExample TopologyExample.

Example peer_key_usable_witness :
  exists peerID encPriv out, peer_generateKey generated = Ok (peerID, encPriv, out) /\
    encPriv = "c2VjcmV0IGtleSE=" /\
    peerInfo encPriv = Ok (nl +:+ "LibP2P peer identity: " +:+ peerID +:+ nl).
Proof.
  destruct (peer_generateKey generated) as [[[peerID encPriv] out]|e|] eqn:E; [|exfalso; by vm_compute in E..].
  exists peerID, encPriv, out. split; [reflexivity|]. split; [vm_compute in E; by injection E as _ <- _|].
  apply (peer_key_usable generated peerID encPriv out); [|exact E]. by intros priv pub [= <- <-].
Defined.

Example encrypted_topology_tested_witness :
  exists published hash, encryptTopology (bytes_of_string "0123456789abcdef") (Ok file) (Ok iv) = Ok (published, hash) /\
    testTopology (fun t => fmt_u (nt_Threshold t)) "0123456789abcdef" "https://t" hash (fun _ => Ok (published +:+ nl))
    = Ok ("Everything is fine your topology is " +:+ nl +:+ "2").
Proof.
  destruct (encryptTopology (bytes_of_string "0123456789abcdef") (Ok file) (Ok iv)) as [[doc hash]| |] eqn:E;
    [|exfalso; assert (is_ok (encryptTopology (bytes_of_string "0123456789abcdef") (Ok file) (Ok iv)) = true) as Hok
        by (vm_compute; reflexivity); rewrite E in Hok; discriminate Hok..].
  exists doc, hash. split; [reflexivity|].
  rewrite (encrypted_topology_tested (fun t => fmt_u (nt_Threshold t)) "0123456789abcdef" file iv doc hash "https://t"
    (fun _ => Ok (doc +:+ nl)) E eq_refl (or_intror eq_refl)).
  vm_compute. reflexivity.
Defined.
